(* ===== verification/_CoqProject ===== *)
-Q . S2P
Prelude.v
GoStrings.v
Shard.v
Sha256.v
Scheduler.v
World.v
Json.v
Store.v
Config.v
ConfigLoad.v
ConfigSpec.v
Attach.v
AttachSpec.v
Docjson.v
Replication.v
Operation.v
OperationSpec.v
FileRepl.v
FileReplSpec.v
Concrete.v
Engine.v
EngineSpec.v
EngineFiles.v
EngineFilesSpec.v
HttpRange.v
Cache.v
CacheSpec.v
Search.v
AccessLang.v
Migrate.v
SearchSpec.v
SearchStore.v
ChangeAgent.v
ChangeSpec.v
ChangeQueue.v
DistributorSpec.v
EngineRead.v
MigrateSpec.v
SchemaPatch.v
Admin.v
AdminSpec.v
Establish.v
EstablishSpec.v
Auth.v
AuthSpec.v
Ctl.v
CtlSpec.v
HttpServer.v
HttpServerSpec.v
EngineReadSpec.v
Examples.v
ExamplesFiles.v
ExamplesSearch.v
ExamplesServer.v
ExamplesCache.v
ExamplesMigrate.v
ExamplesAdmin.v
ExamplesHttp.v
ExamplesCtl.v
ExamplesOps.v
