(* ===== verification/Prelude.v ===== *)
(** * DatoriumDB: a verification of its servers

    DatoriumDB keeps JSON documents as files.  A server owns the shards of which
    it is the source of truth (SOT), answers commands on their documents, delivers
    every write to the read members of the shard, keeps attachments beside the
    documents, files documents under the buckets of precompiled searches and
    distributes summaries of referenced documents.  One server, the establishment
    server, holds the configuration of the cluster, changes it on request, hands it
    to the others and issues their tokens.  This library models these parts as they
    are written in [src/internal] and proves what makes them correct.

    ** How the program is put together, and where it is modelled

    - [Prelude]: results and errors, association lists, tactics, the hint
      database.  [GoStrings]: the functions of the Go standard library the code
      uses on strings, UTF-8, integers.  [World]: the file system, a partial map
      from paths to files and directories, the system calls, and the state monad
      [M] with its weakest preconditions.  Any system call may fail at any point
      ([fault]); a failing call leaves what such a call can leave (a prefix of the
      data, some of the directories, part of a removed tree).  A crash is a run in
      which every call from some point on fails.
    - [Shard] (shard/shard.go): slots of identifiers, range keys, coverage.
    - [Sha256]: the digest of attachments, executable.
    - [Json] (envelope, parts of docjson): JSON values, envelopes, and the classes
      [OJSON] and [GoJSON] for the two JSON libraries with the laws used of them.
      Object fields are matched by exact name, the way the code writes them.
    - [Store] (fsstore/documents.go, fsstore/atomic.go, idgen.ValidDocumentID):
      paths, atomic and verified writes, previous copies, the change queue.
    - [Config] (config): shapes, routing lookups, naming rules, ValidateDetailed
      and the check of a schema ([ValidateOJSONSchemaBytes]).  [ConfigLoad],
      [ConfigSpec] (config/load.go, schemarules.go, searchrules.go): file names,
      decoding and loading, the rules for schemas and searches.
    - [Attach], [AttachSpec] (fsstore/files.go): manifest, uploads, journal,
      commit, recovery.
    - [Docjson] (docjson/docjson.go): canonical order of fields.
    - [Replication] (replication/pendingwrites, apply, readmember, push, catchup;
      the handlers of server/http.go they talk to): delivery of document writes.
      [Operation], [OperationSpec] (operation.go, resume.go): the durable record of
      a delivery.  [FileRepl], [FileReplSpec] (file_*.go, server/http_files.go):
      delivery and catch-up of attachments.
    - [Engine], [EngineSpec] (engine/engine.go, commandreq): create, patch and
      delete, and their refinement of an abstract database.  [EngineRead],
      [EngineReadSpec] (engine.go, migrate.go, search.go): read and search.
      [EngineFiles], [EngineFilesSpec] (engine/files.go): attachments.
    - [HttpRange] (server/http_range.go): the Range header.
    - [Scheduler] (scheduler): the exclusion set and the loop of a worker, as step
      relations in which a call of the task has a start and an end.
      [AccessLang] (accesslang): the command language.
    - [Search], [SearchSpec], [SearchStore] (search): definitions, evaluation,
      query paths, sorting, result files.
    - [Cache], [CacheSpec] (agents/cache, engine/cachesummaries.go,
      server/http_cache.go): cached summaries of referenced documents, and the
      pull agent of the read members.
    - [ChangeAgent], [ChangeSpec], [ChangeQueue] (agents/change,
      server/http_search.go): distribution of a change to searches and caches.
      [DistributorSpec] (with distributorAdapter of cmd/datoriumdb/main.go): the
      change agent as the distributor of the engine, which satisfies what the
      theorems on commands ask of a distributor.
    - [Migrate], [MigrateSpec] (schemapatch, agents/upgrade): update lists of schema
      versions, their application to documents, the rewrite of stored documents
      and the background agent.  [SchemaPatch] (schemapatch/apply.go): their
      application to schemas.
    - [Admin], [AdminSpec] (adminconfig, engine/admin.go, Reload and Execute of
      engine.go): changes of the configuration.
    - [Ctl], [CtlSpec] (ctl, the key file of auth/keys.go): the administrator's tool.
    - [Establish], [EstablishSpec] (EstablishDocument of config/load.go,
      establish/worker.go): the configuration of the other servers.
    - [Auth], [AuthSpec] (auth, replication/tokensource.go): keys, tokens, claims.
      [HttpServer], [HttpServerSpec] (server/http.go, server/http_command.go): the
      requests of clients, administrators and other servers.
    - [Concrete], [Examples], [ExamplesFiles], [ExamplesSearch], [ExamplesServer], [ExamplesCache],
      [ExamplesMigrate], [ExamplesAdmin], [ExamplesHttp], [ExamplesCtl],
      [ExamplesOps]: instances of the parameters that satisfy the laws, and the
      theorems applied to a small database.

    State is explicit: a command or agent step is a function [st -> A * st] on the
    files, a counter of system calls and a counter of drawn identifiers.  Errors
    are values of [result].  What lies outside the repository is a class: the JSON
    libraries, float64 ([GoFloat]), the token library ([JWX]), the parsers of media
    types and multipart bodies ([HttpLib]), the network ([Net], [Link], [Peers],
    [FileNet], [Wire], [EstNet]), the clock ([Clock]), the environment ([Env]:
    faults, random names, identifiers), the surroundings of the tool ([Operator]).  [Concrete] and the files of examples
    instantiate each of them.

    ** What the theorems show

    - Commands: create, patch and delete refine the abstract database
      ([EngineSpec]): replies, stored document and untouched rest, the stored
      document being the one the request asks for (its content, or its operations
      applied to the stored one); and under any failures nothing but the addressed
      document changes, an old version is never lost and a new one is never half
      written.  A distributor must leave the live documents as they are when it is
      called for a committed change; the change agent the program wires in is proved to keep to this
      ([DistributorSpec.distributor_keeps_documents]), and the theorems are applied
      to that server.  A read serves the document
      at the current version of its schema, and a search answers with the documents
      that satisfy its clauses.  Uploads and removals of attachments compare the
      version the client saw.
    - Files: an atomic write is all or nothing; documents, previous copies and
      queue entries never share a file; queue names parse back.
    - Attachments: after a crash at any point of an upload, recovery leaves the
      old attachment or the new one, with one exception that is proved to occur, and
      provided that no journal of an earlier upload was left behind; limits and
      digests of uploads.
    - Replication: an unacknowledged write is stored for the read member, the
      record of an operation claims no more than was acknowledged, a member stores
      an attachment only if size and digest are right, and the staleness of a read
      member is a function of its check-in history.
    - Configuration and shards: an accepted shard map routes every document;
      coverage checking is exact; what loads has been validated, and the
      files of a collection whose name has no period are recognised by their names.
    - Configuration changes: whatever fails, the general file with the new version
      is written only when the files of that version are there, with the schema that
      was asked for; the tool commits
      nothing that has not passed the complete validation; the document the
      others fetch gives them the configuration it was made from; a refresh loop
      that fails in a row ends after the number of failures it allows.
    - Identity: tokens are accepted from issue to expiry for the identity they
      name; a machine identity exists only through the bootstrap secret or the
      signing key; a worker that has the secret obtains its token, also when the one it
      holds has expired; only an
      administrator changes the configuration of a server.
    - Searches: the bucket a query reads lists exactly the documents that satisfy
      the clauses; different buckets are different files; a result file stays
      sorted and without duplicates, for sorts by strings, booleans and identifiers, and
      by numbers that came from another server.
    - Change agent: a queue entry disappears only when the index agrees with the
      live document, under any failures, and until then a later run finds a state
      it can go on from.
    - Cache: a pending update stays at its source until the read member has applied
      it; references parse back.
    - Migrations: accepted update lists take every document to the current schema
      version, each operation with its effect on the field it names, every field no
      operation names with its value and the metadata untouched; the stored document
      is never lost on the way; a document that has no field its schema does not describe has none after
      both were updated.
    - Downloads: the bytes of a reply are those the request names.
    - Scheduling: two workers never hold one document, and a wake-up, also one that
      arrives during a call, leads to a call that starts after it;
      the translation of the command language ends.

    Where the code does not do what it should, the counterexample is a theorem:
    [Replication.pending_create_lost], [Examples.upload_crash_window],
    [Store.queue_name_trailing_underscore], [SearchStore.numbers_sort_by_arrival],
    [ExamplesSearch.stale_listing], [ExamplesCache.newer_update_lost],
    [ExamplesCache.reference_escapes_cache], [MigrateSpec.accepted_replace_fails],
    [MigrateSpec.conversion_drops_numbers], [ExamplesMigrate.patch_skips_migration],
    [ExamplesMigrate.bad_update_starves_agent], [Scheduler.panic_leaks_key],
    [ExamplesFiles.rejected_file_acknowledged], [ExamplesFiles.hyphen_blocks_catchup],
    [AccessLang.escape_lost], [AccessLang.latin_letter_splits_word],
    [ConfigSpec.dotted_collection_misread], [ExamplesAdmin.interrupted_upgrade_stuck],
    [ExamplesAdmin.lock_left_behind], [ExamplesAdmin.slash_collection_escapes],
    [ExamplesAdmin.member_cannot_migrate], [ExamplesAdmin.deleted_search_lingers],
    [ExamplesAdmin.move_below_itself], [ExamplesHttp.retired_key_locks_out],
    [ExamplesServer.delete_target_escapes], [ExamplesFiles.operation_id_escapes],
    [Examples.stale_journal_recovered], [ExamplesSearch.segment_clash],
    [ExamplesCtl.held_lock_codes], [ExamplesCtl.repeated_create_refused].

    ** Bounds and fuel

    Loops with a bound in the source keep it: ten thousand candidates of
    [os.CreateTemp], five attempts of a verified write, ten of [ApplyMutation].
    The other recursions are structural, except the copy of an upload, whose fuel
    is one more than the reads the source can still give ([Attach.copy_fuel]),
    decoding of UTF-8, whose fuel is the length of the string, and the translation
    of pseudo JSON, whose fuel is one more than the length of the text; they are
    proved sufficient where a theorem depends on it.  Slots and digests are computed at
    their machine width, sizes and ranges are checked against 63 bits, the lifetime of
    tokens wraps at 64 bits where it is computed and where it is received.

    ** What is not modelled

    HTTP transport, TLS and the route table, sleeps, logging, generated and vendored code ([third_party/ojson] is a copy of the
    library, which the build takes from its module; the class [OJSON] stands for
    it).  Signatures, the token format, media types and multipart bodies are
    libraries and classes here; the handlers of [Replication], [FileRepl], [Cache] and
    [ChangeAgent] start where a request is decoded and authenticated; identifiers
    are drawn from a stream.  A panic is a failed result: the program recovers from it in
    the scheduler and in net/http, and that recovery is modelled in [Scheduler] only.  The
    programs in [cmd] start the process and wire the packages, of which only the
    distributor is modelled; the output of the tool is not modelled, its exit codes are; [rfc6902] is
    not called by the program. *)

From Stdlib Require Export Ascii.
From stdpp Require Export prelude gmap strings list sorting pretty.

(** Concatenation computes on a constructor. *)
#[global] Arguments String.append !_ _ : simpl nomatch.

(** ** Results and errors *)

(** [os.IsNotExist] and [os.IsExist] are the only questions the code asks about
    the identity of an error; every other error is opaque. *)
Inductive errkind :=
| NotExist
| Exist
| Other.

Record error := mkError { err_kind : errkind; err_msg : string }.

Inductive result (A : Type) :=
| Ok (a : A)
| Err (e : error).
Arguments Ok {A} a.
Arguments Err {A} e.

(** [fmt.Errorf] with or without [%w]: [os.IsNotExist] does not unwrap, so the
    result is never a not-exist error. *)
Definition errorf (msg : string) : error := mkError Other msg.

Definition is_not_exist (e : error) : bool :=
  match err_kind e with NotExist => true | _ => false end.

Definition is_ok {A} (r : result A) : bool :=
  match r with Ok _ => true | Err _ => false end.

Definition result_bind {A B} (r : result A) (f : A -> result B) : result B :=
  match r with Ok a => f a | Err e => Err e end.

#[export] Instance errkind_eq_dec : EqDecision errkind.
Proof. solve_decision. Defined.
#[export] Instance error_eq_dec : EqDecision error.
Proof. solve_decision. Defined.
#[export] Instance result_eq_dec `{EqDecision A} : EqDecision (result A).
Proof. solve_decision. Defined.

Declare Scope go_scope.
Delimit Scope go_scope with go.
Open Scope go_scope.

Notation "s =? t" := (String.eqb s t) : go_scope.
Notation "s <>? t" := (negb (String.eqb s t))
  (at level 70, no associativity) : go_scope.

(** ** Tactics *)

(** Case analysis on the scrutinee of a match or an if of the goal. *)
Ltac split_match :=
  match goal with
  | |- context [match ?x with _ => _ end] =>
      lazymatch x with
      | context [match _ with _ => _ end] => fail
      | _ => destruct x eqn:?
      end
  end.

(** The same in a hypothesis. *)
Ltac split_match_in H :=
  match type of H with
  | context [match ?x with _ => _ end] =>
      lazymatch x with
      | context [match _ with _ => _ end] => fail
      | _ => destruct x eqn:?
      end
  end.

(** Turns boolean tests of the code into propositions. *)
Ltac boolprop :=
  repeat match goal with
  | H : _ && _ = true |- _ => apply andb_true_iff in H; destruct H
  | H : _ || _ = false |- _ => apply orb_false_iff in H; destruct H
  | H : negb _ = true |- _ => apply negb_true_iff in H
  | H : negb _ = false |- _ => apply negb_false_iff in H
  | H : String.eqb _ _ = true |- _ => apply String.eqb_eq in H
  | H : String.eqb _ _ = false |- _ => apply String.eqb_neq in H
  | H : bool_decide _ = true |- _ => apply bool_decide_eq_true in H
  | H : bool_decide _ = false |- _ => apply bool_decide_eq_false in H
  | H : Nat.eqb _ _ = true |- _ => apply Nat.eqb_eq in H
  | H : Nat.leb _ _ = true |- _ => apply Nat.leb_le in H
  | H : Nat.leb _ _ = false |- _ => apply Nat.leb_gt in H
  | H : Nat.ltb _ _ = true |- _ => apply Nat.ltb_lt in H
  | H : Nat.ltb _ _ = false |- _ => apply Nat.ltb_ge in H
  | H : Z.leb _ _ = true |- _ => apply Z.leb_le in H
  | H : Z.leb _ _ = false |- _ => apply Z.leb_gt in H
  | H : Z.ltb _ _ = true |- _ => apply Z.ltb_lt in H
  | H : Z.ltb _ _ = false |- _ => apply Z.ltb_ge in H
  | H : Z.eqb _ _ = true |- _ => apply Z.eqb_eq in H
  | H : Z.eqb _ _ = false |- _ => apply Z.eqb_neq in H
  end.

(** ** Maps as association lists

    OJSON objects are ordered: setting an existing field keeps its place and a
    new field goes to the end.  A Go [map[string]any] is represented by the same
    lists; no theorem about such a map depends on the order. *)

Section assoc.
Context {V : Type}.
Implicit Types (m : list (string * V)) (k : string) (v : V).

Fixpoint aget m k : option V :=
  match m with
  | [] => None
  | (k', v) :: m' => if k =? k' then Some v else aget m' k
  end.

Fixpoint aset m k v : list (string * V) :=
  match m with
  | [] => [(k, v)]
  | (k', v') :: m' => if k =? k' then (k', v) :: m' else (k', v') :: aset m' k v
  end.

Fixpoint adel m k : list (string * V) :=
  match m with
  | [] => []
  | (k', v') :: m' => if k =? k' then adel m' k else (k', v') :: adel m' k
  end.

Definition ahas m k : bool :=
  match aget m k with Some _ => true | None => false end.

Definition akeys m : list string := map fst m.

Lemma aget_aset_eq m k v : aget (aset m k v) k = Some v.
Proof.
  induction m as [|[k' v'] m IH]; simpl; [by rewrite String.eqb_refl|].
  destruct (k =? k') eqn:E; simpl; rewrite E; done.
Qed.

Lemma aget_aset_ne m k k' v : k <> k' -> aget (aset m k v) k' = aget m k'.
Proof.
  intros Hne. induction m as [|[k0 v0] m IH]; simpl.
  - by rewrite (proj2 (String.eqb_neq k' k)) by congruence.
  - destruct (k =? k0) eqn:E; simpl; [|by rewrite IH].
    apply String.eqb_eq in E as <-.
    by rewrite (proj2 (String.eqb_neq k' k)) by congruence.
Qed.

Lemma aget_aset m k k' v :
  aget (aset m k v) k' = if k =? k' then Some v else aget m k'.
Proof.
  destruct (k =? k') eqn:E.
  - apply String.eqb_eq in E as <-. apply aget_aset_eq.
  - apply String.eqb_neq in E. by apply aget_aset_ne.
Qed.

Lemma aget_adel m k k' :
  aget (adel m k) k' = if k =? k' then None else aget m k'.
Proof.
  induction m as [|[k0 v0] m IH]; simpl; [by destruct (k =? k')|].
  destruct (k =? k0) eqn:E; simpl; rewrite IH;
    destruct (k =? k') eqn:E'; boolprop; subst; try done.
  - by rewrite (proj2 (String.eqb_neq k' k0)) by congruence.
  - by rewrite (proj2 (String.eqb_neq k' k0)) by congruence.
Qed.

Lemma aget_None_notin m k : aget m k = None <-> k ∉ akeys m.
Proof.
  induction m as [|[k0 v0] m IH]; simpl; [set_solver|].
  rewrite not_elem_of_cons. destruct (k =? k0) eqn:E; boolprop; subst.
  - naive_solver.
  - rewrite IH. naive_solver.
Qed.

Lemma aget_Some_in m k v : aget m k = Some v -> (k, v) ∈ m.
Proof.
  induction m as [|[k0 v0] m IH]; simpl; [done|].
  destruct (k =? k0) eqn:E; intros H; boolprop; simplify_eq.
  - by left.
  - right. auto.
Qed.

Lemma aget_in_NoDup m k v : NoDup (akeys m) -> (k, v) ∈ m -> aget m k = Some v.
Proof.
  induction m as [|[k0 v0] m IH]; simpl; intros Hnd Hin; [set_solver|].
  apply NoDup_cons in Hnd as [Hni Hnd].
  apply elem_of_cons in Hin as [[= -> ->]|Hin]; [by rewrite String.eqb_refl|].
  destruct (k =? k0) eqn:E; boolprop; [|by apply IH].
  subst. exfalso. apply Hni, list_elem_of_fmap. by exists (k0, v).
Qed.

Lemma akeys_aset m k v :
  akeys (aset m k v) = if ahas m k then akeys m else akeys m ++ [k].
Proof.
  unfold ahas. induction m as [|[k0 v0] m IH]; simpl; [done|].
  destruct (k =? k0) eqn:E; simpl; [done|].
  rewrite IH. by destruct (aget m k).
Qed.

Lemma akeys_adel m k : akeys (adel m k) = filter (fun k' => k' <> k) (akeys m).
Proof.
  induction m as [|[k0 v0] m IH]; simpl; [done|].
  rewrite filter_cons. destruct (k =? k0) eqn:E; boolprop; case_decide;
    simpl; subst; try congruence; by rewrite IH.
Qed.

Lemma NoDup_akeys_aset m k v : NoDup (akeys m) -> NoDup (akeys (aset m k v)).
Proof.
  intros Hnd. rewrite akeys_aset. unfold ahas.
  destruct (aget m k) eqn:E; [done|].
  apply NoDup_app; split_and!; [done| |apply NoDup_singleton].
  intros x Hx Hk%list_elem_of_singleton. subst.
  by apply aget_None_notin in E.
Qed.

Lemma NoDup_akeys_adel m k : NoDup (akeys m) -> NoDup (akeys (adel m k)).
Proof. intros Hnd. rewrite akeys_adel. by apply NoDup_filter. Qed.
End assoc.

(** Membership in the boolean filter of the standard library. *)
Lemma elem_of_lfilter {A} (P : A -> bool) (l : list A) x :
  x ∈ List.filter P l <-> x ∈ l /\ P x = true.
Proof. by rewrite list_elem_of_In, filter_In, <-list_elem_of_In. Qed.

Lemma NoDup_lfilter {A} (P : A -> bool) (l : list A) : NoDup l -> NoDup (List.filter P l).
Proof.
  induction 1 as [|x l Hx Hl IH]; simpl; [constructor|].
  destruct (P x); [|done]. constructor; [|done]. rewrite elem_of_lfilter. tauto.
Qed.

Create HintDb go.
#[export] Hint Rewrite @aget_aset_eq @aget_aset @aget_adel String.eqb_refl : go.
#[export] Hint Resolve NoDup_akeys_aset NoDup_akeys_adel : go.
