(* ===== verification/GoStrings.v ===== *)
(** * Go's [strings], [unicode/utf8] and [strconv], as far as the code uses them

    A Go string is a sequence of bytes; [string] (a list of 8-bit [ascii]) is the
    same.  Iterating over a string, [RuneCountInString] and [\[\]rune] decode UTF-8
    with Go's rules: an ill-formed byte is the rune U+FFFD of width one. *)

From S2P Require Import Prelude.

(** ** Bytes *)

Definition byte_of (c : ascii) : Z := Z.of_N (Ascii.N_of_ascii c).

Definition of_byte (b : Z) : ascii := Ascii.ascii_of_N (Z.to_N b).

(** ** Package strings *)

Fixpoint str_take (n : nat) (s : string) : string :=
  match n, s with
  | S n', String c s' => String c (str_take n' s')
  | _, _ => EmptyString
  end.

Fixpoint str_drop (n : nat) (s : string) : string :=
  match n, s with
  | S n', String _ s' => str_drop n' s'
  | _, _ => s
  end.

Definition HasPrefix (s p : string) : bool := String.prefix p s.

Definition TrimPrefix (s p : string) : string :=
  if HasPrefix s p then str_drop (String.length p) s else s.

Definition HasSuffix (s p : string) : bool :=
  (String.length p <=? String.length s)%nat &&
  (str_drop (String.length s - String.length p) s =? p).

Definition TrimSuffix (s p : string) : string :=
  if HasSuffix s p then str_take (String.length s - String.length p) s else s.

Fixpoint Contains (s sub : string) : bool :=
  HasPrefix s sub ||
  match s with
  | EmptyString => false
  | String _ s' => Contains s' sub
  end.

(** [strings.Cut]: the text before and after the first [sep]. *)
Fixpoint Cut (s sep : string) : option (string * string) :=
  if HasPrefix s sep then Some (EmptyString, str_drop (String.length sep) s)
  else match s with
       | EmptyString => None
       | String c s' =>
           match Cut s' sep with
           | Some (a, b) => Some (String c a, b)
           | None => None
           end
       end.

(** [strings.SplitN s sep n] for [n > 0] and a non-empty [sep]: at most [n]
    parts, the last one unsplit. *)
Fixpoint SplitN (s sep : string) (n : nat) : list string :=
  match n with
  | O => []
  | S O => [s]
  | S n' =>
      match Cut s sep with
      | Some (a, b) => a :: SplitN b sep n'
      | None => [s]
      end
  end.

(** [strings.Split]: a non-empty separator can occur at most [len s] times. *)
Definition Split (s sep : string) : list string :=
  SplitN s sep (S (String.length s)).

Fixpoint Join (l : list string) (sep : string) : string :=
  match l with
  | [] => EmptyString
  | [a] => a
  | a :: l' => a +:+ sep +:+ Join l' sep
  end.

Fixpoint in_string (c : ascii) (s : string) : bool :=
  match s with
  | EmptyString => false
  | String c' s' => Ascii.eqb c c' || in_string c s'
  end.

(** [strings.ToUpper] restricted to what its callers pass: ASCII text, on which
    it is bytewise. *)
Definition upper_byte (c : ascii) : ascii :=
  let b := byte_of c in
  if ((97 <=? b) && (b <=? 122))%Z then of_byte (b - 32)%Z else c.

Fixpoint ToUpper (s : string) : string :=
  match s with
  | EmptyString => EmptyString
  | String c s' => String (upper_byte c) (ToUpper s')
  end.

(** ** Package unicode/utf8 *)

Definition RuneError : Z := 65533.

Definition in_range (lo b hi : Z) : bool := ((lo <=? b) && (b <=? hi))%Z.

(** Second-byte bounds by first byte: the ranges of [utf8.acceptRanges]. *)
Definition second_range (b0 : Z) : Z * Z :=
  if (b0 =? 224)%Z then (160, 191)%Z
  else if (b0 =? 237)%Z then (128, 159)%Z
  else if (b0 =? 240)%Z then (144, 191)%Z
  else if (b0 =? 244)%Z then (128, 143)%Z
  else (128, 191)%Z.

(** Length of the sequence a first byte announces; 0 for an illegal one. *)
Definition seq_len (b0 : Z) : nat :=
  if in_range 0 b0 127 then 1
  else if in_range 194 b0 223 then 2
  else if in_range 224 b0 239 then 3
  else if in_range 240 b0 244 then 4
  else 0.

Definition cont (b : Z) : bool := in_range 128 b 191.

(** [utf8.DecodeRuneInString]: the rune and its width. *)
Definition DecodeRune (s : string) : Z * nat :=
  match s with
  | EmptyString => (RuneError, 0)
  | String c0 s1 =>
      let b0 := byte_of c0 in
      let '(lo, hi) := second_range b0 in
      match seq_len b0, s1 with
      | 1, _ => (b0, 1)
      | 2, String c1 _ =>
          let b1 := byte_of c1 in
          if in_range lo b1 hi
          then (Z.lor (Z.shiftl (Z.land b0 31) 6) (Z.land b1 63), 2)
          else (RuneError, 1)
      | 3, String c1 (String c2 _) =>
          let b1 := byte_of c1 in let b2 := byte_of c2 in
          if in_range lo b1 hi && cont b2
          then (Z.lor (Z.shiftl (Z.land b0 15) 12)
                 (Z.lor (Z.shiftl (Z.land b1 63) 6) (Z.land b2 63)), 3)
          else (RuneError, 1)
      | 4, String c1 (String c2 (String c3 _)) =>
          let b1 := byte_of c1 in let b2 := byte_of c2 in let b3 := byte_of c3 in
          if in_range lo b1 hi && cont b2 && cont b3
          then (Z.lor (Z.shiftl (Z.land b0 7) 18)
                 (Z.lor (Z.shiftl (Z.land b1 63) 12)
                   (Z.lor (Z.shiftl (Z.land b2 63) 6) (Z.land b3 63))), 4)
          else (RuneError, 1)
      | _, _ => (RuneError, 1)
      end
  end.

(** The runes of a string with their widths; every width is positive on a
    non-empty string, so [len s] rounds are enough. *)
Fixpoint runes_fuel (fuel : nat) (s : string) : list (Z * nat) :=
  match fuel, s with
  | S f, String _ _ =>
      let d := DecodeRune s in d :: runes_fuel f (str_drop (snd d) s)
  | _, _ => []
  end.

Definition decoded (s : string) : list (Z * nat) := runes_fuel (String.length s) s.

Definition runes (s : string) : list Z := map fst (decoded s).

Definition RuneCountInString (s : string) : nat := length (runes s).

(** [utf8.ValidString]: no rune is an error of width one. *)
Definition ValidString (s : string) : bool :=
  forallb (fun d => negb ((fst d =? RuneError)%Z && (snd d =? 1)%nat)) (decoded s).

(** [string(r)] for one rune. *)
Definition encode_rune (r : Z) : string :=
  if in_range 0 r 127 then String (of_byte r) EmptyString
  else if in_range 128 r 2047 then
    String (of_byte (Z.lor 192 (Z.shiftr r 6)))
      (String (of_byte (Z.lor 128 (Z.land r 63))) EmptyString)
  else if ((1114111 <? r)%Z || in_range 55296 r 57343 || (r <? 0)%Z) then
    String (of_byte 239) (String (of_byte 191) (String (of_byte 189) EmptyString))
  else if in_range 2048 r 65535 then
    String (of_byte (Z.lor 224 (Z.shiftr r 12)))
      (String (of_byte (Z.lor 128 (Z.land (Z.shiftr r 6) 63)))
        (String (of_byte (Z.lor 128 (Z.land r 63))) EmptyString))
  else
    String (of_byte (Z.lor 240 (Z.shiftr r 18)))
      (String (of_byte (Z.lor 128 (Z.land (Z.shiftr r 12) 63)))
        (String (of_byte (Z.lor 128 (Z.land (Z.shiftr r 6) 63)))
          (String (of_byte (Z.lor 128 (Z.land r 63))) EmptyString))).

(** [string(rs)] for a slice of runes. *)
Definition string_of_runes (rs : list Z) : string :=
  foldr (fun r s => encode_rune r +:+ s) EmptyString rs.

(** [unicode.IsSpace]. *)
Definition IsSpace (r : Z) : bool :=
  in_range 9 r 13 || (r =? 32)%Z || (r =? 133)%Z || (r =? 160)%Z ||
  (r =? 5760)%Z || in_range 8192 r 8202 || (r =? 8232)%Z || (r =? 8233)%Z ||
  (r =? 8239)%Z || (r =? 8287)%Z || (r =? 12288)%Z.

(** [strings.TrimLeftFunc s unicode.IsSpace]. *)
Fixpoint trim_left_fuel (fuel : nat) (s : string) : string :=
  match fuel with
  | O => s
  | S f =>
      match s with
      | EmptyString => s
      | String _ _ =>
          let '(r, w) := DecodeRune s in
          if IsSpace r then trim_left_fuel f (str_drop w s) else s
      end
  end.

Definition TrimLeftSpace (s : string) : string := trim_left_fuel (String.length s) s.

(** [strings.TrimRightFunc]: the longest prefix that does not end in a space
    rune, found on the decoded runes. *)
Definition trailing_space_width (s : string) : nat :=
  snd (foldl (fun acc d =>
                if IsSpace (fst d) then (tt, snd acc + snd d)%nat else (tt, 0%nat))
         (tt, 0%nat) (decoded s)).

Definition TrimRightSpace (s : string) : string :=
  str_take (String.length s - trailing_space_width s) s.

Definition TrimSpace (s : string) : string := TrimRightSpace (TrimLeftSpace s).

(** ** Package strconv *)

Definition digit_val (c : ascii) : option Z :=
  let b := byte_of c in
  if in_range 48 b 57 then Some (b - 48)%Z
  else if in_range 97 b 122 then Some (b - 87)%Z
  else if in_range 65 b 90 then Some (b - 55)%Z
  else None.

(** The digits of [s] in base [base], [None] when a byte is not such a digit. *)
Fixpoint parse_digits (base acc : Z) (s : string) : option Z :=
  match s with
  | EmptyString => Some acc
  | String c s' =>
      match digit_val c with
      | Some d => if (d <? base)%Z then parse_digits base (acc * base + d)%Z s' else None
      | None => None
      end
  end.

(** [strconv.ParseUint s base bits] without the underscore and base prefixes the
    callers never enable. *)
Definition ParseUint (s : string) (base bits : Z) : option Z :=
  if s =? "" then None
  else match parse_digits base 0 s with
       | Some v => if (v <? 2 ^ bits)%Z then Some v else None
       | None => None
       end.

(** [strconv.ParseInt s 10 64] and [strconv.Atoi] (an [int] has 64 bits). *)
Definition Atoi (s : string) : option Z :=
  let '(neg, body) :=
    match s with
    | String c s' =>
        if Ascii.eqb c "-"%char then (true, s')
        else if Ascii.eqb c "+"%char then (false, s') else (false, s)
    | EmptyString => (false, s)
    end in
  if body =? "" then None
  else match parse_digits 10 0 body with
       | Some v =>
           let v' := if neg then (- v)%Z else v in
           if ((- 2 ^ 63 <=? v') && (v' <? 2 ^ 63))%Z then Some v' else None
       | None => None
       end.

Definition Itoa (z : Z) : string := pretty z.

(** Bytewise lexicographic order: Go's [<] on strings and [sort.Strings]. *)
Fixpoint str_ltb (a b : string) : bool :=
  match a, b with
  | EmptyString, String _ _ => true
  | String x a', String y b' =>
      if Ascii.eqb x y then str_ltb a' b' else (byte_of x <? byte_of y)%Z
  | _, _ => false
  end.

Definition str_leb (a b : string) : bool := negb (str_ltb b a).

(** ** Lemmas *)

Lemma str_length_app s t :
  String.length (s +:+ t) = (String.length s + String.length t)%nat.
Proof. induction s; simpl; [done|]. by rewrite IHs. Qed.

Lemma str_app_assoc s t u : (s +:+ t) +:+ u = s +:+ (t +:+ u).
Proof. induction s; simpl; [done|]. by rewrite IHs. Qed.

Lemma str_app_nil_r s : s +:+ "" = s.
Proof. induction s; simpl; [done|]. by rewrite IHs. Qed.

Lemma str_app_inv_head s t u : s +:+ t = s +:+ u -> t = u.
Proof. induction s; simpl; [done|]. intros [=]. auto. Qed.

Lemma str_drop_app s t : str_drop (String.length s) (s +:+ t) = t.
Proof. induction s; simpl; [|done]. by destruct t. Qed.

Lemma str_take_app s t : str_take (String.length s) (s +:+ t) = s.
Proof. induction s; simpl; [by destruct t|]. by rewrite IHs. Qed.

Lemma str_take_drop n s : str_take n s +:+ str_drop n s = s.
Proof. revert s. induction n; intros [|c s]; simpl; try done. by rewrite IHn. Qed.

Lemma str_length_drop n s : String.length (str_drop n s) = (String.length s - n)%nat.
Proof. revert s. induction n; intros [|c s]; simpl; try done. Qed.

Lemma str_length_take n s : String.length (str_take n s) = Nat.min n (String.length s).
Proof. revert s. induction n; intros [|c s]; simpl; try done. by rewrite IHn. Qed.

Lemma str_app_inv_length s s' t t' :
  String.length s = String.length s' -> s +:+ t = s' +:+ t' -> s = s' /\ t = t'.
Proof.
  revert s'. induction s as [|c s IH]; intros [|c' s'] Hl H; simpl in *;
    try done. injection H as -> H. injection Hl as Hl.
  destruct (IH s' Hl H) as [-> ->]. done.
Qed.

Lemma str_app_inv_tail s s' t : s +:+ t = s' +:+ t -> s = s'.
Proof.
  intros H. assert (String.length s = String.length s') as Hl.
  { apply (f_equal String.length) in H. rewrite !str_length_app in H. lia. }
  by destruct (str_app_inv_length s s' t t Hl H).
Qed.

Lemma HasPrefix_spec s p : HasPrefix s p = true <-> exists t, s = p +:+ t.
Proof.
  unfold HasPrefix. revert s. induction p as [|c p IH]; intros s; simpl.
  - split; [by exists s|by destruct s].
  - destruct s as [|c' s]; simpl; [split; [done|by intros [t ?]]|].
    destruct (Ascii.ascii_dec c c') as [->|Hne].
    + rewrite IH. split; intros [t H]; exists t; [by rewrite H|by injection H].
    + split; [done|]. intros [t [= ? ?]]. congruence.
Qed.

Lemma HasPrefix_app p t : HasPrefix (p +:+ t) p = true.
Proof. apply HasPrefix_spec. by exists t. Qed.

Lemma TrimPrefix_app p t : TrimPrefix (p +:+ t) p = t.
Proof. unfold TrimPrefix. rewrite HasPrefix_app. apply str_drop_app. Qed.

Lemma HasSuffix_spec s p : HasSuffix s p = true <-> exists t, s = t +:+ p.
Proof.
  unfold HasSuffix. rewrite andb_true_iff, Nat.leb_le, String.eqb_eq. split.
  - intros [Hl Hd].
    exists (str_take (String.length s - String.length p) s).
    rewrite <-Hd at 2. by rewrite str_take_drop.
  - intros [t ->]. rewrite str_length_app.
    replace (String.length t + String.length p - String.length p)%nat
      with (String.length t) by lia.
    split; [lia|]. apply str_drop_app.
Qed.

Lemma HasSuffix_app p t : HasSuffix (t +:+ p) p = true.
Proof. apply HasSuffix_spec. by exists t. Qed.

Lemma TrimSuffix_app p t : TrimSuffix (t +:+ p) p = t.
Proof.
  unfold TrimSuffix. rewrite HasSuffix_app, str_length_app.
  replace (String.length t + String.length p - String.length p)%nat
    with (String.length t) by lia.
  apply str_take_app.
Qed.

Lemma Cut_Some s sep a b : Cut s sep = Some (a, b) -> s = a +:+ sep +:+ b.
Proof.
  revert a b. induction s as [|c s IH]; intros a b; cbn [Cut].
  - destruct sep as [|x sep]; simpl; [|discriminate].
    intros H. by simplify_eq.
  - destruct (HasPrefix (String c s) sep) eqn:E.
    + apply HasPrefix_spec in E as [t Ht]. rewrite Ht, str_drop_app.
      intros H. by simplify_eq.
    + destruct (Cut s sep) as [[a' b']|] eqn:E'; [|discriminate].
      intros H. simplify_eq. by rewrite (IH _ _ eq_refl).
Qed.

Lemma Contains_app a sep b : Contains (a +:+ sep +:+ b) sep = true.
Proof.
  induction a as [|c a IH]; cbn [Contains String.append].
  - assert (HasPrefix (sep +:+ b) sep = true) as E by apply HasPrefix_app.
    destruct (sep +:+ b); cbn [Contains]; by rewrite E.
  - by rewrite IH, orb_true_r.
Qed.

Lemma Contains_nocut s sep : Contains s sep = false -> Cut s sep = None.
Proof.
  intros H. destruct (Cut s sep) as [[a b]|] eqn:E; [|done].
  apply Cut_Some in E. subst. by rewrite Contains_app in H.
Qed.

(** Cutting at a separator of distinct neighbours is unambiguous when the left
    part followed by any proper prefix of the separator does not contain it; the
    single-character case is the one path components need. *)
Lemma in_string_app c s t : in_string c (s +:+ t) = in_string c s || in_string c t.
Proof. induction s; simpl; [done|]. by rewrite IHs, orb_assoc. Qed.

Lemma first_char c s :
  in_string c s = true -> exists a b, s = a +:+ String c b /\ in_string c a = false.
Proof.
  induction s as [|x s IH]; simpl; [done|]. destruct (Ascii.eqb c x) eqn:Q.
  - intros _. apply Ascii.eqb_eq in Q as ->. by exists "", s.
  - intros (a & b & -> & Ha)%IH. exists (String x a), b. split; [done|]. simpl. by rewrite Q.
Qed.

Lemma Cut_char c a b :
  in_string c a = false ->
  Cut (a +:+ String c b) (String c "") = Some (a, b).
Proof.
  induction a as [|x a IH]; simpl; intros Hin.
  - unfold HasPrefix. simpl. destruct (Ascii.ascii_dec c c); [|done].
    by destruct b.
  - apply orb_false_iff in Hin as [Hx Ha]. apply Ascii.eqb_neq in Hx.
    unfold HasPrefix. simpl. destruct (Ascii.ascii_dec c x); [done|].
    by rewrite (IH Ha).
Qed.

Lemma Contains_char c s : Contains s (String c "") = in_string c s.
Proof.
  induction s as [|x s IH]; simpl; [done|].
  rewrite IH. unfold HasPrefix. simpl.
  destruct (Ascii.ascii_dec c x) as [->|Hne].
  - rewrite Ascii.eqb_refl. by destruct s.
  - by rewrite (proj2 (Ascii.eqb_neq c x) Hne).
Qed.

Lemma Cut_char_None c s : in_string c s = false -> Cut s (String c "") = None.
Proof. rewrite <-Contains_char. apply Contains_nocut. Qed.

#[export] Hint Rewrite str_length_app str_app_assoc str_app_nil_r
  HasPrefix_app TrimPrefix_app HasSuffix_app TrimSuffix_app in_string_app : go.

(** ** Decoding is local: an ASCII byte always starts a new rune *)

Lemma DecodeRune_width s :
  s <> "" -> (1 <= snd (DecodeRune s) <= String.length s)%nat.
Proof.
  destruct s as [|c0 s]; [done|intros _]. unfold DecodeRune.
  destruct (second_range (byte_of c0)) as [lo hi].
  destruct (seq_len (byte_of c0)) as [|[|[|[|[|n]]]]]; simpl; try lia;
    destruct s as [|c1 s]; simpl; try lia;
    try (destruct (in_range lo (byte_of c1) hi); simpl; lia);
    destruct s as [|c2 s]; simpl; try lia;
    try (destruct (in_range lo (byte_of c1) hi && _); simpl; lia);
    destruct s as [|c3 s]; simpl; try lia.
  destruct (in_range lo (byte_of c1) hi && _ && _); simpl; lia.
Qed.

Lemma runes_fuel_enough f s :
  (String.length s <= f)%nat -> runes_fuel f s = decoded s.
Proof.
  unfold decoded. remember (String.length s) as n eqn:Hn.
  assert (String.length s <= n)%nat as Hl by lia. clear Hn.
  intros Hf. revert f s Hf Hl.
  induction n as [n IH] using lt_wf_ind; intros f s Hf Hl.
  destruct s as [|c s]; [by destruct f, n|].
  destruct n as [|n]; [simpl in Hl; lia|]. destruct f as [|f]; [lia|].
  cbn [runes_fuel]. f_equal.
  pose proof (DecodeRune_width (String c s) ltac:(done)) as [Hw _].
  assert (String.length (str_drop (snd (DecodeRune (String c s))) (String c s)) <= n)%nat
    as Hd by (rewrite str_length_drop; simpl in *; lia).
  apply IH; lia.
Qed.

Lemma decoded_cons s :
  s <> "" -> decoded s = DecodeRune s :: decoded (str_drop (snd (DecodeRune s)) s).
Proof.
  intros Hs. pose proof (DecodeRune_width s Hs) as [Hw _].
  destruct s as [|c s]; [done|]. unfold decoded at 1.
  cbn [String.length runes_fuel]. f_equal. apply runes_fuel_enough.
  rewrite str_length_drop. cbn [String.length]. lia.
Qed.

Lemma byte_of_bounds c : (0 <= byte_of c < 256)%Z.
Proof.
  unfold byte_of. pose proof (Ascii.N_ascii_bounded c). lia.
Qed.

Lemma second_range_high b : (128 <= fst (second_range b))%Z.
Proof. unfold second_range. repeat case_match; simpl; lia. Qed.

Lemma in_range_low lo b hi : (b < lo)%Z -> in_range lo b hi = false.
Proof. intros H. unfold in_range. by rewrite (proj2 (Z.leb_gt lo b)). Qed.

Lemma DecodeRune_ascii c t :
  (byte_of c < 128)%Z -> DecodeRune (String c t) = (byte_of c, 1%nat).
Proof.
  intros Hc. pose proof (byte_of_bounds c). unfold DecodeRune.
  destruct (second_range (byte_of c)) as [lo hi].
  assert (seq_len (byte_of c) = 1%nat) as ->; [|done].
  unfold seq_len, in_range. rewrite !(proj2 (Z.leb_le _ _)) by lia. done.
Qed.

Lemma DecodeRune_app_ascii s c t :
  s <> "" -> (byte_of c < 128)%Z -> DecodeRune (s +:+ String c t) = DecodeRune s.
Proof.
  intros Hs Hc. destruct s as [|c0 s]; [done|]. unfold DecodeRune.
  cbn [String.append].
  pose proof (second_range_high (byte_of c0)) as Hlo.
  destruct (second_range (byte_of c0)) as [lo hi]; cbn [fst] in Hlo.
  assert (in_range lo (byte_of c) hi = false) as Hr by (apply in_range_low; lia).
  assert (cont (byte_of c) = false) as Hk by (apply in_range_low; lia).
  destruct (seq_len (byte_of c0)) as [|[|[|[|[|n]]]]]; try done;
    destruct s as [|c1 s]; cbn [String.append]; try done;
    try (rewrite ?Hr; destruct t as [|? [|? ?]]; done);
    destruct s as [|c2 s]; cbn [String.append]; try done;
    try (rewrite ?Hk, ?andb_false_r; destruct t; done);
    destruct s as [|c3 s]; cbn [String.append]; try done.
  by rewrite Hk, andb_false_r.
Qed.

Lemma str_drop_app_le n s t :
  (n <= String.length s)%nat -> str_drop n (s +:+ t) = str_drop n s +:+ t.
Proof.
  revert s. induction n as [|n IH]; intros s Hn; [by destruct s|].
  destruct s as [|c s]; simpl in *; [lia|]. apply IH. lia.
Qed.

Lemma decoded_app_ascii s c t :
  (byte_of c < 128)%Z ->
  decoded (s +:+ String c t) = decoded s ++ (byte_of c, 1%nat) :: decoded t.
Proof.
  intros Hc. remember (String.length s) as n eqn:Hn. revert s Hn.
  induction n as [n IH] using lt_wf_ind; intros s ->.
  destruct s as [|c0 s].
  - cbn [String.append]. rewrite decoded_cons by done.
    rewrite DecodeRune_ascii by done. simpl. by destruct t.
  - pose proof (DecodeRune_width (String c0 s) ltac:(done)) as [Hw1 Hw2].
    rewrite (decoded_cons (String c0 s)) by done.
    rewrite (decoded_cons (String c0 s +:+ String c t)) by done.
    rewrite DecodeRune_app_ascii by done. rewrite str_drop_app_le by done.
    cbn [app]. f_equal. eapply IH; [|done]. rewrite str_length_drop. lia.
Qed.

Lemma runes_app_ascii s c t :
  (byte_of c < 128)%Z ->
  runes (s +:+ String c t) = runes s ++ byte_of c :: runes t.
Proof. intros Hc. unfold runes. by rewrite decoded_app_ascii, map_app. Qed.

Lemma ToUpper_app s t : ToUpper (s +:+ t) = ToUpper s +:+ ToUpper t.
Proof. induction s; simpl; [done|]. by rewrite IHs. Qed.

(** *** Printable ASCII *)

(** Bytes from [!] to [~]. *)
Definition graphic (c : ascii) : bool := in_range 33 (byte_of c) 126.

Fixpoint str_all (P : ascii -> bool) (s : string) : bool :=
  match s with
  | EmptyString => true
  | String c s' => P c && str_all P s'
  end.

Lemma str_all_app P s t : str_all P (s +:+ t) = str_all P s && str_all P t.
Proof. induction s; simpl; [done|]. by rewrite IHs, andb_assoc. Qed.

Lemma str_all_impl (P Q : ascii -> bool) s :
  (forall c, P c = true -> Q c = true) -> str_all P s = true -> str_all Q s = true.
Proof.
  intros HPQ. induction s as [|c s IH]; simpl; [done|].
  intros [Hc Hs]%andb_true_iff. by rewrite HPQ, IH.
Qed.

Lemma graphic_facts c :
  graphic c = true -> (byte_of c < 128)%Z /\ IsSpace (byte_of c) = false.
Proof.
  unfold graphic, in_range. intros [Hl Hh]%andb_true_iff.
  apply Z.leb_le in Hl, Hh. split; [lia|]. unfold IsSpace, in_range.
  repeat (apply orb_false_iff; split);
    repeat first [apply Z.eqb_neq; lia | rewrite (proj2 (Z.leb_gt _ _)) by lia; done
                 | rewrite andb_comm, (proj2 (Z.leb_gt _ _)) by lia; done].
Qed.

Lemma decoded_graphic s :
  str_all graphic s = true -> Forall (fun d => IsSpace (fst d) = false) (decoded s).
Proof.
  induction s as [|c s IH]; [constructor|]. simpl. intros [Hc Hs]%andb_true_iff.
  apply graphic_facts in Hc as [Hb Hsp].
  rewrite decoded_cons by done. rewrite DecodeRune_ascii by done. simpl.
  constructor; [done|]. replace (str_drop 0 s) with s by (by destruct s). auto.
Qed.

(** A string of printable ASCII characters has no space to trim. *)
Lemma TrimSpace_graphic s : str_all graphic s = true -> TrimSpace s = s.
Proof.
  intros Hs. unfold TrimSpace.
  assert (TrimLeftSpace s = s) as ->.
  { unfold TrimLeftSpace. destruct s as [|c s]; [done|]. cbn [String.length trim_left_fuel].
    simpl in Hs. apply andb_true_iff in Hs as [Hc _]. apply graphic_facts in Hc as [Hb Hsp].
    by rewrite DecodeRune_ascii, Hsp by done. }
  unfold TrimRightSpace.
  assert (trailing_space_width s = 0%nat) as ->.
  { unfold trailing_space_width. apply decoded_graphic in Hs.
    assert (forall n, n = 0%nat -> snd (foldl (fun acc d =>
              if IsSpace (fst d) then (tt, snd acc + snd d)%nat else (tt, 0%nat))
              (tt, n) (decoded s)) = 0%nat) as Hn; [|by apply Hn].
    induction Hs as [|d l Hd Hl IH]; intros n ->; simpl; [done|]. rewrite Hd. by apply IH. }
  rewrite Nat.sub_0_r. rewrite <-(str_app_nil_r s) at 2. apply str_take_app.
Qed.

Lemma valid_graphic s : str_all graphic s = true -> ValidString s = true.
Proof.
  unfold ValidString. induction s as [|x s IH]; [done|]. cbn [str_all]. intros [Hx Hs]%andb_true_iff.
  apply graphic_facts in Hx as [Hb _].
  pose proof (decoded_app_ascii "" x s Hb) as Hd. change ("" +:+ String x s) with (String x s) in Hd.
  rewrite Hd. simpl. rewrite IH by done. rewrite andb_true_r. apply negb_true_iff, andb_false_iff. left.
  apply Z.eqb_neq. unfold RuneError. lia.
Qed.

(** *** Decimal numbers *)

Definition is_digit (c : ascii) : bool := in_range 48 (byte_of c) 57.

Lemma pretty_N_char_digit n :
  (n < 10)%N -> is_digit (pretty_N_char n) = true /\ digit_val (pretty_N_char n) = Some (Z.of_N n).
Proof.
  intros Hn. assert (n ∈ [0;1;2;3;4;5;6;7;8;9])%N as Hin.
  { rewrite !elem_of_cons. lia. }
  rewrite !elem_of_cons in Hin.
  repeat (destruct Hin as [->|Hin]; [done|]). set_solver.
Qed.

Lemma pretty_N_go_parse n s :
  exists k, (0 <= k)%Z /\ forall acc,
    parse_digits 10 acc (pretty_N_go n s) = parse_digits 10 (acc * 10 ^ k + Z.of_N n) s.
Proof.
  revert s. induction (N.lt_wf_0 n) as [n _ IH]. intros s.
  destruct (decide (n = 0%N)) as [->|Hn].
  { exists 0%Z. split; [lia|]. intros acc. rewrite pretty_N_go_0. f_equal. lia. }
  rewrite pretty_N_go_step by lia.
  destruct (IH (n `div` 10)%N ltac:(apply N.div_lt; lia)
              (String (pretty_N_char (n `mod` 10)) s)) as (k & Hk & Hp).
  exists (k + 1)%Z. split; [lia|]. intros acc. rewrite Hp. cbn [parse_digits].
  destruct (pretty_N_char_digit (n `mod` 10)) as [_ ->]; [apply N.mod_lt; lia|].
  rewrite (proj2 (Z.ltb_lt _ _)) by (pose proof (N.mod_lt n 10); lia).
  f_equal. rewrite Z.pow_add_r by lia.
  rewrite N2Z.inj_div, N2Z.inj_mod. change (Z.of_N 10) with 10%Z.
  pose proof (Z.div_mod (Z.of_N n) 10). nia.
Qed.

Lemma pretty_N_go_digits n s :
  str_all is_digit s = true -> str_all is_digit (pretty_N_go n s) = true.
Proof.
  revert s. induction (N.lt_wf_0 n) as [n _ IH]. intros s Hs.
  destruct (decide (n = 0%N)) as [->|Hn]; [by rewrite pretty_N_go_0|].
  rewrite pretty_N_go_step by lia. apply IH; [apply N.div_lt; lia|].
  cbn [str_all]. rewrite Hs.
  by destruct (pretty_N_char_digit (n `mod` 10)) as [-> _]; [apply N.mod_lt; lia|].
Qed.

(** The decimal form of a number that is not negative: digits only, not empty,
    and it parses back. *)
Lemma Itoa_nonneg z :
  (0 <= z)%Z ->
  str_all is_digit (Itoa z) = true /\ Itoa z <> "" /\ parse_digits 10 0 (Itoa z) = Some z.
Proof.
  intros Hz. assert (Itoa z = pretty_N (Z.to_N z)) as ->.
  { unfold Itoa, pretty, pretty_Z, pretty, pretty_positive. by destruct z. }
  unfold pretty_N. case_decide as Hn.
  { replace z with 0%Z by lia. done. }
  split; [by apply pretty_N_go_digits|].
  destruct (pretty_N_go_parse (Z.to_N z) "") as (k & Hk & Hp). specialize (Hp 0%Z).
  cbn [parse_digits] in Hp. rewrite Z.mul_0_l, Z.add_0_l, Z2N.id in Hp by lia.
  split; [|done]. intros He. rewrite He in Hp. cbn [parse_digits] in Hp.
  injection Hp as <-. by apply Hn.
Qed.

Lemma digits_no_char x s : is_digit x = false -> str_all is_digit s = true -> in_string x s = false.
Proof.
  intros Hx. induction s as [|c s IH]; [done|]. simpl. intros [Hc Hs]%andb_true_iff.
  rewrite IH by done. destruct (Ascii.eqb x c) eqn:Q; [|done].
  apply Ascii.eqb_eq in Q. congruence.
Qed.

Lemma is_digit_graphic c : is_digit c = true -> graphic c = true.
Proof.
  unfold is_digit, graphic, in_range. intros [H1 H2]%andb_true_iff.
  apply Z.leb_le in H1, H2. apply andb_true_iff. split; apply Z.leb_le; lia.
Qed.

Lemma digit_sign c : is_digit c = true -> Ascii.eqb c "-" = false /\ Ascii.eqb c "+" = false.
Proof.
  unfold is_digit, in_range. intros [H1 H2]%andb_true_iff. apply Z.leb_le in H1, H2.
  split; apply Ascii.eqb_neq; intros ->; revert H1; vm_compute; by intros [].
Qed.

Lemma Atoi_digits s v :
  str_all is_digit s = true -> s <> "" -> parse_digits 10 0 s = Some v -> (0 <= v < 2 ^ 63)%Z ->
  Atoi s = Some v.
Proof.
  intros Hs Hne Hp Hv. unfold Atoi. destruct s as [|c s]; [done|].
  simpl in Hs. apply andb_true_iff in Hs as [Hc _]. apply digit_sign in Hc as [-> ->].
  cbn [String.eqb]. rewrite Hp.
  rewrite (proj2 (Z.leb_le _ _)), (proj2 (Z.ltb_lt _ _)) by lia. done.
Qed.

(** *** Splitting at a character *)

Lemma SplitN_step s sep n :
  SplitN s sep (S (S n)) =
  match Cut s sep with Some (a, b) => a :: SplitN b sep (S n) | None => [s] end.
Proof. done. Qed.

Lemma SplitN_enough sep s n :
  sep <> "" -> (String.length s < n)%nat -> SplitN s sep n = Split s sep.
Proof.
  intros Hsep. unfold Split. remember (String.length s) as k eqn:Hk.
  revert s n Hk. induction (lt_wf k) as [k _ IH]. intros s n -> Hn.
  destruct n as [|[|n]]; [lia| |].
  { destruct s; [done|simpl in Hn; lia]. }
  rewrite SplitN_step. destruct (String.length s) as [|m] eqn:El.
  { destruct s; [|done]. destruct sep; [done|]. by destruct (Cut "" _) as [[]|] eqn:E; [apply Cut_Some in E; destruct s|]. }
  rewrite SplitN_step. destruct (Cut s sep) as [[a b]|] eqn:E; [|done].
  apply Cut_Some in E as ->. rewrite !str_length_app in *.
  assert (0 < String.length sep)%nat by (destruct sep; [done|simpl; lia]).
  f_equal. etrans; [|symmetry]; (apply (IH (String.length b)); [lia|done|lia]).
Qed.

Lemma Split_cons c a b :
  in_string c a = false ->
  Split (a +:+ String c b) (String c "") = a :: Split b (String c "").
Proof.
  intros Ha. unfold Split at 1. rewrite str_length_app. cbn [String.length].
  rewrite Nat.add_succ_r, SplitN_step, Cut_char by done. f_equal.
  apply SplitN_enough; [done|lia].
Qed.

(** A string between two printable ASCII characters has no space to trim. *)
Lemma TrimSpace_between c m d :
  graphic c = true -> graphic d = true ->
  TrimSpace (String c (m +:+ String d "")) = String c (m +:+ String d "").
Proof.
  intros Hc Hd. apply graphic_facts in Hc as [Bc Sc]. apply graphic_facts in Hd as [Bd Sd].
  unfold TrimSpace.
  assert (TrimLeftSpace (String c (m +:+ String d "")) = String c (m +:+ String d "")) as ->.
  { unfold TrimLeftSpace. cbn [String.length trim_left_fuel]. by rewrite DecodeRune_ascii, Sc. }
  unfold TrimRightSpace.
  assert (trailing_space_width (String c (m +:+ String d "")) = 0%nat) as ->.
  { unfold trailing_space_width. change (String c (m +:+ String d "")) with (String c m +:+ String d "").
    rewrite decoded_app_ascii by done. rewrite foldl_app. simpl. by rewrite Sd. }
  rewrite Nat.sub_0_r. rewrite <-(str_app_nil_r (String c _)) at 2. apply str_take_app.
Qed.

(** ** The order of strings *)

Lemma byte_of_inj a b : byte_of a = byte_of b -> a = b.
Proof.
  unfold byte_of. intros E%N2Z.inj. rewrite <-(Ascii.ascii_N_embedding a), E.
  apply Ascii.ascii_N_embedding.
Qed.

Lemma str_ltb_irrefl s : str_ltb s s = false.
Proof. induction s as [|c s IH]; simpl; [done|]. by rewrite Ascii.eqb_refl. Qed.

Lemma str_ltb_trans a b c : str_ltb a b = true -> str_ltb b c = true -> str_ltb a c = true.
Proof.
  revert b c. induction a as [|x a IH]; intros [|y b] [|z c]; simpl; try done.
  destruct (Ascii.eqb_spec x y) as [->|Hxy]; [destruct (Ascii.eqb_spec y z) as [->|Hyz]; [eauto|done]|].
  destruct (Ascii.eqb_spec y z) as [->|Hyz]; destruct (Ascii.eqb_spec x z) as [->|Hxz]; try done;
    rewrite ?Z.ltb_lt; lia.
Qed.

Lemma str_ltb_total a b : a <> b -> str_ltb a b = negb (str_ltb b a).
Proof.
  revert b. induction a as [|x a IH]; intros [|y b]; simpl; try done. intros Hne.
  rewrite (Ascii.eqb_sym y x). destruct (Ascii.eqb_spec x y) as [->|Hxy].
  - apply IH. congruence.
  - assert (byte_of x <> byte_of y) by (intros E; by apply byte_of_inj in E).
    destruct (byte_of x <? byte_of y)%Z eqn:E1, (byte_of y <? byte_of x)%Z eqn:E2; try done; lia.
Qed.

(** ** Machine integers *)

(** An int64 result: two's complement, wrapping around. *)
Definition wrap64 (z : Z) : Z := ((z + 2 ^ 63) mod 2 ^ 64 - 2 ^ 63)%Z.

Lemma wrap64_small z : (- 2 ^ 63 <= z < 2 ^ 63)%Z -> wrap64 z = z.
Proof. intros Hz. unfold wrap64. rewrite Z.mod_small by lia. lia. Qed.
