(* ===== verification/Shard.v ===== *)
(** * Package shard: slots of document identifiers and shard ranges

    [internal/shard/shard.go].  A slot is a byte, kept as a [Z] between 0 and
    255; CRC-32 works on 32-bit words with the bit operations of [Z]. *)

From S2P Require Import Prelude GoStrings.

(** ** hash/crc32 with the IEEE polynomial *)

Definition crc_poly : Z := 3988292384.   (* 0xEDB88320 *)
Definition crc_mask : Z := 4294967295.   (* 0xFFFFFFFF *)

Definition crc_shift (c : Z) : Z :=
  if Z.testbit c 0 then Z.lxor (Z.shiftr c 1) crc_poly else Z.shiftr c 1.

Definition crc_byte (c : Z) (b : ascii) : Z :=
  Nat.iter 8 crc_shift (Z.lxor c (byte_of b)).

Fixpoint crc_update (c : Z) (s : string) : Z :=
  match s with
  | EmptyString => c
  | String b s' => crc_update (crc_byte c b) s'
  end.

Definition ChecksumIEEE (s : string) : Z :=
  Z.lxor (crc_update crc_mask s) crc_mask.

(** ** Slots *)

Definition dot : Z := 46.

(** The loop of [shardingPrefix] over the remaining runes [rs], [i] being the
    position of the first of them: the index of the cutting period. *)
Fixpoint prefix_cut (i : nat) (rs : list Z) : option nat :=
  match rs with
  | [] => None
  | r :: rs' =>
      if negb (r =? dot)%Z then prefix_cut (S i) rs'
      else if (i <? 6)%nat then prefix_cut (S i) rs'
      else Some i
  end.

Definition shardingPrefix (documentID : string) : string :=
  match prefix_cut 0 (runes documentID) with
  | Some i => string_of_runes (take i (runes documentID))
  | None => documentID
  end.

Definition Slot (documentID : string) : Z :=
  Z.land (ChecksumIEEE (shardingPrefix documentID)) 255.

Definition RawSlot (input : string) : Z := Z.land (ChecksumIEEE input) 255.

Definition hex_digit (d : Z) : ascii :=
  if (d <? 10)%Z then of_byte (48 + d) else of_byte (55 + d).

(** [fmt.Sprintf "%02X"] of a byte. *)
Definition hex2 (b : Z) : string :=
  String (hex_digit (Z.shiftr b 4)) (String (hex_digit (Z.land b 15)) "").

Definition SlotHex (documentID : string) : string := hex2 (Slot documentID).
Definition RawSlotHex (input : string) : string := hex2 (RawSlot input).

(** ** Ranges *)

Record Range := mkRange { Start : Z; End : Z; Raw : string }.

Definition parseSlot (raw : string) : result Z :=
  let raw := TrimSpace raw in
  if (String.length raw =? 0)%nat || (2 <? String.length raw)%nat
  then Err (errorf "invalid shard slot")
  else match ParseUint raw 16 8 with
       | Some v => Ok v
       | None => Err (errorf "invalid shard slot")
       end.

Definition ParseRange (raw : string) : result Range :=
  let raw := TrimSpace raw in
  if raw =? "" then Err (errorf "empty shard range")
  else if negb (Contains raw "-") then
    result_bind (parseSlot raw) (fun slot => Ok (mkRange slot slot (ToUpper raw)))
  else
    match Split raw "-" with
    | [p0; p1] =>
        result_bind (parseSlot p0) (fun start =>
        result_bind (parseSlot p1) (fun end_ =>
        if (end_ <? start)%Z then Err (errorf "shard range start after end")
        else Ok (mkRange start end_ (ToUpper raw))))
    | _ => Err (errorf "invalid shard range")
    end.

Definition range_contains (r : Range) (slot : Z) : bool :=
  ((Start r <=? slot) && (slot <=? End r))%Z.

(** The slots of the loop [for i := int(r.Start); i <= int(r.End); i++]. *)
Definition range_slots (r : Range) : list nat :=
  seq (Z.to_nat (Start r)) (Z.to_nat (End r + 1 - Start r)).

(** The inner loop: marks each slot, failing on one already marked.  A slot
    comes from a byte, so the index is always inside [covered]. *)
Fixpoint mark_slots (covered : list bool) (slots : list nat) : result (list bool) :=
  match slots with
  | [] => Ok covered
  | i :: slots' =>
      match covered !! i with
      | Some true =>
          Err (errorf ("overlapping shard slot " +:+ hex2 (Z.of_nat i)))
      | _ => mark_slots (<[i := true]> covered) slots'
      end
  end.

Fixpoint mark_ranges (covered : list bool) (ranges : list Range) : result (list bool) :=
  match ranges with
  | [] => Ok covered
  | r :: ranges' =>
      result_bind (mark_slots covered (range_slots r)) (fun covered' =>
      mark_ranges covered' ranges')
  end.

(** The final loop over [covered], from index [i]. *)
Fixpoint check_covered (i : nat) (covered : list bool) : result unit :=
  match covered with
  | [] => Ok tt
  | true :: c => check_covered (S i) c
  | false :: _ =>
      Err (errorf ("incomplete shard map: missing slot " +:+ hex2 (Z.of_nat i)))
  end.

Definition ValidateFullCoverage (ranges : list Range) : result unit :=
  result_bind (mark_ranges (replicate 256 false) ranges) (check_covered 0).

(** The ranges that hold a slot: what a shard map offers a router. *)
Definition owners (slot : Z) (ranges : list Range) : list Range :=
  List.filter (fun r => range_contains r slot) ranges.

#[global] Arguments owners : simpl never.

(** The bounds of a byte range. *)
Definition byte_range (r : Range) : Prop :=
  (0 <= Start r <= 255 /\ 0 <= End r <= 255)%Z.

(** ** Slots are bytes *)

Lemma land_byte z : (0 <= Z.land z 255 < 256)%Z.
Proof.
  replace 255%Z with (Z.ones 8) by done. rewrite Z.land_ones by lia.
  apply Z.mod_pos_bound. lia.
Qed.

Lemma Slot_byte id : (0 <= Slot id < 256)%Z.
Proof. apply land_byte. Qed.

Lemma RawSlot_byte s : (0 <= RawSlot s < 256)%Z.
Proof. apply land_byte. Qed.

(** ** Co-location *)

Lemma prefix_cut_skip i rs rs' :
  (i + length rs <= 6)%nat ->
  prefix_cut i (rs ++ rs') = prefix_cut (i + length rs) rs'.
Proof.
  revert i. induction rs as [|r rs IH]; intros i Hl; simpl in *.
  - by rewrite Nat.add_0_r.
  - rewrite (proj2 (Nat.ltb_lt i 6)) by lia.
    rewrite IH by lia. replace (S i + length rs)%nat with (i + S (length rs))%nat by lia.
    by destruct (negb _).
Qed.

Lemma prefix_cut_app i rs rest :
  (6 <= i + length rs)%nat ->
  exists k, prefix_cut i (rs ++ dot :: rest) = Some (i + k)%nat /\
            (k <= length rs)%nat /\
            forall rest', prefix_cut i (rs ++ dot :: rest') = Some (i + k)%nat.
Proof.
  revert i. induction rs as [|r rs IH]; intros i Hl; simpl in *.
  - rewrite (proj2 (Nat.ltb_ge i 6)) by lia.
    exists 0%nat. rewrite Nat.add_0_r. auto.
  - destruct (negb (r =? dot)%Z) eqn:E; [|destruct (i <? 6)%nat eqn:E6].
    + destruct (IH (S i) ltac:(lia)) as (k & H1 & H2 & H3).
      exists (S k). rewrite H1, Nat.add_succ_comm. split_and!; [done|lia|].
      intros r'. by rewrite H3, Nat.add_succ_comm.
    + destruct (IH (S i) ltac:(lia)) as (k & H1 & H2 & H3).
      exists (S k). rewrite H1, Nat.add_succ_comm. split_and!; [done|lia|].
      intros r'. by rewrite H3, Nat.add_succ_comm.
    + exists 0%nat. rewrite Nat.add_0_r. split_and!; [done|lia|done].
Qed.

(** Identifiers that agree up to a period with at least six runes before it have
    one sharding prefix, so one slot. *)
Lemma shardingPrefix_colocated p t t' :
  (6 <= RuneCountInString p)%nat ->
  shardingPrefix (p +:+ String "." t) = shardingPrefix (p +:+ String "." t').
Proof.
  unfold RuneCountInString, shardingPrefix. intros Hl.
  assert (forall u, runes (p +:+ String "." u) = runes p ++ dot :: runes u) as Hr.
  { intros u. by apply runes_app_ascii. }
  rewrite !Hr.
  destruct (prefix_cut_app 0 (runes p) (runes t)) as (k & H1 & H2 & H3); [done|].
  rewrite H1, H3. simpl. by rewrite !take_app_le by done.
Qed.

(** ** Parsing ranges *)

Lemma parseSlot_byte raw v : parseSlot raw = Ok v -> (0 <= v <= 255)%Z.
Proof.
  unfold parseSlot, ParseUint. intros H.
  destruct (_ || _); [done|]. destruct (TrimSpace raw =? ""); [done|].
  assert (forall s acc w, (0 <= acc)%Z -> parse_digits 16 acc s = Some w -> (0 <= w)%Z)
    as Hpos.
  { intros s. induction s as [|c s IH]; intros acc w Hacc; simpl; [by intros [= <-]|].
    destruct (digit_val c) as [d|] eqn:Ed; [|done].
    destruct (d <? 16)%Z; [|done]. apply IH.
    assert (0 <= d)%Z; [|lia]. pose proof (byte_of_bounds c).
    revert Ed. unfold digit_val, in_range. repeat case_match; boolprop; intros [= <-]; lia. }
  destruct (parse_digits 16 0 _) as [w|] eqn:E; [|done].
  destruct (w <? 2 ^ 8)%Z eqn:Eb; [|done].
  assert (w = v) as -> by congruence. boolprop.
  apply Hpos in E; lia.
Qed.

Lemma ParseRange_bounds raw r :
  ParseRange raw = Ok r -> (0 <= Start r <= End r)%Z /\ (End r <= 255)%Z.
Proof.
  unfold ParseRange. intros H.
  destruct (TrimSpace raw =? ""); [done|].
  destruct (negb _).
  - destruct (parseSlot (TrimSpace raw)) as [v|] eqn:E; [|done].
    injection H as <-. simpl. apply parseSlot_byte in E. lia.
  - destruct (Split _ _) as [|p0 [|p1 [|]]]; try done.
    destruct (parseSlot p0) as [v0|] eqn:E0; [|done].
    destruct (parseSlot p1) as [v1|] eqn:E1; [|done]. simpl in H.
    destruct (v1 <? v0)%Z eqn:Elt; [done|]. injection H as <-. simpl.
    apply parseSlot_byte in E0, E1. boolprop. lia.
Qed.

Lemma ParseRange_byte_range raw r : ParseRange raw = Ok r -> byte_range r.
Proof. intros H%ParseRange_bounds. unfold byte_range. lia. Qed.

(** ** Full coverage *)

Lemma elem_of_range_slots r i :
  byte_range r ->
  i ∈ range_slots r <-> range_contains r (Z.of_nat i) = true.
Proof.
  intros [Hs He]. unfold range_slots, range_contains.
  rewrite elem_of_seq, andb_true_iff, !Z.leb_le. lia.
Qed.

(** [covered] marks the slots [i] with [f i > 0]. *)
Definition marks (covered : list bool) (f : nat -> nat) : Prop :=
  length covered = 256%nat /\
  forall i, (i < 256)%nat -> covered !! i = Some (0 <? f i)%nat.

Lemma mark_slots_spec covered slots :
  NoDup slots -> Forall (fun i => i < length covered)%nat slots ->
  match mark_slots covered slots with
  | Ok c' =>
      length c' = length covered /\
      (forall i, i ∈ slots -> covered !! i = Some false) /\
      (forall i, i ∈ slots -> c' !! i = Some true) /\
      (forall i, i ∉ slots -> c' !! i = covered !! i)
  | Err _ => exists i, i ∈ slots /\ covered !! i = Some true
  end.
Proof.
  revert covered. induction slots as [|i slots IH]; intros covered Hnd Hlt; simpl.
  { split_and!; [done|set_solver|set_solver|done]. }
  apply NoDup_cons in Hnd as [Hni Hnd]. inversion Hlt as [|? ? Hi Hlt']; subst.
  destruct (lookup_lt_is_Some_2 covered i Hi) as [b Hb]. rewrite Hb.
  destruct b; [exists i; set_solver|].
  specialize (IH (<[i := true]> covered) Hnd).
  rewrite length_insert in IH. specialize (IH Hlt').
  destruct (mark_slots _ slots) as [c'|e].
  - destruct IH as (Hlen & Hf & Ht & Hn). split_and!; [done| | |].
    + intros j [->|Hj]%elem_of_cons; [done|].
      specialize (Hf j Hj). rewrite list_lookup_insert_ne in Hf; [done|set_solver].
    + intros j [->|Hj]%elem_of_cons; [|auto].
      rewrite Hn by done. by rewrite list_lookup_insert_eq.
    + intros j [Hij Hj]%not_elem_of_cons. rewrite Hn by done.
      by rewrite list_lookup_insert_ne.
  - destruct IH as (j & Hj & Htrue). exists j.
    split; [by right|]. rewrite list_lookup_insert_ne in Htrue; [done|set_solver].
Qed.

Definition hit (r : Range) (i : nat) : nat :=
  if range_contains r (Z.of_nat i) then 1 else 0.

Lemma mark_range_spec covered f r :
  byte_range r -> marks covered f -> (forall i, i < 256 -> f i <= 1)%nat ->
  match mark_slots covered (range_slots r) with
  | Ok c' => marks c' (fun i => f i + hit r i)%nat /\
             (forall i, i < 256 -> f i + hit r i <= 1)%nat
  | Err _ => exists i, (i < 256)%nat /\ (f i + hit r i = 2)%nat
  end.
Proof.
  intros Hr [Hlen Hm] Hf.
  assert (forall i, i ∈ range_slots r -> (i < 256)%nat) as Hlt.
  { intros i Hi%elem_of_seq. destruct Hr. lia. }
  pose proof (mark_slots_spec covered (range_slots r) (NoDup_seq _ _)) as H.
  rewrite Hlen in H. specialize (H (proj2 (Forall_forall _ _) Hlt)).
  destruct (mark_slots covered (range_slots r)) as [c'|e].
  - destruct H as (Hl & Hfalse & Htrue & Hout).
    assert (forall i, i < 256 -> c' !! i = Some (0 <? f i + hit r i) /\
              f i + hit r i <= 1)%nat as Hall.
    { intros i Hi. unfold hit. specialize (Hf i Hi).
      destruct (range_contains r (Z.of_nat i)) eqn:E.
      - apply elem_of_range_slots in E; [|done].
        rewrite Htrue by done. specialize (Hfalse i E). rewrite Hm in Hfalse by done.
        injection Hfalse as Hz%Nat.ltb_ge. split; [|lia].
        by replace (f i + 1)%nat with 1%nat by lia.
      - rewrite Hout; [rewrite Hm by done; by rewrite Nat.add_0_r; split|].
        rewrite elem_of_range_slots by done. by rewrite E. }
    split; [split; [lia|]|]; intros i Hi; by apply Hall.
  - destruct H as (i & Hi & Ht). exists i. specialize (Hlt i Hi).
    split; [done|]. rewrite Hm in Ht by done. injection Ht as Ht%Nat.ltb_lt.
    specialize (Hf i Hlt). unfold hit.
    apply elem_of_range_slots in Hi; [|done]. rewrite Hi. lia.
Qed.

Lemma length_owners_cons i r ranges :
  length (owners (Z.of_nat i) (r :: ranges)) =
  (hit r i + length (owners (Z.of_nat i) ranges))%nat.
Proof. unfold owners, hit. simpl. by destruct (range_contains r (Z.of_nat i)). Qed.

Lemma mark_ranges_spec covered f ranges :
  Forall byte_range ranges -> marks covered f -> (forall i, i < 256 -> f i <= 1)%nat ->
  match mark_ranges covered ranges with
  | Ok c' => marks c' (fun i => f i + length (owners (Z.of_nat i) ranges))%nat /\
      (forall i, i < 256 -> f i + length (owners (Z.of_nat i) ranges) <= 1)%nat
  | Err _ => exists i, (i < 256)%nat /\
      (2 <= f i + length (owners (Z.of_nat i) ranges))%nat
  end.
Proof.
  revert covered f. induction ranges as [|r ranges IH]; intros covered f Hb Hm Hf; simpl.
  - split; [|intros i Hi; rewrite Nat.add_0_r; auto].
    destruct Hm as [Hl Hm]. split; [done|]. intros i Hi. by rewrite Nat.add_0_r, Hm.
  - inversion Hb as [|? ? Hr Hb']; subst.
    pose proof (mark_range_spec covered f r Hr Hm Hf) as H.
    destruct (mark_slots covered (range_slots r)) as [c'|e]; simpl.
    + destruct H as [Hm' Hf']. specialize (IH c' _ Hb' Hm' Hf').
      destruct (mark_ranges c' ranges) as [c''|e].
      * destruct IH as [[Hl Hm''] Hf'']. split; [split; [done|]|]; intros i Hi.
        -- rewrite Hm'' by done. by rewrite length_owners_cons, Nat.add_assoc.
        -- specialize (Hf'' i Hi). rewrite length_owners_cons. lia.
      * destruct IH as (i & Hi & H2). exists i. rewrite length_owners_cons. split; [done|lia].
    + destruct H as (i & Hi & H2). exists i. rewrite length_owners_cons. split; [done|lia].
Qed.

Lemma check_covered_ok i c : check_covered i c = Ok tt <-> Forall (eq true) c.
Proof.
  revert i. induction c as [|b c IH]; intros i; simpl; [done|].
  rewrite Forall_cons. destruct b; [by rewrite IH; naive_solver|].
  split; [done|]. by intros [? _].
Qed.

Lemma marks_empty : marks (replicate 256 false) (fun _ => 0%nat).
Proof. split; [done|]. intros i Hi. by rewrite lookup_replicate_2. Qed.

(** Validation accepts exactly the partitions of the 256 slots. *)
Lemma ValidateFullCoverage_spec ranges :
  Forall byte_range ranges ->
  ValidateFullCoverage ranges = Ok tt <->
  forall slot, (0 <= slot < 256)%Z -> exists r, owners slot ranges = [r].
Proof.
  intros Hb. unfold ValidateFullCoverage.
  pose proof (mark_ranges_spec (replicate 256 false) (fun _ => 0%nat) ranges Hb
                marks_empty ltac:(intros; simpl; lia)) as H; cbn beta in H.
  assert (forall l : list Range, length l = 1%nat <-> exists r, l = [r]) as H1.
  { intros [|r [|]]; simpl; split; try done; try lia; [intros [? ?]|intros _|intros [? ?]]; eauto; done. }
  destruct (mark_ranges _ ranges) as [c'|e]; simpl.
  - destruct H as [[Hl Hm] Hle]. rewrite check_covered_ok, Forall_lookup. split.
    + intros Hall slot Hs. apply H1.
      specialize (Hm (Z.to_nat slot) ltac:(lia)). specialize (Hle (Z.to_nat slot) ltac:(lia)).
      apply Hall in Hm. symmetry in Hm. apply Nat.ltb_lt in Hm.
      rewrite Z2Nat.id in Hm, Hle by lia. lia.
    + intros Hall i b Hib. pose proof (lookup_lt_Some _ _ _ Hib) as Hi.
      rewrite Hl in Hi. rewrite Hm in Hib by done. injection Hib as <-.
      specialize (Hall (Z.of_nat i) ltac:(lia)). apply H1 in Hall. by rewrite Hall.
  - destruct H as (i & Hi & H2). split; [done|]. intros Hall.
    specialize (Hall (Z.of_nat i) ltac:(lia)). apply H1 in Hall. lia.
Qed.

(** ** Properties *)

(** Identifiers that agree up to a period with at least six runes before it
    are stored in one slot, whatever follows the period. *)
Theorem Slot_colocated p t t' :
  (6 <= RuneCountInString p)%nat -> Slot (p +:+ "." +:+ t) = Slot (p +:+ "." +:+ t').
Proof. intros Hp. unfold Slot. f_equal. f_equal. by apply shardingPrefix_colocated. Qed.

Lemma Slot_colocated_witness :
  Slot ("people" +:+ "." +:+ "1") = Slot ("people" +:+ "." +:+ "2").
Proof. apply (Slot_colocated "people" "1" "2"). vm_compute. lia. Defined.

(** C32: a list of range keys that parse is accepted as a shard map exactly when
    every one of the 256 slots lies in exactly one of the ranges: gaps and
    overlaps are all found, and nothing else is rejected. *)
Theorem ValidateFullCoverage_exact raws ranges :
  Forall2 (fun raw r => ParseRange raw = Ok r) raws ranges ->
  ValidateFullCoverage ranges = Ok tt <->
  forall slot, (0 <= slot < 256)%Z -> exists r, owners slot ranges = [r].
Proof.
  intros Hp. apply ValidateFullCoverage_spec.
  induction Hp; constructor; [by eapply ParseRange_byte_range|done].
Qed.

Lemma ValidateFullCoverage_exact_witness :
  exists r, owners 200 [mkRange 0 127 "00-7F"; mkRange 128 255 "80-FF"] = [r].
Proof.
  apply (ValidateFullCoverage_exact ["00-7f"; "80-ff"]
           [mkRange 0 127 "00-7F"; mkRange 128 255 "80-FF"]); [|reflexivity|lia].
  repeat constructor; reflexivity.
Defined.

Definition range_text (a b : Z) : string := hex2 a +:+ "-" +:+ hex2 b.

Lemma forallb_bytes (P : Z -> bool) :
  forallb P (map Z.of_nat (seq 0 256)) = true -> forall z, (0 <= z < 256)%Z -> P z = true.
Proof.
  intros Hall z Hz. rewrite forallb_forall in Hall. apply Hall, in_map_iff.
  exists (Z.to_nat z). split; [lia|]. apply in_seq. lia.
Qed.

Definition hex_char (c : ascii) : bool :=
  graphic c && negb (Ascii.eqb c "-") && Ascii.eqb (upper_byte c) c.

Definition hex2_ok (a : Z) : bool :=
  str_all hex_char (hex2 a) &&
  match parseSlot (hex2 a) with Ok v => (v =? a)%Z | Err _ => false end.

Lemma hex2_facts a :
  (0 <= a < 256)%Z -> str_all hex_char (hex2 a) = true /\ parseSlot (hex2 a) = Ok a.
Proof.
  intros Ha. assert (hex2_ok a = true) as Hok.
  { apply (forallb_bytes hex2_ok); [vm_compute; reflexivity|done]. }
  unfold hex2_ok in Hok. boolprop. split; [done|].
  destruct (parseSlot (hex2 a)); [|done]. boolprop. by subst.
Qed.

Lemma hex_chars_facts s :
  str_all hex_char s = true ->
  str_all graphic s = true /\ in_string "-" s = false /\ ToUpper s = s.
Proof.
  induction s as [|c s IH]; [done|]. cbn [str_all in_string ToUpper]. unfold hex_char at 1.
  intros [Hc Hs]%andb_true_iff. destruct (IH Hs) as (I1 & I2 & I3).
  apply andb_true_iff in Hc as [Hc H3]. apply andb_true_iff in Hc as [H1 H2].
  apply negb_true_iff in H2. apply Ascii.eqb_eq in H3.
  rewrite I1, I2, I3, H1, H3. apply Ascii.eqb_neq in H2. split_and!; [done| |done].
  apply orb_false_iff. split; [|done]. apply Ascii.eqb_neq. congruence.
Qed.

(** The hexadecimal form of a byte, which the server prints for slots, reads
    back as that byte, and the form of a range reads back as that range. *)
Theorem ParseRange_hex a b :
  (0 <= a <= b)%Z -> (b < 256)%Z ->
  ParseRange (hex2 a) = Ok (mkRange a a (hex2 a)) /\
  ParseRange (range_text a b) = Ok (mkRange a b (range_text a b)).
Proof.
  intros Ha Hb. destruct (hex2_facts a ltac:(lia)) as [Ca Pa].
  destruct (hex2_facts b ltac:(lia)) as [Cb Pb].
  apply hex_chars_facts in Ca as (Ga & Da & Ua). apply hex_chars_facts in Cb as (Gb & Db & Ub).
  unfold ParseRange. split.
  - rewrite TrimSpace_graphic by done. rewrite Contains_char, Da, Pa, Ua. done.
  - unfold range_text. rewrite TrimSpace_graphic by (by rewrite !str_all_app, Ga, Gb).
    change ("-" +:+ hex2 b) with (String "-" (hex2 b)).
    rewrite Contains_char, in_string_app. simpl in_string. rewrite orb_true_r. simpl negb.
    assert (Split (hex2 a +:+ String "-" (hex2 b)) "-" = [hex2 a; hex2 b]) as ->.
    { unfold Split. rewrite str_length_app. cbn [String.length]. rewrite Nat.add_succ_r.
      cbn [SplitN]. rewrite Cut_char by done.
      by destruct (String.length (hex2 a) + String.length (hex2 b))%nat; [|rewrite Cut_char_None]. }
    rewrite Pa, Pb. cbn [result_bind]. rewrite (proj2 (Z.ltb_ge b a)) by lia.
    assert (ToUpper (hex2 a +:+ String "-" (hex2 b)) = hex2 a +:+ String "-" (hex2 b)) as ->.
    { rewrite ToUpper_app, Ua. cbn [ToUpper]. by rewrite Ub. }
    done.
Qed.

Lemma ParseRange_hex_witness :
  ParseRange "0A" = Ok (mkRange 10 10 "0A") /\ ParseRange "0A-FF" = Ok (mkRange 10 255 "0A-FF").
Proof. apply (ParseRange_hex 10 255); lia. Defined.
