(* ===== verification/Sha256.v ===== *)
(** * crypto/sha256 and encoding/hex

    The hash the attachment store computes, on 32-bit words kept as [Z]. *)

From S2P Require Import Prelude GoStrings.

Definition w32 (z : Z) : Z := Z.land z 4294967295.

Definition rotr (n : Z) (x : Z) : Z :=
  w32 (Z.lor (Z.shiftr x n) (Z.shiftl x (32 - n))).

Definition sha_k : list Z := [
  1116352408; 1899447441; 3049323471; 3921009573; 961987163; 1508970993; 2453635748; 2870763221;
  3624381080; 310598401; 607225278; 1426881987; 1925078388; 2162078206; 2614888103; 3248222580;
  3835390401; 4022224774; 264347078; 604807628; 770255983; 1249150122; 1555081692; 1996064986;
  2554220882; 2821834349; 2952996808; 3210313671; 3336571891; 3584528711; 113926993; 338241895;
  666307205; 773529912; 1294757372; 1396182291; 1695183700; 1986661051; 2177026350; 2456956037;
  2730485921; 2820302411; 3259730800; 3345764771; 3516065817; 3600352804; 4094571909; 275423344;
  430227734; 506948616; 659060556; 883997877; 958139571; 1322822218; 1537002063; 1747873779;
  1955562222; 2024104815; 2227730452; 2361852424; 2428436474; 2756734187; 3204031479; 3329325298]%Z.

Definition sha_h0 : list Z := [
  1779033703; 3144134277; 1013904242; 2773480762; 1359893119; 2600822924; 528734635; 1541459225]%Z.

(** The message padded to blocks of 64 bytes. *)
Definition sha_pad (s : string) : list Z :=
  let bytes := map byte_of (String.list_ascii_of_string s) in
  let n := length bytes in
  let zeros := (64 - (n + 9) mod 64) mod 64 in
  let bits := (8 * Z.of_nat n)%Z in
  bytes ++ [128%Z] ++ replicate zeros 0%Z ++
  map (fun i => Z.land (Z.shiftr bits (8 * (7 - Z.of_nat i))) 255) (seq 0 8).

Fixpoint sha_words (l : list Z) : list Z :=
  match l with
  | a :: b :: c :: d :: l' =>
      Z.lor (Z.shiftl a 24) (Z.lor (Z.shiftl b 16) (Z.lor (Z.shiftl c 8) d)) :: sha_words l'
  | _ => []
  end.

(** The message schedule, newest word first. *)
Definition sha_extend (w : list Z) : list Z :=
  match w !! 1, w !! 6, w !! 14, w !! 15 with
  | Some w2, Some w7, Some w15, Some w16 =>
      let s0 := Z.lxor (rotr 7 w15) (Z.lxor (rotr 18 w15) (Z.shiftr w15 3)) in
      let s1 := Z.lxor (rotr 17 w2) (Z.lxor (rotr 19 w2) (Z.shiftr w2 10)) in
      w32 (w16 + s0 + w7 + s1) :: w
  | _, _, _, _ => w
  end%nat%Z.

Definition sha_schedule (block : list Z) : list Z := rev (Nat.iter 48 sha_extend (rev block)).

Definition sha_round (s : list Z) (kw : Z * Z) : list Z :=
  match s with
  | [a; b; c; d; e; f; g; h] =>
      let s1 := Z.lxor (rotr 6 e) (Z.lxor (rotr 11 e) (rotr 25 e)) in
      let ch := Z.lxor (Z.land e f) (Z.land (Z.lxor e 4294967295) g) in
      let t1 := (h + s1 + ch + fst kw + snd kw)%Z in
      let s0 := Z.lxor (rotr 2 a) (Z.lxor (rotr 13 a) (rotr 22 a)) in
      let maj := Z.lxor (Z.land a b) (Z.lxor (Z.land a c) (Z.land b c)) in
      let t2 := (s0 + maj)%Z in
      [w32 (t1 + t2); a; b; c; w32 (d + t1); e; f; g]%Z
  | _ => s
  end.

Definition sha_block (h : list Z) (block : list Z) : list Z :=
  zip_with (fun x y => w32 (x + y)) h
    (foldl sha_round h (zip sha_k (sha_schedule block))).

Fixpoint sha_blocks (fuel : nat) (h : list Z) (ws : list Z) : list Z :=
  match fuel, ws with
  | S f, _ :: _ => sha_blocks f (sha_block h (take 16 ws)) (drop 16 ws)
  | _, _ => h
  end.

Definition hex_low (d : Z) : ascii := if (d <? 10)%Z then of_byte (48 + d) else of_byte (87 + d).

Definition word_hex (w : Z) : string :=
  String.string_of_list_ascii (map (fun i => hex_low (Z.land (Z.shiftr w (4 * (7 - Z.of_nat i))) 15)) (seq 0 8)).

(** [hex.EncodeToString(sha256(s))]. *)
Definition sha256_hex (s : string) : string :=
  let ws := sha_words (sha_pad s) in
  foldr (fun w t => word_hex w +:+ t) "" (sha_blocks (length ws) sha_h0 ws).

Example sha256_abc :
  sha256_hex "abc" = "ba7816bf8f01cfea414140de5dae2223b00361a396177a9cb410ff61f20015ad".
Proof. vm_compute. reflexivity. Qed.

Example sha256_empty :
  sha256_hex "" = "e3b0c44298fc1c149afbf4c8996fb92427ae41e4649b934ca495991b7852b855".
Proof. vm_compute. reflexivity. Qed.
