(* ===== verification/Scheduler.v ===== *)
(** * Package scheduler: exclusion and the worker loop

    [internal/scheduler]: the keyed exclusion set the agents share, and the
    scheduler with its wake channels.  Operations under a mutex are functions; the
    goroutines are step relations over them.  A task is the environment's: what it
    returns labels the step that runs it. *)

From S2P Require Import Prelude.
From stdpp Require Import gmap strings.

(** ** The exclusion set *)

Definition ExclusionSet : Type := gset string.

Definition NewExclusionSet : ExclusionSet := ∅.

Definition TryAcquire (e : ExclusionSet) (key : string) : bool * ExclusionSet :=
  if decide (key ∈ e) then (false, e) else (true, {[key]} ∪ e).

Definition Release (e : ExclusionSet) (key : string) : ExclusionSet := e ∖ {[key]}.

Definition Active (e : ExclusionSet) (key : string) : bool := bool_decide (key ∈ e).

(** A worker of an agent, as [RunOnce] and [ProcessNow] use the set: it works on
    a key from an acquisition that succeeded to the release. *)
Inductive holder := Free | Holds (key : string).

Record exclusion := mkExclusion {
  ex_set : ExclusionSet;
  ex_workers : list holder;
}.

Inductive ex_step : exclusion -> exclusion -> Prop :=
| ex_acquire i key e e' ws :
    ws !! i = Some Free -> TryAcquire e key = (true, e') ->
    ex_step (mkExclusion e ws) (mkExclusion e' (<[i := Holds key]> ws))
| ex_busy i key e e' ws :
    ws !! i = Some Free -> TryAcquire e key = (false, e') ->
    ex_step (mkExclusion e ws) (mkExclusion e' ws)
| ex_release i key e ws :
    ws !! i = Some (Holds key) ->
    ex_step (mkExclusion e ws) (mkExclusion (Release e key) (<[i := Free]> ws)).

Inductive ex_reach (n : nat) : exclusion -> Prop :=
| ex_start : ex_reach n (mkExclusion NewExclusionSet (replicate n Free))
| ex_next x y : ex_reach n x -> ex_step x y -> ex_reach n y.

(** One holder for each key of the set, and none for another key. *)
Definition exclusive (x : exclusion) : Prop :=
  (forall i j key, ex_workers x !! i = Some (Holds key) -> ex_workers x !! j = Some (Holds key) -> i = j) /\
  (forall key, key ∈ ex_set x <-> exists i, ex_workers x !! i = Some (Holds key)).

Lemma ex_step_exclusive x y : exclusive x -> ex_step x y -> exclusive y.
Proof.
  intros [Hone Hset] Hs. destruct Hs as [i key e e' ws Hi Ht|i key e e' ws Hi Ht|i key e ws Hi];
    unfold TryAcquire, Release in *; simpl in *.
  - destruct (decide (key ∈ e)) as [|Hn]; [done|]. injection Ht as <-.
    assert (forall j k, <[i:=Holds key]> ws !! j = Some (Holds k) <->
              (j = i /\ k = key) \/ (j <> i /\ ws !! j = Some (Holds k))) as Hl.
    { intros j k. rewrite list_lookup_insert_Some. split.
      - intros [(<- & [= ->] & _)|[Hne Hj]]; [by left|]. right. split; [congruence|done].
      - intros [[-> ->]|[Hne Hj]]; [left; split_and!; [done|done|by eapply lookup_lt_Some]|].
        right. split; [congruence|done]. }
    assert (forall j, ws !! j <> Some (Holds key)) as Hfree.
    { intros j Hj. apply Hn, Hset. by exists j. }
    split; simpl.
    + intros a b k [[-> ->]|[Ha Ha']]%Hl [[-> ?]|[Hb Hb']]%Hl; subst; try done.
      * by apply Hfree in Hb'.
      * by apply Hfree in Ha'.
      * by eapply Hone.
    + intros k. rewrite elem_of_union, elem_of_singleton, Hset. split.
      * intros [->|[j Hj]]; [exists i; apply Hl; by left|]. exists j. apply Hl. right.
        split; [|done]. intros ->. congruence.
      * intros [j [[-> ->]|[_ Hj]]%Hl]; [by left|right; by exists j].
  - destruct (decide (key ∈ e)); [|done]. by injection Ht as <-.
  - assert (forall j k, <[i:=Free]> ws !! j = Some (Holds k) <-> j <> i /\ ws !! j = Some (Holds k)) as Hl.
    { intros j k. rewrite list_lookup_insert_Some. split.
      - intros [(_ & ? & _)|[Hne Hj]]; [done|]. split; [congruence|done].
      - intros [Hne Hj]. right. split; [congruence|done]. }
    split; simpl.
    + intros a b k [_ Ha]%Hl [_ Hb]%Hl. by eapply Hone.
    + intros k. rewrite elem_of_difference, elem_of_singleton, Hset. split.
      * intros [[j Hj] Hk]. exists j. apply Hl. split; [|done]. intros ->. congruence.
      * intros [j [Hne Hj]%Hl]. split; [by exists j|]. intros ->. apply Hne. by eapply Hone.
Qed.

(** C30: however the acquisitions and releases of any number of workers
    interleave, no key is ever held by two of them, and the set holds exactly the
    keys in use: a key that nobody holds can be acquired. *)
Theorem exclusion_holds n x :
  ex_reach n x ->
  (forall i j key, ex_workers x !! i = Some (Holds key) -> ex_workers x !! j = Some (Holds key) -> i = j) /\
  (forall key, fst (TryAcquire (ex_set x) key) = false <-> exists i, ex_workers x !! i = Some (Holds key)).
Proof.
  intros Hr. assert (exclusive x) as [Hone Hset].
  { induction Hr as [|x y Hx IH Hs]; [|by eapply ex_step_exclusive]. split; simpl.
    - intros i j key Hi. by apply lookup_replicate in Hi as [? _].
    - intros key. split; [by intros ?%elem_of_empty|]. intros [i [? _]%lookup_replicate]. done. }
  split; [done|]. intros key. rewrite <-Hset. unfold TryAcquire. by destruct (decide (key ∈ ex_set x)).
Qed.

Lemma exclusion_holds_witness :
  fst (TryAcquire {["users/u1"]} "users/u1") = false <-> exists i, [Holds "users/u1"; Free] !! i = Some (Holds "users/u1").
Proof.
  refine (proj2 (exclusion_holds 2 (mkExclusion {["users/u1"]} [Holds "users/u1"; Free]) _) "users/u1").
  eapply ex_next; [apply ex_start|]. eapply (ex_acquire 0 "users/u1"); [reflexivity|].
  unfold TryAcquire, NewExclusionSet. rewrite decide_False by (apply not_elem_of_empty).
  by rewrite (right_id_L ∅ (∪)).
Defined.

(** ** The scheduler *)

Record Agent := mkAgent {
  AgName : string;
  AgInterval : Z;        (* nanoseconds *)
  AgWorkers : Z;
}.

Record runningAgent := mkRunning {
  RaAgent : Agent;
  RaWake : bool;         (* the one slot of the wake channel is full *)
}.

(** [agents] of a Scheduler. *)
Definition Scheduler : Type := list (string * runningAgent).

Definition New : Scheduler := [].

Definition Register (s : Scheduler) (a : Agent) : Scheduler :=
  let a := if (AgWorkers a <=? 0)%Z then mkAgent (AgName a) (AgInterval a) 1 else a in
  aset s (AgName a) (mkRunning a false).

(** A full channel makes [Wake] do nothing. *)
Definition Wake (s : Scheduler) (name : string) : Scheduler :=
  match aget s name with
  | None => s
  | Some ra => aset s name (mkRunning (RaAgent ra) true)
  end.

(** Where a worker goroutine is: about to call the task ([Draining]), inside the
    call, back from it with [did] and about to look at the context, in the
    [select], or gone. *)
Inductive place := Draining | Calling | Returned (did : bool) | Waiting | Stopped.

Record running := mkRunningScheduler {
  rs_agents : Scheduler;
  rs_workers : list (string * place);
  rs_cancelled : bool;
}.

Definition Start (s : Scheduler) : running :=
  mkRunningScheduler s
    (flat_map (fun kv => replicate (Z.to_nat (AgWorkers (RaAgent (snd kv)))) (fst kv, Draining)) s)
    false.

(** The period of the ticker.  [random] is what [rand.Int63n] returns, at least 0
    and below its argument; it panics when the argument is not positive. *)
Definition jitterInterval (base random : Z) : option Z :=
  if (base <=? 0)%Z then Some base
  else if (base / 10 <=? 0)%Z then None
  else Some (base + random)%Z.

Definition ticker_base (a : Agent) : Z :=
  if (AgInterval a <=? 0)%Z then 60000000000%Z else AgInterval a.

Inductive event :=
| EWake (name : string)
| EStart (name : string)              (* a call of the task begins *)
| EFinish (name : string) (did : bool) (* it returns; a panic is [did = false] *)
| ECheck (name : string)              (* the worker looks at the context and at [did] *)
| ETick (name : string)
| ETake (name : string)               (* the wake channel is read *)
| ECancel
| EStop (name : string).

#[export] Instance event_eq_dec : EqDecision event.
Proof. solve_decision. Defined.

Definition clear_wake (s : Scheduler) (name : string) : Scheduler :=
  match aget s name with
  | None => s
  | Some ra => aset s name (mkRunning (RaAgent ra) false)
  end.

(** Back from the task a worker looks at the context, then at [did]. *)
Definition after_run (cancelled did : bool) : place :=
  if cancelled then Stopped else if did then Draining else Waiting.

Inductive sched_step : running -> event -> running -> Prop :=
| st_wake s ws c name :
    sched_step (mkRunningScheduler s ws c) (EWake name) (mkRunningScheduler (Wake s name) ws c)
| st_start s ws c i name :
    ws !! i = Some (name, Draining) ->
    sched_step (mkRunningScheduler s ws c) (EStart name)
      (mkRunningScheduler s (<[i := (name, Calling)]> ws) c)
| st_finish s ws c i name did :
    ws !! i = Some (name, Calling) ->
    sched_step (mkRunningScheduler s ws c) (EFinish name did)
      (mkRunningScheduler s (<[i := (name, Returned did)]> ws) c)
| st_check s ws c i name did :
    ws !! i = Some (name, Returned did) ->
    sched_step (mkRunningScheduler s ws c) (ECheck name)
      (mkRunningScheduler s (<[i := (name, after_run c did)]> ws) c)
| st_tick s ws c i name :
    ws !! i = Some (name, Waiting) ->
    sched_step (mkRunningScheduler s ws c) (ETick name)
      (mkRunningScheduler s (<[i := (name, Draining)]> ws) c)
| st_take s ws c i name ra :
    ws !! i = Some (name, Waiting) -> aget s name = Some ra -> RaWake ra = true ->
    sched_step (mkRunningScheduler s ws c) (ETake name)
      (mkRunningScheduler (clear_wake s name) (<[i := (name, Draining)]> ws) c)
| st_cancel s ws c :
    sched_step (mkRunningScheduler s ws c) ECancel (mkRunningScheduler s ws true)
| st_stop s ws i name :
    ws !! i = Some (name, Waiting) ->
    sched_step (mkRunningScheduler s ws true) (EStop name)
      (mkRunningScheduler s (<[i := (name, Stopped)]> ws) true).

Inductive sched_trace : running -> list event -> running -> Prop :=
| tr_nil r : sched_trace r [] r
| tr_cons r e r' es r'' : sched_step r e r' -> sched_trace r' es r'' -> sched_trace r (e :: es) r''.

(** *** No wake is lost *)

(** The agent's channel is full, or one of its workers is about to call the
    task. *)
Definition attended (name : string) (r : running) : Prop :=
  (exists ra, aget (rs_agents r) name = Some ra /\ RaWake ra = true) \/
  (exists i, rs_workers r !! i = Some (name, Draining)).

(** A worker of the agent that has not returned. *)
Definition alive (name : string) (r : running) : Prop :=
  rs_cancelled r = false /\ exists i p, rs_workers r !! i = Some (name, p) /\ p <> Stopped.

(** The steps of the agent's own goroutines: no timer, no other wake. *)
Definition own_step (name : string) (e : event) : bool :=
  match e with
  | EStart n | EFinish n _ | ECheck n | ETake n => String.eqb n name
  | _ => false
  end.

Lemma insert_at (ws : list (string * place)) i v w : ws !! i = Some v -> <[i := w]> ws !! i = Some w.
Proof. intros Hi. apply list_lookup_insert_eq. by eapply lookup_lt_Some. Qed.

Lemma insert_draining (ws : list (string * place)) i name name' p q :
  ws !! i = Some (name', q) -> q <> Draining ->
  (exists j, ws !! j = Some (name, Draining)) -> exists j, <[i := (name', p)]> ws !! j = Some (name, Draining).
Proof.
  intros Hi Hq [j Hj]. exists j. rewrite list_lookup_insert_ne; [done|]. intros ->. congruence.
Qed.

Lemma step_attended name r e r' :
  sched_step r e r' -> e <> EStart name -> attended name r -> attended name r'.
Proof.
  intros Hs He Ha.
  destruct Hs as [s ws c n|s ws c i n Hi|s ws c i n did Hi|s ws c i n did Hi|s ws c i n Hi|s ws c i n ra Hi Hra Hw|s ws c|s ws i n Hi];
    unfold attended in *; simpl in *.
  - destruct Ha as [(ra & Hra & Hw)|?]; [left|by right]. unfold Wake. destruct (aget s n) as [rn|] eqn:En; [|eauto].
    rewrite aget_aset. destruct (String.eqb n name) eqn:E; [|eauto]. by eexists.
  - destruct Ha as [?|[j Hj]]; [by left|right]. exists j. rewrite list_lookup_insert_ne; [done|]. congruence.
  - destruct Ha as [?|Hd]; [by left|right]. by eapply insert_draining.
  - destruct Ha as [?|Hd]; [by left|right]. by eapply insert_draining.
  - destruct Ha as [?|Hd]; [by left|right]. by eapply insert_draining.
  - destruct (decide (n = name)) as [->|Hne]; [right; exists i; by eapply insert_at|].
    destruct Ha as [(rb & Hrb & Hwb)|Hd]; [left|right; by eapply insert_draining].
    exists rb. unfold clear_wake. rewrite Hra, aget_aset_ne by congruence. done.
  - done.
  - destruct Ha as [?|Hd]; [by left|right]. by eapply insert_draining.
Qed.

Lemma trace_attended name r es r' :
  sched_trace r es r' -> attended name r -> EStart name ∈ es \/ attended name r'.
Proof.
  induction 1 as [|r1 e r2 es r3 Hs Ht IH]; intros Ha; [by right|].
  destruct (decide (e = EStart name)) as [->|Hne]; [left; by left|].
  destruct (IH ltac:(by eapply step_attended)); [left; by right|by right].
Qed.

(** The calls the agent's goroutines make from here on their own. *)
Definition starts (name : string) (r : running) : Prop :=
  exists es r', sched_trace r es r' /\ forallb (own_step name) es = true /\ EStart name ∈ es.

Lemma starts_step name r e r' : sched_step r e r' -> own_step name e = true -> starts name r' -> starts name r.
Proof.
  intros Hs He (es & r'' & Ht & Ho & Hin). exists (e :: es), r''. split; [by econstructor|].
  split; [by simpl; rewrite He|by right].
Qed.

Lemma starts_draining name s ws c i : ws !! i = Some (name, Draining) -> starts name (mkRunningScheduler s ws c).
Proof.
  intros Hi. exists [EStart name], (mkRunningScheduler s (<[i := (name, Calling)]> ws) c).
  split; [eapply tr_cons; [by apply st_start|apply tr_nil]|].
  split; [simpl; by rewrite String.eqb_refl|by left].
Qed.

(** A worker that is alive takes a full channel, whatever it is doing. *)
Lemma starts_full name s ws ra i p :
  aget s name = Some ra -> RaWake ra = true -> ws !! i = Some (name, p) -> p <> Stopped ->
  starts name (mkRunningScheduler s ws false).
Proof.
  intros Hra Hw Hi Hp.
  assert (forall ws, ws !! i = Some (name, Waiting) -> starts name (mkRunningScheduler s ws false)) as Hwait.
  { intros ws' Hi'. eapply starts_step; [by eapply st_take|simpl; by rewrite String.eqb_refl|].
    eapply starts_draining. by eapply insert_at. }
  assert (forall ws did, ws !! i = Some (name, Returned did) -> starts name (mkRunningScheduler s ws false)) as Hret.
  { intros ws' did Hi'. eapply starts_step; [by eapply st_check|simpl; by rewrite String.eqb_refl|].
    destruct did; simpl; [eapply starts_draining|apply Hwait]; by eapply insert_at. }
  destruct p as [| |did| |]; [by eapply starts_draining| |by eapply Hret|by apply Hwait|done].
  eapply starts_step; [by eapply (st_finish _ _ _ i name false)|simpl; by rewrite String.eqb_refl|].
  eapply Hret. by eapply insert_at.
Qed.

Lemma attended_starts name r : attended name r -> alive name r -> starts name r.
Proof.
  destruct r as [s ws c]. intros [(ra & Hra & Hw)|[i Hi]] [Hc (j & p & Hj & Hp)]; simpl in *.
  - rewrite Hc. by eapply starts_full.
  - by eapply starts_draining.
Qed.

(** C31: no wake is lost, also not one that arrives while a worker is inside a
    call of the task.  Once a registered agent was woken, then however the steps
    of the scheduler go on, either a call of the agent's task started after the
    wake, or the agent's channel is full or one of its workers is about to make
    the call; and as long as the context is not cancelled and a worker of the
    agent runs, the agent's goroutines then get to that call by their own steps,
    with no tick of the timer and no other wake. *)
Theorem wake_not_lost name r r' es r'' :
  is_Some (aget (rs_agents r) name) -> sched_step r (EWake name) r' -> sched_trace r' es r'' ->
  EStart name ∈ es \/ (attended name r'' /\ (alive name r'' -> starts name r'')).
Proof.
  intros [ra Hra] Hw Ht. assert (attended name r') as Ha.
  { inversion Hw; subst. left. simpl in *. unfold Wake. rewrite Hra. exists (mkRunning (RaAgent ra) true).
    by rewrite aget_aset_eq. }
  destruct (trace_attended _ _ _ _ Ht Ha) as [?|Ha']; [by left|right].
  split; [done|]. by apply attended_starts.
Qed.

Definition change_agent : Agent := mkAgent "change-agent" 2000000000 0.

Definition started : running := Start (Register New change_agent).

Definition in_call (s : Scheduler) : running := mkRunningScheduler s [("change-agent", Calling)] false.

(** The worker is inside a call, started before the wake; it comes back with
    nothing done and waits, with the channel full. *)
Lemma wake_not_lost_witness :
  sched_trace started [EStart "change-agent"] (in_call (Register New change_agent)) /\
  (EStart "change-agent" ∈ [EFinish "change-agent" false; ECheck "change-agent"] \/
   (attended "change-agent" (mkRunningScheduler (Wake (Register New change_agent) "change-agent") [("change-agent", Waiting)] false) /\
    (alive "change-agent" (mkRunningScheduler (Wake (Register New change_agent) "change-agent") [("change-agent", Waiting)] false) ->
     starts "change-agent" (mkRunningScheduler (Wake (Register New change_agent) "change-agent") [("change-agent", Waiting)] false)))).
Proof.
  split; [eapply tr_cons; [by apply (st_start _ _ _ 0)|apply tr_nil]|].
  apply (wake_not_lost "change-agent" (in_call (Register New change_agent))
    (in_call (Wake (Register New change_agent) "change-agent"))).
  - by eexists.
  - exact (st_wake (Register New change_agent) [("change-agent", Calling)] false "change-agent").
  - eapply tr_cons; [apply (st_finish _ _ _ 0); reflexivity|].
    eapply tr_cons; [apply (st_check _ _ _ 0); reflexivity|]. apply tr_nil.
Defined.

(** *** A panic between acquisition and release *)

(** [RunOnce] of the agents releases a key without [defer]; a panic, from which
    the scheduler recovers, skips the release. *)
Inductive ex_step_panics : exclusion -> exclusion -> Prop :=
| exp_step x y : ex_step x y -> ex_step_panics x y
| exp_panic i key e ws :
    ws !! i = Some (Holds key) ->
    ex_step_panics (mkExclusion e ws) (mkExclusion e (<[i := Free]> ws)).

Definition leaked (key : string) (x : exclusion) : Prop :=
  key ∈ ex_set x /\ forall i, ex_workers x !! i <> Some (Holds key).

(** A key whose holder panicked is never free again. *)
Theorem panic_leaks_key key x y :
  leaked key x -> rtc ex_step_panics x y ->
  fst (TryAcquire (ex_set y) key) = false /\ forall i, ex_workers y !! i <> Some (Holds key).
Proof.
  intros Hl Hr. assert (leaked key y) as [Hin Hno].
  { induction Hr as [|x y z Hs Hr IH]; [done|]. apply IH. clear IH Hr z. destruct Hl as [Hin Hno].
    assert (forall (ws : list holder) i h, (forall j, ws !! j <> Some (Holds key)) -> h <> Holds key ->
              forall j, <[i := h]> ws !! j <> Some (Holds key)) as Hins.
    { intros ws i h Hw Hh j [(_ & ? & _)|[_ Hj]]%list_lookup_insert_Some; [congruence|by apply (Hw j)]. }
    destruct Hs as [x y [i k e e' ws Hi Ht|i k e e' ws Hi Ht|i k e ws Hi]|i k e ws Hi]; simpl in *;
      unfold TryAcquire, Release in *.
    - destruct (decide (k ∈ e)); [done|]. injection Ht as <-. split; simpl; [set_solver|].
      apply Hins; [done|]. intros [= ->]. done.
    - destruct (decide (k ∈ e)); [|done]. by injection Ht as <-.
    - split; simpl; [|by apply Hins]. apply elem_of_difference. split; [done|].
      rewrite elem_of_singleton. intros ->. by apply (Hno i).
    - split; simpl; [done|]. by apply Hins. }
  split; [|done]. unfold TryAcquire. by rewrite decide_True.
Qed.
