(* ===== verification/World.v ===== *)
(** * The world of a server: paths, files, system calls and their failures

    Every storage operation of the program goes through package [os].  A server
    owns one tree of files; a path is absolute and already cleaned, written as
    the list of its components from the last to the first, so that
    [filepath.Base] is the head and [filepath.Dir] the tail.

    Each system call takes one tick of a clock and asks the environment whether
    it fails there.  An environment that fails every call from some tick on is a
    crash at that tick: the tree the function leaves is the tree the next start
    of the server finds.  A failing write leaves a prefix of its data and a
    failing [RemoveAll] or [MkdirAll] does part of its work; every other failing
    call leaves the tree alone. *)

From S2P Require Import Prelude GoStrings.

(** ** Package path/filepath *)

Notation path := (list string).

(** One component of [filepath.Clean] on an absolute path. *)
Definition push (p : path) (c : string) : path :=
  if (c =? "") || (c =? ".") then p
  else if c =? ".." then tail p
  else c :: p.

Definition join1 (p : path) (s : string) : path := foldl push p (Split s "/").

(** [filepath.Join p s1 ... sn]. *)
Definition join (p : path) (l : list string) : path := foldl join1 p l.

Definition path_dir (p : path) : path := tail p.

Definition path_base (p : path) : string :=
  match p with c :: _ => c | [] => "/" end.

(** The path as the text that is stored in a file, and back. *)
Definition path_string (p : path) : string := "/" +:+ Join (rev p) "/".

Definition path_of_string (s : string) : path := join1 [] s.

(** The proper ancestors of a path, the root last. *)
Fixpoint ancestors (p : path) : list path :=
  match p with
  | [] => []
  | _ :: d => d :: ancestors d
  end.

(** A component that names itself: no separator and not a dot name. *)
Definition plain (c : string) : bool :=
  negb (c =? "") && negb (c =? ".") && negb (c =? "..") && negb (in_string "/" c).

(** ** The tree *)

Inductive node :=
| File (data : string)
| Directory.

#[export] Instance node_eq_dec : EqDecision node.
Proof. solve_decision. Defined.

Notation fs := (gmap path node).

Definition content (f : fs) (p : path) : option string :=
  match f !! p with Some (File d) => Some d | _ => None end.

Definition is_dir (f : fs) (p : path) : bool :=
  match p, f !! p with
  | [], _ => true
  | _, Some Directory => true
  | _, _ => false
  end.

Definition is_file (f : fs) (p : path) : bool :=
  match f !! p with Some (File _) => true | _ => false end.

(** ENOENT, or ENOTDIR when an ancestor is a plain file; [os.IsNotExist] holds
    of the first only. *)
Definition missing_error (f : fs) (p : path) : error :=
  if existsb (is_file f) (ancestors p)
  then mkError Other "not a directory"
  else mkError NotExist "no such file or directory".

Definition fs_lookup (f : fs) (p : path) : result node :=
  match p, f !! p with
  | [], _ => Ok Directory
  | _, Some n => Ok n
  | _, None => Err (missing_error f p)
  end.

Definition fs_read (f : fs) (p : path) : result string :=
  match fs_lookup f p with
  | Ok (File d) => Ok d
  | Ok Directory => Err (mkError Other "is a directory")
  | Err e => Err e
  end.

(** The directories [os.MkdirAll] has to exist, outermost first. *)
Definition mkdir_list (p : path) : list path := rev (p :: ancestors p).

Definition add_dir (f : fs) (p : path) : fs :=
  match p, f !! p with
  | _ :: _, None => <[p := Directory]> f
  | _, _ => f
  end.

Definition fs_mkdir_all (f : fs) (p : path) : result unit * fs :=
  if existsb (is_file f) (p :: ancestors p)
  then (Err (mkError Other "not a directory"), f)
  else (Ok tt, foldl add_dir f (mkdir_list p)).

Definition fs_rename (f : fs) (a b : path) : result unit * fs :=
  match f !! a with
  | None => (Err (missing_error f a), f)
  | Some Directory => (Err (mkError Other "directories are not renamed"), f)
  | Some (File d) =>
      match f !! b with
      | Some Directory => (Err (mkError Exist "file exists"), f)
      | _ =>
          if is_dir f (path_dir b)
          then (Ok tt, <[b := File d]> (delete a f))
          else (Err (missing_error f b), f)
      end
  end.

Definition is_child (d p : path) : bool :=
  match p with _ :: d' => bool_decide (d = d') | [] => false end.

Definition fs_remove (f : fs) (p : path) : result unit * fs :=
  match f !! p with
  | None => (Err (missing_error f p), f)
  | Some (File _) => (Ok tt, delete p f)
  | Some Directory =>
      if existsb (fun q => is_child p (fst q)) (map_to_list f)
      then (Err (mkError Other "directory not empty"), f)
      else (Ok tt, delete p f)
  end.

(** [q] is [p] or below it. *)
Definition under (p q : path) : bool :=
  bool_decide (p = q) || existsb (fun a => bool_decide (p = a)) (ancestors q).

Definition fs_remove_all (f : fs) (p : path) : fs :=
  filter (fun kv => under p (fst kv) = false) f.

(** What an interrupted [RemoveAll] leaves: some of the subtree is gone. *)
Definition fs_remove_some (k : nat) (f : fs) (p : path) : fs :=
  foldl (fun g q => delete q g) f
    (take k (List.filter (under p) (map fst (map_to_list f)))).

Definition dir_entry : Type := string * bool.

Definition entry_of (d : path) (kv : path * node) : option dir_entry :=
  match kv with
  | (n :: d', nd) =>
      if bool_decide (d = d')
      then Some (n, match nd with Directory => true | File _ => false end)
      else None
  | ([], _) => None
  end.

Definition entry_le (a b : dir_entry) : Prop := str_leb (fst a) (fst b) = true.

#[export] Instance entry_le_dec : RelDecision entry_le.
Proof. intros a b. unfold entry_le. apply _. Defined.

(** [os.ReadDir]: the entries of a directory sorted by name. *)
Definition fs_read_dir (f : fs) (p : path) : result (list dir_entry) :=
  match fs_lookup f p with
  | Ok Directory => Ok (merge_sort entry_le (omap (entry_of p) (map_to_list f)))
  | Ok (File _) => Err (mkError Other "not a directory")
  | Err e => Err e
  end.

(** ** State and monad *)

Record st := mkSt {
  st_fs : fs;       (* the files *)
  st_tick : nat;    (* system calls made so far *)
  st_ids : nat;     (* identifiers drawn so far *)
}.

(** What the environment decides: which system calls fail and how far they get,
    the random part of temporary names, and the identifiers of package idgen. *)
Class Env := {
  fault : nat -> option nat;
  tmprand : nat -> nat -> Z;
  newid : nat -> result string;
}.

Definition M (A : Type) : Type := st -> A * st.

#[export] Instance M_ret : MRet M := fun A a s => (a, s).
#[export] Instance M_bind : MBind M := fun A B k m s => let '(a, s') := m s in k a s'.

(** Early return on an error. *)
Definition rbind {A B} (m : M (result A)) (k : A -> M (result B)) : M (result B) :=
  r ← m; match r with Ok a => k a | Err e => mret (Err e) end.

Notation "x <-? m ; k" := (rbind m (fun x => k))
  (at level 20, m at level 100, k at level 200, right associativity).
Notation "m ;? k" := (rbind m (fun _ => k))
  (at level 100, k at level 200, right associativity).

Definition setfs (s : st) (f : fs) : st := mkSt f (st_tick s) (st_ids s).
Definition ticked (s : st) : st := mkSt (st_fs s) (S (st_tick s)) (st_ids s).

Definition io_error : error := mkError Other "input/output error".

Section syscalls.
Context `{Env}.

Definition sys {A} (body : fs -> result A * fs) (partial : nat -> fs -> fs) :
    M (result A) := fun s =>
  match fault (st_tick s) with
  | Some k => (Err io_error, setfs (ticked s) (partial k (st_fs s)))
  | None => let '(r, f) := body (st_fs s) in (r, setfs (ticked s) f)
  end.

Definition nothing (k : nat) (f : fs) : fs := f.

Definition Stat (p : path) : M (result node) :=
  sys (fun f => (fs_lookup f p, f)) nothing.

Definition ReadFile (p : path) : M (result string) :=
  sys (fun f => (fs_read f p, f)) nothing.

Definition ReadDir (p : path) : M (result (list dir_entry)) :=
  sys (fun f => (fs_read_dir f p, f)) nothing.

Definition MkdirAll (p : path) : M (result unit) :=
  sys (fun f => fs_mkdir_all f p)
      (fun k f => if existsb (is_file f) (p :: ancestors p) then f
                  else foldl add_dir f (take k (mkdir_list p))).

Definition Rename (a b : path) : M (result unit) :=
  sys (fun f => fs_rename f a b) nothing.

Definition Remove (p : path) : M (result unit) :=
  sys (fun f => fs_remove f p) nothing.

Definition RemoveAll (p : path) : M (result unit) :=
  sys (fun f => if existsb (is_file f) (ancestors p)
                then (Err (missing_error f p), f)
                else (Ok tt, fs_remove_all f p))
      (fun k f => fs_remove_some k f p).

(** The first of the ten thousand candidates of [os.CreateTemp] that is free:
    the prefix followed by a random 32-bit number in decimal. *)
Definition temp_name (pre : string) (z : Z) : string := pre +:+ Itoa (z mod 2 ^ 32).

Fixpoint pick_temp (f : fs) (d : path) (pre : string) (rand : nat -> Z) (tries n : nat)
    : option path :=
  match tries with
  | O => None
  | S tries' =>
      let p := temp_name pre (rand n) :: d in
      match f !! p with
      | None => Some p
      | Some _ => pick_temp f d pre rand tries' (S n)
      end
  end.

Definition temp_tries : nat := 10000.

Definition CreateTemp (d : path) (pre : string) : M (result path) := fun s =>
  sys (fun f =>
         if is_dir f d then
           match pick_temp f d pre (tmprand (st_tick s)) temp_tries 0 with
           | Some p => (Ok p, <[p := File ""]> f)
           | None => (Err (mkError Exist "file exists"), f)
           end
         else (Err (missing_error f (temp_name pre 0 :: d)), f))
      nothing s.

(** Writing to the open temporary file: appends; a failing write appends a
    prefix of the data. *)
Definition append_file (p : path) (data : string) (f : fs) : fs :=
  match f !! p with
  | Some (File d) => <[p := File (d +:+ data)]> f
  | _ => f
  end.

Definition WriteTo (p : path) (data : string) : M (result unit) :=
  sys (fun f => (Ok tt, append_file p data f))
      (fun k f => append_file p (str_take k data) f).

(** [Sync], [Close] and [Chmod] have no effect on the contents. *)
Definition Sync (p : path) : M (result unit) := sys (fun f => (Ok tt, f)) nothing.
Definition Close (p : path) : M (result unit) := sys (fun f => (Ok tt, f)) nothing.
Definition Chmod (p : path) : M (result unit) :=
  sys (fun f => match fs_lookup f p with
                | Ok _ => (Ok tt, f)
                | Err e => (Err e, f)
                end) nothing.

(** [idgen.New] through the engine's [IDGenerator]. *)
Definition NewID : M (result string) := fun s =>
  (newid (st_ids s), mkSt (st_fs s) (st_tick s) (S (st_ids s))).

(** Some system call of the run fails for a reason outside the tree. *)
Definition faulty : Prop := exists n, fault n <> None.

End syscalls.

(** ** Reasoning: weakest preconditions *)

Definition wp {A} (m : M A) (Q : A -> st -> Prop) (s : st) : Prop :=
  let '(a, s') := m s in Q a s'.

Section wp_rules.
Context {A B : Type}.

Lemma wp_ret (a : A) Q s : Q a s -> wp (mret a) Q s.
Proof. done. Qed.

Lemma wp_bind (m : M A) (k : A -> M B) Q s :
  wp m (fun a s' => wp (k a) Q s') s -> wp (m ≫= k) Q s.
Proof.
  unfold wp, mbind, M_bind. destruct (m s) as [a s']. by destruct (k a s').
Qed.

Lemma wp_mono (m : M A) (P Q : A -> st -> Prop) s :
  wp m P s -> (forall a s', P a s' -> Q a s') -> wp m Q s.
Proof. unfold wp. destruct (m s). auto. Qed.

(** Two postconditions of one run. *)
Lemma wp_and (m : M A) (P Q : A -> st -> Prop) s :
  wp m P s -> wp m Q s -> wp m (fun a s' => P a s' /\ Q a s') s.
Proof. unfold wp. destruct (m s). auto. Qed.

Lemma wp_elim (m : M A) (Q : A -> st -> Prop) s a s' :
  wp m Q s -> m s = (a, s') -> Q a s'.
Proof. unfold wp. intros H Heq. by rewrite Heq in H. Qed.
End wp_rules.

Lemma wp_rbind {A B} (m : M (result A)) (k : A -> M (result B)) Q s :
  wp m (fun r s' => match r with
                    | Ok a => wp (k a) Q s'
                    | Err e => Q (Err e) s'
                    end) s ->
  wp (rbind m k) Q s.
Proof.
  intros H. unfold rbind. apply wp_bind. eapply wp_mono; [apply H|].
  intros [a|e] s'; [done|]. by intros.
Qed.

(** One step of a program: a bind whose first part has a specification. *)
Ltac wp_step lem :=
  first [apply wp_rbind | apply wp_bind | idtac];
  eapply wp_mono; [eapply lem | cbv beta].

(** *** Frames

    Operations are specified by what they may change: [keeps P f f'] says every
    file outside [P] has the same contents in [f'] as in [f]. *)

Definition keeps (P : path -> Prop) (f f' : fs) : Prop :=
  forall q, ~ P q -> content f' q = content f q.

Lemma keeps_refl P f : keeps P f f.
Proof. done. Qed.

Lemma keeps_trans P f g h : keeps P f g -> keeps P g h -> keeps P f h.
Proof. intros H1 H2 q Hq. by rewrite H2, H1. Qed.

Lemma keeps_mono (P Q : path -> Prop) f g :
  keeps P f g -> (forall q, P q -> Q q) -> keeps Q f g.
Proof. intros H HPQ q Hq. apply H. auto. Qed.

Lemma keeps_insert (P : path -> Prop) f p n : P p -> keeps P f (<[p := n]> f).
Proof.
  intros Hp q Hq. unfold content. rewrite lookup_insert_ne; [done|]. by intros ->.
Qed.

Lemma keeps_delete (P : path -> Prop) f p : P p -> keeps P f (delete p f).
Proof.
  intros Hp q Hq. unfold content. rewrite lookup_delete_ne; [done|]. by intros ->.
Qed.

Lemma content_insert_eq f p d : content (<[p := File d]> f) p = Some d.
Proof. unfold content. by rewrite lookup_insert_eq. Qed.

Lemma content_insert_ne f p q n : p <> q -> content (<[p := n]> f) q = content f q.
Proof. intros. unfold content. by rewrite lookup_insert_ne. Qed.

Lemma content_add_dir f p q : content (add_dir f p) q = content f q.
Proof.
  unfold add_dir. destruct p as [|c p]; [by destruct (f !! [])|].
  destruct (f !! (c :: p)) eqn:E; [done|]. unfold content.
  destruct (decide (c :: p = q)) as [<-|].
  - by rewrite lookup_insert_eq, E.
  - by rewrite lookup_insert_ne.
Qed.

Lemma content_add_dirs l f q : content (foldl add_dir f l) q = content f q.
Proof.
  revert f. induction l as [|p l IH]; intros f; simpl; [done|].
  by rewrite IH, content_add_dir.
Qed.

Definition mkdirs (f : fs) (p : path) : fs := foldl add_dir f (mkdir_list p).

Lemma content_mkdirs f p q : content (mkdirs f p) q = content f q.
Proof. apply content_add_dirs. Qed.

Lemma content_Some f p d : content f p = Some d <-> f !! p = Some (File d).
Proof. unfold content. destruct (f !! p) as [[]|]; naive_solver. Qed.

Lemma is_file_content f p : is_file f p = true <-> is_Some (content f p).
Proof.
  unfold is_file, content. by destruct (f !! p) as [[]|]; split; try done; intros [].
Qed.

Lemma is_file_add_dirs l f q : is_file (foldl add_dir f l) q = is_file f q.
Proof.
  pose proof (content_add_dirs l f q) as E. revert E. unfold is_file, content.
  destruct (foldl add_dir f l !! q) as [[]|], (f !! q) as [[]|]; done.
Qed.

(** *** Rules of the system calls *)

Section sys_rules.
Context `{E : Env}.

Lemma wp_sys {A} (body : fs -> result A * fs) partial (Q : result A -> st -> Prop) s :
  (forall r f', body (st_fs s) = (r, f') -> Q r (setfs (ticked s) f')) ->
  (forall k, faulty -> Q (Err io_error) (setfs (ticked s) (partial k (st_fs s)))) ->
  wp (sys body partial) Q s.
Proof.
  intros H1 H2. unfold wp, sys. destruct (fault (st_tick s)) as [k|] eqn:Hf.
  - apply H2. exists (st_tick s). by rewrite Hf.
  - destruct (body (st_fs s)) as [r f'] eqn:Eb. by apply H1.
Qed.

Lemma Stat_spec p s :
  wp (Stat p) (fun r s' => st_fs s' = st_fs s /\
    (r = fs_lookup (st_fs s) p \/ (r = Err io_error /\ faulty))) s.
Proof. apply wp_sys; [intros r f' [= <- <-]|intros k Hk]; auto. Qed.

Lemma ReadFile_spec p s :
  wp (ReadFile p) (fun r s' => st_fs s' = st_fs s /\
    (r = fs_read (st_fs s) p \/ (r = Err io_error /\ faulty))) s.
Proof. apply wp_sys; [intros r f' [= <- <-]|intros k Hk]; auto. Qed.

Lemma ReadDir_spec p s :
  wp (ReadDir p) (fun r s' => st_fs s' = st_fs s /\
    (r = fs_read_dir (st_fs s) p \/ (r = Err io_error /\ faulty))) s.
Proof. apply wp_sys; [intros r f' [= <- <-]|intros k Hk]; auto. Qed.

Lemma MkdirAll_spec p s :
  wp (MkdirAll p) (fun r s' =>
    (forall q, content (st_fs s') q = content (st_fs s) q) /\
    (r = Ok tt -> is_dir (st_fs s') p = true \/ p = [])) s.
Proof.
  apply wp_sys.
  - unfold fs_mkdir_all. intros r f' Hb. destruct (existsb _ _) eqn:Ef; simplify_eq.
    { split; [done|intros; discriminate]. }
    split; [intros q; apply content_add_dirs|]. intros _. simpl.
    unfold mkdir_list. simpl. rewrite foldl_app. simpl.
    destruct p as [|c p]; [by right|left].
    set (g := foldl add_dir _ _).
    assert (is_file g (c :: p) = false) as Hg.
    { unfold g. rewrite is_file_add_dirs. apply orb_false_iff in Ef. tauto. }
    revert Hg. unfold add_dir, is_dir, is_file.
    destruct (g !! (c :: p)) as [[]|] eqn:El; [done| |].
    + by rewrite El.
    + by rewrite lookup_insert_eq.
  - intros k _. split; [|intros; discriminate]. intros q. simpl.
    destruct (existsb (is_file (st_fs s)) (p :: ancestors p)) eqn:Ef; simpl in Ef;
      rewrite Ef; [done|apply content_add_dirs].
Qed.

Lemma Rename_spec a b s :
  wp (Rename a b) (fun r s' =>
    match r with
    | Ok _ => exists d, st_fs s !! a = Some (File d) /\
                st_fs s' = <[b := File d]> (delete a (st_fs s))
    | Err e => st_fs s' = st_fs s
    end) s.
Proof.
  apply wp_sys; [|done]. unfold fs_rename. intros r f' Hb.
  destruct (st_fs s !! a) as [[d|]|] eqn:Ea; simplify_eq; try done.
  destruct (st_fs s !! b) as [[|]|]; simplify_eq; try done;
    destruct (is_dir _ _); simplify_eq; eauto.
Qed.

Lemma Remove_spec p s :
  wp (Remove p) (fun r s' =>
    match r with
    | Ok _ => st_fs s' = delete p (st_fs s)
    | Err e => st_fs s' = st_fs s
    end) s.
Proof.
  apply wp_sys; [|done]. unfold fs_remove. intros r f' Hb.
  destruct (st_fs s !! p) as [[d|]|]; simplify_eq; try done.
  destruct (existsb _ _); by simplify_eq.
Qed.

Lemma pick_temp_spec f d pre rand tries n p :
  pick_temp f d pre rand tries n = Some p ->
  f !! p = None /\ exists z, p = temp_name pre z :: d.
Proof.
  revert n. induction tries as [|t IH]; intros n; simpl; [done|].
  destruct (f !! (temp_name pre (rand n) :: d)) eqn:El; [apply IH|].
  intros [= <-]. eauto.
Qed.

Lemma CreateTemp_spec d pre s :
  wp (CreateTemp d pre) (fun r s' =>
    match r with
    | Ok p => st_fs s !! p = None /\ st_fs s' = <[p := File ""]> (st_fs s) /\
              exists z, p = temp_name pre z :: d
    | Err e => st_fs s' = st_fs s
    end) s.
Proof.
  unfold CreateTemp. apply wp_sys; [|done]. intros r f' Hb.
  destruct (is_dir _ _); [|by simplify_eq].
  destruct (pick_temp _ _ _ _ _) eqn:Ep; simplify_eq; [|done].
  apply pick_temp_spec in Ep as [? ?]. done.
Qed.

Lemma WriteTo_spec p data s :
  wp (WriteTo p data) (fun r s' => exists w, st_fs s' = append_file p w (st_fs s) /\
    (is_ok r = true -> w = data)) s.
Proof.
  apply wp_sys; [intros r f' [= <- <-]|intros k Hk]; eexists; split; done.
Qed.

Lemma Sync_spec p s : wp (Sync p) (fun _ s' => st_fs s' = st_fs s) s.
Proof. apply wp_sys; [|done]. by intros r f' [= <- <-]. Qed.

Lemma Close_spec p s : wp (Close p) (fun _ s' => st_fs s' = st_fs s) s.
Proof. apply wp_sys; [|done]. by intros r f' [= <- <-]. Qed.

Lemma Chmod_spec p s : wp (Chmod p) (fun _ s' => st_fs s' = st_fs s) s.
Proof.
  apply wp_sys; [|done]. intros r f' Hb. destruct (fs_lookup _ _); by simplify_eq.
Qed.
End sys_rules.

(** *** Runs without faults are equations *)

Class NoFault `{Env} : Prop := nofault : forall n, fault n = None.

Section nofault.
Context `{NoFault}.

Lemma sys_eq {A} (body : fs -> result A * fs) partial s :
  sys body partial s =
  (fst (body (st_fs s)), setfs (ticked s) (snd (body (st_fs s)))).
Proof. unfold sys. rewrite nofault. by destruct (body (st_fs s)). Qed.

Lemma not_faulty : ~ faulty.
Proof. intros [n Hn]. by rewrite nofault in Hn. Qed.
End nofault.

(** ** Paths of plain components *)

Lemma Split_no_sep c s : in_string c s = false -> Split s (String c "") = [s].
Proof.
  intros Hs. unfold Split. destruct s as [|x s]; [done|].
  cbn [String.length SplitN]. by rewrite Cut_char_None.
Qed.

Lemma join1_plain p c : plain c = true -> join1 p c = c :: p.
Proof.
  unfold plain, join1. intros Hp. boolprop.
  rewrite Split_no_sep by done. simpl. unfold push.
  by rewrite !(proj2 (String.eqb_neq _ _)) by done.
Qed.

Lemma join_plain1 p c : plain c = true -> join p [c] = c :: p.
Proof. apply join1_plain. Qed.

Lemma join_plain2 p c d :
  plain c = true -> plain d = true -> join p [c; d] = d :: c :: p.
Proof. intros. unfold join. simpl. by rewrite !join1_plain. Qed.

Lemma plain_intro c :
  (3 <= String.length c)%nat -> in_string "/" c = false -> plain c = true.
Proof.
  intros Hl Hs. unfold plain. rewrite Hs.
  destruct (c =? "") eqn:E1; boolprop; [subst; simpl in Hl; lia|].
  destruct (c =? ".") eqn:E2; boolprop; [subst; simpl in Hl; lia|].
  destruct (c =? "..") eqn:E3; boolprop; [subst; simpl in Hl; lia|done].
Qed.

(** ** Temporary files *)

(** The name of a temporary file of [WriteFileAtomic]: the prefix and a number,
    so no further period. *)
Definition temp_component (c : string) : bool :=
  HasPrefix c ".tmp-" && negb (in_string "." (str_drop 5 c)).

Definition is_temp (p : path) : bool :=
  match p with c :: _ => temp_component c | [] => false end.

Lemma pretty_N_char_no_dot n : Ascii.eqb "." (pretty_N_char n) = false.
Proof.
  unfold pretty_N_char. by repeat case_match.
Qed.

Lemma pretty_N_go_no_dot n s :
  in_string "." s = false -> in_string "." (pretty_N_go n s) = false.
Proof.
  revert s. induction (N.lt_wf_0 n) as [n _ IH]. intros s Hs.
  destruct (decide (n = 0%N)) as [->|Hn]; [by rewrite pretty_N_go_0|].
  rewrite pretty_N_go_step by lia. apply IH; [apply N.div_lt; lia|].
  cbn [in_string]. by rewrite pretty_N_char_no_dot, Hs.
Qed.

Lemma Itoa_no_dot z : in_string "." (Itoa z) = false.
Proof.
  assert (forall n, in_string "." (pretty_N n) = false) as HN.
  { intros n. unfold pretty_N. case_decide; [done|]. by apply pretty_N_go_no_dot. }
  unfold Itoa, pretty, pretty_Z, pretty, pretty_positive.
  destruct z; [done|apply HN|]. simpl. apply HN.
Qed.

Lemma temp_name_temp z : temp_component (temp_name ".tmp-" z) = true.
Proof.
  unfold temp_component, temp_name. rewrite (HasPrefix_app ".tmp-"). simpl.
  by rewrite Itoa_no_dot.
Qed.

(** No component of the path is a temporary name. *)
Definition clean_path (p : path) : Prop := Forall (fun c => temp_component c = false) p.

Definition no_temps (f : fs) : Prop := forall q, is_temp q = true -> f !! q = None.

Lemma lookup_add_dir_ne f p q : p <> q -> add_dir f p !! q = f !! q.
Proof.
  intros Hne. unfold add_dir. destruct p as [|c p]; [by destruct (f !! [])|].
  destruct (f !! (c :: p)); [done|]. by rewrite lookup_insert_ne.
Qed.

Lemma lookup_add_dirs_notin l f q : q ∉ l -> foldl add_dir f l !! q = f !! q.
Proof.
  revert f. induction l as [|p l IH]; intros f Hq; simpl; [done|].
  apply not_elem_of_cons in Hq as [Hne Hq]. rewrite IH by done.
  by apply lookup_add_dir_ne.
Qed.

Lemma elem_of_mkdir_list p q : q ∈ mkdir_list p <-> q = p \/ q ∈ ancestors p.
Proof.
  unfold mkdir_list. rewrite list_elem_of_In, <-in_rev, <-list_elem_of_In. apply elem_of_cons.
Qed.

Lemma ancestors_suffix p q : q ∈ ancestors p -> q `suffix_of` p /\ length q < length p.
Proof.
  induction p as [|c p IH]; simpl; [set_solver|].
  intros [->|Hq]%elem_of_cons; [split; [by apply suffix_cons_r|simpl; lia]|].
  destruct (IH Hq) as [? ?]. split; [by apply suffix_cons_r|simpl; lia].
Qed.

(** Making the directories of [p] changes nothing below or beside them. *)
Lemma lookup_mkdirs_longer f p q : (length p < length q)%nat -> mkdirs f p !! q = f !! q.
Proof.
  intros Hl. apply lookup_add_dirs_notin. rewrite elem_of_mkdir_list.
  intros [->|[_ H]%ancestors_suffix]; lia.
Qed.

Lemma lookup_mkdirs f p q n : f !! q = Some n -> mkdirs f p !! q = Some n.
Proof.
  unfold mkdirs. generalize (mkdir_list p) as l. intros l. revert f.
  induction l as [|d l IH]; intros f Hq; simpl; [done|]. apply IH.
  unfold add_dir. destruct d as [|c d]; [by destruct (f !! [])|].
  destruct (f !! (c :: d)) eqn:E; [done|].
  rewrite lookup_insert_ne; [done|]. intros Heq. congruence.
Qed.

Lemma clean_path_suffix p q : q `suffix_of` p -> clean_path p -> clean_path q.
Proof. intros [k ->] H%Forall_app. apply H. Qed.

Lemma clean_not_temp p : clean_path p -> is_temp p = false.
Proof. by destruct 1. Qed.

Lemma no_temps_mkdirs f p : clean_path p -> no_temps f -> no_temps (mkdirs f p).
Proof.
  intros Hp Hf q Hq. unfold mkdirs. rewrite lookup_add_dirs_notin; [auto|].
  rewrite elem_of_mkdir_list. intros [->|[Hs _]%ancestors_suffix].
  - rewrite clean_not_temp in Hq by done. done.
  - pose proof (clean_path_suffix _ _ Hs Hp) as Hc.
    rewrite clean_not_temp in Hq by done. done.
Qed.

(** The directories of a path can be made: no file stands in the way. *)
Definition dir_ready (f : fs) (d : path) : Prop :=
  forall q, q ∈ d :: ancestors d -> content f q = None.

Lemma dir_ready_existsb f d :
  dir_ready f d -> existsb (is_file f) (d :: ancestors d) = false.
Proof.
  intros Hd. apply not_true_iff_false. intros (q & Hin & Hq)%existsb_exists.
  apply is_file_content in Hq as [x Hx]. rewrite Hd in Hx; [done|].
  by apply list_elem_of_In.
Qed.

Lemma is_dir_mkdirs f d : dir_ready f d -> is_dir (mkdirs f d) d = true.
Proof.
  intros Hd. destruct d as [|c d]; [done|]. unfold mkdirs, mkdir_list. simpl.
  rewrite foldl_app. simpl.
  set (g := foldl add_dir _ _).
  assert (content g (c :: d) = None) as Hg.
  { unfold g. rewrite content_add_dirs. apply Hd. by left. }
  revert Hg. unfold content, add_dir.
  destruct (g !! (c :: d)) as [[]|] eqn:El; [done|by rewrite El|].
  by rewrite lookup_insert_eq.
Qed.

Lemma dir_ready_keeps f f' d :
  (forall q, q ∈ d :: ancestors d -> content f' q = content f q) ->
  dir_ready f d -> dir_ready f' d.
Proof. intros He Hd q Hq. rewrite He by done. by apply Hd. Qed.

(** *** Equations of the calls [WriteFileAtomic] makes *)

Section nofault_eqs.
Context `{NoFault}.

Lemma MkdirAll_eq d s :
  dir_ready (st_fs s) d ->
  MkdirAll d s = (Ok tt, setfs (ticked s) (mkdirs (st_fs s) d)).
Proof.
  intros Hd. unfold MkdirAll. rewrite sys_eq. unfold fs_mkdir_all.
  by rewrite dir_ready_existsb.
Qed.

Lemma CreateTemp_eq d s :
  no_temps (st_fs s) -> is_dir (st_fs s) d = true ->
  exists z, CreateTemp d ".tmp-" s =
    (Ok (temp_name ".tmp-" z :: d),
     setfs (ticked s) (<[temp_name ".tmp-" z :: d := File ""]> (st_fs s))).
Proof.
  intros Hn Hd. unfold CreateTemp. rewrite sys_eq, Hd.
  exists (tmprand (st_tick s) 0). unfold temp_tries.
  change 10000%nat with (S (Nat.pred 10000)).
  cbn [pick_temp]. rewrite Hn by apply temp_name_temp. done.
Qed.

Lemma Rename_eq a b d s :
  st_fs s !! a = Some (File d) -> st_fs s !! b <> Some Directory ->
  is_dir (st_fs s) (path_dir b) = true ->
  Rename a b s = (Ok tt, setfs (ticked s) (<[b := File d]> (delete a (st_fs s)))).
Proof.
  intros Ha Hb Hd. unfold Rename. rewrite sys_eq. unfold fs_rename.
  rewrite Ha, Hd. by destruct (st_fs s !! b) as [[|]|].
Qed.
End nofault_eqs.

(** ** Listings and path texts *)

Lemma fs_read_ok f p d : fs_read f p = Ok d -> content f p = Some d.
Proof.
  unfold fs_read, fs_lookup, content. destruct p as [|c p]; [done|].
  destruct (f !! (c :: p)) as [[d'|]|]; by intros [= ->].
Qed.

Lemma content_read_missing f p e : fs_read f p = Err e -> is_not_exist e = true -> content f p = None.
Proof.
  unfold fs_read, fs_lookup, content. destruct p as [|c p]; [by intros [= <-]|].
  destruct (f !! (c :: p)) as [[d|]|]; [done|by intros [= <-]|done].
Qed.

Lemma fs_read_dir_spec f d l :
  fs_read_dir f d = Ok l ->
  NoDup (map fst l) /\
  forall n b, (n, b) ∈ l <-> exists nd, f !! (n :: d) = Some nd /\
    b = match nd with Directory => true | File _ => false end.
Proof.
  unfold fs_read_dir. destruct (fs_lookup f d) as [[|]|]; try done. intros [= <-].
  assert (forall n b, (n, b) ∈ omap (entry_of d) (map_to_list f) <->
            exists nd, f !! (n :: d) = Some nd /\
              b = match nd with Directory => true | File _ => false end) as Hin.
  { intros n b. rewrite list_elem_of_omap. split.
    - intros ([p nd] & Hp%elem_of_map_to_list & He). unfold entry_of in He.
      destruct p as [|n' d']; [done|]. case_bool_decide; simplify_eq. eauto.
    - intros (nd & Hl & ->). exists (n :: d, nd). split; [by apply elem_of_map_to_list|].
      unfold entry_of. by rewrite bool_decide_eq_true_2. }
  split.
  - clear Hin. rewrite merge_sort_Permutation. pose proof (NoDup_fst_map_to_list f) as Hnd.
    induction (map_to_list f) as [|[p nd] m IH]; [constructor|]. simpl in Hnd.
    apply NoDup_cons in Hnd as [Hp Hnd]. cbn [omap list_omap].
    unfold entry_of at 1. destruct p as [|n d']; [exact (IH Hnd)|].
    case_bool_decide; subst; [|exact (IH Hnd)].
    cbn [map fst]. apply NoDup_cons. split; [|exact (IH Hnd)].
    intros ([n' b'] & Hn & Hin')%list_elem_of_fmap. simpl in Hn. subst n'.
    apply list_elem_of_omap in Hin' as ([p nd'] & Hm & He). unfold entry_of in He.
    destruct p as [|n' d'']; [done|]. case_bool_decide; simplify_eq.
    apply Hp. apply list_elem_of_fmap. by exists (n :: d'', nd').
  - intros n b. by rewrite merge_sort_Permutation.
Qed.

Lemma Split_Join l :
  l <> [] -> Forall (fun c => in_string "/" c = false) l -> Split (Join l "/") "/" = l.
Proof.
  intros Hne Hl. induction Hl as [|a l Ha Hl IH]; [done|]. destruct l as [|b l].
  - simpl. by apply Split_no_sep.
  - change (Join (a :: b :: l) "/") with (a +:+ String "/" (Join (b :: l) "/")).
    rewrite Split_cons by done. by rewrite IH.
Qed.

Lemma plain_facts c :
  plain c = true -> in_string "/" c = false /\ forall p, push p c = c :: p.
Proof.
  unfold plain, push. rewrite !andb_true_iff, !negb_true_iff. intros [[[H1 H2] H3] H4].
  split; [done|]. intros p. by rewrite H1, H2, H3.
Qed.

Lemma path_of_string_roundtrip p :
  Forall (fun c => plain c = true) p -> path_of_string (path_string p) = p.
Proof.
  intros Hp. unfold path_of_string, path_string, join1.
  assert (Forall (fun c => plain c = true) (rev p)) as Hr by (by apply Forall_rev).
  change ("/" +:+ Join (rev p) "/") with ("" +:+ String "/" (Join (rev p) "/")).
  rewrite Split_cons by done. cbn [foldl]. change (push [] "") with (@nil string).
  destruct (decide (rev p = [])) as [He|Hne].
  { rewrite He. simpl. apply (f_equal (@rev string)) in He. rewrite rev_involutive in He. by subst. }
  rewrite Split_Join; [|done|].
  2:{ eapply Forall_impl; [exact Hr|]. intros c Hc. by apply plain_facts. }
  assert (forall l q, Forall (fun c => plain c = true) l -> foldl push q l = rev l ++ q) as Hf.
  { induction l as [|a l IH]; intros q Hl; [done|]. apply Forall_cons in Hl as [Ha Hl].
    cbn [foldl rev]. rewrite (proj2 (plain_facts a Ha)), IH by done. by rewrite <-app_assoc. }
  rewrite Hf by done. by rewrite rev_involutive, app_nil_r.
Qed.
