(* ===== verification/Json.v ===== *)
(** * JSON values, the ojson and encoding/json libraries, and envelopes

    A [json] is what both libraries exchange: an ordered tree whose numbers keep
    their literal text ([json.Number], ojson's number).  A Go [map\[string\]any] is
    the field list of an object.  ojson's Void is an absent value, [None].

    Reading and printing text, compiling and validating schemas and applying
    patches are done by libraries outside this repository; they are the classes
    [OJSON] and [GoJSON], with what their callers rely on in [OJSONLaws] and
    [GoJSONLaws].  Members are looked up by their exact names, as every writer of
    this repository spells them; encoding/json would also take a member whose
    name differs in case only. *)

From S2P Require Import Prelude GoStrings.

Inductive json :=
| JNull
| JBool (b : bool)
| JNum (lit : string)
| JStr (s : string)
| JArr (l : list json)
| JObj (m : list (string * json)).

Notation fields := (list (string * json)).

(** Induction through the nested lists. *)
Section json_ind.
Variable P : json -> Prop.
Hypothesis Hnull : P JNull.
Hypothesis Hbool : forall b, P (JBool b).
Hypothesis Hnum : forall l, P (JNum l).
Hypothesis Hstr : forall s, P (JStr s).
Hypothesis Harr : forall l, Forall P l -> P (JArr l).
Hypothesis Hobj : forall m, Forall (fun kv => P (snd kv)) m -> P (JObj m).

Fixpoint json_nested_ind (v : json) : P v :=
  match v with
  | JNull => Hnull
  | JBool b => Hbool b
  | JNum l => Hnum l
  | JStr s => Hstr s
  | JArr l => Harr l ((fix go l := match l return Forall P l with
      | [] => Forall_nil_2 P
      | x :: l' => Forall_cons_2 P x l' (json_nested_ind x) (go l')
      end) l)
  | JObj m => Hobj m ((fix go m := match m return Forall (fun kv => P (snd kv)) m with
      | [] => Forall_nil_2 _
      | x :: m' => Forall_cons_2 (fun kv => P (snd kv)) x m' (json_nested_ind (snd x)) (go m')
      end) m)
  end.
End json_ind.

#[export] Instance json_eq_dec : EqDecision json.
Proof.
  refine (fix go (x y : json) {struct x} : Decision (x = y) :=
    let _ : EqDecision json := @go in
    match x, y with
    | JNull, JNull => left eq_refl
    | JBool a, JBool b => cast_if (decide (a = b))
    | JNum a, JNum b => cast_if (decide (a = b))
    | JStr a, JStr b => cast_if (decide (a = b))
    | JArr a, JArr b => cast_if (decide (a = b))
    | JObj a, JObj b => cast_if (decide (a = b))
    | _, _ => right _
    end); abstract congruence.
Defined.

(** ** ojson values *)

Inductive JSONKind :=
| KindVoid | KindObject | KindArray | KindString | KindNumber | KindBoolean | KindNull.

#[export] Instance JSONKind_eq_dec : EqDecision JSONKind.
Proof. solve_decision. Defined.

Definition Kind (v : option json) : JSONKind :=
  match v with
  | None => KindVoid
  | Some JNull => KindNull
  | Some (JBool _) => KindBoolean
  | Some (JNum _) => KindNumber
  | Some (JStr _) => KindString
  | Some (JArr _) => KindArray
  | Some (JObj _) => KindObject
  end.

(** [v.Get key]: Void on a missing field and on anything but an object. *)
Definition Get (v : json) (key : string) : option json :=
  match v with JObj m => aget m key | _ => None end.

Definition NewString (s : string) : option json :=
  if ValidString s then Some (JStr s) else None.

(** [v.SetTry key value] on a value with no schema attached. *)
Definition SetTry (v : json) (key : string) (value : option json) : result json :=
  match v with
  | JObj m =>
      match value with
      | Some x => Ok (JObj (aset m key x))
      | None => Err (errorf "cannot set field to void")
      end
  | _ => Err (errorf "cannot set field on a value that is not an object")
  end.

(** [v.Remove key] and [v.RemoveTry key] with the result ignored. *)
Definition RemoveField (v : json) (key : string) : json :=
  match v with JObj m => JObj (adel m key) | _ => v end.

(** [v.String()]. *)
Definition ValueString (v : option json) : string :=
  match v with
  | None => ""
  | Some (JStr s) => s
  | Some (JNum l) => l
  | Some (JBool true) => "true"
  | Some (JBool false) => "false"
  | Some JNull => "null"
  | Some (JObj _) => "[object]"
  | Some (JArr _) => "[array]"
  end.

Definition ToStringOrEmpty (v : option json) : string :=
  match v with Some (JStr s) => s | _ => "" end.

(** [v.ToMapTry()]. *)
Definition ToMapTry (v : json) : result fields :=
  match v with
  | JObj m => Ok m
  | _ => Err (errorf "expected object")
  end.

(** The Go type assertion [v.(string)], with the zero value on failure. *)
Definition as_string (v : option json) : string :=
  match v with Some (JStr s) => s | _ => "" end.

(** [b, _ := v.(bool)]. *)
Definition as_bool (v : option json) : bool :=
  match v with Some (JBool b) => b | _ => false end.

(** ** Compiled schemas *)

Inductive schemaEntry :=
| SE (name : string) (kind : JSONKind) (format : string)
     (children : list schemaEntry) (items : option schemaEntry) (custom : option json).

Definition entry_name (e : schemaEntry) : string := let 'SE n _ _ _ _ _ := e in n.
Definition entry_kind (e : schemaEntry) : JSONKind := let 'SE _ k _ _ _ _ := e in k.
Definition entry_format (e : schemaEntry) : string := let 'SE _ _ f _ _ _ := e in f.
Definition entry_children (e : schemaEntry) : list schemaEntry := let 'SE _ _ _ c _ _ := e in c.
Definition entry_items (e : schemaEntry) : option schemaEntry := let 'SE _ _ _ _ i _ := e in i.
Definition entry_custom (e : schemaEntry) : option json := let 'SE _ _ _ _ _ c := e in c.

(** [entry.Child name]: the last child of that name would win in ojson's index;
    compilation rejects duplicate names, so the first is the only one. *)
Definition entry_child (e : schemaEntry) (name : string) : option schemaEntry :=
  list_find (fun c => entry_name c = name) (entry_children e) ≫= fun p => Some (snd p).

(** Induction through children and items. *)
Section schema_ind.
Variable P : schemaEntry -> Prop.
Hypothesis Hse : forall n k f cs items c,
  Forall P cs -> (forall it, items = Some it -> P it) -> P (SE n k f cs items c).

Fixpoint schema_nested_ind (e : schemaEntry) : P e :=
  match e with
  | SE n k f cs items c => Hse n k f cs items c
      ((fix go l := match l return Forall P l with
        | [] => Forall_nil_2 P
        | x :: l' => Forall_cons_2 P x l' (schema_nested_ind x) (go l')
        end) cs)
      (match items return forall it, items = Some it -> P it with
       | Some i => fun it H => eq_rect i P (schema_nested_ind i) it (f_equal (default i) H)
       | None => fun it H => False_ind _ (eq_ind None (fun o => match o with None => True | _ => False end) I _ H)
       end)
  end.
End schema_ind.

(** No object schema has two children of one name. *)
Fixpoint schema_ok (e : schemaEntry) : bool :=
  match e with
  | SE _ _ _ cs items _ =>
      bool_decide (NoDup (map entry_name cs)) && forallb schema_ok cs &&
      match items with Some it => schema_ok it | None => true end
  end.

(** ** The libraries *)

Record patch_op := mkPatchOp { op_path : string; op_from : string; op_json : json }.

Class OJSON := {
  number_ok : string -> bool;
  ReadBytesNoSchema : string -> result json;
  ToPrettyJSONBytes : json -> string;                   (* indent 2 *)
  ToJSONBytes : json -> string;                         (* compact *)
  CompileSchemaBytes : string -> result schemaEntry;    (* with the Datorium formats *)
  SchemaValidate : schemaEntry -> json -> result unit;
  PatchFromJSONValue : json -> result (list patch_op);
  ReadPatchBytes : string -> result (list patch_op);
  ApplyPatch : json -> list patch_op -> result json;
}.

(** encoding/json on ordered values: the fields of a struct come in declaration
    order, and a Go map is passed through [map_order] first. *)
Class GoJSON := {
  Marshal : json -> string;
  MarshalIndent : json -> string;   (* prefix empty, indent 2 *)
  Unmarshal : string -> result json;
  Decode : string -> result json;   (* json.Decoder: the first value, whatever follows *)
  DecodeRaw : string -> result (list (string * string));
                                    (* the same, into a map[string]json.RawMessage: the texts of
                                       the members; null is an empty map *)
  Encode : json -> string;          (* json.Encoder without HTML escapes, with its newline *)
  FloatText : string -> string;     (* a number literal after a trip through float64 *)
  Sprint : json -> string;          (* fmt.Sprint of a decoded array or object *)
}.

(** A value decoded without [UseNumber]: its numbers are float64. *)
Fixpoint floats `{GoJSON} (v : json) : json :=
  match v with
  | JNum l => JNum (FloatText l)
  | JArr l => JArr (map floats l)
  | JObj m => JObj (map (fun kv => (fst kv, floats (snd kv))) m)
  | _ => v
  end.

Definition key_le (a b : string * json) : Prop := str_leb (fst a) (fst b) = true.

#[export] Instance key_le_dec : RelDecision key_le.
Proof. intros a b. unfold key_le. apply _. Defined.

(** The order in which encoding/json prints the entries of a Go map. *)
Fixpoint map_order (v : json) : json :=
  match v with
  | JArr l => JArr (map map_order l)
  | JObj m => JObj (merge_sort key_le (map (fun kv => (fst kv, map_order (snd kv))) m))
  | _ => v
  end.

Section well_formed.
Context `{OJSON}.

Definition nodup_keys (m : fields) : bool := bool_decide (NoDup (akeys m)).

(** The values the libraries produce: UTF-8 strings, legal numbers, and no
    object with two fields of one name. *)
Fixpoint well_formed (v : json) : bool :=
  match v with
  | JNull | JBool _ => true
  | JNum l => number_ok l
  | JStr s => ValidString s
  | JArr l => forallb well_formed l
  | JObj m =>
      nodup_keys m && forallb (fun kv => ValidString (fst kv) && well_formed (snd kv)) m
  end.

Class OJSONLaws : Prop := {
  number_int : forall z, number_ok (Itoa z) = true;
  read_well_formed : forall s v, ReadBytesNoSchema s = Ok v -> well_formed v = true;
  read_pretty : forall v, well_formed v = true ->
    ReadBytesNoSchema (ToPrettyJSONBytes v) = Ok v;
  read_compact : forall v, well_formed v = true -> ReadBytesNoSchema (ToJSONBytes v) = Ok v;
  read_compact_object : forall m v, ReadBytesNoSchema (ToJSONBytes (JObj m)) = Ok v -> exists m', v = JObj m';
  read_empty : forall v, ReadBytesNoSchema "" <> Ok v;
  read_newline : forall s, ReadBytesNoSchema (s +:+ "
") = ReadBytesNoSchema s;
  compile_ok : forall s e, CompileSchemaBytes s = Ok e -> schema_ok e = true;
  patch_well_formed : forall v ops w, well_formed v = true ->
    ApplyPatch v ops = Ok w -> well_formed w = true;
}.

Context `{GoJSON}.

Class GoJSONLaws : Prop := {
  read_marshal : forall v, well_formed v = true -> ReadBytesNoSchema (Marshal v) = Ok v;
  read_indent : forall v, well_formed v = true ->
    ReadBytesNoSchema (MarshalIndent v) = Ok v;
  read_encode : forall v, well_formed v = true -> ReadBytesNoSchema (Encode v) = Ok v;
  unmarshal_read : forall s v, ReadBytesNoSchema s = Ok v -> Unmarshal s = Ok v;
  decode_whole : forall s v, Unmarshal s = Ok v -> Decode s = Ok v;
  marshal_object : forall m, well_formed (JObj m) = true ->
    exists t, Marshal (JObj m) = "{" +:+ t +:+ "}" /\ in_string "010" t = false;
}.
End well_formed.

(** [append(out, '\n')] unless the text already ends in a newline. *)
Definition newline : string := "
".

Definition ensure_newline (out : string) : string :=
  if HasSuffix out newline then out else out +:+ newline.

Section pretty.
Context `{OJSON}.

(** [docjson.PrettyBytes] and [config.PrettyJSONBytes]. *)
Definition PrettyBytes (raw : string) : result string :=
  result_bind (ReadBytesNoSchema raw) (fun doc =>
  Ok (ensure_newline (ToPrettyJSONBytes doc))).
End pretty.

(** ** Envelopes *)

Record EError := mkEError {
  Code : string;
  EPath : string;
  Message : string;
  Expected : option json;
  Actual : option json;
}.

Definition mk_err (code message : string) : EError := mkEError code "" message None None.

(** A value of the envelope map: a JSON value or the error list. *)
Inductive evalue :=
| EJ (v : json)
| EErrors (l : list EError).

Notation Envelope := (list (string * evalue)).

Definition aset_all {V} (m l : list (string * V)) : list (string * V) :=
  foldl (fun m kv => aset m (fst kv) (snd kv)) m l.

Definition ej (l : fields) : Envelope := map (fun kv => (fst kv, EJ (snd kv))) l.

Definition OK (fs : fields) : Envelope := aset_all [("ok", EJ (JBool true))] (ej fs).

Definition Fail (fs : fields) (errs : list EError) : Envelope :=
  aset (aset_all [("ok", EJ (JBool false))] (ej fs)) "errors" (EErrors errs).

Definition env_ok (r : Envelope) : bool :=
  match aget r "ok" with Some (EJ (JBool b)) => b | _ => false end.

Definition env_codes (r : Envelope) : list string :=
  match aget r "errors" with Some (EErrors l) => map Code l | _ => [] end.

Definition env_field (r : Envelope) (k : string) : option json :=
  match aget r k with Some (EJ v) => Some v | _ => None end.

(** ** Lemmas *)

Lemma ensure_newline_read `{OJSONLaws} s :
  ReadBytesNoSchema (ensure_newline s) = ReadBytesNoSchema s.
Proof. unfold ensure_newline. destruct (HasSuffix _ _); [done|]. apply read_newline. Qed.

Lemma read_pretty_newline `{OJSONLaws} v :
  well_formed v = true ->
  ReadBytesNoSchema (ensure_newline (ToPrettyJSONBytes v)) = Ok v.
Proof. intros Hv. rewrite ensure_newline_read. by apply read_pretty. Qed.

(** Pretty-printing keeps the value: what is stored reads back as the value of
    the text that was given. *)
Lemma PrettyBytes_read `{OJSONLaws} raw v :
  ReadBytesNoSchema raw = Ok v ->
  exists out, PrettyBytes raw = Ok out /\ ReadBytesNoSchema out = Ok v.
Proof.
  intros Hr. unfold PrettyBytes. rewrite Hr. simpl. eexists. split; [done|].
  apply read_pretty_newline. by eapply read_well_formed.
Qed.

Lemma unmarshal_indent_newline `{OJSONLaws} `{!GoJSON} `{!GoJSONLaws} v :
  well_formed v = true -> Unmarshal (MarshalIndent v +:+ newline) = Ok v.
Proof.
  intros Hv. apply unmarshal_read. rewrite (read_newline (MarshalIndent v)).
  by apply read_indent.
Qed.

Lemma aget_aset_all_notin {V} (l m : list (string * V)) k :
  k ∉ akeys l -> aget (aset_all m l) k = aget m k.
Proof.
  unfold aset_all. revert m. induction l as [|[k' v'] l IH]; intros m Hk; simpl; [done|].
  simpl in Hk. apply not_elem_of_cons in Hk as [Hne Hk].
  rewrite IH by done. by apply aget_aset_ne.
Qed.

Lemma akeys_ej l : akeys (ej l) = akeys l.
Proof. unfold akeys, ej. rewrite map_map. done. Qed.

Lemma Fail_codes fs errs : env_codes (Fail fs errs) = map Code errs.
Proof. unfold env_codes, Fail. by rewrite aget_aset_eq. Qed.

Lemma Fail_not_ok fs errs : "ok" ∉ akeys fs -> env_ok (Fail fs errs) = false.
Proof.
  intros Hk. unfold env_ok, Fail. rewrite aget_aset_ne by done.
  by rewrite aget_aset_all_notin by (by rewrite akeys_ej).
Qed.

Lemma OK_ok fs : "ok" ∉ akeys fs -> env_ok (OK fs) = true.
Proof.
  intros Hk. unfold env_ok, OK.
  by rewrite aget_aset_all_notin by (by rewrite akeys_ej).
Qed.

#[export] Hint Rewrite Fail_codes : go.
