(* ===== verification/Store.v ===== *)
(** * Package fsstore, documents: atomic writes, document files, change queue

    [internal/fsstore/atomic.go] and [documents.go], with the cascade of
    [files.go] that deleting a document triggers.  [dataDir] is the first
    argument of every function, as in the source. *)

From S2P Require Import Prelude GoStrings World Json.

(** ** Paths *)

Definition CollectionDir (dataDir : path) (collection : string) : path :=
  join dataDir [collection].

Definition DocumentPath (dataDir : path) (collection id : string) : path :=
  join (CollectionDir dataDir collection) [id +:+ ".json"].

Definition PreviousDocumentPath (dataDir : path) (collection id : string) : path :=
  join (CollectionDir dataDir collection) ["." +:+ id +:+ ".json"].

Definition DeletedDocumentPath (dataDir : path) (collection id : string) : path :=
  PreviousDocumentPath dataDir collection id.

Definition ChangeQueueDir (dataDir : path) (collection : string) : path :=
  join (CollectionDir dataDir collection) [".changeQueue"].

Definition OperationsDir (dataDir : path) : path := join dataDir [".operations"].

Definition OperationPath (dataDir : path) (operationID : string) : path :=
  join (OperationsDir dataDir) [operationID +:+ ".json"].

Definition SearchDir (dataDir : path) (collection : string) : path :=
  join (CollectionDir dataDir collection) [".search"].

Definition SearchResultPath (dataDir : path) (collection searchName : string)
    (encodedSegments : list string) : path :=
  join (SearchDir dataDir collection)
    (searchName :: encodedSegments ++ ["matches.json"]).

Definition PendingCacheUpdatesDir (dataDir : path) (sourceCollection : string) : path :=
  join (CollectionDir dataDir sourceCollection) [".pendingCacheUpdates"].

Definition PendingCacheUpdatePath (dataDir : path)
    (sourceCollection readServerName docID : string) : path :=
  join (PendingCacheUpdatesDir dataDir sourceCollection)
    [readServerName +:+ "." +:+ docID +:+ ".json"].

Definition CacheDir (dataDir : path) (sourceCollection : string) : path :=
  join dataDir [".cache"; sourceCollection].

Definition CachePath (dataDir : path) (sourceCollection sourceDocID : string) : path :=
  join (CacheDir dataDir sourceCollection) [sourceDocID +:+ ".json"].

Definition QueueEntryPath (dataDir : path) (collection filename : string) : path :=
  join (ChangeQueueDir dataDir collection) [filename].

Definition queue_name (change collection id ext : string) : string :=
  change +:+ "__" +:+ collection +:+ "__" +:+ id +:+ ext.

Definition TakenQueuePath (dataDir : path) (collection change id : string) : path :=
  join (ChangeQueueDir dataDir collection) [queue_name change collection id ".taken"].

Definition LFSDir (dataDir : path) (collection docID : string) : path :=
  join (CollectionDir dataDir collection) ["lfs"; docID].

Definition FilesManifestPath (dataDir : path) (collection docID : string) : path :=
  join (CollectionDir dataDir collection) [docID +:+ "__files.jsonl"].

Definition FileOpsDir (dataDir : path) (collection docID : string) : path :=
  join (CollectionDir dataDir collection) [".fileOps"; docID].

(** ** Identifiers *)

Definition MaxDocumentIDRunes : nat := 255.
Definition MaxDocumentIDBytes : nat := 249.

Definition id_rune (r : Z) : bool :=
  in_range 65 r 90 || in_range 97 r 122 || in_range 48 r 57 ||
  (r =? 95)%Z || (r =? 45)%Z || (r =? 46)%Z.

(** [idgen.ValidDocumentID]. *)
Definition ValidDocumentID (id : string) : bool :=
  if (id =? "") || (id =? ".") || (id =? "..") || (id =? "null") then false
  else if HasPrefix id "." then false
  else if (MaxDocumentIDRunes <? RuneCountInString id)%nat then false
  else if (MaxDocumentIDBytes <? String.length id)%nat then false
  else forallb id_rune (runes id).

(** [filepath.Clean] on a string without separators. *)
Definition clean_component (s : string) : string := if s =? "" then "." else s.

Definition SafeID (id : string) : bool :=
  if (id =? "") || (id =? ".") || (id =? "..") || (id =? "null") then false
  else if HasPrefix id "." then false
  else if (MaxDocumentIDRunes <? RuneCountInString id)%nat then false
  else if (MaxDocumentIDBytes <? String.length id)%nat then false
  else if Contains id "/" || Contains id "\" then false
  else if (clean_component id <>? id) || HasPrefix (clean_component id) ".." then false
  else forallb id_rune (runes id).

(** ** Queue file names *)

Definition ParseQueueFilename (name : string) : option (string * string * string * string) :=
  let split base ext :=
    match SplitN base "__" 3 with
    | [change; collection; id] => Some (change, collection, id, ext)
    | _ => None
    end in
  if HasSuffix name ".queue" then split (TrimSuffix name ".queue") "queue"
  else if HasSuffix name ".taken" then split (TrimSuffix name ".taken") "taken"
  else None.

(** ** Atomic writes *)

Section store.
Context `{Env} `{OJSON}.

(** The body of [WriteFileAtomic] between the creation of the temporary file and
    the end of the rename: on an error the deferred call removes the file. *)
Definition fill_temp (tmp target : path) (data : string) : M (result unit) :=
  r ← WriteTo tmp data;
  match r with
  | Err e => _ ← Close tmp; mret (Err e)
  | Ok _ =>
      r ← Sync tmp;
      match r with
      | Err e => _ ← Close tmp; mret (Err e)
      | Ok _ =>
          Close tmp ;?
          Chmod tmp ;?
          r ← Rename tmp target;
          match r with
          | Err e => mret (Err (errorf "atomic rename"))
          | Ok _ => mret (Ok tt)
          end
      end
  end.

(** [os.Open dir], [Sync], [Close], all errors ignored. *)
Definition sync_dir (dir : path) : M unit :=
  r ← Stat dir;
  match r with
  | Err _ => mret tt
  | Ok _ => _ ← Sync dir; _ ← Close dir; mret tt
  end.

Definition WriteFileAtomic (target : path) (data : string) : M (result unit) :=
  let dir := path_dir target in
  MkdirAll dir ;?
  tmp <-? CreateTemp dir ".tmp-";
  r ← fill_temp tmp target data;
  match r with
  | Err e => _ ← Remove tmp; mret (Err e)
  | Ok _ => _ ← sync_dir dir; mret (Ok tt)
  end.

(** ** Documents *)

Definition EnsureCollectionDir (dataDir : path) (collection : string) : M (result unit) :=
  MkdirAll (CollectionDir dataDir collection).

Definition WriteDocumentJSON (p : path) (raw : string) : M (result unit) :=
  match PrettyBytes raw with
  | Err e => mret (Err e)
  | Ok pretty => WriteFileAtomic p pretty
  end.

Definition ReadDocumentBytes (p : path) : M (result string) := ReadFile p.

Definition ReadDocumentValue (p : path) : M (result json) :=
  data <-? ReadFile p;
  match ReadBytesNoSchema data with
  | Err _ => mret (Err (errorf "invalid document JSON"))
  | Ok doc => mret (Ok doc)
  end.

Definition ReadDocumentJSON (p : path) : M (result fields) :=
  doc <-? ReadDocumentValue p;
  match ToMapTry doc with
  | Err _ => mret (Err (errorf "invalid document JSON"))
  | Ok m => mret (Ok m)
  end.

Definition VerifyDocumentVersion (p : path) (expected : string) : M (result unit) :=
  doc <-? ReadDocumentValue p;
  if ValueString (Get doc "#") =? expected then mret (Ok tt)
  else mret (Err (errorf "version mismatch after write")).

Definition documentVersion (raw : string) : result string :=
  result_bind (ReadBytesNoSchema raw) (fun doc => Ok (ValueString (Get doc "#"))).

(** The verification loop: [attempts] tries, the last error on failure; the
    sleeps between them do not touch the state. *)
Fixpoint verify_loop (attempts : nat) (p : path) (version : string) (last : error)
    : M (result unit) :=
  match attempts with
  | O => mret (Err (errorf "post-rename verification failed"))
  | S n =>
      r ← VerifyDocumentVersion p version;
      match r with
      | Ok _ => mret (Ok tt)
      | Err e => verify_loop n p version e
      end
  end.

Definition WriteDocumentJSONVerified (p : path) (raw : string) : M (result unit) :=
  match documentVersion raw with
  | Err e => mret (Err e)
  | Ok version =>
      WriteDocumentJSON p raw ;?
      if version =? "" then mret (Ok tt)
      else verify_loop 5 p version io_error
  end.

Definition PreservePreviousIfAbsent (dataDir : path) (collection id : string)
    : M (result unit) :=
  let live := DocumentPath dataDir collection id in
  let prev := PreviousDocumentPath dataDir collection id in
  r ← Stat prev;
  match r with
  | Ok _ => mret (Ok tt)
  | Err e =>
      if negb (is_not_exist e) then mret (Err e)
      else Stat live ;? Rename live prev
  end.

(** [os.Remove p] with a missing file counted as success. *)
Definition remove_if_present (p : path) : M (result unit) :=
  r ← Remove p;
  match r with
  | Ok _ => mret (Ok tt)
  | Err e => if is_not_exist e then mret (Ok tt) else mret (Err e)
  end.

Definition CascadeDeleteDocumentFiles (dataDir : path) (collection docID : string)
    : M (result unit) :=
  remove_if_present (FilesManifestPath dataDir collection docID) ;?
  RemoveAll (LFSDir dataDir collection docID) ;?
  RemoveAll (FileOpsDir dataDir collection docID).

Definition SoftDeleteDocument (dataDir : path) (collection id : string) : M (result unit) :=
  let live := DocumentPath dataDir collection id in
  let prev := PreviousDocumentPath dataDir collection id in
  r ← Stat prev;
  e ← (match r with Ok _ => Remove live | Err _ => Rename live prev end);
  match e with
  | Err e => mret (Err e)
  | Ok _ => CascadeDeleteDocumentFiles dataDir collection id
  end.

Definition EnqueueChange (dataDir : path) (collection id change : string) : M (result unit) :=
  let dir := ChangeQueueDir dataDir collection in
  MkdirAll dir ;?
  WriteFileAtomic (join dir [queue_name change collection id ".queue"]) "".

(** ** Listings *)

Definition ListCollections (dataDir : path) : M (result (list string)) :=
  r ← ReadDir dataDir;
  match r with
  | Err e => if is_not_exist e then mret (Ok []) else mret (Err e)
  | Ok entries =>
      mret (Ok (map fst (List.filter (fun e => snd e && negb (HasPrefix (fst e) ".")) entries)))
  end.

Definition ListQueueEntries (dataDir : path) (collection : string) : M (result (list string)) :=
  r ← ReadDir (ChangeQueueDir dataDir collection);
  match r with
  | Err e => if is_not_exist e then mret (Ok []) else mret (Err e)
  | Ok entries => mret (Ok (map fst (List.filter (fun e => negb (snd e)) entries)))
  end.

Definition DocumentExistsLive (dataDir : path) (collection docID : string) : M bool :=
  r ← Stat (DocumentPath dataDir collection docID);
  mret (is_ok r).
End store.

(** ** Atomicity *)

(** The temporary files of a write to [p]. *)
Definition temps_of (p q : path) : Prop := is_temp q = true /\ path_dir q = path_dir p.

Definition written (p q : path) : Prop := q = p \/ temps_of p q.

Section atomic.
Context `{E : Env}.

Lemma append_file_keeps (P : path -> Prop) p w f : P p -> keeps P f (append_file p w f).
Proof.
  intros Hp. unfold append_file. destruct (f !! p) as [[d|]|]; try done.
  by apply keeps_insert.
Qed.

Lemma append_file_empty p w f d :
  f !! p = Some (File d) -> append_file p w f !! p = Some (File (d +:+ w)).
Proof. intros Hp. unfold append_file. by rewrite Hp, lookup_insert_eq. Qed.

Lemma sync_dir_spec d s : wp (sync_dir d) (fun _ s' => st_fs s' = st_fs s) s.
Proof.
  unfold sync_dir. wp_step Stat_spec. intros [n|e] s1 [H1 _]; [|by apply wp_ret].
  wp_step Sync_spec. intros _ s2 H2. wp_step Close_spec. intros _ s3 H3.
  apply wp_ret. congruence.
Qed.

Lemma fill_temp_spec tmp target data s :
  tmp <> target -> st_fs s !! tmp = Some (File "") ->
  wp (fill_temp tmp target data) (fun r s' =>
    match r with
    | Ok _ => content (st_fs s') target = Some data /\
              keeps (fun q => q = target \/ q = tmp) (st_fs s) (st_fs s')
    | Err _ => keeps (eq tmp) (st_fs s) (st_fs s')
    end) s.
Proof.
  intros Hne Htmp. unfold fill_temp.
  wp_step WriteTo_spec. intros r s1 (w & H1 & Hw).
  assert (keeps (eq tmp) (st_fs s) (st_fs s1)) as K1
    by (rewrite H1; by apply append_file_keeps).
  destruct r as [u|e]; [|wp_step Close_spec; intros _ s2 H2; apply wp_ret; by rewrite H2].
  specialize (Hw eq_refl). subst w.
  wp_step Sync_spec. intros [u2|e2] s2 H2;
    [|wp_step Close_spec; intros _ s3 H3; apply wp_ret; by rewrite H3, H2].
  wp_step Close_spec. intros [u3|e3] s3 H3; [|by rewrite H3, H2].
  wp_step Chmod_spec. intros [u4|e4] s4 H4; [|by rewrite H4, H3, H2].
  wp_step Rename_spec. intros [u5|e5] s5 H5;
    [|apply wp_ret; by rewrite H5, H4, H3, H2].
  apply wp_ret. destruct H5 as (d & Hd & H5).
  assert (st_fs s4 = st_fs s1) as E41 by congruence. rewrite E41 in *.
  assert (d = data) as ->.
  { rewrite H1, (append_file_empty _ _ _ _ Htmp) in Hd. by injection Hd. }
  rewrite H5. split; [apply content_insert_eq|].
  eapply keeps_trans; [eapply keeps_mono; [exact K1|]; intuition|].
  eapply keeps_trans; [apply keeps_delete; by right|].
  apply keeps_insert. by left.
Qed.

(** Whatever calls fail: on success the target holds the data, on failure no
    file has changed, and in no case has any other file, temporary files of the
    target's directory aside. *)
Lemma WriteFileAtomic_spec target data s :
  is_temp target = false ->
  wp (WriteFileAtomic target data) (fun r s' =>
    match r with
    | Ok _ => content (st_fs s') target = Some data /\
              keeps (written target) (st_fs s) (st_fs s')
    | Err _ => keeps (temps_of target) (st_fs s) (st_fs s')
    end) s.
Proof.
  intros Ht. unfold WriteFileAtomic.
  wp_step MkdirAll_spec. intros r s1 [H1 _].
  destruct r as [u|e]; [|intros q _; apply H1].
  wp_step CreateTemp_spec. intros r s2 H2.
  destruct r as [tmp|e]; [|intros q _; by rewrite H2].
  destruct H2 as (Hfree & H2 & z & Htmp).
  assert (temps_of target tmp) as Htt.
  { rewrite Htmp. split; [apply temp_name_temp|done]. }
  assert (tmp <> target) as Hne by (intros ->; destruct Htt; congruence).
  assert (keeps (temps_of target) (st_fs s) (st_fs s2)) as K.
  { eapply keeps_trans; [intros q _; apply H1|]. rewrite H2. by apply keeps_insert. }
  apply wp_bind.
  eapply wp_mono; [apply fill_temp_spec; [exact Hne|rewrite H2; by rewrite lookup_insert_eq]|].
  intros [u3|e3] s3 H3; cbv beta in *.
  - wp_step sync_dir_spec. intros _ s4 H4. apply wp_ret. rewrite H4.
    destruct H3 as [Hd K3]. split; [done|].
    eapply keeps_trans; [eapply keeps_mono; [exact K|]; by right|].
    eapply keeps_mono; [exact K3|]. intros q [->| ->]; [by left|by right].
  - assert (keeps (temps_of target) (st_fs s) (st_fs s3)) as K3.
    { eapply keeps_trans; [exact K|]. eapply keeps_mono; [exact H3|]. by intros q <-. }
    wp_step Remove_spec. intros [u4|e4] s4 H4; apply wp_ret; rewrite H4; [|done].
    eapply keeps_trans; [exact K3|]. by apply keeps_delete.
Qed.
End atomic.

Section atomic_ok.
Context `{NoFault}.

Lemma lookup_dir_of f t d n :
  is_dir f d = true -> is_dir (<[t :: d := n]> f) d = true.
Proof.
  destruct d as [|c d]; [done|]. unfold is_dir. rewrite lookup_insert_ne; [done|].
  intros Heq. apply (f_equal length) in Heq. simpl in Heq. lia.
Qed.

Lemma temp_write_collapse (f : fs) tmp target d0 d1 :
  f !! tmp = None -> tmp <> target ->
  <[target := File d1]> (delete tmp (<[tmp := File d1]> (<[tmp := File d0]> f))) =
  <[target := File d1]> f.
Proof.
  intros Hf Hne. f_equal. rewrite insert_insert_eq, delete_insert_eq.
  by apply delete_id.
Qed.

(** Without failures a write succeeds and sets exactly its target, making the
    directories it needs. *)
Lemma WriteFileAtomic_eq target data s :
  target <> [] -> is_temp target = false -> no_temps (st_fs s) ->
  clean_path (path_dir target) ->
  dir_ready (st_fs s) (path_dir target) -> st_fs s !! target <> Some Directory ->
  exists t', WriteFileAtomic target data s =
    (Ok tt, mkSt (<[target := File data]> (mkdirs (st_fs s) (path_dir target)))
              t' (st_ids s)).
Proof.
  intros Hnil Ht Hn Hc Hd Hnd. destruct target as [|c d]; [done|]. simpl in *.
  unfold WriteFileAtomic, rbind, mbind, M_bind, mret, M_ret. simpl.
  rewrite MkdirAll_eq by done. simpl.
  set (s1 := setfs (ticked s) (mkdirs (st_fs s) d)).
  assert (no_temps (st_fs s1)) as Hn1 by (by apply no_temps_mkdirs).
  assert (is_dir (st_fs s1) d = true) as Hd1 by (by apply is_dir_mkdirs).
  destruct (CreateTemp_eq d s1 Hn1 Hd1) as [z Hz]. rewrite Hz. simpl.
  set (tmp := temp_name ".tmp-" z :: d).
  assert (st_fs s1 !! tmp = None) as Hf1 by (apply Hn1, temp_name_temp).
  assert (tmp <> c :: d) as Hne.
  { intros Heq. injection Heq as Heq. simpl in Ht. rewrite <-Heq in Ht.
    by rewrite temp_name_temp in Ht. }
  unfold fill_temp, rbind, mbind, M_bind, mret, M_ret.
  unfold WriteTo at 1. rewrite sys_eq. simpl. unfold append_file. simpl.
  rewrite lookup_insert_eq. simpl.
  unfold Sync at 1. rewrite sys_eq. simpl.
  unfold Close at 1. rewrite sys_eq. simpl.
  unfold Chmod at 1. rewrite sys_eq. simpl. rewrite lookup_insert_eq. simpl.
  erewrite Rename_eq; cycle 1; simpl.
  { by rewrite lookup_insert_eq. }
  { rewrite !lookup_insert_ne by done. intros Hdir. apply Hnd.
    rewrite lookup_mkdirs_longer in Hdir by (simpl; lia). done. }
  { by apply lookup_dir_of, lookup_dir_of. }
  unfold sync_dir, mbind, M_bind, mret, M_ret.
  unfold Stat. rewrite sys_eq. simpl.
  rewrite temp_write_collapse by done. subst s1. simpl.
  destruct (fs_lookup _ d); simpl; [|by eexists].
  unfold Sync, Close. rewrite !sys_eq. simpl. by eexists.
Qed.

Lemma no_temps_write f target data :
  is_temp target = false -> clean_path (path_dir target) ->
  no_temps f -> no_temps (<[target := File data]> (mkdirs f (path_dir target))).
Proof.
  intros Ht Hc Hn q Hq. rewrite lookup_insert_ne by (intros ->; congruence).
  by apply no_temps_mkdirs.
Qed.
End atomic_ok.

(** ** Identifiers and names *)

Lemma in_string_split c s : in_string c s = true -> exists a b, s = a +:+ String c b.
Proof.
  induction s as [|x s IH]; simpl; [done|].
  destruct (Ascii.eqb c x) eqn:E; simpl.
  - intros _. apply Ascii.eqb_eq in E as ->. by exists "", s.
  - intros Hin. destruct (IH Hin) as (a & b & ->). by exists (String x a), b.
Qed.

(** An ASCII byte of a string is one of its runes. *)
Lemma in_string_runes c s :
  (byte_of c < 128)%Z -> in_string c s = true -> byte_of c ∈ runes s.
Proof.
  intros Hc (a & b & ->)%in_string_split. rewrite runes_app_ascii by done.
  apply elem_of_app. right. by left.
Qed.

Lemma id_runes_no_char c s :
  (byte_of c < 128)%Z -> id_rune (byte_of c) = false ->
  forallb id_rune (runes s) = true -> in_string c s = false.
Proof.
  intros Hc Hr Hs. apply not_true_iff_false. intros Hin%in_string_runes; [|done].
  rewrite forallb_forall in Hs. rewrite Hs in Hr; [done|]. by apply list_elem_of_In.
Qed.

Lemma HasPrefix_dotdot s : HasPrefix s "." = false -> HasPrefix s ".." = false.
Proof.
  unfold HasPrefix. destruct s as [|c s]; cbn [String.prefix]; [done|].
  destruct (Ascii.ascii_dec "." c); [by destruct s|done].
Qed.

Lemma ValidDocumentID_SafeID id : ValidDocumentID id = SafeID id.
Proof.
  unfold ValidDocumentID, SafeID.
  destruct (_ || _ || _ || _) eqn:E0; [done|].
  destruct (HasPrefix id ".") eqn:E1; [done|].
  destruct (_ <? _)%nat; [done|]. destruct (_ <? _)%nat; [done|].
  destruct (forallb id_rune (runes id)) eqn:Er.
  - assert (Contains id "/" = false) as ->.
    { rewrite Contains_char. by apply id_runes_no_char. }
    assert (Contains id "\" = false) as ->.
    { rewrite Contains_char. by apply id_runes_no_char. }
    unfold clean_component. boolprop. rewrite (proj2 (String.eqb_neq id "")) by done.
    by rewrite String.eqb_refl, HasPrefix_dotdot.
  - by repeat case_match.
Qed.

Lemma SafeID_no_slash id : SafeID id = true -> in_string "/" id = false.
Proof.
  rewrite <-ValidDocumentID_SafeID. unfold ValidDocumentID. intros Hid.
  repeat case_match; try done. by apply id_runes_no_char.
Qed.

Lemma SafeID_no_dot id : SafeID id = true -> HasPrefix id "." = false.
Proof. unfold SafeID. intros Hid. repeat case_match; done. Qed.

Lemma no_dot_not_temp c : HasPrefix c "." = false -> temp_component c = false.
Proof.
  unfold temp_component, HasPrefix. intros Hd. destruct c as [|x c]; [done|].
  revert Hd. cbn [String.prefix]. destruct (Ascii.ascii_dec "." x); [by destruct c|done].
Qed.

(** The hidden name of a document is no temporary name: it has a second period. *)
Lemma prev_name_not_temp id : temp_component (String "." (id +:+ ".json")) = false.
Proof.
  unfold temp_component.
  destruct (HasPrefix (String "." (id +:+ ".json")) ".tmp-") eqn:E; [|done]. simpl.
  apply HasPrefix_spec in E as [t Ht]. injection Ht as Ht.
  assert (in_string "." (id +:+ ".json") = true) as Hin by (rewrite in_string_app; simpl; by rewrite orb_true_r).
  rewrite Ht in Hin |- *. simpl in *. by rewrite Hin.
Qed.

Lemma SafeID_not_temp id suffix :
  SafeID id = true -> temp_component (id +:+ suffix) = false.
Proof.
  intros Hid. apply no_dot_not_temp. pose proof (SafeID_no_dot _ Hid) as Hd.
  destruct id as [|c id]; [done|]. revert Hd. unfold HasPrefix.
  cbn [String.prefix String.append]. destruct (Ascii.ascii_dec "." c); [by destruct id|done].
Qed.

Lemma plain_doc_name id ext :
  SafeID id = true -> (2 <= String.length ext)%nat -> in_string "/" ext = false ->
  plain (id +:+ ext) = true.
Proof.
  intros Hid Hl He. apply plain_intro.
  - destruct id as [|c id]; [done|]. rewrite str_length_app. simpl. lia.
  - by rewrite in_string_app, SafeID_no_slash, He.
Qed.

Lemma SafeID_plain id : SafeID id = true -> plain id = true.
Proof.
  intros Hid. unfold plain. rewrite (SafeID_no_slash _ Hid).
  unfold SafeID in Hid.
  destruct ((id =? "") || (id =? ".") || (id =? "..") || (id =? "null")) eqn:E; [done|].
  boolprop. by rewrite !(proj2 (String.eqb_neq _ _)) by done.
Qed.

(** Collection names with no separator and no dot at the front, as
    [ValidCollectionName] ensures of the names it accepts when they hold no
    separator. *)
Definition plain_collection (c : string) : bool := plain c && negb (HasPrefix c ".").

Section paths.
Context (dataDir : path) (collection id : string).
Hypothesis Hcol : plain_collection collection = true.
Hypothesis Hid : SafeID id = true.

Lemma CollectionDir_eq : CollectionDir dataDir collection = collection :: dataDir.
Proof. unfold plain_collection in Hcol. boolprop. by apply join_plain1. Qed.

Lemma DocumentPath_eq :
  DocumentPath dataDir collection id = (id +:+ ".json") :: collection :: dataDir.
Proof.
  unfold DocumentPath. rewrite CollectionDir_eq. apply join_plain1.
  by apply plain_doc_name; [|simpl; lia|].
Qed.

Lemma PreviousDocumentPath_eq :
  PreviousDocumentPath dataDir collection id =
  (String "." (id +:+ ".json")) :: collection :: dataDir.
Proof.
  unfold PreviousDocumentPath. rewrite CollectionDir_eq. apply join_plain1.
  apply plain_intro; [simpl; rewrite str_length_app; simpl; lia|].
  simpl. by rewrite in_string_app, SafeID_no_slash.
Qed.

Lemma FilesManifestPath_eq :
  FilesManifestPath dataDir collection id =
  (id +:+ "__files.jsonl") :: collection :: dataDir.
Proof.
  unfold FilesManifestPath. rewrite CollectionDir_eq. apply join_plain1.
  by apply plain_doc_name; [|simpl; lia|].
Qed.

Lemma LFSDir_eq : LFSDir dataDir collection id = id :: "lfs" :: collection :: dataDir.
Proof.
  unfold LFSDir. rewrite CollectionDir_eq. apply join_plain2; [done|].
  by apply SafeID_plain.
Qed.

Lemma FileOpsDir_eq :
  FileOpsDir dataDir collection id = id :: ".fileOps" :: collection :: dataDir.
Proof.
  unfold FileOpsDir. rewrite CollectionDir_eq. apply join_plain2; [done|].
  by apply SafeID_plain.
Qed.

Lemma ChangeQueueDir_eq :
  ChangeQueueDir dataDir collection = ".changeQueue" :: collection :: dataDir.
Proof. unfold ChangeQueueDir. rewrite CollectionDir_eq. by apply join_plain1. Qed.

Lemma queue_path_eq change ext :
  in_string "/" change = false -> in_string "/" ext = false ->
  join (ChangeQueueDir dataDir collection) [queue_name change collection id ext] =
  queue_name change collection id ext :: ".changeQueue" :: collection :: dataDir.
Proof.
  intros Hch Hext. rewrite ChangeQueueDir_eq. apply join_plain1. unfold queue_name.
  unfold plain_collection, plain in Hcol. boolprop.
  apply plain_intro; [rewrite !str_length_app; simpl; lia|].
  rewrite !in_string_app, Hch, (SafeID_no_slash _ Hid), Hext.
  by match goal with Hs : in_string _ collection = false |- _ => rewrite Hs end.
Qed.
End paths.

(** *** Cutting at the double underscore *)

Lemma Cut_double a b :
  Contains (a +:+ "_") "__" = false -> Cut (a +:+ "__" +:+ b) "__" = Some (a, b).
Proof.
  change ("__" +:+ b) with (String "_" (String "_" b)).
  induction a as [|c a IH]; intros Ha.
  - simpl. unfold HasPrefix. simpl. by destruct b.
  - cbn [String.append Cut Contains] in *. apply orb_false_iff in Ha as [Hp Ha].
    assert (HasPrefix (String c (a +:+ String "_" (String "_" b))) "__" = false) as ->.
    { revert Hp. unfold HasPrefix. destruct a as [|c' a]; cbn [String.append String.prefix];
        repeat (destruct (Ascii.ascii_dec _ _); try done). by destruct a. }
    by rewrite IH.
Qed.

Lemma SplitN_queue change collection id :
  Contains (change +:+ "_") "__" = false ->
  Contains (collection +:+ "_") "__" = false ->
  SplitN (change +:+ "__" +:+ collection +:+ "__" +:+ id) "__" 3 =
  [change; collection; id].
Proof.
  intros Hch Hco. cbn [SplitN]. rewrite Cut_double by done. by rewrite Cut_double.
Qed.

Lemma queue_name_assoc change collection id ext :
  queue_name change collection id ext =
  (change +:+ "__" +:+ collection +:+ "__" +:+ id) +:+ ext.
Proof. unfold queue_name. by rewrite !str_app_assoc. Qed.

(** ** Documents under failures *)

Section doc_specs.
Context `{E : Env} `{OJSON}.

Lemma ReadDocumentValue_spec p s :
  wp (ReadDocumentValue p) (fun r s' => st_fs s' = st_fs s /\
    (forall v, r = Ok v -> exists d, content (st_fs s) p = Some d /\
       ReadBytesNoSchema d = Ok v)) s.
Proof.
  unfold ReadDocumentValue. wp_step ReadFile_spec. intros r s1 [H1 Hr].
  destruct r as [d|e]; [|by split].
  destruct (ReadBytesNoSchema d) as [v|e] eqn:Ev; apply wp_ret; (split; [done|]); [|done].
  intros v' [= <-]. exists d. split; [|done].
  destruct Hr as [Hr|[Hr _]]; [|done].
  revert Hr. unfold fs_read, fs_lookup, content.
  destruct p as [|c p]; [done|]. destruct (st_fs s !! (c :: p)) as [[]|]; naive_solver.
Qed.

Lemma ReadDocumentJSON_spec p s :
  wp (ReadDocumentJSON p) (fun r s' => st_fs s' = st_fs s /\
    (forall m, r = Ok m -> exists d, content (st_fs s) p = Some d /\
       ReadBytesNoSchema d = Ok (JObj m))) s.
Proof.
  unfold ReadDocumentJSON. wp_step ReadDocumentValue_spec. intros r s1 [H1 Hr].
  destruct r as [v|e]; [|by split].
  destruct (Hr v eq_refl) as (d & Hd & Hv).
  destruct v; simpl; apply wp_ret; (split; [done|]); try done.
  intros m' [= <-]. eauto.
Qed.

Lemma VerifyDocumentVersion_spec p ver s :
  wp (VerifyDocumentVersion p ver) (fun _ s' => st_fs s' = st_fs s) s.
Proof.
  unfold VerifyDocumentVersion. wp_step ReadDocumentValue_spec. intros [v|e] s1 [H1 _]; [|done].
  by destruct (_ =? _).
Qed.

Lemma verify_loop_spec n p ver last s :
  wp (verify_loop n p ver last) (fun _ s' => st_fs s' = st_fs s) s.
Proof.
  revert last s. induction n as [|n IH]; intros last s; simpl; [done|].
  wp_step VerifyDocumentVersion_spec. intros [u|e] s1 H1; [done|].
  eapply wp_mono; [apply IH|]. intros ? ?. congruence.
Qed.

(** A verified write leaves the old contents or the new ones, never a mixture,
    and reports success only for the new ones. *)
Lemma WriteDocumentJSONVerified_spec p raw s :
  is_temp p = false ->
  wp (WriteDocumentJSONVerified p raw) (fun r s' =>
    keeps (temps_of p) (st_fs s) (st_fs s') /\ is_ok r = false \/
    exists out, PrettyBytes raw = Ok out /\ content (st_fs s') p = Some out /\
      keeps (written p) (st_fs s) (st_fs s')) s.
Proof.
  intros Hp. unfold WriteDocumentJSONVerified.
  destruct (documentVersion raw) as [ver|e]; [|by left].
  unfold WriteDocumentJSON. destruct (PrettyBytes raw) as [out|e].
  - apply wp_rbind. eapply wp_mono; [by apply WriteFileAtomic_spec|].
    intros [u|e] s1 H1; cbv beta in *; [|by left].
    destruct H1 as [Hc K]. destruct (ver =? "").
    + right. eauto.
    + eapply wp_mono; [apply verify_loop_spec|]. intros r s2 H2. cbv beta in *.
      right. exists out. by rewrite H2.
  - apply wp_rbind. by left.
Qed.

Lemma Preserve_spec dataDir collection id s :
  let live := DocumentPath dataDir collection id in
  let prev := PreviousDocumentPath dataDir collection id in
  wp (PreservePreviousIfAbsent dataDir collection id) (fun r s' =>
    match r with
    | Ok _ =>
        (st_fs s' = st_fs s /\ is_ok (fs_lookup (st_fs s) prev) = true) \/
        (exists d, is_ok (fs_lookup (st_fs s) prev) = false /\
           st_fs s !! live = Some (File d) /\
           st_fs s' = <[prev := File d]> (delete live (st_fs s)))
    | Err _ => st_fs s' = st_fs s
    end) s.
Proof.
  intros live prev. unfold PreservePreviousIfAbsent.
  wp_step Stat_spec. intros r s1 [H1 Hr]. destruct r as [n|e].
  { apply wp_ret. left. split; [done|]. destruct Hr as [Hr|[? _]]; [|done].
    unfold prev. by rewrite <-Hr. }
  destruct (is_not_exist e) eqn:Ee; simpl; [|done].
  wp_step Stat_spec. intros r s2 [H2 _]. destruct r as [n2|e2]; [|congruence].
  eapply wp_mono; [apply Rename_spec|]. intros [u|e3] s3; [|congruence].
  intros (d & Hd & H3). right. exists d. rewrite H2, H1 in Hd, H3.
  split_and!; [|done|done]. destruct Hr as [Hr|[Hr _]]; [|by simplify_eq].
  unfold prev. by rewrite <-Hr.
Qed.

Lemma remove_if_present_spec p s :
  wp (remove_if_present p) (fun r s' =>
    (st_fs s' = st_fs s \/ st_fs s' = delete p (st_fs s))) s.
Proof.
  unfold remove_if_present. wp_step Remove_spec. intros [u|e] s1 H1; [by right|].
  destruct (is_not_exist e); by left.
Qed.

Lemma keeps_deletes (P : path -> Prop) l f :
  Forall P l -> keeps P f (foldl (fun g q => delete q g) f l).
Proof.
  revert f. induction l as [|q l IH]; intros f Hl; simpl; [done|].
  inversion Hl; subst. eapply keeps_trans; [by apply keeps_delete|by apply IH].
Qed.

Lemma fs_remove_some_keeps k f p : keeps (fun q => under p q = true) f (fs_remove_some k f p).
Proof.
  apply keeps_deletes, Forall_take, Forall_forall. intros q Hq.
  apply list_elem_of_In, filter_In in Hq. apply Hq.
Qed.

Lemma fs_remove_all_keeps f p : keeps (fun q => under p q = true) f (fs_remove_all f p).
Proof.
  intros q Hq. unfold content, fs_remove_all. apply not_true_is_false in Hq.
  destruct (f !! q) as [n|] eqn:Ef.
  - by rewrite (map_lookup_filter_Some_2 _ _ q n).
  - by rewrite (map_lookup_filter_None_2 _ _ q) by (by left).
Qed.

Lemma RemoveAll_spec p s :
  wp (RemoveAll p) (fun _ s' => keeps (fun q => under p q = true) (st_fs s) (st_fs s')) s.
Proof.
  apply wp_sys; [|intros k _; apply fs_remove_some_keeps].
  intros r f' Hb. destruct (existsb _ _); simplify_eq; [done|]. apply fs_remove_all_keeps.
Qed.

(** The files a document owns besides its own text. *)
Definition attachments (dataDir : path) (collection id : string) (q : path) : Prop :=
  q = FilesManifestPath dataDir collection id \/
  under (LFSDir dataDir collection id) q = true \/
  under (FileOpsDir dataDir collection id) q = true.

Lemma Cascade_spec dataDir collection id s :
  wp (CascadeDeleteDocumentFiles dataDir collection id) (fun _ s' =>
    keeps (attachments dataDir collection id) (st_fs s) (st_fs s')) s.
Proof.
  unfold CascadeDeleteDocumentFiles, attachments.
  wp_step remove_if_present_spec. intros r s1 H1.
  assert (keeps (attachments dataDir collection id) (st_fs s) (st_fs s1)) as K1.
  { destruct H1 as [->| ->]; [done|]. apply keeps_delete. by left. }
  destruct r as [u|e]; [|done].
  wp_step RemoveAll_spec. intros r s2 K2.
  assert (keeps (attachments dataDir collection id) (st_fs s) (st_fs s2)) as K12.
  { eapply keeps_trans; [exact K1|]. eapply keeps_mono; [exact K2|].
    intros q Hq. right. by left. }
  destruct r as [u2|e2]; [|done].
  eapply wp_mono; [apply RemoveAll_spec|]. intros r s3 K3.
  eapply keeps_trans; [exact K12|]. eapply keeps_mono; [exact K3|].
  intros q Hq. right. by right.
Qed.

(** Deleting a document: nothing happened, or the live file is gone and its text
    is at the previous path or an older text still is. *)
Lemma SoftDelete_spec dataDir collection id s :
  let live := DocumentPath dataDir collection id in
  let prev := PreviousDocumentPath dataDir collection id in
  wp (SoftDeleteDocument dataDir collection id) (fun r s' =>
    (st_fs s' = st_fs s /\ is_ok r = false) \/
    exists f1, keeps (attachments dataDir collection id) f1 (st_fs s') /\
      ((is_ok (fs_lookup (st_fs s) prev) = true /\ f1 = delete live (st_fs s)) \/
       (exists d, st_fs s !! live = Some (File d) /\
          (is_ok (fs_lookup (st_fs s) prev) = false \/ faulty) /\
          f1 = <[prev := File d]> (delete live (st_fs s))))) s.
Proof.
  intros live prev. unfold SoftDeleteDocument.
  wp_step Stat_spec. intros r s1 [H1 Hr]. destruct r as [n|e].
  - wp_step Remove_spec. intros [u|e] s2 H2; [|left; split; [congruence|done]].
    eapply wp_mono; [apply Cascade_spec|]. intros r s3 K. right.
    exists (st_fs s2). split; [done|]. left. rewrite H2, H1. split; [|done].
    destruct Hr as [Hr|[? _]]; [|done]. unfold prev. by rewrite <-Hr.
  - wp_step Rename_spec. intros [u|e2] s2 H2; [|left; split; [congruence|done]].
    destruct H2 as (d & Hd & H2).
    eapply wp_mono; [apply Cascade_spec|]. intros r s3 K. right.
    exists (st_fs s2). split; [done|]. right. exists d. rewrite H1 in Hd, H2.
    split_and!; [done| |done]. destruct Hr as [Hr|[? Hf]]; [left|by right].
    unfold prev. by rewrite <-Hr.
Qed.

Lemma EnqueueChange_spec dataDir collection id change s :
  let q := join (ChangeQueueDir dataDir collection) [queue_name change collection id ".queue"] in
  is_temp q = false ->
  wp (EnqueueChange dataDir collection id change) (fun r s' =>
    match r with
    | Ok _ => content (st_fs s') q = Some "" /\ keeps (written q) (st_fs s) (st_fs s')
    | Err _ => keeps (temps_of q) (st_fs s) (st_fs s')
    end) s.
Proof.
  intros q Hq. unfold EnqueueChange.
  wp_step MkdirAll_spec. intros r s1 [H1 _]. destruct r as [u|e]; [|intros x _; apply H1].
  eapply wp_mono; [by apply WriteFileAtomic_spec|]. intros [u2|e2] s2 H2.
  - destruct H2 as [Hc K]. split; [done|].
    eapply keeps_trans; [intros x _; apply H1|exact K].
  - eapply keeps_trans; [intros x _; apply H1|exact H2].
Qed.
End doc_specs.

(** ** Runs without failures *)

(** A target that a write can reach. *)
Record writable (f : fs) (p : path) : Prop := {
  wr_nonroot : p <> [];
  wr_name : is_temp p = false;
  wr_clean : clean_path (path_dir p);
  wr_dirs : dir_ready f (path_dir p);
  wr_target : f !! p <> Some Directory;
  wr_temps : no_temps f;
}.

(** [m] succeeds with [a] and leaves the tree [f]. *)
Definition runs {A} (m : M A) (s : st) (a : A) (f : fs) : Prop :=
  exists s', m s = (a, s') /\ st_fs s' = f /\ st_ids s' = st_ids s.

Lemma runs_bind {A B} (m : M A) (k : A -> M B) s a f b g :
  runs m s a f ->
  (forall s', st_fs s' = f -> st_ids s' = st_ids s -> runs (k a) s' b g) ->
  runs (m ≫= k) s b g.
Proof.
  intros (s1 & H1 & Hf & Hi) Hk. destruct (Hk s1 Hf Hi) as (s2 & H2 & Hg & Hj).
  exists s2. unfold mbind, M_bind. rewrite H1, H2. split_and!; [done|done|congruence].
Qed.

Lemma runs_rbind {A B} (m : M (result A)) (k : A -> M (result B)) s a f b g :
  runs m s (Ok a) f ->
  (forall s', st_fs s' = f -> st_ids s' = st_ids s -> runs (k a) s' b g) ->
  runs (rbind m k) s b g.
Proof. intros Hm Hk. unfold rbind. eapply runs_bind; [exact Hm|]. exact Hk. Qed.

Lemma runs_ret {A} (a : A) s : runs (mret a) s a (st_fs s).
Proof. by exists s. Qed.

(** What a run does follows from the tree it starts in. *)
Lemma runs_eq {A} (m : M A) s a f :
  runs m s a f -> exists s', m s = (a, s') /\ st_fs s' = f.
Proof. intros (s' & ? & ? & ?). eauto. Qed.

Section nofault_docs.
Context `{NoFault} `{OJSON} `{!OJSONLaws}.

Lemma ReadFile_runs p s : runs (ReadFile p) s (fs_read (st_fs s) p) (st_fs s).
Proof. unfold runs, ReadFile. rewrite sys_eq. eexists. split; [done|]. done. Qed.

Lemma Stat_runs p s : runs (Stat p) s (fs_lookup (st_fs s) p) (st_fs s).
Proof. unfold runs, Stat. rewrite sys_eq. eexists. split; [done|]. done. Qed.

Lemma ReadDir_runs p s : runs (ReadDir p) s (fs_read_dir (st_fs s) p) (st_fs s).
Proof. unfold runs, ReadDir. rewrite sys_eq. eexists. split; [done|]. done. Qed.

Lemma Remove_runs p s :
  runs (Remove p) s (fst (fs_remove (st_fs s) p)) (snd (fs_remove (st_fs s) p)).
Proof. unfold runs, Remove. rewrite sys_eq. eexists. split; [done|]. done. Qed.

Lemma MkdirAll_runs d s :
  dir_ready (st_fs s) d -> runs (MkdirAll d) s (Ok tt) (mkdirs (st_fs s) d).
Proof. intros Hd. unfold runs. rewrite MkdirAll_eq by done. by eexists. Qed.

Lemma Rename_runs a b d s :
  st_fs s !! a = Some (File d) -> st_fs s !! b <> Some Directory ->
  is_dir (st_fs s) (path_dir b) = true ->
  runs (Rename a b) s (Ok tt) (<[b := File d]> (delete a (st_fs s))).
Proof. intros. unfold runs. erewrite Rename_eq by done. by eexists. Qed.

Lemma WriteFileAtomic_runs p data s :
  writable (st_fs s) p ->
  runs (WriteFileAtomic p data) s (Ok tt)
    (<[p := File data]> (mkdirs (st_fs s) (path_dir p))).
Proof.
  intros [W1 W2 W3 W4 W5 W6].
  destruct (WriteFileAtomic_eq p data s W1 W2 W6 W3 W4 W5) as [t' Ht].
  unfold runs. rewrite Ht. by eexists.
Qed.

Lemma fs_read_content f p d : p <> [] -> content f p = Some d -> fs_read f p = Ok d.
Proof.
  intros Hp Hc. apply content_Some in Hc. unfold fs_read, fs_lookup.
  destruct p; [done|]. by rewrite Hc.
Qed.

Lemma ReadDocumentValue_runs p d v s :
  p <> [] -> content (st_fs s) p = Some d -> ReadBytesNoSchema d = Ok v ->
  runs (ReadDocumentValue p) s (Ok v) (st_fs s).
Proof.
  intros Hp Hc Hv. unfold ReadDocumentValue.
  eapply runs_rbind; [rewrite <-(fs_read_content _ _ _ Hp Hc); apply ReadFile_runs|].
  intros s' Hf Hi. rewrite Hv, <-Hf. apply runs_ret.
Qed.

Lemma ReadDocumentJSON_runs p d m s :
  p <> [] -> content (st_fs s) p = Some d -> ReadBytesNoSchema d = Ok (JObj m) ->
  runs (ReadDocumentJSON p) s (Ok m) (st_fs s).
Proof.
  intros Hp Hc Hv. unfold ReadDocumentJSON.
  eapply runs_rbind; [by eapply ReadDocumentValue_runs|].
  intros s' Hf Hi. simpl. rewrite <-Hf. apply runs_ret.
Qed.

(** Reading a document that is not there. *)
Lemma ReadDocumentValue_missing p s :
  content (st_fs s) p = None ->
  exists e, runs (ReadDocumentValue p) s (Err e) (st_fs s).
Proof.
  intros Hc. unfold ReadDocumentValue, rbind.
  assert (exists e, fs_read (st_fs s) p = Err e) as [e He].
  { unfold fs_read, fs_lookup. revert Hc. unfold content.
    destruct p; [eauto|]. destruct (st_fs s !! _) as [[]|]; eauto. done. }
  exists e. eapply runs_bind; [apply ReadFile_runs|].
  intros s' Hf Hi. rewrite He, <-Hf. apply runs_ret.
Qed.

Lemma ReadDocumentJSON_missing p s :
  content (st_fs s) p = None ->
  exists e, runs (ReadDocumentJSON p) s (Err e) (st_fs s).
Proof.
  intros Hc. destruct (ReadDocumentValue_missing p s Hc) as [e He]. exists e.
  unfold ReadDocumentJSON, rbind. eapply runs_bind; [exact He|].
  intros s' Hf Hi. rewrite <-Hf. apply runs_ret.
Qed.

(** The text a document is stored as. *)
Definition stored (v : json) : string := ensure_newline (ToPrettyJSONBytes v).

Lemma read_stored raw v :
  ReadBytesNoSchema raw = Ok v -> ReadBytesNoSchema (stored v) = Ok v.
Proof. intros Hr. apply read_pretty_newline. by eapply read_well_formed. Qed.

Lemma WriteDocumentJSONVerified_runs p raw v s :
  ReadBytesNoSchema raw = Ok v -> writable (st_fs s) p ->
  runs (WriteDocumentJSONVerified p raw) s (Ok tt)
    (<[p := File (stored v)]> (mkdirs (st_fs s) (path_dir p))).
Proof.
  intros Hr Hw. unfold WriteDocumentJSONVerified, documentVersion. rewrite Hr. simpl.
  eapply (runs_rbind _ _ _ tt (<[p := File (stored v)]> (mkdirs (st_fs s) (path_dir p)))).
  { unfold WriteDocumentJSON, PrettyBytes. rewrite Hr. simpl.
    by apply WriteFileAtomic_runs. }
  intros s' Hf Hi. destruct (_ =? ""); [rewrite <-Hf; apply runs_ret|].
  cbn [verify_loop]. eapply (runs_bind _ _ _ (Ok tt) (st_fs s')).
  { unfold VerifyDocumentVersion. eapply runs_rbind.
    - eapply ReadDocumentValue_runs; [apply Hw| |by eapply read_stored].
      rewrite Hf. apply content_insert_eq.
    - intros s2 Hf2 Hi2. rewrite String.eqb_refl, <-Hf2. apply runs_ret. }
  intros s3 Hf3 Hi3. simpl. rewrite <-Hf, <-Hf3. apply runs_ret.
Qed.
End nofault_docs.

(** ** The layout of a data directory *)

(** The dot directories of a collection that hold single files. *)
Definition queue_dirs : list string := [".changeQueue"; ".pendingWrites"].

(** All directories of a collection. *)
Definition sub_dirs : list string := queue_dirs ++ ["lfs"; ".fileOps"].

Lemma queue_sub d : d ∈ queue_dirs -> d ∈ sub_dirs.
Proof. intros Hd. apply elem_of_app. by left. Qed.

Lemma sub_dirs_no_suffix d ext :
  d ∈ sub_dirs -> ext ∈ [".json"; "__files.jsonl"] -> HasSuffix d ext = false.
Proof.
  intros Hd He.
  assert (forallb (fun d => forallb (fun e => negb (HasSuffix d e)) [".json"; "__files.jsonl"])
            sub_dirs = true) as Hall by done.
  rewrite forallb_forall in Hall. apply list_elem_of_In, Hall in Hd.
  rewrite forallb_forall in Hd. apply list_elem_of_In, Hd in He. by apply negb_true_iff.
Qed.

(** No file where a directory belongs, no directory where a file belongs, and no
    temporary file left over. *)
Record store_ok (dataDir : path) (f : fs) : Prop := {
  so_clean : clean_path dataDir;
  so_temps : no_temps f;
  so_root : dir_ready f dataDir;
  so_col : forall c, plain_collection c = true -> content f (c :: dataDir) = None;
  so_sub : forall c d, plain_collection c = true -> d ∈ sub_dirs ->
    content f (d :: c :: dataDir) = None;
  so_doc : forall c id ext, plain_collection c = true -> SafeID id = true ->
    ext ∈ [".json"; "__files.jsonl"] -> f !! ((id +:+ ext) :: c :: dataDir) <> Some Directory;
  so_prev : forall c id, plain_collection c = true -> SafeID id = true ->
    f !! (String "." (id +:+ ".json") :: c :: dataDir) <> Some Directory;
  so_leaf : forall c d n, plain_collection c = true -> d ∈ queue_dirs ->
    f !! (n :: d :: c :: dataDir) <> Some Directory;
  so_parent : forall c n, plain_collection c = true ->
    is_Some (f !! (n :: c :: dataDir)) -> f !! (c :: dataDir) = Some Directory;
}.

Lemma plain_collection_clean c : plain_collection c = true -> temp_component c = false.
Proof.
  unfold plain_collection. intros [_ Hc%negb_true_iff]%andb_true_iff.
  by apply no_dot_not_temp.
Qed.

Section layout.
Context (dataDir : path) (f : fs) (Hok : store_ok dataDir f).
Context (c : string) (Hc : plain_collection c = true).

Lemma collection_ready : dir_ready f (c :: dataDir).
Proof.
  intros q [->|Hq]%elem_of_cons; [by apply so_col|]. apply (so_root _ _ Hok). done.
Qed.

Lemma collection_clean : clean_path (c :: dataDir).
Proof. constructor; [by apply plain_collection_clean|apply (so_clean _ _ Hok)]. Qed.

Lemma queue_ready d : d ∈ queue_dirs -> dir_ready f (d :: c :: dataDir).
Proof.
  intros Hd q [->|Hq]%elem_of_cons; [|by apply collection_ready].
  apply (so_sub _ _ Hok); [done|by apply queue_sub].
Qed.

Lemma sub_ready d : d ∈ sub_dirs -> dir_ready f (d :: c :: dataDir).
Proof.
  intros Hd q [->|Hq]%elem_of_cons; [by apply (so_sub _ _ Hok)|]. by apply collection_ready.
Qed.

Lemma queue_clean d : d ∈ queue_dirs -> clean_path (d :: c :: dataDir).
Proof.
  intros Hd. constructor; [|apply collection_clean].
  apply elem_of_cons in Hd as [->|Hd]; [done|].
  by apply list_elem_of_singleton in Hd as ->.
Qed.

Lemma doc_writable id ext :
  SafeID id = true -> ext ∈ [".json"; "__files.jsonl"] ->
  writable f ((id +:+ ext) :: c :: dataDir).
Proof.
  intros Hid Hext. split; simpl.
  - done.
  - by apply SafeID_not_temp.
  - apply collection_clean.
  - apply collection_ready.
  - by apply (so_doc _ _ Hok).
  - apply (so_temps _ _ Hok).
Qed.

Lemma queue_writable d n :
  d ∈ queue_dirs -> temp_component n = false -> writable f (n :: d :: c :: dataDir).
Proof.
  intros Hd Hn. split; simpl.
  - done.
  - done.
  - by apply queue_clean.
  - by apply queue_ready.
  - by apply (so_leaf _ _ Hok).
  - apply (so_temps _ _ Hok).
Qed.
End layout.

(** Names of the layout never collide. *)
Lemma doc_name_not_sub id ext d :
  ext ∈ [".json"; "__files.jsonl"] -> d ∈ sub_dirs -> id +:+ ext <> d.
Proof.
  intros He Hd Heq. pose proof (sub_dirs_no_suffix d ext Hd He) as Hs.
  by rewrite <-Heq, HasSuffix_app in Hs.
Qed.

Lemma prev_name_not_sub id d : d ∈ sub_dirs -> String "." (id +:+ ".json") <> d.
Proof. apply (doc_name_not_sub (String "." id) ".json"). by left. Qed.

Lemma doc_name_not_prev id id' ext :
  SafeID id = true -> id +:+ ext <> String "." (id' +:+ ".json").
Proof.
  intros Hid Heq. destruct id as [|x id]; [done|]. apply SafeID_no_dot in Hid.
  injection Heq as Hx _. revert Hid. rewrite Hx. unfold HasPrefix. simpl. by destruct id.
Qed.

(** What a change to the tree must respect to keep the layout: files appear at
    document or queue paths only, directories at collection or queue
    directories only. *)
Definition file_place (dataDir p : path) : Prop :=
  exists c, plain_collection c = true /\
    ((exists id ext, SafeID id = true /\ ext ∈ [".json"; "__files.jsonl"] /\
        p = (id +:+ ext) :: c :: dataDir) \/
     (exists id, SafeID id = true /\ p = String "." (id +:+ ".json") :: c :: dataDir) \/
     (exists d n, d ∈ queue_dirs /\ temp_component n = false /\ p = n :: d :: c :: dataDir)).

Definition dir_place (dataDir p : path) : Prop :=
  exists c, plain_collection c = true /\
    (p = c :: dataDir \/ exists d, d ∈ queue_dirs /\ p = d :: c :: dataDir).

Lemma file_place_facts dataDir p :
  clean_path dataDir -> file_place dataDir p ->
  is_temp p = false /\ (length dataDir + 2 <= length p)%nat /\
  forall c d, d ∈ sub_dirs -> p <> d :: c :: dataDir.
Proof.
  intros Hcl (c & Hc & [(id & ext & Hid & Hext & ->)|[(id & Hid & ->)|(d & n & Hd & Hn & ->)]]);
    (split_and!; [|simpl; lia|intros c' d' Hd' Heq]).
  - by apply SafeID_not_temp.
  - injection Heq as Heq _. revert Heq. by apply doc_name_not_sub.
  - apply prev_name_not_temp.
  - injection Heq as Heq _. revert Heq. by apply prev_name_not_sub.
  - done.
  - apply (f_equal length) in Heq. simpl in Heq. lia.
Qed.

(** *** Changes that keep the layout *)

Lemma store_ok_sub dataDir f f' :
  f' ⊆ f -> (forall c, f !! (c :: dataDir) = Some Directory ->
               f' !! (c :: dataDir) = Some Directory) ->
  store_ok dataDir f -> store_ok dataDir f'.
Proof.
  intros Hs Hkeep [H1 H2 H3 H4 H5 H6 H7 H8 H9].
  assert (forall q, content f q = None -> content f' q = None) as Hc.
  { intros q. unfold content. destruct (f' !! q) as [[d|]|] eqn:E; try done.
    by rewrite (lookup_weaken _ _ _ _ E Hs). }
  assert (forall q n, f !! q <> Some n -> f' !! q <> Some n) as Hd.
  { intros q n Hq E. apply Hq. by eapply lookup_weaken. }
  split; auto.
  - intros q Hq. specialize (H2 q Hq). destruct (f' !! q) eqn:E; [|done].
    by rewrite (lookup_weaken _ _ _ _ E Hs) in H2.
  - intros q Hq. auto.
  - intros c n Hcc [x Hx]. apply Hkeep, (H9 c n Hcc).
    exists x. by eapply lookup_weaken.
Qed.

Lemma store_ok_delete dataDir f p :
  (length p <> length dataDir + 1)%nat -> store_ok dataDir f -> store_ok dataDir (delete p f).
Proof.
  intros Hl. apply store_ok_sub; [apply delete_subseteq|].
  intros c Hc. rewrite lookup_delete_ne; [done|]. intros ->. simpl in Hl. lia.
Qed.

Lemma store_ok_insert dataDir f p d :
  file_place dataDir p -> is_dir f (path_dir p) = true ->
  store_ok dataDir f -> store_ok dataDir (<[p := File d]> f).
Proof.
  intros Hp Hpar [H1 H2 H3 H4 H5 H6 H7 H8 H9].
  destruct (file_place_facts _ _ H1 Hp) as (Ht & Hl & Hq).
  assert (forall q n, f !! q <> Some Directory -> <[p := n]> f !! q = Some Directory ->
            n = Directory) as Hdir.
  { intros q n Hne. destruct (decide (p = q)) as [->|].
    - by rewrite lookup_insert_eq; intros [= ->].
    - by rewrite lookup_insert_ne. }
  split; auto.
  - intros q Hqt. rewrite lookup_insert_ne; [auto|]. intros ->. congruence.
  - intros q Hqq. rewrite content_insert_ne; [auto|]. intros ->.
    apply elem_of_cons in Hqq as [->|[_ ?]%ancestors_suffix]; lia.
  - intros c Hc. rewrite content_insert_ne; [auto|]. intros ->. simpl in Hl. lia.
  - intros c q Hc Hin. rewrite content_insert_ne; [auto|]. by apply Hq.
  - intros c id ext Hc Hid Hext Hd. by eapply Hdir in Hd; [|by apply H6].
  - intros c id Hc Hid Hd. by eapply Hdir in Hd; [|by apply H7].
  - intros c q n Hc Hin Hd. by eapply Hdir in Hd; [|by apply H8].
  - intros c n Hc Hx. rewrite lookup_insert_ne by (intros ->; simpl in Hl; lia).
    destruct (decide (p = n :: c :: dataDir)) as [->|Hne].
    + simpl in Hpar. destruct (f !! (c :: dataDir)) as [[]|]; done.
    + rewrite lookup_insert_ne in Hx by done. by apply (H9 c n).
Qed.

Lemma lookup_mkdirs_Directory f p q :
  mkdirs f p !! q = Some Directory -> f !! q = Some Directory \/ q = p \/ q ∈ ancestors p.
Proof.
  intros Hq. destruct (decide (q ∈ mkdir_list p)) as [Hin|Hin].
  - right. by apply elem_of_mkdir_list.
  - left. unfold mkdirs in Hq. by rewrite lookup_add_dirs_notin in Hq.
Qed.

Lemma mkdirs_new f p q :
  is_Some (mkdirs f p !! q) -> is_Some (f !! q) \/ (q = p \/ q ∈ ancestors p).
Proof.
  intros Hq. destruct (decide (q ∈ mkdir_list p)) as [Hin|Hin].
  - right. by apply elem_of_mkdir_list.
  - left. unfold mkdirs in Hq. by rewrite lookup_add_dirs_notin in Hq.
Qed.

Lemma lookup_add_dirs_in l f q :
  q ∈ l -> q <> [] -> content f q = None -> foldl add_dir f l !! q = Some Directory.
Proof.
  revert f. induction l as [|p l IH]; intros f Hq Hnil Hc; [set_solver|]. simpl.
  destruct (decide (q ∈ l)) as [Hl|Hl].
  - apply IH; [done|done|]. by rewrite content_add_dir.
  - apply elem_of_cons in Hq as [->|]; [|done].
    rewrite lookup_add_dirs_notin by done. revert Hc. unfold content, add_dir.
    destruct p as [|x p]; [done|].
    destruct (f !! (x :: p)) as [[]|] eqn:E; [done|by rewrite E|]. by rewrite lookup_insert_eq.
Qed.

Lemma mkdirs_lookup_dir f p q :
  content f q = None -> q = p \/ q ∈ ancestors p -> q <> [] ->
  mkdirs f p !! q = Some Directory.
Proof. intros Hc Hq Hn. apply lookup_add_dirs_in; [by apply elem_of_mkdir_list|done|done]. Qed.

Lemma dir_place_facts dataDir p q :
  dir_place dataDir p -> q = p \/ q ∈ ancestors p ->
  (length q <= length dataDir + 1)%nat \/
  exists c d, d ∈ queue_dirs /\ q = d :: c :: dataDir.
Proof.
  intros (c & Hc & [->|(d & Hd & ->)]) [->|Hq]; simpl in *.
  - left. lia.
  - apply elem_of_cons in Hq as [->|[_ Hq]%ancestors_suffix]; left; simpl; lia.
  - right. eauto.
  - left. apply elem_of_cons in Hq as [->|Hq]; [simpl; lia|].
    apply elem_of_cons in Hq as [->|[_ Hq]%ancestors_suffix]; simpl; lia.
Qed.

Lemma store_ok_mkdirs dataDir f p :
  dir_place dataDir p -> store_ok dataDir f -> store_ok dataDir (mkdirs f p).
Proof.
  intros Hp Hok. pose proof Hok as [H1 H2 H3 H4 H5 H6 H7 H8 H9].
  assert (clean_path p) as Hcl.
  { destruct Hp as (c & Hc & [->|(d & Hd & ->)]).
    - by eapply collection_clean.
    - by eapply queue_clean. }
  split; auto.
  - by apply no_temps_mkdirs.
  - intros q Hq. rewrite content_mkdirs. auto.
  - intros c Hc. rewrite content_mkdirs. auto.
  - intros c d Hc Hd. rewrite content_mkdirs. auto.
  - intros c id ext Hc Hid Hext [Hd|Hd]%lookup_mkdirs_Directory; [by eapply H6|].
    destruct (dir_place_facts _ _ _ Hp Hd) as [Hl|(c' & d' & Hin & Heq)]; [simpl in Hl; lia|].
    injection Heq as Heq _. revert Heq. apply doc_name_not_sub; [done|by apply queue_sub].
  - intros c id Hc Hid [Hd|Hd]%lookup_mkdirs_Directory; [by eapply H7|].
    destruct (dir_place_facts _ _ _ Hp Hd) as [Hl|(c' & d' & Hin & Heq)]; [simpl in Hl; lia|].
    injection Heq as Heq _. revert Heq. by apply prev_name_not_sub, queue_sub.
  - intros c d n Hc Hin [Hd|Hd]%lookup_mkdirs_Directory; [by eapply H8|].
    destruct (dir_place_facts _ _ _ Hp Hd) as [Hl|(c' & d' & _ & Heq)]; [simpl in Hl; lia|].
    apply (f_equal length) in Heq. simpl in Heq. lia.
  - intros c n Hc [x Hx]. destruct (decide (is_Some (f !! (n :: c :: dataDir)))) as [Hs|Hn].
    + apply lookup_mkdirs. by apply (H9 c n).
    + destruct (mkdirs_new f p (n :: c :: dataDir)) as [Hs|Hd]; [by eexists|done|].
      assert (c :: dataDir ∈ ancestors p) as Hin.
      { destruct Hp as (c' & Hc' & [->|(d & Hd' & ->)]); simpl in *; destruct Hd as [Hd|Hd].
        - apply (f_equal length) in Hd. simpl in Hd. lia.
        - apply elem_of_cons in Hd as [Hd|[_ Hd]%ancestors_suffix];
            [apply (f_equal length) in Hd|]; simpl in Hd; lia.
        - injection Hd as -> ->. by left.
        - apply elem_of_cons in Hd as [Hd|Hd].
          + apply (f_equal length) in Hd. simpl in Hd. lia.
          + apply elem_of_cons in Hd as [Hd|[_ Hd]%ancestors_suffix];
              [apply (f_equal length) in Hd|]; simpl in Hd; lia. }
      apply mkdirs_lookup_dir; [|by right|done]. by apply H4.
Qed.

Lemma queue_file_place dataDir c d n :
  plain_collection c = true -> d ∈ queue_dirs -> temp_component n = false ->
  file_place dataDir (n :: d :: c :: dataDir).
Proof. intros. exists c. split; [done|]. right. right. eauto 10. Qed.

Lemma doc_file_place dataDir c id :
  plain_collection c = true -> SafeID id = true ->
  file_place dataDir ((id +:+ ".json") :: c :: dataDir).
Proof. intros. exists c. split; [done|]. left. exists id, ".json". split_and!; set_solver. Qed.

Lemma prev_file_place dataDir c id :
  plain_collection c = true -> SafeID id = true ->
  file_place dataDir (String "." (id +:+ ".json") :: c :: dataDir).
Proof. intros. exists c. split; [done|]. right. left. eauto. Qed.

Lemma queue_dir_place dataDir c d :
  plain_collection c = true -> d ∈ queue_dirs -> dir_place dataDir (d :: c :: dataDir).
Proof. intros. exists c. eauto. Qed.

Lemma col_dir_place dataDir c :
  plain_collection c = true -> dir_place dataDir (c :: dataDir).
Proof. intros. exists c. auto. Qed.

#[export] Hint Resolve queue_file_place doc_file_place prev_file_place queue_dir_place
  col_dir_place store_ok_insert store_ok_delete store_ok_mkdirs : go.

(** *** Whole operations without failures *)

Lemma fs_lookup_missing f n d :
  f !! (n :: d) = None -> dir_ready f d ->
  fs_lookup f (n :: d) = Err (mkError NotExist "no such file or directory").
Proof.
  intros Hn Hd. unfold fs_lookup. rewrite Hn. unfold missing_error. simpl.
  change (is_file f d || existsb (is_file f) (ancestors d))
    with (existsb (is_file f) (d :: ancestors d)).
  by rewrite dir_ready_existsb.
Qed.

Lemma fs_lookup_some f n d x : f !! (n :: d) = Some x -> fs_lookup f (n :: d) = Ok x.
Proof. intros Hx. unfold fs_lookup. by rewrite Hx. Qed.

Section nofault_ops.
Context `{NF : NoFault} `{OJSON} `{!OJSONLaws}.
Context (dataDir : path) (c id : string).
Hypothesis Hc : plain_collection c = true.
Hypothesis Hid : SafeID id = true.

Notation live := (DocumentPath dataDir c id).
Notation prev := (PreviousDocumentPath dataDir c id).

(** Writing a file of the layout. *)
Lemma layout_write_runs p data s :
  store_ok dataDir (st_fs s) -> writable (st_fs s) p -> file_place dataDir p ->
  dir_place dataDir (path_dir p) ->
  exists f', runs (WriteFileAtomic p data) s (Ok tt) f' /\ store_ok dataDir f' /\
    content f' p = Some data /\ forall q, q <> p -> content f' q = content (st_fs s) q.
Proof.
  intros Hok Hw Hp Hd. eexists. split; [by apply WriteFileAtomic_runs|]. split_and!.
  - apply store_ok_insert; [done|apply is_dir_mkdirs, Hw|by apply store_ok_mkdirs].
  - apply content_insert_eq.
  - intros q Hq. rewrite content_insert_ne by done. apply content_mkdirs.
Qed.

Lemma write_doc_runs raw v s :
  ReadBytesNoSchema raw = Ok v -> store_ok dataDir (st_fs s) ->
  exists f', runs (WriteDocumentJSONVerified live raw) s (Ok tt) f' /\ store_ok dataDir f' /\
    content f' live = Some (stored v) /\ forall q, q <> live -> content f' q = content (st_fs s) q.
Proof.
  intros Hr Hok. rewrite DocumentPath_eq by done.
  assert (writable (st_fs s) ((id +:+ ".json") :: c :: dataDir)) as Hw
    by (eapply doc_writable; eauto; set_solver).
  eexists. split; [by eapply WriteDocumentJSONVerified_runs|]. split_and!.
  - apply store_ok_insert; [by apply doc_file_place|apply is_dir_mkdirs, Hw|].
    apply store_ok_mkdirs; [by apply col_dir_place|done].
  - apply content_insert_eq.
  - intros q Hq. rewrite content_insert_ne by done. apply content_mkdirs.
Qed.

Lemma queue_name_no_temp change ext :
  HasPrefix change "." = false -> change <> "" ->
  temp_component (queue_name change c id ext) = false.
Proof.
  intros Hch Hne. apply no_dot_not_temp. unfold queue_name.
  destruct change as [|x change]; [done|]. revert Hch. unfold HasPrefix.
  cbn [String.append String.prefix].
  destruct (Ascii.ascii_dec "." x); [|done]. by destruct change.
Qed.

Lemma EnqueueChange_runs change s :
  HasPrefix change "." = false -> change <> "" -> in_string "/" change = false ->
  store_ok dataDir (st_fs s) ->
  exists f', runs (EnqueueChange dataDir c id change) s (Ok tt) f' /\ store_ok dataDir f' /\
    content f' (queue_name change c id ".queue" :: ".changeQueue" :: c :: dataDir) = Some "" /\
    forall q, q <> queue_name change c id ".queue" :: ".changeQueue" :: c :: dataDir ->
      content f' q = content (st_fs s) q.
Proof.
  intros Hch Hne Hsl Hok. unfold EnqueueChange. rewrite queue_path_eq by done.
  rewrite ChangeQueueDir_eq by done.
  assert (".changeQueue" ∈ queue_dirs) as Hin by set_solver.
  assert (temp_component (queue_name change c id ".queue") = false) as Ht
    by (by apply queue_name_no_temp).
  set (f1 := mkdirs (st_fs s) (".changeQueue" :: c :: dataDir)).
  assert (store_ok dataDir f1) as Hok1.
  { apply store_ok_mkdirs; [by apply queue_dir_place|done]. }
  assert (runs (MkdirAll (".changeQueue" :: c :: dataDir)) s (Ok tt) f1) as (s1 & R1 & F1 & I1).
  { apply MkdirAll_runs. by eapply queue_ready. }
  rewrite <-F1 in Hok1.
  destruct (layout_write_runs (queue_name change c id ".queue" :: ".changeQueue" :: c :: dataDir)
              "" s1 Hok1) as (f2 & (s2 & R2 & F2 & I2) & Hok2 & Hq & Hrest).
  { by eapply queue_writable. }
  { by apply queue_file_place. }
  { by apply queue_dir_place. }
  exists f2. split; [|split; [done|split; [done|]]].
  - exists s2. unfold rbind, mbind, M_bind. rewrite R1, R2. split_and!; [done|done|congruence].
  - intros q Hne'. rewrite Hrest by done. rewrite F1. apply content_mkdirs.
Qed.

(** The state of the hidden file decides what preserving does. *)
Lemma Preserve_runs d s :
  store_ok dataDir (st_fs s) -> content (st_fs s) live = Some d ->
  exists f', runs (PreservePreviousIfAbsent dataDir c id) s (Ok tt) f' /\ store_ok dataDir f' /\
    (forall q, q <> live -> q <> prev -> content f' q = content (st_fs s) q) /\
    match content (st_fs s) prev with
    | Some d0 => content f' prev = Some d0 /\ content f' live = Some d
    | None => content f' prev = Some d /\ content f' live = None
    end.
Proof.
  intros Hok Hlive. unfold PreservePreviousIfAbsent.
  rewrite (PreviousDocumentPath_eq dataDir c id), (DocumentPath_eq dataDir c id) in * by done.
  set (lv := (id +:+ ".json") :: c :: dataDir) in *.
  set (pv := String "." (id +:+ ".json") :: c :: dataDir).
  assert (lv <> pv) as Hne.
  { unfold lv, pv. intros Heq. injection Heq as Heq. by eapply doc_name_not_prev. }
  assert (st_fs s !! pv <> Some Directory) as Hnd by (by eapply so_prev).
  apply content_Some in Hlive.
  assert (st_fs s !! (c :: dataDir) = Some Directory) as Hpar.
  { eapply (so_parent _ _ Hok c (id +:+ ".json")); [done|]. by eexists. }
  destruct (st_fs s !! pv) as [[d0|]|] eqn:Ep; [|done|].
  - rewrite (proj2 (content_Some _ _ _) Ep). exists (st_fs s). split_and!; [|done|done|by apply content_Some|by apply content_Some].
    eapply runs_bind; [apply Stat_runs|]. intros s' Hf Hi.
    assert (fs_lookup (st_fs s) pv = Ok (File d0)) as -> by (by apply fs_lookup_some).
    rewrite <-Hf. apply runs_ret.
  - assert (content (st_fs s) pv = None) as -> by (unfold content; by rewrite Ep).
    exists (<[pv := File d]> (delete lv (st_fs s))). split_and!.
    + eapply runs_bind; [apply Stat_runs|]. intros s1 F1 I1.
      assert (fs_lookup (st_fs s) pv = Err (mkError NotExist "no such file or directory")) as ->.
      { apply fs_lookup_missing; [done|]. by eapply collection_ready. }
      simpl. eapply (runs_rbind _ _ _ (File d)).
      { assert (fs_lookup (st_fs s1) lv = Ok (File d)) as <-
          by (rewrite F1; by apply fs_lookup_some). apply Stat_runs. }
      intros s2 F2 I2. rewrite <-F1, <-F2. apply Rename_runs.
      * by rewrite F2, F1.
      * rewrite F2, F1. by rewrite Ep.
      * simpl. rewrite F2, F1. by rewrite Hpar.
    + apply store_ok_insert; [by apply prev_file_place| |].
      * simpl. rewrite lookup_delete_ne; [by rewrite Hpar|].
        intros Heq. apply (f_equal length) in Heq. simpl in Heq. lia.
      * apply store_ok_delete; [simpl; lia|done].
    + intros q Hq1 Hq2. rewrite content_insert_ne by done. unfold content.
      by rewrite lookup_delete_ne.
    + apply content_insert_eq.
    + rewrite content_insert_ne by done. unfold content. by rewrite lookup_delete_eq.
Qed.

Lemma fs_remove_all_sub f p : fs_remove_all f p ⊆ f.
Proof. apply map_filter_subseteq. Qed.

Lemma RemoveAll_runs d s :
  d ∈ sub_dirs -> store_ok dataDir (st_fs s) ->
  runs (RemoveAll (id :: d :: c :: dataDir)) s (Ok tt)
    (fs_remove_all (st_fs s) (id :: d :: c :: dataDir)).
Proof.
  intros Hd Hok. unfold runs, RemoveAll. rewrite sys_eq.
  assert (existsb (is_file (st_fs s)) (ancestors (id :: d :: c :: dataDir)) = false) as ->.
  { apply (dir_ready_existsb (st_fs s) (d :: c :: dataDir)). by eapply sub_ready. }
  by eexists.
Qed.

Lemma store_ok_remove_all f d :
  store_ok dataDir f -> store_ok dataDir (fs_remove_all f (id :: d :: c :: dataDir)).
Proof.
  apply store_ok_sub; [apply fs_remove_all_sub|]. intros c' Hc'.
  unfold fs_remove_all. apply map_lookup_filter_Some_2; [done|]. simpl.
  unfold under. apply orb_false_iff. split.
  - apply bool_decide_eq_false. intros Heq. apply (f_equal length) in Heq. simpl in Heq. lia.
  - apply not_true_iff_false. intros (a & Ha & He)%existsb_exists.
    apply list_elem_of_In in Ha. apply bool_decide_eq_true in He. subst a.
    apply elem_of_cons in Ha as [Heq|[_ Hl]%ancestors_suffix];
      [apply (f_equal length) in Heq|]; simpl in *; lia.
Qed.

Lemma remove_if_present_runs n s :
  store_ok dataDir (st_fs s) -> st_fs s !! (n :: c :: dataDir) <> Some Directory ->
  exists f', runs (remove_if_present (n :: c :: dataDir)) s (Ok tt) f' /\
    store_ok dataDir f' /\ keeps (eq (n :: c :: dataDir)) (st_fs s) f' /\
    content f' (n :: c :: dataDir) = None.
Proof.
  intros Hok Hnd. unfold remove_if_present.
  destruct (st_fs s !! (n :: c :: dataDir)) as [[d|]|] eqn:E; [|done|].
  - exists (delete (n :: c :: dataDir) (st_fs s)). split_and!.
    + eapply (runs_bind _ _ _ (Ok tt) (delete (n :: c :: dataDir) (st_fs s))).
      { pose proof (Remove_runs (n :: c :: dataDir) s) as R. unfold fs_remove in R.
        rewrite E in R. exact R. }
      intros s' F I. rewrite <-F. apply runs_ret.
    + apply store_ok_delete; [simpl; lia|done].
    + by apply keeps_delete.
    + unfold content. by rewrite lookup_delete_eq.
  - exists (st_fs s). split_and!; [|done|done|unfold content; by rewrite E].
    eapply (runs_bind _ _ _ (Err (mkError NotExist "no such file or directory")) (st_fs s)).
    { pose proof (Remove_runs (n :: c :: dataDir) s) as R. unfold fs_remove in R.
      rewrite E in R. simpl in R.
      pose proof (fs_lookup_missing _ _ _ E (collection_ready _ _ Hok c Hc)) as Hm.
      unfold fs_lookup in Hm. rewrite E in Hm. injection Hm as Hm. rewrite Hm in R. exact R. }
    intros s' F I. rewrite <-F. apply runs_ret.
Qed.

Lemma Cascade_runs s :
  store_ok dataDir (st_fs s) ->
  exists f', runs (CascadeDeleteDocumentFiles dataDir c id) s (Ok tt) f' /\
    store_ok dataDir f' /\ keeps (attachments dataDir c id) (st_fs s) f'.
Proof.
  intros Hok. unfold CascadeDeleteDocumentFiles, attachments.
  rewrite FilesManifestPath_eq, LFSDir_eq, FileOpsDir_eq by done.
  destruct (remove_if_present_runs (id +:+ "__files.jsonl") s Hok)
    as (f1 & (s1 & R1 & F1 & I1) & Hok1 & K1 & _).
  { apply (so_doc _ _ Hok); [done|done|]. set_solver. }
  rewrite <-F1 in Hok1.
  destruct (RemoveAll_runs "lfs" s1 ltac:(set_solver) Hok1) as (s2 & R2 & F2 & I2).
  assert (store_ok dataDir (st_fs s2)) as Hok2 by (rewrite F2; by apply store_ok_remove_all).
  destruct (RemoveAll_runs ".fileOps" s2 ltac:(set_solver) Hok2) as (s3 & R3 & F3 & I3).
  exists (st_fs s3). split_and!.
  - exists s3. unfold rbind, mbind, M_bind. rewrite R1, R2, R3. split_and!; [done|done|congruence].
  - rewrite F3. by apply store_ok_remove_all.
  - rewrite F3, F2. eapply keeps_trans; [eapply keeps_mono; [exact K1|]; intros q <-; by left|].
    rewrite F1. eapply keeps_trans.
    + eapply keeps_mono; [apply (fs_remove_all_keeps _ (id :: "lfs" :: c :: dataDir))|].
      intros q Hq. right. by left.
    + eapply keeps_mono; [apply fs_remove_all_keeps|]. intros q Hq. right. by right.
Qed.

(** No document file is an attachment of a document. *)
Lemma attachment_not_shallow q n c' :
  attachments dataDir c id q -> q = n :: c' :: dataDir -> n = id +:+ "__files.jsonl".
Proof.
  unfold attachments. rewrite FilesManifestPath_eq, LFSDir_eq, FileOpsDir_eq by done.
  intros [->|Hu] Heq; [by injection Heq|]. exfalso.
  assert (forall d, under (id :: d :: c :: dataDir) q = false) as Hf.
  { intros d. subst q. unfold under. apply orb_false_iff. split.
    - apply bool_decide_eq_false. intros He. apply (f_equal length) in He. simpl in He. lia.
    - apply not_true_iff_false. intros (a & Ha & He)%existsb_exists.
      apply list_elem_of_In in Ha. apply bool_decide_eq_true in He. subst a.
      apply ancestors_suffix in Ha as [_ Hl]. simpl in Hl. lia. }
  rewrite !Hf in Hu. naive_solver.
Qed.

Lemma str_suffix_neq a b : a +:+ "__files.jsonl" <> b +:+ ".json".
Proof.
  intros Heq. assert (HasSuffix (a +:+ "__files.jsonl") ".json" = true) as Hs.
  { rewrite Heq. apply HasSuffix_app. }
  apply HasSuffix_spec in Hs as [t Ht].
  change "__files.jsonl" with ("__files.js" +:+ "onl") in Ht.
  replace (a +:+ "__files.js" +:+ "onl") with ((a +:+ "__files.js") +:+ "onl") in Ht
    by apply str_app_assoc.
  replace (t +:+ ".json") with ((t +:+ ".j") +:+ "son") in Ht
    by (rewrite str_app_assoc; done).
  assert (String.length (a +:+ "__files.js") = String.length (t +:+ ".j")) as Hl.
  { apply (f_equal String.length) in Ht. rewrite (str_length_app _ "onl"), (str_length_app _ "son") in Ht.
    simpl in Ht. lia. }
  by destruct (str_app_inv_length _ _ _ _ Hl Ht) as [_ ?].
Qed.

Lemma live_not_attachment : ~ attachments dataDir c id live.
Proof.
  rewrite DocumentPath_eq by done. intros Ha.
  pose proof (attachment_not_shallow _ (id +:+ ".json") _ Ha eq_refl) as Heq.
  symmetry in Heq. by apply str_suffix_neq in Heq.
Qed.

Lemma prev_not_attachment : ~ attachments dataDir c id prev.
Proof.
  rewrite PreviousDocumentPath_eq by done. intros Ha.
  pose proof (attachment_not_shallow _ (String "." (id +:+ ".json")) _ Ha eq_refl) as Heq.
  symmetry in Heq. by apply (str_suffix_neq id (String "." id)) in Heq.
Qed.

Lemma SoftDelete_runs d s :
  store_ok dataDir (st_fs s) -> content (st_fs s) live = Some d ->
  exists f', runs (SoftDeleteDocument dataDir c id) s (Ok tt) f' /\ store_ok dataDir f' /\
    content f' live = None /\
    content f' prev = Some (default d (content (st_fs s) prev)) /\
    forall q, q <> live -> q <> prev -> ~ attachments dataDir c id q ->
      content f' q = content (st_fs s) q.
Proof.
  intros Hok Hlive. pose proof live_not_attachment as Hla. pose proof prev_not_attachment as Hpa.
  unfold SoftDeleteDocument.
  rewrite (PreviousDocumentPath_eq dataDir c id), (DocumentPath_eq dataDir c id) in * by done.
  set (lv := (id +:+ ".json") :: c :: dataDir) in *.
  set (pv := String "." (id +:+ ".json") :: c :: dataDir) in *.
  assert (lv <> pv) as Hne.
  { unfold lv, pv. intros Heq. injection Heq as Heq. by eapply doc_name_not_prev. }
  assert (st_fs s !! pv <> Some Directory) as Hnd by (by eapply so_prev).
  apply content_Some in Hlive.
  assert (st_fs s !! (c :: dataDir) = Some Directory) as Hpar.
  { eapply (so_parent _ _ Hok c (id +:+ ".json")); [done|]. by eexists. }
  assert (exists f1, runs (r ← Stat pv; match r with Ok _ => Remove lv | Err _ => Rename lv pv end)
            s (Ok tt) f1 /\ store_ok dataDir f1 /\ content f1 lv = None /\
            content f1 pv = Some (default d (content (st_fs s) pv)) /\
            forall q, q <> lv -> q <> pv -> content f1 q = content (st_fs s) q)
    as (f1 & (s1 & R1 & F1 & I1) & Hok1 & Hl1 & Hp1 & Hr1).
  { destruct (st_fs s !! pv) as [[d0|]|] eqn:Ep; [|done|].
    - exists (delete lv (st_fs s)). split_and!.
      + eapply runs_bind; [apply Stat_runs|]. intros s1 F1 I1.
        assert (fs_lookup (st_fs s) pv = Ok (File d0)) as -> by (by apply fs_lookup_some).
        pose proof (Remove_runs lv s1) as R. unfold fs_remove in R. rewrite F1, Hlive in R. exact R.
      + apply store_ok_delete; [simpl; lia|done].
      + unfold content. by rewrite lookup_delete_eq.
      + unfold content. rewrite lookup_delete_ne by done. by rewrite Ep.
      + intros q Hq _. unfold content. by rewrite lookup_delete_ne.
    - exists (<[pv := File d]> (delete lv (st_fs s))). split_and!.
      + eapply runs_bind; [apply Stat_runs|]. intros s1 F1 I1.
        assert (fs_lookup (st_fs s) pv = Err (mkError NotExist "no such file or directory")) as ->.
        { apply fs_lookup_missing; [done|]. by eapply collection_ready. }
        rewrite <-F1. apply Rename_runs; rewrite F1; [done|by rewrite Ep|].
        simpl. by rewrite Hpar.
      + apply store_ok_insert; [by apply prev_file_place| |].
        * simpl. rewrite lookup_delete_ne; [by rewrite Hpar|].
          intros Heq. apply (f_equal length) in Heq. simpl in Heq. lia.
        * apply store_ok_delete; [simpl; lia|done].
      + rewrite content_insert_ne by done. unfold content. by rewrite lookup_delete_eq.
      + rewrite content_insert_eq. unfold content. by rewrite Ep.
      + intros q Hq1 Hq2. rewrite content_insert_ne by done. unfold content.
        by rewrite lookup_delete_ne. }
  rewrite <-F1 in Hok1. destruct (Cascade_runs s1 Hok1) as (f2 & (s2 & R2 & F2 & I2) & Hok2 & K).
  exists f2. split_and!.
  - exists s2. revert R1. unfold mbind, M_bind. destruct (Stat pv s) as [r sx].
    intros R1. rewrite R1. simpl. rewrite R2. split_and!; [done|done|congruence].
  - done.
  - rewrite K by done. by rewrite F1.
  - rewrite K by done. by rewrite F1.
  - intros q Hq1 Hq2 Hq3. rewrite K by done. rewrite F1. by apply Hr1.
Qed.
End nofault_ops.

(** ** Properties *)

Section properties.
Context `{E : Env}.

(** C26: however many of its system calls fail, an atomic write leaves the target
    with its old contents and reports an error, or with exactly the new contents;
    success is reported only for the new contents, and no other file changes but
    temporary files beside the target. *)
Theorem WriteFileAtomic_atomic target data s :
  is_temp target = false ->
  wp (WriteFileAtomic target data) (fun r s' =>
    (content (st_fs s') target = content (st_fs s) target /\ is_ok r = false \/
     content (st_fs s') target = Some data /\ is_ok r = true) /\
    forall q, q <> target -> is_temp q = false -> content (st_fs s') q = content (st_fs s) q) s.
Proof.
  intros Ht. eapply wp_mono; [by apply WriteFileAtomic_spec|]. intros [u|e] s' H; cbv beta in H.
  - destruct H as [Hc K]. split; [by right|]. intros q Hq Hn. apply K.
    intros [?|[Hx _]]; congruence.
  - split.
    + left. split; [|done]. apply H. intros [Hx _]. congruence.
    + intros q Hq Hn. apply H. intros [Hx _]. congruence.
Qed.
End properties.

(** The two checks of document identifiers, that of the generator and that of
    the file store, accept the same strings; and under accepted identifiers the
    live and the hidden file of a document lie directly in the directory of the
    collection, no two of them coinciding. *)
Theorem document_files_distinct dataDir c id id' :
  plain_collection c = true -> ValidDocumentID id = true -> ValidDocumentID id' = true ->
  SafeID id = true /\
  path_dir (DocumentPath dataDir c id) = CollectionDir dataDir c /\
  path_dir (PreviousDocumentPath dataDir c id) = CollectionDir dataDir c /\
  DocumentPath dataDir c id <> PreviousDocumentPath dataDir c id' /\
  (DocumentPath dataDir c id = DocumentPath dataDir c id' -> id = id') /\
  (PreviousDocumentPath dataDir c id = PreviousDocumentPath dataDir c id' -> id = id').
Proof.
  rewrite !ValidDocumentID_SafeID. intros Hc Hid Hid'.
  rewrite !DocumentPath_eq, !PreviousDocumentPath_eq, !CollectionDir_eq by done.
  split_and!; try done.
  - intros Heq. injection Heq as Heq. by apply (doc_name_not_prev id id' ".json").
  - intros Heq. injection Heq as Heq. by eapply str_app_inv_tail.
  - intros Heq. injection Heq as Heq. by eapply str_app_inv_tail.
Qed.

Lemma document_files_distinct_witness :
  DocumentPath ["data"] "users" "a" <> PreviousDocumentPath ["data"] "users" "b".
Proof. apply (document_files_distinct ["data"] "users" "a" "b"); reflexivity. Defined.

(** The name of a queue entry parses back to the change, the collection and
    the identifier it was made of, the identifier being any string, when neither
    the change nor the collection contains a double underscore or ends in an
    underscore. *)
Theorem queue_name_roundtrip change collection id ext :
  Contains (change +:+ "_") "__" = false -> Contains (collection +:+ "_") "__" = false ->
  ext ∈ ["queue"; "taken"] ->
  ParseQueueFilename (queue_name change collection id ("." +:+ ext)) =
  Some (change, collection, id, ext).
Proof.
  intros Hch Hco Hext. unfold ParseQueueFilename. rewrite queue_name_assoc.
  rewrite !elem_of_cons in Hext. destruct Hext as [->|[->|Hn]]; [| |set_solver].
  - change ("." +:+ "queue") with ".queue".
    rewrite HasSuffix_app, TrimSuffix_app. by rewrite SplitN_queue.
  - change ("." +:+ "taken") with ".taken".
    assert (HasSuffix ((change +:+ "__" +:+ collection +:+ "__" +:+ id) +:+ ".taken") ".queue"
            = false) as ->.
    { apply not_true_iff_false. intros [t Ht]%HasSuffix_spec.
      assert (String.length (change +:+ "__" +:+ collection +:+ "__" +:+ id) = String.length t) as Hl.
      { apply (f_equal String.length) in Ht.
        rewrite (str_length_app _ ".taken"), (str_length_app _ ".queue") in Ht.
        change (String.length ".taken") with (String.length ".queue") in Ht. lia. }
      by destruct (str_app_inv_length _ _ _ _ Hl Ht) as [_ ?]. }
    rewrite HasSuffix_app, TrimSuffix_app. by rewrite SplitN_queue.
Qed.

Lemma queue_name_roundtrip_witness :
  ParseQueueFilename "patch__users__a__b.taken" = Some ("patch", "users", "a__b", "taken").
Proof. apply (queue_name_roundtrip "patch" "users" "a__b" "taken"); [done|done|set_solver]. Defined.

(** A collection whose name ends in an underscore, which the naming rules
    accept, has queue entries that parse to another collection and another
    document. *)
Theorem queue_name_trailing_underscore id :
  ParseQueueFilename (queue_name "patch" "log_" id ".queue") =
  Some ("patch", "log", "_" +:+ id, "queue").
Proof.
  unfold ParseQueueFilename. rewrite queue_name_assoc.
  change ("patch" +:+ "__" +:+ "log_" +:+ "__" +:+ id)
    with ("patch" +:+ "__" +:+ "log" +:+ "__" +:+ ("_" +:+ id)).
  rewrite HasSuffix_app, TrimSuffix_app. by rewrite SplitN_queue.
Qed.
