(* ===== verification/Config.v ===== *)
(** * Package config: establishment configuration, routing and validation

    [internal/config]: the shapes of the configuration files, the shard map
    lookups of [routing.go], the naming rules of [conventions.go], the check that
    a schema compiles ([ValidateOJSONSchemaBytes] of [schemarules.go]) and the
    validation of [load.go].  A Go map is an association list; a [range] loop
    visits it in the order of the list, and a theorem about such a loop says what
    it does for every order. *)

From S2P Require Import Prelude GoStrings Shard Json.

(** Two standard-library functions stay parameters: the Unicode letter table and
    the URL parser, of which the code reads whether the URL is absolute, its
    scheme and its host. *)
Class GoTables := {
  IsLetter : Z -> bool;
  url_Parse : string -> option (bool * string * string);
}.

(** ** Shapes *)

Record GeneralBody := mkGeneralBody {
  Name : string;
  EstablishmentServer : string;
  Version : Z;
  ReadMemberCheckinSeconds : Z;
  CacheUpdateCheckinSeconds : Z;
  ReadMemberFailedCheckinsBeforeStale : Z;
  MaxFileBytes : Z;
}.

Record ServerEntry := mkServerEntry { BaseURL : string }.

Record ShardAssignment := mkShardAssignment {
  ShardSOTMember : string;
  ShardReadMember : list string;
  ProxyReadMember : list string;
}.

(** The zero value of the struct. *)
Definition no_assignment : ShardAssignment := mkShardAssignment "" [] [].

(** [ShardMapBody.Default]: [None] is the nil map. *)
Notation ShardMapBody := (option (list (string * ShardAssignment))).

Record AuthKey := mkAuthKey { Kid : string; Alg : string; Status : string; PublicKey : string }.

Record AuthBody := mkAuthBody {
  Issuer : string;
  Audience : string;
  LifetimeClient : Z;
  LifetimeMachine : Z;
  Keys : list AuthKey;
}.

Record Config := mkConfig {
  General : GeneralBody;
  Servers : list (string * ServerEntry);
  ShardMap : ShardMapBody;
  Auth : AuthBody;
  Schemas : list (string * string);
  SchemaVersions : list (string * Z);
  SchemaHistory : list (string * list (Z * string));
  SchemaUpdateHistory : list (string * list (Z * string));
  Searches : list (string * list (string * string));
  SearchVersions : list (string * list (string * Z));
  SearchHistory : list (string * list (string * list (Z * string)));
}.

(** Ranging over a nil map visits nothing. *)
Definition shard_entries (body : ShardMapBody) : list (string * ShardAssignment) :=
  match body with Some l => l | None => [] end.

(** ** Routing *)

Fixpoint assignment_in (l : list (string * ShardAssignment)) (slot : Z)
    : option ShardAssignment :=
  match l with
  | [] => None
  | (raw, assignment) :: l' =>
      match ParseRange raw with
      | Err _ => assignment_in l' slot
      | Ok r => if range_contains r slot then Some assignment else assignment_in l' slot
      end
  end.

Definition SlotAssignment (c : option Config) (slot : Z) : option ShardAssignment :=
  match c with
  | None => None
  | Some c => assignment_in (shard_entries (ShardMap c)) slot
  end.

Definition SOTForSlot (c : option Config) (slot : Z) : string :=
  match SlotAssignment c slot with
  | None => ""
  | Some a => ShardSOTMember a
  end.

Definition containsString (l : list string) (want : string) : bool :=
  existsb (fun v => v =? want) l.

Definition ServesSlot (c : option Config) (serverName : string) (slot : Z) : bool :=
  match SlotAssignment c slot with
  | None => false
  | Some a =>
      if ShardSOTMember a =? serverName then true
      else if containsString (ShardReadMember a) serverName then true
      else containsString (ProxyReadMember a) serverName
  end.

Definition str_le (a b : string) : Prop := str_leb a b = true.

#[export] Instance str_le_dec : RelDecision str_le.
Proof. intros a b. unfold str_le. apply _. Defined.

(** The keys of a [map[string]bool] used as a set, sorted. *)
Definition sorted_set (l : list string) : list string := merge_sort str_le (remove_dups l).

Definition AllReadMembers (c : option Config) : list string :=
  match c with
  | None => []
  | Some c =>
      sorted_set (flat_map (fun ra => ShardReadMember (snd ra) ++ ProxyReadMember (snd ra))
                    (shard_entries (ShardMap c)))
  end.

Definition AllSOTMembers (c : option Config) : list string :=
  match c with
  | None => []
  | Some c =>
      sorted_set (List.filter (fun n => n <>? "")
                    (map (fun ra => ShardSOTMember (snd ra)) (shard_entries (ShardMap c))))
  end.

Definition ServerBaseURL (c : option Config) (name : string) : string :=
  match c with
  | None => ""
  | Some c => match aget (Servers c) name with Some s => BaseURL s | None => "" end
  end.

Definition SchemaVersion (c : option Config) (collection : string) : Z :=
  match c with
  | None => 0
  | Some c => default 0%Z (aget (SchemaVersions c) collection)
  end.

(** ** Naming conventions *)

Section conventions.
Context `{GoTables}.

Fixpoint no_space_no_double (prevUnderscore : bool) (rs : list Z) : bool :=
  match rs with
  | [] => true
  | r :: rs' =>
      if IsSpace r then false
      else if (r =? 95)%Z
           then if prevUnderscore then false else no_space_no_double true rs'
           else no_space_no_double false rs'
  end.

Definition ValidCollectionName (name : string) : bool :=
  if name =? "" then false
  else match runes name with
       | [] => false
       | r0 :: _ => if negb (IsLetter r0) then false else no_space_no_double false (runes name)
       end.

Definition ValidServerName (name : string) : bool :=
  if name =? "" then false else forallb (fun r => negb (IsSpace r)) (runes name).

Definition ValidSearchName (name : string) : bool := ValidServerName name.

Definition ValidBaseURL (raw : string) : bool :=
  if raw =? "" then false
  else match url_Parse raw with
       | None => false
       | Some (is_abs, scheme, host) => is_abs && (scheme <>? "") && (host <>? "")
       end.

(** ** Authentication keys *)

Fixpoint KeyByKid_from (i : nat) (l : list AuthKey) (kid : string) : option nat :=
  match l with
  | [] => None
  | k :: l' => if Kid k =? kid then Some i else KeyByKid_from (S i) l' kid
  end.

Definition KeyByKid (a : AuthBody) (kid : string) : option nat := KeyByKid_from 0 (Keys a) kid.

Definition ActiveKeyCount (a : AuthBody) : nat :=
  length (List.filter (fun k => Status k =? "active") (Keys a)).

(** [strings.ToUpper] as far as an ASCII substring of the result goes: besides
    the ASCII letters only U+0131 and U+017F have an ASCII upper case. *)
Definition upper_rune (r : Z) : Z :=
  if in_range 97 r 122 then (r - 32)%Z
  else if (r =? 305)%Z then 73%Z
  else if (r =? 383)%Z then 83%Z
  else r.

Definition ToUpperRunes (s : string) : string := string_of_runes (map upper_rune (runes s)).

Definition quoted_d : string := String (of_byte 34) (String "d" (String (of_byte 34) "")).

Definition LooksLikePrivateKeyMaterial (material : string) : bool :=
  if Contains (ToUpperRunes material) "PRIVATE KEY" then true
  else Contains material quoted_d.

(** ** Validation of the shard map *)

Definition shard_path (raw : string) : string := "/shardMap/default/" +:+ raw.

Definition unknown_members (servers : list (string * ServerEntry)) (p : string)
    (names : list string) : list EError :=
  flat_map (fun name => if ahas servers name then []
                        else [mkEError "unknownServerReference" p "unknown server"
                                None (Some (JStr name))]) names.

(** The errors of one entry, and its range when the key parses. *)
Definition check_shard_entry (servers : list (string * ServerEntry))
    (e : string * ShardAssignment) : list EError * option Range :=
  let '(raw, assignment) := e in
  match ParseRange raw with
  | Err err => ([mkEError "invalidShardRange" (shard_path raw) (err_msg err) None None], None)
  | Ok r =>
      let sot := ShardSOTMember assignment in
      ((if sot =? "" then
          [mkEError "unknownServerReference" (shard_path raw +:+ "/SHARD_SOT_MEMBER")
             "SHARD_SOT_MEMBER is required" None None]
        else if ahas servers sot then []
        else [mkEError "unknownServerReference" (shard_path raw +:+ "/SHARD_SOT_MEMBER")
                "unknown server" None (Some (JStr sot))]) ++
       unknown_members servers (shard_path raw +:+ "/SHARD_READ_MEMBER")
         (ShardReadMember assignment) ++
       unknown_members servers (shard_path raw +:+ "/PROXY_READ_MEMBER")
         (ProxyReadMember assignment), Some r)
  end.

Definition ValidateShardMapBody (body : ShardMapBody) (servers : list (string * ServerEntry))
    : list EError :=
  match body with
  | None => [mkEError "incompleteShardMap" "/shardMap/default" "shardMap.default is required"
               None None]
  | Some entries =>
      let checked := map (check_shard_entry servers) entries in
      concat (map fst checked) ++
      match ValidateFullCoverage (omap snd checked) with
      | Ok _ => []
      | Err err =>
          [mkEError (if Contains (err_msg err) "overlap" then "overlappingShardRanges"
                     else "incompleteShardMap")
             "/shardMap/default" (err_msg err) None None]
      end
  end.

(** ** Validation of the authentication keys *)

Definition key_path (i : nat) : string := "/auth/keys/" +:+ Itoa (Z.of_nat i).

Definition auth_error (p msg : string) : EError := mkEError "invalidAuthConfig" p msg None None.

Fixpoint check_keys (i : nat) (seen : list string) (keys : list AuthKey) : list EError :=
  match keys with
  | [] => []
  | k :: keys' =>
      (if Kid k =? "" then [auth_error (key_path i +:+ "/kid") "kid is required"]
       else if containsString seen (Kid k) then
         [mkEError "invalidAuthConfig" (key_path i +:+ "/kid") "duplicate kid" None
            (Some (JStr (Kid k)))]
       else []) ++
      (if Alg k =? "" then [auth_error (key_path i +:+ "/alg") "alg is required"] else []) ++
      (if (Status k <>? "active") && (Status k <>? "retired") then
         [mkEError "invalidAuthConfig" (key_path i +:+ "/status")
            "status must be active or retired" None (Some (JStr (Status k)))]
       else []) ++
      (if PublicKey k =? "" then [auth_error (key_path i +:+ "/publicKey") "publicKey is required"]
       else if LooksLikePrivateKeyMaterial (PublicKey k) then
         [mkEError "privateKeyRejected" (key_path i +:+ "/publicKey")
            "publicKey field looks like private key material" None None]
       else []) ++
      check_keys (S i) (Kid k :: seen) keys'
  end.

Definition validateAuth (a : AuthBody) : list EError :=
  (if Issuer a =? "" then [auth_error "/auth/issuer" "auth.issuer is required"] else []) ++
  (if Audience a =? "" then [auth_error "/auth/audience" "auth.audience is required"] else []) ++
  (if (length (Keys a) =? 0)%nat then
     [mkEError "noActiveSigningKey" "/auth/keys"
        "at least one public signing key is required" None None]
   else []) ++
  check_keys 0 [] (Keys a) ++
  (if (ActiveKeyCount a =? 0)%nat && (0 <? length (Keys a))%nat then
     [mkEError "noActiveSigningKey" "/auth/keys"
        "at least one key must have status active" None None]
   else []).

(** ** Schemas *)

Context `{OJSON} `{GoJSON}.

Definition ValidateOJSONSchemaBytes (raw : string) : result unit :=
  result_bind (CompileSchemaBytes raw) (fun schema =>
  if bool_decide (entry_kind schema = KindObject) then Ok tt
  else Err (errorf "schema root must be kind object")).

(** The largest version of a history; the loop visits the map in some order. *)
Definition newer (acc : option Z) (e : Z * string) : option Z :=
  match acc with
  | None => Some (fst e)
  | Some m => if (m <? fst e)%Z then Some (fst e) else Some m
  end.

Definition latestHistoryVersion (history : list (Z * string)) : option Z :=
  foldl newer None history.

Definition zget (l : list (Z * string)) (k : Z) : option string :=
  list_find (fun e => fst e = k) l ≫= fun p => Some (snd (snd p)).

(** Equality of the values of two JSON texts, by their canonical encodings. *)
Definition jsonEqual (a b : string) : bool :=
  match Unmarshal a with
  | Err _ => false
  | Ok va =>
      match Unmarshal b with
      | Err _ => false
      | Ok vb => Marshal (map_order (floats va)) =? Marshal (map_order (floats vb))
      end
  end.

Definition check_schema (c : Config) (e : string * string) : list EError :=
  let '(collection, raw) := e in
  let p := "/" +:+ collection +:+ ".schema.json" in
  (if ValidCollectionName collection then []
   else [mkEError "invalidCollectionName" p "collection name violates naming conventions"
           None (Some (JStr collection))]) ++
  match ValidateOJSONSchemaBytes raw with
  | Err err => [mkEError "invalidSchema" p (err_msg err) None None]
  | Ok _ =>
      let history := default [] (aget (SchemaHistory c) collection) in
      match latestHistoryVersion history with
      | None => [mkEError "invalidSchema" p
                   "collection current schema has no matching versioned history file" None None]
      | Some ver =>
          if jsonEqual raw (default "" (zget history ver)) then []
          else [mkEError "invalidSchema"
                  ("/" +:+ collection +:+ ".schema." +:+ Itoa ver +:+ ".json")
                  "current schema does not match its versioned history file" None None]
      end
  end.

Definition validateSchemas (c : Config) : list EError := flat_map (check_schema c) (Schemas c).

(** The fields of [SearchEntry] the validation reads: the version, zero when the
    field is missing. *)
Definition int_field (v : json) (k : string) : result Z :=
  match Get v k with
  | None | Some JNull => Ok 0%Z
  | Some (JNum l) => match Atoi l with Some z => Ok z | None => Err (errorf "not an int") end
  | Some _ => Err (errorf "not an int")
  end.

Definition string_field (v : json) (k : string) : result string :=
  match Get v k with
  | None | Some JNull => Ok ""
  | Some (JStr s) => Ok s
  | Some _ => Err (errorf "not a string")
  end.

(** A slice of strings, [None] when nil; a [null] element is the empty string. *)
Fixpoint strings_of (l : list json) : result (list string) :=
  match l with
  | [] => Ok []
  | JStr s :: l' => result_bind (strings_of l') (fun r => Ok (s :: r))
  | JNull :: l' => result_bind (strings_of l') (fun r => Ok ("" :: r))
  | _ => Err (errorf "not a string")
  end.

Definition strings_field (v : json) (k : string) : result (option (list string)) :=
  match Get v k with
  | None | Some JNull => Ok None
  | Some (JArr l) => result_bind (strings_of l) (fun r => Ok (Some r))
  | Some _ => Err (errorf "not an array")
  end.

Definition search_entry_version (raw : string) : result Z :=
  result_bind (Unmarshal raw) (fun v =>
  match v with
  | JObj _ | JNull =>
      result_bind (string_field v "$") (fun _ =>
      result_bind (string_field v "collection") (fun _ =>
      result_bind (string_field v "name") (fun _ => int_field v "version")))
  | _ => Err (errorf "not an object")
  end).

Definition check_search (c : Config) (collection : string) (e : string * string) : list EError :=
  let '(name, raw) := e in
  let p := "/" +:+ collection +:+ ".search." +:+ name +:+ ".json" in
  (if ValidSearchName name then []
   else [mkEError "invalidSearchDefinition" p "search name violates naming conventions"
           None (Some (JStr name))]) ++
  match search_entry_version raw with
  | Err err => [mkEError "invalidJSON" p (err_msg err) None None]
  | Ok version =>
      (if ahas (Schemas c) collection then []
       else [mkEError "collectionNotFound" (p +:+ "/collection")
               "search collection does not exist" None (Some (JStr collection))]) ++
      (if (version <=? 0)%Z then
         [mkEError "invalidSearchDefinition" (p +:+ "/version")
            "version must be a positive integer" None (Some (JNum (Itoa version)))]
       else [])
  end.

Definition validateSearches (c : Config) : list EError :=
  flat_map (fun cb => flat_map (check_search c (fst cb)) (snd cb)) (Searches c).

(** ** The whole configuration *)

Definition check_general (c : Config) : list EError :=
  let g := General c in
  (if Name g =? "" then
     [mkEError "invalidGeneralConfig" "/general/name" "general.name is required" None None]
   else []) ++
  (if EstablishmentServer g =? "" then
     [mkEError "invalidGeneralConfig" "/general/establishmentServer"
        "general.establishmentServer is required" None None]
   else if ahas (Servers c) (EstablishmentServer g) then []
   else [mkEError "serverNotFound" "/general/establishmentServer"
           "establishmentServer is not a known server" None
           (Some (JStr (EstablishmentServer g)))]).

Definition check_servers (c : Config) : list EError :=
  (if (length (Servers c) =? 0)%nat then
     [mkEError "invalidServersConfig" "/servers" "at least one server is required" None None]
   else []) ++
  flat_map (fun ns => if ValidBaseURL (BaseURL (snd ns)) then []
                      else [mkEError "invalidBaseURL" ("/servers/" +:+ fst ns +:+ "/baseURL")
                              "baseURL must be an absolute URL with scheme and host" None
                              (Some (JStr (BaseURL (snd ns))))]) (Servers c).

Definition ValidateDetailed (c : Config) : list EError :=
  check_general c ++ check_servers c ++
  ValidateShardMapBody (ShardMap c) (Servers c) ++
  validateAuth (Auth c) ++ validateSchemas c ++ validateSearches c.
End conventions.

(** ** A validated shard map routes every slot *)

Definition covers (slot : Z) (e : string * ShardAssignment) : bool :=
  match ParseRange (fst e) with Ok r => range_contains r slot | Err _ => false end.

Lemma assignment_in_covers l slot :
  assignment_in l slot = snd <$> head (List.filter (covers slot) l).
Proof.
  induction l as [|[raw a] l IH]; simpl; [done|]. unfold covers at 1. simpl.
  destruct (ParseRange raw) as [r|]; [|done]. by destruct (range_contains r slot).
Qed.

Lemma assignment_in_unique l l' slot e :
  l ≡ₚ l' -> List.filter (covers slot) l = [e] ->
  assignment_in l' slot = Some (snd e).
Proof.
  intros Hp Hf. rewrite assignment_in_covers.
  assert (List.filter (covers slot) l ≡ₚ List.filter (covers slot) l') as Hp'.
  { clear Hf. induction Hp as [|x l l' Hp IH|x y l|]; simpl.
    - done.
    - destruct (covers slot x); by rewrite IH.
    - destruct (covers slot x), (covers slot y); try done. constructor.
    - by etrans. }
  rewrite Hf in Hp'. symmetry in Hp'. apply Permutation_singleton_r in Hp'.
  by rewrite Hp'.
Qed.

Lemma concat_nil_inv {A} (l : list (list A)) x : concat l = [] -> x ∈ l -> x = [].
Proof.
  induction l as [|y l IH]; simpl; [set_solver|].
  intros [Hy Hl]%app_eq_nil [->|Hx]%elem_of_cons; auto.
Qed.

Lemma check_shard_entry_ok servers e :
  fst (check_shard_entry servers e) = [] ->
  exists r, ParseRange (fst e) = Ok r /\ snd (check_shard_entry servers e) = Some r /\
    ahas servers (ShardSOTMember (snd e)) = true /\
    Forall (fun n => ahas servers n = true)
      (ShardReadMember (snd e) ++ ProxyReadMember (snd e)).
Proof.
  destruct e as [raw a]. simpl. destruct (ParseRange raw) as [r|err]; [|done]. simpl.
  intros [Hs [Hr Hp]%app_eq_nil]%app_eq_nil. exists r. split_and!; [done|done| |].
  - destruct (ShardSOTMember a =? ""); [done|]. by destruct (ahas servers _).
  - assert (forall p l, unknown_members servers p l = [] ->
              Forall (fun n => ahas servers n = true) l) as Hk.
    { intros p l. unfold unknown_members. induction l as [|n l IH]; simpl; [done|].
      destruct (ahas servers n) eqn:En; simpl; [|done]. intros Hl. constructor; auto. }
    apply Forall_app. split; eapply Hk; eauto.
Qed.

Lemma checked_ranges servers l slot :
  Forall (fun e => fst (check_shard_entry servers e) = []) l ->
  Forall byte_range (omap snd (map (check_shard_entry servers) l)) /\
  length (List.filter (covers slot) l) =
  length (owners slot (omap snd (map (check_shard_entry servers) l))).
Proof.
  induction 1 as [|e l He Hl [IH1 IH2]]; [done|].
  destruct (check_shard_entry_ok _ _ He) as (r & Hr & Hs & _).
  cbn [map omap list_omap]. unfold omap in *. simpl. rewrite Hs. split.
  - constructor; [by eapply ParseRange_byte_range|done].
  - unfold owners, covers in *. simpl. rewrite Hr.
    destruct (range_contains r slot); simpl; by rewrite IH2.
Qed.

Lemma validated_entries l servers :
  ValidateShardMapBody (Some l) servers = [] ->
  Forall (fun e => fst (check_shard_entry servers e) = []) l /\
  ValidateFullCoverage (omap snd (map (check_shard_entry servers) l)) = Ok tt.
Proof.
  simpl. intros [Hc Hv]%app_eq_nil. split.
  - apply Forall_forall. intros e He. eapply concat_nil_inv; [exact Hc|].
    apply list_elem_of_fmap. exists (check_shard_entry servers e). split; [done|].
    apply list_elem_of_fmap. by exists e.
  - by destruct (ValidateFullCoverage _) as [[]|].
Qed.

(** Every slot has one entry that covers it, whose servers are known. *)
Lemma validated_covering l servers slot :
  ValidateShardMapBody (Some l) servers = [] -> (0 <= slot < 256)%Z ->
  exists e, List.filter (covers slot) l = [e] /\
    ahas servers (ShardSOTMember (snd e)) = true /\
    Forall (fun n => ahas servers n = true)
      (ShardReadMember (snd e) ++ ProxyReadMember (snd e)).
Proof.
  intros [Hall Hcov]%validated_entries Hslot.
  destruct (checked_ranges servers l slot Hall) as [Hb Hlen].
  apply (proj1 (ValidateFullCoverage_spec _ Hb)) with (slot := slot) in Hcov as [r Hr]; [|done].
  rewrite Hr in Hlen. destruct (List.filter (covers slot) l) as [|e [|]] eqn:Ef; try done.
  exists e. split; [done|].
  assert (e ∈ l) as Hin.
  { apply list_elem_of_In. eapply (filter_In (covers slot) e l). rewrite Ef. by left. }
  rewrite Forall_forall in Hall.
  destruct (check_shard_entry_ok _ _ (Hall _ Hin)) as (? & _ & _ & ? & ?). done.
Qed.

(** ** Properties *)

(** Under a shard map that validation accepts, every document identifier is
    routed to an assignment, the same one whatever order the map is visited in,
    and the source-of-truth member and every read member of it are servers the
    configuration knows. *)
Theorem routing_total cfg l l' id :
  ShardMap cfg = Some l -> l ≡ₚ l' -> ValidateShardMapBody (ShardMap cfg) (Servers cfg) = [] ->
  exists a, SlotAssignment (Some cfg) (Slot id) = Some a /\
    assignment_in l' (Slot id) = Some a /\
    SOTForSlot (Some cfg) (Slot id) = ShardSOTMember a /\
    ahas (Servers cfg) (ShardSOTMember a) = true /\
    Forall (fun n => ahas (Servers cfg) n = true) (ShardReadMember a ++ ProxyReadMember a).
Proof.
  intros Hmap Hperm Hvalid. rewrite Hmap in Hvalid.
  destruct (validated_covering l _ (Slot id) Hvalid (Slot_byte id)) as (e & Hf & Hs & Hr).
  exists (snd e).
  assert (SlotAssignment (Some cfg) (Slot id) = Some (snd e)) as Ha.
  { unfold SlotAssignment. rewrite Hmap. by apply (assignment_in_unique l). }
  split_and!; [done|by eapply assignment_in_unique| |done|done].
  unfold SOTForSlot. by rewrite Ha.
Qed.
