(* ===== verification/ConfigLoad.v ===== *)
(** * Package config: loading, schema rules and search rules

    [load.go] as far as it reads a configuration directory, the collection schema
    rules of [schemarules.go] and the search definition rules of [searchrules.go].
    What the files mean is in [Config]. *)

From S2P Require Import Prelude GoStrings World Shard Json Config Store.

(** ** Decoding the four files *)

(** A struct-valued field; missing and [null] leave the zero value. *)
Definition struct_field (v : json) (k : string) : result json :=
  match Get v k with
  | None | Some JNull => Ok (JObj [])
  | Some (JObj m) => Ok (JObj m)
  | Some _ => Err (errorf "not an object")
  end.

Definition struct_value (v : json) : result json :=
  match v with
  | JNull => Ok (JObj [])
  | JObj m => Ok (JObj m)
  | _ => Err (errorf "not an object")
  end.

Definition general_of_json (v : json) : result GeneralBody :=
  result_bind (struct_value v) (fun v =>
  result_bind (struct_field v "general") (fun g =>
  result_bind (string_field g "name") (fun name =>
  result_bind (string_field g "establishmentServer") (fun server =>
  result_bind (int_field g "version") (fun version =>
  result_bind (int_field g "readMemberCheckinSeconds") (fun read =>
  result_bind (int_field g "cacheUpdateCheckinSeconds") (fun cache =>
  result_bind (int_field g "readMemberFailedCheckinsBeforeStale") (fun stale =>
  result_bind (int_field g "maxFileBytes") (fun max =>
  Ok (mkGeneralBody name server version read cache stale max)))))))))).

(** A map of structs: a repeated key keeps the last value. *)
Fixpoint map_of {A} (dec : json -> result A) (m : fields) (acc : list (string * A))
    : result (list (string * A)) :=
  match m with
  | [] => Ok acc
  | (k, v) :: m' => result_bind (dec v) (fun a => map_of dec m' (aset acc k a))
  end.

Definition struct_map_field {A} (dec : json -> result A) (v : json) (k : string)
    : result (option (list (string * A))) :=
  match Get v k with
  | None | Some JNull => Ok None
  | Some (JObj m) => result_bind (map_of dec m []) (fun l => Ok (Some l))
  | Some _ => Err (errorf "not an object")
  end.

Definition server_of_json (v : json) : result ServerEntry :=
  result_bind (struct_value v) (fun v =>
  result_bind (string_field v "baseURL") (fun url => Ok (mkServerEntry url))).

Definition servers_of_json (v : json) : result (list (string * ServerEntry)) :=
  result_bind (struct_value v) (fun v =>
  result_bind (struct_map_field server_of_json v "servers") (fun l => Ok (default [] l))).

Definition assignment_of_json (v : json) : result ShardAssignment :=
  result_bind (struct_value v) (fun v =>
  result_bind (string_field v "SHARD_SOT_MEMBER") (fun sot =>
  result_bind (strings_field v "SHARD_READ_MEMBER") (fun reads =>
  result_bind (strings_field v "PROXY_READ_MEMBER") (fun proxies =>
  Ok (mkShardAssignment sot (default [] reads) (default [] proxies)))))).

Definition shardmap_of_json (v : json) : result ShardMapBody :=
  result_bind (struct_value v) (fun v =>
  result_bind (struct_field v "shardMap") (fun m => struct_map_field assignment_of_json m "default")).

Definition key_of_json (v : json) : result AuthKey :=
  result_bind (struct_value v) (fun v =>
  result_bind (string_field v "kid") (fun kid =>
  result_bind (string_field v "alg") (fun alg =>
  result_bind (string_field v "status") (fun status =>
  result_bind (string_field v "publicKey") (fun key => Ok (mkAuthKey kid alg status key)))))).

Fixpoint slice_of {A} (dec : json -> result A) (l : list json) : result (list A) :=
  match l with
  | [] => Ok []
  | v :: l' => result_bind (dec v) (fun a => result_bind (slice_of dec l') (fun r => Ok (a :: r)))
  end.

Definition slice_field {A} (dec : json -> result A) (v : json) (k : string) : result (list A) :=
  match Get v k with
  | None | Some JNull => Ok []
  | Some (JArr l) => slice_of dec l
  | Some _ => Err (errorf "not an array")
  end.

Definition auth_of_json (v : json) : result AuthBody :=
  result_bind (struct_value v) (fun v =>
  result_bind (struct_field v "auth") (fun a =>
  result_bind (string_field a "issuer") (fun issuer =>
  result_bind (string_field a "audience") (fun audience =>
  result_bind (struct_field a "tokenLifetimeSeconds") (fun t =>
  result_bind (int_field t "client") (fun client =>
  result_bind (int_field t "machine") (fun machine =>
  result_bind (slice_field key_of_json a "keys") (fun keys =>
  Ok (mkAuthBody issuer audience client machine keys))))))))).

(** ** File names *)

Definition looksInt (s : string) : bool := (s <>? "") && str_all is_digit s.

(** The parts of a name between its periods, without the given ending. *)
Definition name_parts (name ext : string) : option (list string) :=
  if HasSuffix name ext then Some (Split (TrimSuffix name ext) ".") else None.

Definition parseVersionedSchemaFilename (name : string) : option (Z * string) :=
  match name_parts name ".json" with
  | Some [c; kind; v] =>
      if (kind =? "schema") && looksInt v then option_map (fun n => (n, c)) (Atoi v) else None
  | _ => None
  end.

Definition parseVersionedSchemaUpdateFilename (name : string) : option (Z * string) :=
  match name_parts name ".update.json" with
  | Some [c; kind; v] =>
      if (kind =? "schema") && looksInt v then option_map (fun n => (n, c)) (Atoi v) else None
  | _ => None
  end.

Definition parseSearchFilename (name : string) : option (string * string) :=
  match name_parts name ".json" with
  | Some [c; kind; search] => if kind =? "search" then Some (c, search) else None
  | _ => None
  end.

Definition parseVersionedSearchFilename (name : string) : option (string * string * Z) :=
  match name_parts name ".json" with
  | Some [c; kind; search; v] =>
      if (kind =? "search") && looksInt v then option_map (fun n => (c, search, n)) (Atoi v) else None
  | _ => None
  end.

(** What a file of the directory is, in the order [loadUnvalidated] asks. *)
Inductive config_file :=
| SearchVersionFile (collection search : string) (ver : Z)
| SearchFile (collection search : string)
| SchemaUpdateFile (collection : string) (ver : Z)
| SchemaVersionFile (collection : string) (ver : Z)
| SchemaFile (collection : string)
| OtherFile.

Definition classify (name : string) : config_file :=
  if negb (HasSuffix name ".json") then OtherFile
  else if HasPrefix name "__" then OtherFile
  else match parseVersionedSearchFilename name with
  | Some (c, search, ver) => SearchVersionFile c search ver
  | None =>
  match parseSearchFilename name with
  | Some (c, search) => SearchFile c search
  | None =>
  match parseVersionedSchemaUpdateFilename name with
  | Some (ver, c) => SchemaUpdateFile c ver
  | None =>
  match parseVersionedSchemaFilename name with
  | Some (ver, c) => SchemaVersionFile c ver
  | None =>
  if HasSuffix name ".schema.json" then SchemaFile (TrimSuffix name ".schema.json")
  else OtherFile
  end end end end.

(** ** The configuration as it is read *)

Fixpoint zset (l : list (Z * string)) (k : Z) (v : string) : list (Z * string) :=
  match l with
  | [] => [(k, v)]
  | (k', v') :: l' => if (k' =? k)%Z then (k, v) :: l' else (k', v') :: zset l' k v
  end.

Definition inner {A} (l : list (string * list A)) (k : string) : list A := default [] (aget l k).

Definition with_file (c : Config) (f : config_file) (raw : string) : Config :=
  let '(mkConfig g sv sm au schemas sver shist uhist searches srver srhist) := c in
  match f with
  | SearchVersionFile col search ver =>
      mkConfig g sv sm au schemas sver shist uhist searches srver
        (aset srhist col (aset (inner srhist col) search (zset (inner (inner srhist col) search) ver raw)))
  | SearchFile col search =>
      mkConfig g sv sm au schemas sver shist uhist (aset searches col (aset (inner searches col) search raw)) srver srhist
  | SchemaUpdateFile col ver =>
      mkConfig g sv sm au schemas sver shist (aset uhist col (zset (inner uhist col) ver raw)) searches srver srhist
  | SchemaVersionFile col ver =>
      mkConfig g sv sm au schemas sver (aset shist col (zset (inner shist col) ver raw)) uhist searches srver srhist
  | SchemaFile col => mkConfig g sv sm au (aset schemas col raw) sver shist uhist searches srver srhist
  | OtherFile => c
  end.

Definition history_version (history : list (Z * string)) : Z := default 0%Z (latestHistoryVersion history).

Definition deriveSchemaVersions (c : Config) : Config :=
  mkConfig (General c) (Servers c) (ShardMap c) (Auth c) (Schemas c)
    (map (fun s => (fst s, history_version (inner (SchemaHistory c) (fst s)))) (Schemas c))
    (SchemaHistory c) (SchemaUpdateHistory c) (Searches c) (SearchVersions c) (SearchHistory c).

Definition deriveSearchVersions (c : Config) : Config :=
  mkConfig (General c) (Servers c) (ShardMap c) (Auth c) (Schemas c) (SchemaVersions c)
    (SchemaHistory c) (SchemaUpdateHistory c) (Searches c)
    (map (fun cb => (fst cb, map (fun s => (fst s,
       history_version (inner (inner (SearchHistory c) (fst cb)) (fst s)))) (snd cb))) (Searches c))
    (SearchHistory c).

Definition combineErrors (errs : list EError) : error :=
  errorf (Join (map (fun e => if EPath e =? "" then Code e +:+ ": " +:+ Message e
                              else Code e +:+ " (" +:+ EPath e +:+ "): " +:+ Message e) errs) "; ").

Section load.
Context `{Env} `{GoTables} `{OJSON} `{GoJSON}.

Definition readJSON {A} (p : path) (dec : json -> result A) : M (result A) :=
  data <-? ReadFile p;
  mret (match result_bind (Unmarshal data) dec with
        | Ok a => Ok a
        | Err e => Err (errorf (path_string p +:+ ": " +:+ err_msg e))
        end).

Fixpoint load_entries (dir : path) (c : Config) (entries : list dir_entry) : M (result Config) :=
  match entries with
  | [] => mret (Ok c)
  | (name, is_dir) :: entries' =>
      if is_dir then load_entries dir c entries'
      else match classify name with
      | OtherFile => load_entries dir c entries'
      | f => raw <-? ReadFile (join dir [name]); load_entries dir (with_file c f raw) entries'
      end
  end.

Definition loadUnvalidated (dir : path) : M (result Config) :=
  general <-? readJSON (join dir ["__general.json"]) general_of_json;
  servers <-? readJSON (join dir ["__servers.json"]) servers_of_json;
  shardmap <-? readJSON (join dir ["__shard-map.json"]) shardmap_of_json;
  auth <-? readJSON (join dir ["__auth.json"]) auth_of_json;
  entries <-? ReadDir dir;
  c <-? load_entries dir (mkConfig general servers shardmap auth [] [] [] [] [] [] []) entries;
  mret (Ok (deriveSearchVersions (deriveSchemaVersions c))).

Definition Load (dir : path) : M (result Config) :=
  cfg <-? loadUnvalidated dir;
  mret (match ValidateDetailed cfg with
        | [] => Ok cfg
        | errs => Err (combineErrors errs)
        end).
End load.

(** ** Collection schema rules *)

Fixpoint strip_slashes (s : string) : string :=
  match s with
  | String c s' => if Ascii.eqb c "/" then strip_slashes s' else s
  | EmptyString => EmptyString
  end.

Definition splitFieldPath (p : string) : list string :=
  let trimmed := strip_slashes p in
  if trimmed =? "" then [] else Split trimmed "/".

Fixpoint resolve_from (node : schemaEntry) (segments : list string) : bool :=
  match segments with
  | [] => true
  | seg :: rest =>
      match entry_child node seg with
      | None => false
      | Some child => resolve_from child rest
      end
  end.

Definition summaryPathResolves (root : schemaEntry) (p : string) : bool :=
  resolve_from root (splitFieldPath p).

Definition FieldPathResolves (root : schemaEntry) (p : string) : bool := summaryPathResolves root p.

Definition schema_error (p msg : string) : EError := mkEError "invalidSchema" p msg None None.

(** The string items of an array. *)
Definition string_items (l : list json) : list string :=
  omap (fun v => match v with JStr s => Some s | _ => None end) l.

Definition quoted (s : string) : string := String "034" (s +:+ String "034" "").

Section rules.
Context `{GoTables} `{OJSON} `{GoJSON}.

(** fmt's [%q] of the target's name, which only goes into a message. *)
Variable quote : string -> string.

Definition check_summary_target (existing : list (string * string)) (p : string) (summaryPaths : list string)
    (target : string) : list EError :=
  match aget existing target with
  | None => []
  | Some raw =>
      match CompileSchemaBytes raw with
      | Err _ => []
      | Ok root =>
          if (0 <? length summaryPaths)%nat && negb (existsb (summaryPathResolves root) summaryPaths)
          then [schema_error (p +:+ "/custom/summary")
                  ("no summary path resolves against target collection " +:+ quote target)]
          else []
      end
  end.

Definition validateCachedRef (entry : schemaEntry) (p : string) (existing : list (string * string))
    : list EError :=
  let get k := match entry_custom entry with Some v => Get v k | None => None end in
  let collections := match get "collections" with Some (JArr (x :: l)) => Some (x :: l) | _ => None end in
  (match collections with
   | None => [schema_error (p +:+ "/custom/collections")
                "DatoriumCachedRef fields must include custom.collections as a non-empty array"]
   | Some _ => []
   end) ++
  match get "summary" with
  | Some (JArr items) =>
      flat_map (fun v => match v with
                         | JStr _ => []
                         | _ => [schema_error (p +:+ "/custom/summary") "custom.summary items must be strings"]
                         end) items ++
      match collections with
      | None => []
      | Some l => flat_map (check_summary_target existing p (string_items items)) (string_items l)
      end
  | _ => [schema_error (p +:+ "/custom/summary")
            "DatoriumCachedRef fields must include custom.summary as an array of strings"]
  end.

Definition check_format (entry : schemaEntry) (p : string) (existing : list (string * string))
    : list EError :=
  let format := entry_format entry in
  if (format =? "DatoriumDirectRef") || (format =? "DatoriumCachedRef") then
    (if bool_decide (entry_kind entry = KindString) then []
     else [schema_error p (format +:+ " format is only valid on kind string")]) ++
    (if format =? "DatoriumCachedRef" then validateCachedRef entry p existing else [])
  else [].

Fixpoint walkSchemaEntry (entry : schemaEntry) (p : string) (existing : list (string * string))
    : list EError :=
  check_format entry p existing ++
  match entry with
  | SE _ _ _ children items _ =>
      flat_map (fun child => walkSchemaEntry child (p +:+ "/" +:+ entry_name child) existing) children ++
      match items with
      | Some it => walkSchemaEntry it (p +:+ "/items") existing
      | None => []
      end
  end.

Definition ValidateCollectionSchemaRules (raw : string) (existing : list (string * string))
    : list EError :=
  match CompileSchemaBytes raw with
  | Err e => [mkEError "invalidSchema" "" (err_msg e) None None]
  | Ok root =>
      if bool_decide (entry_kind root = KindObject) then walkSchemaEntry root "" existing
      else [mkEError "invalidSchema" "" "schema root must be kind object" None None]
  end.

(** ** Search definition rules *)

Record searchClause := mkSearchClause { ScField : string; ScOp : string }.
Record searchSort := mkSearchSort { SsField : string; SsDir : string }.

Record searchDefinitionDoc := mkSearchDoc {
  SdSchema : string;
  SdCollection : string;
  SdName : string;
  SdVersion : Z;
  SdClauses : list searchClause;
  SdSort : list searchSort;
}.

Definition knownSearchOps : list string :=
  ["equals"; "notEquals"; "in"; "notIn"; "greaterThan"; "greaterThanOrEqual"; "lessThan";
   "lessThanOrEqual"; "exists"; "contains"; "startsWith"; "endsWith"].

Definition search_clause_of_json (v : json) : result searchClause :=
  result_bind (struct_value v) (fun v =>
  result_bind (string_field v "field") (fun f =>
  result_bind (string_field v "op") (fun op => Ok (mkSearchClause f op)))).

Definition search_sort_of_json (v : json) : result searchSort :=
  result_bind (struct_value v) (fun v =>
  result_bind (string_field v "field") (fun f =>
  result_bind (string_field v "dir") (fun d => Ok (mkSearchSort f d)))).

Definition search_doc_of_json (v : json) : result searchDefinitionDoc :=
  result_bind (struct_value v) (fun v =>
  result_bind (string_field v "$") (fun schema =>
  result_bind (string_field v "collection") (fun collection =>
  result_bind (string_field v "name") (fun name =>
  result_bind (int_field v "version") (fun version =>
  result_bind (struct_field v "v1") (fun v1 =>
  result_bind (slice_field search_clause_of_json v1 "clauses") (fun clauses =>
  result_bind (slice_field search_sort_of_json v1 "sort") (fun sort =>
  Ok (mkSearchDoc schema collection name version clauses sort))))))))).

Definition def_err (p msg : string) (actual : option json) : EError :=
  mkEError "invalidSearchDefinition" p msg None actual.

(** The root of the collection's schema, when there is one that compiles. *)
Definition schema_root (schemas : list (string * string)) (collection : string) : option schemaEntry :=
  match aget schemas collection with
  | Some raw => match CompileSchemaBytes raw with Ok root => Some root | Err _ => None end
  | None => None
  end.

Definition unresolved (root : option schemaEntry) (field : string) : bool :=
  match root with Some r => negb (FieldPathResolves r field) | None => false end.

Fixpoint check_clauses (root : option schemaEntry) (i : nat) (l : list searchClause) : list EError :=
  match l with
  | [] => []
  | c :: l' =>
      let p := "/v1/clauses/" +:+ Itoa (Z.of_nat i) in
      (if ScField c =? "" then [def_err (p +:+ "/field") "field is required" None]
       else if unresolved root (ScField c)
       then [def_err (p +:+ "/field") "field does not resolve to a schema-defined field" (Some (JStr (ScField c)))]
       else []) ++
      (if ScOp c =? "" then [def_err (p +:+ "/op") "op is required" None]
       else if containsString knownSearchOps (ScOp c) then []
       else [def_err (p +:+ "/op") "unsupported search operation" (Some (JStr (ScOp c)))]) ++
      check_clauses root (S i) l'
  end.

Fixpoint check_sorts (root : option schemaEntry) (i : nat) (l : list searchSort) : list EError :=
  match l with
  | [] => []
  | s :: l' =>
      let p := "/v1/sort/" +:+ Itoa (Z.of_nat i) in
      (if (SsField s <>? "/!") && unresolved root (SsField s)
       then [def_err (p +:+ "/field") "sort field does not resolve to a schema-defined field" (Some (JStr (SsField s)))]
       else []) ++
      (if (SsDir s <>? "asc") && (SsDir s <>? "desc")
       then [def_err (p +:+ "/dir") "dir must be asc or desc" (Some (JStr (SsDir s)))] else []) ++
      check_sorts root (S i) l'
  end.

Definition ValidateSearchDefinition (raw collection name : string) (schemas : list (string * string))
    : list EError :=
  match result_bind (Unmarshal raw) search_doc_of_json with
  | Err e => [mkEError "invalidJSON" "" (err_msg e) None None]
  | Ok doc =>
      let root := schema_root schemas collection in
      (if SdSchema doc =? "SearchDefinition:v1" then []
       else [def_err "/$" ("$ must be " +:+ quoted "SearchDefinition:v1") (Some (JStr (SdSchema doc)))]) ++
      (if SdCollection doc =? collection then []
       else [mkEError "invalidSearchDefinition" "/collection" "collection must match the CLI argument"
               (Some (JStr collection)) (Some (JStr (SdCollection doc)))]) ++
      (if SdName doc =? name then []
       else [mkEError "invalidSearchDefinition" "/name" "name must match the CLI argument"
               (Some (JStr name)) (Some (JStr (SdName doc)))]) ++
      (if ValidSearchName name then []
       else [def_err "/name" "search name violates naming conventions" (Some (JStr name))]) ++
      (if (SdVersion doc <=? 0)%Z
       then [def_err "/version" "version must be a positive integer" (Some (JNum (Itoa (SdVersion doc))))] else []) ++
      (if ahas schemas collection then []
       else [mkEError "collectionNotFound" "/collection" "collection does not exist" None (Some (JStr collection))]) ++
      (match SdClauses doc with
       | [] => [def_err "/v1/clauses" "clauses must be a non-empty array" None]
       | _ => []
       end) ++
      check_clauses root 0 (SdClauses doc) ++ check_sorts root 0 (SdSort doc)
  end.
End rules.
