(* ===== verification/ConfigSpec.v ===== *)
(** * Loaded configurations

    How the files of a configuration directory are recognised, and what a
    configuration that [Load] accepts satisfies. *)

From S2P Require Import Prelude GoStrings World Shard Json Config Store ConfigLoad.

(** ** File names *)

(** The name a file is written under. *)
Definition config_name (f : config_file) : string :=
  match f with
  | SearchVersionFile c search ver => c +:+ ".search." +:+ search +:+ "." +:+ Itoa ver +:+ ".json"
  | SearchFile c search => c +:+ ".search." +:+ search +:+ ".json"
  | SchemaUpdateFile c ver => c +:+ ".schema." +:+ Itoa ver +:+ ".update.json"
  | SchemaVersionFile c ver => c +:+ ".schema." +:+ Itoa ver +:+ ".json"
  | SchemaFile c => c +:+ ".schema.json"
  | OtherFile => ""
  end.

(** Names without periods, versions that fit an int. *)
Definition nameable (f : config_file) : Prop :=
  match f with
  | SearchVersionFile c search ver =>
      in_string "." c = false /\ HasPrefix c "__" = false /\ in_string "." search = false /\ (0 <= ver < 2 ^ 63)%Z
  | SearchFile c search => in_string "." c = false /\ HasPrefix c "__" = false /\ in_string "." search = false
  | SchemaUpdateFile c ver | SchemaVersionFile c ver =>
      in_string "." c = false /\ HasPrefix c "__" = false /\ (0 <= ver < 2 ^ 63)%Z
  | SchemaFile c => in_string "." c = false /\ HasPrefix c "__" = false
  | OtherFile => False
  end.

(** Parts joined by periods. *)
Fixpoint dotted (a : string) (l : list string) : string :=
  match l with [] => a | b :: l' => a +:+ String "." (dotted b l') end.

Lemma Split_dotted a l :
  in_string "." a = false -> Forall (fun b => in_string "." b = false) l ->
  Split (dotted a l) "." = a :: l.
Proof.
  revert a. induction l as [|b l IH]; intros a Ha Hl; simpl.
  - rewrite <-(SplitN_enough "." a (S (S (String.length a)))) by (done || lia).
    by rewrite SplitN_step, Cut_char_None.
  - inversion Hl; subst. rewrite Split_cons by done. by rewrite IH.
Qed.

Lemma name_parts_dotted a l ext :
  in_string "." a = false -> Forall (fun b => in_string "." b = false) l ->
  name_parts (dotted a l +:+ ext) ext = Some (a :: l).
Proof.
  intros Ha Hl. unfold name_parts. rewrite HasSuffix_app, TrimSuffix_app. by rewrite Split_dotted.
Qed.

Lemma Itoa_dotless z : (0 <= z)%Z -> in_string "." (Itoa z) = false.
Proof. intros Hz. destruct (Itoa_nonneg z Hz) as (Hd & _). by apply digits_no_char. Qed.

Lemma version_text z :
  (0 <= z < 2 ^ 63)%Z -> looksInt (Itoa z) = true /\ Atoi (Itoa z) = Some z.
Proof.
  intros Hz. destruct (Itoa_nonneg z) as (Hd & Hne & Hp); [lia|]. split.
  - unfold looksInt. rewrite Hd, (proj2 (String.eqb_neq _ _) Hne). done.
  - by apply Atoi_digits.
Qed.

Lemma not_hidden c t : HasPrefix c "__" = false -> HasPrefix (c +:+ String "." t) "__" = false.
Proof.
  unfold HasPrefix. intros Hc. destruct c as [|x [|y c]]; cbn [String.append String.prefix] in *;
    repeat match goal with |- context [Ascii.ascii_dec ?a ?b] => destruct (Ascii.ascii_dec a b) end;
    repeat match goal with H : context [Ascii.ascii_dec ?a ?b] |- _ => destruct (Ascii.ascii_dec a b) end;
    try congruence. by destruct c.
Qed.

(** A text that ends in another character than e does not end in [.update]. *)
Lemma no_update_suffix w d :
  d <> "e"%char -> HasSuffix ((w +:+ String d "") +:+ ".json") ".update.json" = false.
Proof.
  intros Hd. apply not_true_iff_false. intros [u Hu]%HasSuffix_spec.
  change (u +:+ ".update.json") with (u +:+ (".update" +:+ ".json")) in Hu.
  rewrite <-str_app_assoc in Hu. apply str_app_inv_tail in Hu.
  change (u +:+ ".update") with (u +:+ (".updat" +:+ "e")) in Hu. rewrite <-str_app_assoc in Hu.
  assert (String.length w = String.length (u +:+ ".updat")) as Hl.
  { apply (f_equal String.length) in Hu. rewrite !(str_length_app _ (String _ "")) in Hu. simpl in Hu. lia. }
  destruct (str_app_inv_length _ _ _ _ Hl Hu) as [_ Heq]. injection Heq as ->. done.
Qed.

Lemma digits_last s :
  str_all is_digit s = true -> s <> "" -> exists w d, s = w +:+ String d "" /\ is_digit d = true.
Proof.
  induction s as [|c s IH]; [done|]. cbn [str_all]. intros [Hc Hs]%andb_true_iff _.
  destruct s as [|c' s]; [by exists "", c|]. destruct (IH Hs) as (w & d & -> & Hd); [done|].
  by exists (String c w), d.
Qed.

(** Equality of texts that differ in how they are joined. *)
Ltac same_text := simpl; repeat (rewrite str_app_assoc; simpl); reflexivity.

(** Splits a name into its parts. *)
Ltac take_parts := rewrite name_parts_dotted by (first [done|by repeat constructor]).

Lemma dotted_not_hidden c l ext :
  HasPrefix c "__" = false -> l <> [] -> HasPrefix (dotted c l +:+ ext) "__" = false.
Proof.
  intros Hp Hl. destruct l as [|b l]; [done|]. simpl. rewrite str_app_assoc. by apply not_hidden.
Qed.

Section names.
Context (c : string).
Hypothesis Hc : in_string "." c = false.
Hypothesis Hp : HasPrefix c "__" = false.

Lemma search_version_recognised search ver :
  in_string "." search = false -> (0 <= ver < 2 ^ 63)%Z ->
  classify (dotted c ["search"; search; Itoa ver] +:+ ".json") = SearchVersionFile c search ver.
Proof.
  intros Hs Hv. destruct (version_text _ Hv) as [Hi Ha].
  assert (in_string "." (Itoa ver) = false) as Hd by (apply Itoa_dotless; lia).
  unfold classify, parseVersionedSearchFilename. rewrite HasSuffix_app, dotted_not_hidden by done.
  take_parts. simpl. by rewrite Hi, Ha.
Qed.

Lemma search_recognised search :
  in_string "." search = false -> classify (dotted c ["search"; search] +:+ ".json") = SearchFile c search.
Proof.
  intros Hs. unfold classify, parseVersionedSearchFilename, parseSearchFilename.
  rewrite HasSuffix_app, dotted_not_hidden by done. by take_parts.
Qed.

Lemma update_recognised ver :
  (0 <= ver < 2 ^ 63)%Z ->
  classify (dotted c ["schema"; Itoa ver; "update"] +:+ ".json") = SchemaUpdateFile c ver.
Proof.
  intros Hv. destruct (version_text _ Hv) as [Hi Ha].
  assert (in_string "." (Itoa ver) = false) as Hd by (apply Itoa_dotless; lia).
  unfold classify, parseVersionedSearchFilename, parseSearchFilename.
  rewrite HasSuffix_app, dotted_not_hidden by done. take_parts. simpl negb. cbv iota.
  unfold parseVersionedSchemaUpdateFilename.
  assert (dotted c ["schema"; Itoa ver; "update"] +:+ ".json" = dotted c ["schema"; Itoa ver] +:+ ".update.json")
    as -> by same_text.
  take_parts. simpl. by rewrite Hi, Ha.
Qed.

(** Names of schemas and their versions are not those of searches or updates. *)
Lemma schema_name l w d :
  Forall (fun b => in_string "." b = false) l -> (length l <= 1)%nat ->
  dotted c ("schema" :: l) = w +:+ String d "" -> d <> "e"%char ->
  let name := dotted c ("schema" :: l) +:+ ".json" in
  classify name = match parseVersionedSchemaFilename name with
                  | Some (ver, c') => SchemaVersionFile c' ver
                  | None => if HasSuffix name ".schema.json" then SchemaFile (TrimSuffix name ".schema.json")
                            else OtherFile
                  end.
Proof.
  intros Hl Hlen Hw Hd name.
  assert (parseVersionedSchemaUpdateFilename name = None) as Hu.
  { unfold parseVersionedSchemaUpdateFilename, name_parts, name. rewrite Hw. by rewrite no_update_suffix. }
  unfold classify, parseVersionedSearchFilename, parseSearchFilename. rewrite Hu. subst name.
  rewrite HasSuffix_app, dotted_not_hidden by done. take_parts. by destruct l as [|? [|]]; simpl in *; [..|lia].
Qed.

Lemma schema_version_recognised ver :
  (0 <= ver < 2 ^ 63)%Z -> classify (dotted c ["schema"; Itoa ver] +:+ ".json") = SchemaVersionFile c ver.
Proof.
  intros Hv. destruct (version_text _ Hv) as [Hi Ha].
  assert (in_string "." (Itoa ver) = false) as Hd by (apply Itoa_dotless; lia).
  destruct (Itoa_nonneg ver) as (Hdig & Hne & _); [lia|].
  destruct (digits_last _ Hdig Hne) as (w & d & Hw & Hdd).
  rewrite (schema_name _ (c +:+ ".schema." +:+ w) d); [|by repeat constructor|done| |by intros ->].
  - unfold parseVersionedSchemaFilename. take_parts. simpl. by rewrite Hi, Ha.
  - rewrite Hw. same_text.
Qed.

Lemma schema_recognised : classify (dotted c ["schema"] +:+ ".json") = SchemaFile c.
Proof.
  rewrite (schema_name _ (c +:+ ".schem") "a"); [|done|simpl; lia|same_text|done].
  unfold parseVersionedSchemaFilename. take_parts. cbv iota.
  assert (dotted c ["schema"] +:+ ".json" = c +:+ ".schema.json") as -> by same_text.
  by rewrite HasSuffix_app, TrimSuffix_app.
Qed.
End names.

(** Every file of a configuration directory is recognised as what it was
    written as: the name of a schema, of a version of it, of the update list of a
    version, of a search and of a version of it leads back to the collection, the
    search and the version, when collection and search have no period in their
    names. *)
Theorem config_name_recognised f : nameable f -> classify (config_name f) = f.
Proof.
  destruct f as [c search ver|c search|c ver|c ver|c|]; cbn [nameable config_name]; [..|done].
  - intros (Hc & Hp & Hs & Hv). rewrite <-(search_version_recognised c Hc Hp search ver Hs Hv). f_equal. same_text.
  - intros (Hc & Hp & Hs). rewrite <-(search_recognised c Hc Hp search Hs). f_equal. same_text.
  - intros (Hc & Hp & Hv). rewrite <-(update_recognised c Hc Hp ver Hv). f_equal. same_text.
  - intros (Hc & Hp & Hv). rewrite <-(schema_version_recognised c Hc Hp ver Hv). f_equal. same_text.
  - intros (Hc & Hp). rewrite <-(schema_recognised c Hc Hp). f_equal. same_text.
Qed.

Lemma config_name_recognised_witness :
  classify "Movies.search.byGenre.3.json" = SearchVersionFile "Movies" "byGenre" 3.
Proof.
  exact (config_name_recognised (SearchVersionFile "Movies" "byGenre" 3)
    ltac:(split; [reflexivity|split; [reflexivity|split; [reflexivity|lia]]])).
Defined.

(** A name with a period that validation accepts is taken for something else: the
    schema of [x.search] for the search [schema] of [x], and the versions of the
    schema of [my.movies] for nothing. *)
Theorem dotted_collection_misread :
  classify "x.search.schema.json" = SearchFile "x" "schema" /\
  classify "my.movies.schema.json" = SchemaFile "my.movies" /\
  classify "my.movies.schema.4.json" = OtherFile /\
  no_space_no_double false (runes "my.movies") = true.
Proof. vm_compute. done. Qed.

(** ** Configurations that load *)

Lemma latestHistoryVersion_spec h v :
  latestHistoryVersion h = Some v -> (exists text, (v, text) ∈ h) /\ forall e, e ∈ h -> (fst e <= v)%Z.
Proof.
  unfold latestHistoryVersion.
  assert (forall h acc v, foldl newer acc h = Some v ->
    (acc = Some v \/ exists text, (v, text) ∈ h) /\ (forall e, e ∈ h -> (fst e <= v)%Z) /\
    (forall m, acc = Some m -> (m <= v)%Z)) as Hf.
  { clear h v. induction h as [|[k t] h IH]; intros acc v Hv; simpl in Hv.
    - split_and!; [by left|set_solver|]. intros m ->. injection Hv as ->. lia.
    - apply IH in Hv as (H1 & H2 & H3).
      assert (newer acc (k, t) = Some k \/ (exists m, acc = Some m /\ newer acc (k, t) = Some m /\ (k <= m)%Z)) as Hn.
      { unfold newer. destruct acc as [m|]; [|by left]. simpl. destruct (m <? k)%Z eqn:E; [by left|].
        right. exists m. apply Z.ltb_ge in E. done. }
      split_and!.
      + destruct H1 as [H1|[x Hx]]; [|right; exists x; by right].
        destruct Hn as [Hn|(m & Hm & Hn & _)]; rewrite Hn in H1; injection H1 as ->; [right; exists t; by left|by left].
      + intros e [->|He]%elem_of_cons; [|by apply H2]. simpl.
        destruct Hn as [Hn|(m & _ & Hn & Hle)]; apply H3 in Hn; lia.
      + intros m Hm. unfold newer in *. subst acc. simpl in *.
        destruct (m <? k)%Z eqn:E; [apply Z.ltb_lt in E; specialize (H3 _ eq_refl); lia|by apply H3]. }
  intros Hv. apply Hf in Hv as ([?|H1] & H2 & _); done.
Qed.

Lemma zget_in h v text : (v, text) ∈ h -> is_Some (zget h v).
Proof.
  intros Hin. unfold zget. destruct (list_find_elem_of (fun e : Z * string => fst e = v) h (v, text) Hin eq_refl)
    as [[i e] ->]. by eexists.
Qed.

Section accepted.
Context `{E : Env} `{GoTables} `{OJSON} `{GoJSON}.

(** The schema of a collection is that of its newest version. *)
Definition current_schema (cfg : Config) (c : string) : Prop :=
  ValidCollectionName c = true /\
  exists raw text, aget (Schemas cfg) c = Some raw /\
    zget (inner (SchemaHistory cfg) c) (SchemaVersion (Some cfg) c) = Some text /\ jsonEqual raw text = true /\
    forall e, e ∈ inner (SchemaHistory cfg) c -> (fst e <= SchemaVersion (Some cfg) c)%Z.

Lemma aget_keyed {A B} (f : string -> B) (l : list (string * A)) k :
  aget (map (fun s => (fst s, f (fst s))) l) k = if ahas l k then Some (f k) else None.
Proof.
  unfold ahas. induction l as [|[k' a] l IH]; simpl; [done|].
  destruct (k =? k') eqn:Ek; [apply String.eqb_eq in Ek as ->|]; done.
Qed.

Lemma derived_schema c0 c raw :
  let cfg := deriveSearchVersions (deriveSchemaVersions c0) in
  ValidateDetailed cfg = [] -> aget (Schemas cfg) c = Some raw -> current_schema cfg c.
Proof.
  intros cfg Hv Hraw. unfold ValidateDetailed in Hv.
  do 4 (apply app_eq_nil in Hv as [_ Hv]). apply app_eq_nil in Hv as [Hv _].
  assert (check_schema cfg (c, raw) = []) as Hc.
  { unfold validateSchemas in Hv. rewrite flat_map_concat_map in Hv. eapply concat_nil_inv; [exact Hv|].
    apply list_elem_of_fmap. exists (c, raw). split; [done|]. by apply aget_Some_in. }
  unfold check_schema in Hc. apply app_eq_nil in Hc as [Hname Hc]. split.
  { by destruct (ValidCollectionName c). }
  destruct (ValidateOJSONSchemaBytes raw); [|done].
  fold (inner (SchemaHistory cfg) c) in Hc.
  destruct (latestHistoryVersion (inner (SchemaHistory cfg) c)) as [ver|] eqn:El; [|done].
  destruct (latestHistoryVersion_spec _ _ El) as [[t Ht] Hmax].
  destruct (zget_in _ _ _ Ht) as [text Htext]. rewrite Htext in Hc. cbn [default] in Hc.
  assert (SchemaVersion (Some cfg) c = ver) as ->.
  { unfold SchemaVersion, cfg. cbn [deriveSearchVersions deriveSchemaVersions SchemaVersions].
    rewrite (aget_keyed (fun k => history_version (inner (SchemaHistory c0) k))).
    unfold ahas. change (aget (Schemas c0) c) with (aget (Schemas cfg) c). rewrite Hraw.
    unfold history_version. change (SchemaHistory c0) with (SchemaHistory cfg). by rewrite El. }
  exists raw, text. split_and!; [done|done| |done]. unfold id in Hc. by destruct (jsonEqual raw text).
Qed.

Lemma readJSON_keeps {A} p (dec : json -> result A) s :
  wp (readJSON p dec) (fun _ s' => st_fs s' = st_fs s) s.
Proof.
  unfold readJSON. apply wp_rbind. eapply wp_mono; [apply ReadFile_spec|]. intros [d|e] s1 [F1 _]; done.
Qed.

Lemma load_entries_keeps dir c l s : wp (load_entries dir c l) (fun _ s' => st_fs s' = st_fs s) s.
Proof.
  revert c s. induction l as [|[n d] l IH]; intros c s; cbn [load_entries]; [done|].
  destruct d; [apply IH|]. destruct (classify n);
    try (apply wp_rbind; eapply wp_mono; [apply ReadFile_spec|]; intros [raw|e] s1 [F1 _]; [|done];
         rewrite <-F1; apply IH).
  apply IH.
Qed.

(** C12: whatever system call fails, loading changes no file, and a configuration
    that loads routes every document identifier to an assignment whose members are
    all known servers, and names for every collection a schema version that is the
    newest of its history and whose stored text is the current schema. *)
Theorem Load_accepts dir s :
  wp (Load dir) (fun r s' => st_fs s' = st_fs s /\ forall cfg, r = Ok cfg ->
    (forall id, exists a, SlotAssignment (Some cfg) (Slot id) = Some a /\
       ahas (Servers cfg) (ShardSOTMember a) = true /\
       Forall (fun n => ahas (Servers cfg) n = true) (ShardReadMember a ++ ProxyReadMember a)) /\
    (forall c raw, aget (Schemas cfg) c = Some raw -> current_schema cfg c)) s.
Proof.
  unfold Load, loadUnvalidated. do 2 apply wp_rbind.
  eapply wp_mono; [apply readJSON_keeps|]. intros [g|e] s1 F1; [apply wp_rbind|by split].
  eapply wp_mono; [apply readJSON_keeps|]. intros [sv|e] s2 F2; [apply wp_rbind|by split; [congruence|]].
  eapply wp_mono; [apply readJSON_keeps|]. intros [sm|e] s3 F3; [apply wp_rbind|by split; [congruence|]].
  eapply wp_mono; [apply readJSON_keeps|]. intros [au|e] s4 F4; [apply wp_rbind|by split; [congruence|]].
  eapply wp_mono; [apply ReadDir_spec|]. intros [l|e] s5 [F5 _]; [apply wp_rbind|by split; [congruence|]].
  eapply wp_mono; [apply load_entries_keeps|]. intros [c0|e] s6 F6; [|by split; [congruence|]].
  do 2 apply wp_ret. split; [congruence|]. set (cfg := deriveSearchVersions (deriveSchemaVersions c0)).
  destruct (ValidateDetailed cfg) as [|e errs] eqn:Ev; [|done]. intros cfg' [= <-]. split.
  - intros id. unfold ValidateDetailed in Ev. do 2 (apply app_eq_nil in Ev as [_ Ev]).
    apply app_eq_nil in Ev as [Ev _]. destruct (ShardMap cfg) as [l'|] eqn:Em; [|done].
    destruct (validated_covering l' _ (Slot id) Ev (Slot_byte id)) as (x & Hf & Hs & Hr).
    exists (snd x). split_and!; [|done|done]. unfold SlotAssignment. rewrite Em. by apply (assignment_in_unique l').
  - intros c raw Hraw. by eapply derived_schema.
Qed.
End accepted.
