(* ===== verification/Attach.v ===== *)
(** * Package fsstore: attachments

    [internal/fsstore/files.go]: the manifest of a document's attachments, the
    staging of an upload, and the journalled commits with their recovery. *)

From S2P Require Import Prelude GoStrings Sha256 World Json Config Store.

Definition DefaultMaxFileBytes : Z := Z.shiftl 1 30.
Definition MaxFileNameBytes : nat := 255.

Record FileEntry := mkFileEntry {
  FName : string;
  FContentType : string;
  FByteSize : Z;
  FSHA256 : string;
  FVersion : string;
  FOperationID : string;
}.

#[export] Instance FileEntry_eq_dec : EqDecision FileEntry.
Proof. solve_decision. Defined.

Definition BinaryPath (dataDir : path) (collection docID filename : string) : path :=
  join (LFSDir dataDir collection docID) [filename].

Definition PendingFileWritesDir (dataDir : path) (collection : string) : path :=
  join (CollectionDir dataDir collection) [".pendingFileWrites"].

(** [filepath.Base] of a name without separators is the name. *)
Definition SafeFileName (name : string) : bool :=
  if (name =? "") || (name =? ".") || (name =? "..") then false
  else if HasPrefix name "." then false
  else if negb (ValidString name) then false
  else if (MaxFileNameBytes <? String.length name)%nat then false
  else if Contains name "/" || Contains name "\" then false
  else if negb (forallb (fun r => negb ((r =? 0) || (r <? 32) || (r =? 127))%Z) (runes name))
  then false
  else negb ((clean_component name <>? name) || HasPrefix (clean_component name) "..").

(** ** The manifest *)

(** The tokens of [bufio.ScanLines]: the lines, without a last empty one, a
    carriage return at the end of a line removed. *)
Definition text_lines (text : string) : list string :=
  let l := Split text newline in
  match last l with
  | Some "" => removelast l
  | _ => l
  end.

Definition dropCR (line : string) : string := TrimSuffix line (String "013" "").

(** The scanner's buffer: a line must be shorter. *)
Definition max_token : nat := Nat.pow 2 20.

Definition entry_json (e : FileEntry) : json :=
  JObj [("name", JStr (FName e)); ("contentType", JStr (FContentType e));
        ("byteSize", JNum (Itoa (FByteSize e))); ("sha256", JStr (FSHA256 e));
        ("version", JStr (FVersion e)); ("operationId", JStr (FOperationID e))].

Definition entry_of_json (v : json) : result FileEntry :=
  match v with
  | JObj _ =>
      result_bind (string_field v "name") (fun name =>
      result_bind (string_field v "contentType") (fun ct =>
      result_bind (int_field v "byteSize") (fun size =>
      result_bind (string_field v "sha256") (fun sha =>
      result_bind (string_field v "version") (fun version =>
      result_bind (string_field v "operationId") (fun op =>
      Ok (mkFileEntry name ct size sha version op)))))))
  | _ => Err (errorf "not an object")
  end.

Definition LookupFileEntry (entries : list FileEntry) (filename : string) : option FileEntry :=
  List.find (fun e => FName e =? filename) entries.

Definition name_le (a b : FileEntry) : Prop := str_leb (FName a) (FName b) = true.

#[export] Instance name_le_dec : RelDecision name_le.
Proof. intros a b. unfold name_le. apply _. Defined.

(** The loop of [UpsertManifestEntry] over the entries. *)
Fixpoint upsert (entries : list FileEntry) (entry : FileEntry) : list FileEntry :=
  match entries with
  | [] => [entry]
  | e :: es => if FName e =? FName entry then entry :: es else e :: upsert es entry
  end.

(** ** Uploads *)

(** What the body of an upload does: the pieces successive reads deliver, then
    [ending]: end of file, or an error; [eager] when the ending comes together
    with the last piece. *)
Record source := mkSource {
  pieces : list string;
  eager : bool;
  ending : option error;    (* [None]: io.EOF *)
}.

Inductive read_end := More | AtEOF | Broken (e : error).

Definition end_of (s : source) : read_end :=
  match ending s with None => AtEOF | Some e => Broken e end.

(** [Read] with a buffer of [k] bytes. *)
Definition source_read (s : source) (k : nat) : string * read_end * source :=
  match pieces s with
  | [] => ("", end_of s, s)
  | c :: cs =>
      let rest := str_drop k c in
      let s' := mkSource (if rest =? "" then cs else rest :: cs) (eager s) (ending s) in
      (str_take k c, if eager s && (length (pieces s') =? 0)%nat then end_of s else More, s')
  end.

Definition too_large : error := errorf "fileTooLarge".

(** [countingReader.Read], [n] bytes having been read. *)
Definition counting_read (s : source) (n max : Z) (k : nat) : string * read_end * source * Z :=
  if (max <=? n)%Z then ("", Broken too_large, s, n)
  else
    let k := if (max - n <? Z.of_nat k)%Z then Z.to_nat (max - n) else k in
    let '(d, e, s') := source_read s k in
    let n' := (n + Z.of_nat (String.length d))%Z in
    if (max <? n')%Z then (d, Broken too_large, s', n') else (d, e, s', n').

(** The buffer of [io.Copy]. *)
Definition copy_buffer : nat := Nat.pow 2 15.

Record StagedBinary := mkStaged {
  StagedPath : path;
  SByteSize : Z;
  SSHA256 : string;
}.

Record StreamWriteBinaryResult := mkStreamed {
  WByteSize : Z;
  WSHA256 : string;
  WPath : path;
}.

Record FileOpJournal := mkJournal {
  JCommand : string;
  JFilename : string;
  JContentType : string;
  JByteSize : Z;
  JSHA256 : string;
  JVersion : string;
  JOperationID : string;
  JStagedPath : string;
  JPhase : string;
}.

Definition set_phase (j : FileOpJournal) (staged phase : string) : FileOpJournal :=
  mkJournal (JCommand j) (JFilename j) (JContentType j) (JByteSize j) (JSHA256 j) (JVersion j)
    (JOperationID j) staged phase.

Definition fileOpJournalPath (dataDir : path) (collection docID operationID : string) : path :=
  join (FileOpsDir dataDir collection docID) [operationID +:+ ".json"].

Definition omit_empty (k s : string) : fields := if s =? "" then [] else [(k, JStr s)].
Definition omit_zero (k : string) (z : Z) : fields := if (z =? 0)%Z then [] else [(k, JNum (Itoa z))].

Definition journal_json (j : FileOpJournal) : json :=
  JObj ([("command", JStr (JCommand j)); ("filename", JStr (JFilename j))] ++
        omit_empty "contentType" (JContentType j) ++ omit_zero "byteSize" (JByteSize j) ++
        omit_empty "sha256" (JSHA256 j) ++
        [("version", JStr (JVersion j)); ("operationId", JStr (JOperationID j))] ++
        omit_empty "stagedPath" (JStagedPath j) ++ [("phase", JStr (JPhase j))]).

Definition journal_of_json (v : json) : result FileOpJournal :=
  match v with
  | JObj _ =>
      result_bind (string_field v "command") (fun command =>
      result_bind (string_field v "filename") (fun filename =>
      result_bind (string_field v "contentType") (fun ct =>
      result_bind (int_field v "byteSize") (fun size =>
      result_bind (string_field v "sha256") (fun sha =>
      result_bind (string_field v "version") (fun version =>
      result_bind (string_field v "operationId") (fun op =>
      result_bind (string_field v "stagedPath") (fun staged =>
      result_bind (string_field v "phase") (fun phase =>
      Ok (mkJournal command filename ct size sha version op staged phase))))))))))
  | _ => Err (errorf "not an object")
  end.

Section attach.
Context `{Env} `{OJSON} `{GoJSON}.

Definition marshalFileEntryLine (e : FileEntry) : string := Marshal (entry_json e).

(** The scanning loop of [ReadFilesManifest]. *)
Fixpoint parse_lines (lines : list string) : result (list FileEntry) :=
  match lines with
  | [] => Ok []
  | raw :: lines' =>
      if (max_token <=? String.length raw)%nat then Err (errorf "bufio.Scanner: token too long")
      else
        let line := TrimSpace (dropCR raw) in
        if line =? "" then parse_lines lines'
        else
          match result_bind (Unmarshal line) entry_of_json with
          | Err _ => Err (errorf "invalid files manifest line")
          | Ok e => result_bind (parse_lines lines') (fun es => Ok (e :: es))
          end
  end.

Definition ReadFilesManifest (dataDir : path) (collection docID : string)
    : M (result (list FileEntry)) :=
  r ← ReadFile (FilesManifestPath dataDir collection docID);
  match r with
  | Err e => if is_not_exist e then mret (Ok []) else mret (Err e)
  | Ok text => mret (parse_lines (text_lines text))
  end.

Definition manifest_text (sorted : list FileEntry) : string :=
  foldr (fun e t => marshalFileEntryLine e +:+ newline +:+ t) "" sorted.

Definition WriteFilesManifest (dataDir : path) (collection docID : string)
    (entries : list FileEntry) : M (result unit) :=
  let sorted := merge_sort name_le entries in
  let p := FilesManifestPath dataDir collection docID in
  if (length sorted =? 0)%nat then remove_if_present p
  else WriteFileAtomic p (manifest_text sorted).

Definition UpsertManifestEntry (dataDir : path) (collection docID : string) (entry : FileEntry)
    : M (result unit) :=
  entries <-? ReadFilesManifest dataDir collection docID;
  WriteFilesManifest dataDir collection docID (upsert entries entry).

Definition RemoveManifestEntry (dataDir : path) (collection docID filename : string)
    : M (result unit) :=
  entries <-? ReadFilesManifest dataDir collection docID;
  WriteFilesManifest dataDir collection docID
    (List.filter (fun e => negb (FName e =? filename)) entries).

(** [io.Copy tmp limited], with the bytes that went through the tee: every round
    takes a piece, part of one, or ends. *)
Fixpoint copy_loop (fuel : nat) (tmp : path) (s : source) (n max : Z) (acc : string)
    : M (result (Z * string)) :=
  match fuel with
  | O => mret (Err (errorf "no progress"))
  | S f =>
      let '(d, e, s', n') := counting_read s n max copy_buffer in
      let acc := acc +:+ d in
      (if d =? "" then mret (Ok tt) else WriteTo tmp d) ;?
      match e with
      | Broken err => mret (Err err)
      | AtEOF => mret (Ok (n', acc))
      | More => copy_loop f tmp s' n' max acc
      end
  end.

Definition copy_fuel (s : source) : nat :=
  S (length (pieces s) + list_sum (map String.length (pieces s))).

(** The part the two upload functions share, from the copy to [Chmod]. *)
Definition fill_upload (tmp : path) (s : source) (max : Z) : M (result (Z * string)) :=
  r ← copy_loop (copy_fuel s) tmp s 0 max "";
  match r with
  | Err e => _ ← Close tmp; mret (Err e)
  | Ok nd =>
      r ← Sync tmp;
      match r with
      | Err e => _ ← Close tmp; mret (Err e)
      | Ok _ => Close tmp ;? Chmod tmp ;? mret (Ok nd)
      end
  end.

Definition max_bytes (maxBytes : Z) : Z :=
  if (maxBytes <=? 0)%Z then DefaultMaxFileBytes else maxBytes.

Definition StageWriteBinary (dataDir : path) (collection docID filename : string) (r : source)
    (maxBytes : Z) : M (result StagedBinary) :=
  if negb (SafeFileName filename) then mret (Err (errorf "invalid file name"))
  else
    let dir := FileOpsDir dataDir collection docID in
    MkdirAll dir ;?
    tmp <-? CreateTemp dir ".stage-";
    r ← fill_upload tmp r (max_bytes maxBytes);
    match r with
    | Err e => _ ← Remove tmp; mret (Err e)
    | Ok (n, data) => mret (Ok (mkStaged tmp n (sha256_hex data)))
    end.

Definition StreamWriteBinary (dataDir : path) (collection docID filename : string) (r : source)
    (maxBytes : Z) : M (result StreamWriteBinaryResult) :=
  if negb (SafeFileName filename) then mret (Err (errorf "invalid file name"))
  else
    let dir := LFSDir dataDir collection docID in
    MkdirAll dir ;?
    tmp <-? CreateTemp dir ".tmp-";
    r ← fill_upload tmp r (max_bytes maxBytes);
    match r with
    | Err e => _ ← Remove tmp; mret (Err e)
    | Ok (n, data) =>
        let final := BinaryPath dataDir collection docID filename in
        r ← Rename tmp final;
        match r with
        | Err e => _ ← Remove tmp; mret (Err (errorf "atomic rename"))
        | Ok _ => _ ← sync_dir dir; mret (Ok (mkStreamed n (sha256_hex data) final))
        end
    end.

Definition OpenBinary (dataDir : path) (collection docID filename : string) : M (result string) :=
  if negb (SafeFileName filename) then mret (Err (errorf "invalid file name"))
  else ReadFile (BinaryPath dataDir collection docID filename).

Definition RemoveBinary (dataDir : path) (collection docID filename : string) : M (result unit) :=
  remove_if_present (BinaryPath dataDir collection docID filename).

(** ** Journalled commits *)

Definition WriteFileOpJournal (dataDir : path) (collection docID : string) (j : FileOpJournal)
    : M (result unit) :=
  MkdirAll (FileOpsDir dataDir collection docID) ;?
  WriteFileAtomic (fileOpJournalPath dataDir collection docID (JOperationID j))
    (MarshalIndent (journal_json j) +:+ newline).

Definition ClearFileOpJournal (dataDir : path) (collection docID operationID : string)
    : M (result unit) :=
  remove_if_present (fileOpJournalPath dataDir collection docID operationID).

Definition CommitStagedBinary (dataDir : path) (collection docID : string) (entry : FileEntry)
    (staged : StagedBinary) : M (result unit) :=
  existing ← ReadFilesManifest dataDir collection docID;
  let command :=
    match existing with
    | Ok es => match LookupFileEntry es (FName entry) with Some _ => "update" | None => "create" end
    | Err _ => "create"
    end in
  let j := mkJournal command (FName entry) (FContentType entry) (FByteSize entry) (FSHA256 entry)
             (FVersion entry) (FOperationID entry) (path_string (StagedPath staged)) "staged" in
  WriteFileOpJournal dataDir collection docID j ;?
  MkdirAll (LFSDir dataDir collection docID) ;?
  r ← Rename (StagedPath staged) (BinaryPath dataDir collection docID (FName entry));
  match r with
  | Err _ => mret (Err (errorf "atomic rename"))
  | Ok _ =>
      WriteFileOpJournal dataDir collection docID (set_phase j "" "blobCommitted") ;?
      UpsertManifestEntry dataDir collection docID entry ;?
      _ ← WriteFileOpJournal dataDir collection docID (set_phase j "" "done");
      ClearFileOpJournal dataDir collection docID (FOperationID entry)
  end.

Definition CommitFileDelete (dataDir : path) (collection docID : string) (entry : FileEntry)
    : M (result unit) :=
  let j := mkJournal "delete" (FName entry) "" 0 "" (FVersion entry) (FOperationID entry) "" "staged" in
  WriteFileOpJournal dataDir collection docID j ;?
  RemoveBinary dataDir collection docID (FName entry) ;?
  WriteFileOpJournal dataDir collection docID (set_phase j "" "blobCommitted") ;?
  RemoveManifestEntry dataDir collection docID (FName entry) ;?
  ClearFileOpJournal dataDir collection docID (FOperationID entry).

(** ** Recovery *)

(** One journal entry. *)
Definition recover_one (dataDir : path) (collection docID : string) (j : FileOpJournal)
    : M (result unit) :=
  let clear := _ ← ClearFileOpJournal dataDir collection docID (JOperationID j); mret (Ok tt) in
  if JPhase j =? "done" then clear
  else if JPhase j =? "blobCommitted" then
    (if JCommand j =? "delete" then RemoveManifestEntry dataDir collection docID (JFilename j)
     else UpsertManifestEntry dataDir collection docID
            (mkFileEntry (JFilename j) (JContentType j) (JByteSize j) (JSHA256 j) (JVersion j)
               (JOperationID j))) ;?
    clear
  else
    _ ← (if JStagedPath j <>? "" then Remove (path_of_string (JStagedPath j)) else mret (Ok tt));
    clear.

Fixpoint recover_entries (dataDir : path) (collection docID : string) (entries : list dir_entry)
    : M (result unit) :=
  let dir := FileOpsDir dataDir collection docID in
  match entries with
  | [] => mret (Ok tt)
  | (name, isdir) :: es =>
      if isdir || negb (HasSuffix name ".json") then
        _ ← (if HasPrefix name ".stage-" then Remove (join dir [name]) else mret (Ok tt));
        recover_entries dataDir collection docID es
      else
        raw <-? ReadFile (join dir [name]);
        match result_bind (Unmarshal raw) journal_of_json with
        | Err e => mret (Err e)
        | Ok j => recover_one dataDir collection docID j ;?
                  recover_entries dataDir collection docID es
        end
  end.

Definition RecoverFileOps (dataDir : path) (collection docID : string) : M (result unit) :=
  r ← ReadDir (FileOpsDir dataDir collection docID);
  match r with
  | Err e => if is_not_exist e then mret (Ok tt) else mret (Err e)
  | Ok entries => recover_entries dataDir collection docID entries
  end.

Fixpoint recover_docs (dataDir : path) (collection : string) (docs : list dir_entry)
    : M (result unit) :=
  match docs with
  | [] => mret (Ok tt)
  | (name, isdir) :: ds =>
      if negb isdir then recover_docs dataDir collection ds
      else RecoverFileOps dataDir collection name ;? recover_docs dataDir collection ds
  end.

Fixpoint recover_collections (dataDir : path) (cols : list dir_entry) : M (result unit) :=
  match cols with
  | [] => mret (Ok tt)
  | (name, isdir) :: cs =>
      if negb isdir || HasPrefix name "." then recover_collections dataDir cs
      else
        r ← ReadDir (join (CollectionDir dataDir name) [".fileOps"]);
        match r with
        | Err e => if is_not_exist e then recover_collections dataDir cs else mret (Err e)
        | Ok docs => recover_docs dataDir name docs ;? recover_collections dataDir cs
        end
  end.

Definition RecoverAllFileOps (dataDir : path) : M (result unit) :=
  r ← ReadDir dataDir;
  match r with
  | Err e => if is_not_exist e then mret (Ok tt) else mret (Err e)
  | Ok cols => recover_collections dataDir cols
  end.
End attach.

Definition IsFileTooLarge (e : error) : bool := Contains (err_msg e) "fileTooLarge".
