(* ===== verification/AttachSpec.v ===== *)
(** * What the attachment store promises

    The manifest reads back what was written, an upload is staged whole or not
    at all, and what an interrupted commit leaves for recovery. *)

From S2P Require Import Prelude GoStrings Sha256 World Json Config Store Attach.

(** ** The codec of the manifest *)

Record entry_ok (e : FileEntry) : Prop := {
  eo_strings : Forall (fun s => ValidString s = true)
    [FName e; FContentType e; FSHA256 e; FVersion e; FOperationID e];
  eo_size : (0 <= FByteSize e < 2 ^ 63)%Z;
}.

Lemma Atoi_Itoa z : (0 <= z < 2 ^ 63)%Z -> Atoi (Itoa z) = Some z.
Proof. intros Hz. destruct (Itoa_nonneg z) as (H1 & H2 & H3); [lia|]. by apply Atoi_digits. Qed.

Section codec.
Context `{OJSON} `{!OJSONLaws} `{GoJSON} `{!GoJSONLaws}.

Lemma entry_json_well_formed e : entry_ok e -> well_formed (entry_json e) = true.
Proof.
  intros [Hs _]. apply Forall_cons in Hs as [V1 Hs]. apply Forall_cons in Hs as [V2 Hs].
  apply Forall_cons in Hs as [V3 Hs]. apply Forall_cons in Hs as [V4 Hs].
  apply Forall_cons in Hs as [V5 _]. unfold entry_json.
  cbn [well_formed]. apply andb_true_iff. split; [reflexivity|].
  cbn [forallb fst snd well_formed]. rewrite V1, V2, V3, V4, V5, number_int. reflexivity.
Qed.

Lemma entry_roundtrip e : entry_ok e -> entry_of_json (entry_json e) = Ok e.
Proof.
  intros [_ Hz]. unfold entry_of_json, entry_json. cbn -[Itoa Atoi]. rewrite Atoi_Itoa by done.
  by destruct e.
Qed.

(** A line of the manifest, and what the scanner makes of it. *)
Lemma line_shape e :
  entry_ok e -> exists t, marshalFileEntryLine e = String "{" (t +:+ "}") /\
    in_string "010" (marshalFileEntryLine e) = false.
Proof.
  intros He. unfold marshalFileEntryLine.
  destruct (marshal_object _ (entry_json_well_formed e He)) as (t & Ht & Hn).
  change (Marshal (entry_json e) = String "{" (t +:+ "}")) in Ht. exists t.
  split; [exact Ht|]. rewrite Ht. cbn [in_string]. rewrite in_string_app, Hn. reflexivity.
Qed.

Lemma dropCR_line t : dropCR (String "{" (t +:+ "}")) = String "{" (t +:+ "}").
Proof.
  unfold dropCR, TrimSuffix.
  assert (HasSuffix (String "{" (t +:+ "}")) (String "013" "") = false) as ->; [|done].
  apply not_true_iff_false. intros [u Hu]%HasSuffix_spec.
  change (String "{" (t +:+ "}")) with (String "{" t +:+ "}") in Hu.
  assert (String.length (String "{" t) = String.length u) as Hl.
  { apply (f_equal String.length) in Hu. rewrite !str_length_app in Hu. simpl in *. lia. }
  by destruct (str_app_inv_length _ _ _ _ Hl Hu) as [_ ?].
Qed.

Lemma parse_line e lines :
  entry_ok e -> (String.length (marshalFileEntryLine e) < max_token)%nat ->
  parse_lines (marshalFileEntryLine e :: lines) =
  result_bind (parse_lines lines) (fun es => Ok (e :: es)).
Proof.
  intros He Hlen. destruct (line_shape e He) as (t & Ht & _).
  cbn [parse_lines]. rewrite (proj2 (Nat.leb_gt _ _)) by done.
  assert (TrimSpace (dropCR (marshalFileEntryLine e)) = marshalFileEntryLine e) as ->.
  { rewrite Ht, dropCR_line. by apply TrimSpace_between. }
  assert ((marshalFileEntryLine e =? "") = false) as -> by (by rewrite Ht).
  assert (Unmarshal (marshalFileEntryLine e) = Ok (entry_json e)) as ->.
  { apply unmarshal_read, read_marshal, entry_json_well_formed, He. }
  cbn [result_bind]. by rewrite entry_roundtrip.
Qed.

Lemma manifest_lines l :
  Forall entry_ok l -> Split (manifest_text l) newline = map marshalFileEntryLine l ++ [""].
Proof.
  induction 1 as [|e l He Hl IH]; [done|]. cbn [manifest_text foldr map app].
  destruct (line_shape e He) as (t & _ & Hn).
  change (newline +:+ foldr (fun e t => marshalFileEntryLine e +:+ newline +:+ t) "" l)
    with (String "010" (manifest_text l)).
  change newline with (String "010" "") in *. rewrite Split_cons by done. by rewrite IH.
Qed.

Lemma text_lines_manifest l :
  Forall entry_ok l -> text_lines (manifest_text l) = map marshalFileEntryLine l.
Proof.
  intros Hl. unfold text_lines. rewrite manifest_lines by done.
  rewrite last_snoc. apply removelast_last.
Qed.

(** The manifest text of a list of entries reads back as the list. *)
Lemma manifest_roundtrip l :
  Forall entry_ok l ->
  Forall (fun e => (String.length (marshalFileEntryLine e) < max_token)%nat) l ->
  parse_lines (text_lines (manifest_text l)) = Ok l.
Proof.
  intros Hl Hs. rewrite text_lines_manifest by done.
  induction Hl as [|e l He Hl IH]; [done|]. apply Forall_cons in Hs as [Hs1 Hs2].
  cbn [map]. rewrite parse_line by done. by rewrite IH.
Qed.
End codec.

(** ** Lookups *)

Lemma lookup_upsert es e n :
  LookupFileEntry (upsert es e) n = if FName e =? n then Some e else LookupFileEntry es n.
Proof.
  unfold LookupFileEntry. induction es as [|x es IH]; simpl.
  - by destruct (FName e =? n).
  - destruct (FName x =? FName e) eqn:Ex; boolprop; simpl.
    + rewrite Ex. by destruct (FName e =? n).
    + rewrite IH. destruct (FName x =? n) eqn:En; [|done]. boolprop. subst.
      by rewrite (proj2 (String.eqb_neq (FName e) (FName x))) by congruence.
Qed.

Lemma lookup_remove es n n' :
  LookupFileEntry (List.filter (fun e => negb (FName e =? n)) es) n' =
  if n =? n' then None else LookupFileEntry es n'.
Proof.
  unfold LookupFileEntry. induction es as [|x es IH]; simpl; [by destruct (n =? n')|].
  destruct (FName x =? n) eqn:Ex; simpl; rewrite IH; boolprop; subst.
  - by destruct (FName x =? n') eqn:E.
  - destruct (n =? n') eqn:E; [|done]. boolprop. subst.
    by rewrite (proj2 (String.eqb_neq (FName x) n')).
Qed.

(** Looking a name up does not depend on the order when names are distinct. *)
Lemma lookup_perm es es' n :
  NoDup (map FName es) -> es ≡ₚ es' -> LookupFileEntry es n = LookupFileEntry es' n.
Proof.
  intros Hnd Hp. unfold LookupFileEntry.
  assert (forall l, NoDup (map FName l) -> forall e, List.find (fun e => FName e =? n) l = Some e <->
            e ∈ l /\ FName e = n) as Hf.
  { induction l as [|x l IH]; intros Hl e; simpl; [split; [done|set_solver]|].
    simpl in Hl. apply NoDup_cons in Hl as [Hx Hl].
    destruct (FName x =? n) eqn:Ex; boolprop.
    - split; [intros [= <-]; by split; [left|]|]. intros [[->|Hin]%elem_of_cons Hn]; [done|].
      exfalso. apply Hx. apply list_elem_of_fmap. exists e. split; [congruence|done].
    - rewrite IH by done. rewrite elem_of_cons. split; [tauto|].
      intros [[->|Hin] Hn]; [done|done]. }
  assert (NoDup (map FName es')) as Hnd' by (by rewrite <-Hp).
  destruct (List.find _ es') as [e|] eqn:E.
  - apply Hf in E as [Hin Hn]; [|done]. apply Hf; [done|]. by rewrite Hp.
  - destruct (List.find _ es) as [e|] eqn:E'; [|done]. apply Hf in E' as [Hin Hn]; [|done].
    assert (List.find (fun e => FName e =? n) es' = Some e) as Hc
      by (apply Hf; [done|]; by rewrite <-Hp). congruence.
Qed.

Lemma upsert_names es e :
  map FName (upsert es e) =
  if bool_decide (FName e ∈ map FName es) then map FName es else map FName es ++ [FName e].
Proof.
  induction es as [|x es IH]; simpl; [done|].
  destruct (FName x =? FName e) eqn:Ex; boolprop; simpl.
  - rewrite Ex. by rewrite bool_decide_eq_true_2 by (by left).
  - rewrite IH. destruct (decide (FName e ∈ map FName es)) as [Hin|Hni].
    + rewrite !bool_decide_eq_true_2; [done|by right|done].
    + rewrite !bool_decide_eq_false_2; [done| |done].
      intros [?|?]%elem_of_cons; [congruence|done].
Qed.

Lemma upsert_NoDup es e : NoDup (map FName es) -> NoDup (map FName (upsert es e)).
Proof.
  intros Hnd. rewrite upsert_names. case_bool_decide; [done|].
  apply NoDup_app. split_and!; [done| |apply NoDup_singleton].
  intros x Hx Hy. apply list_elem_of_singleton in Hy. congruence.
Qed.

(** ** Uploads *)

Definition str_concat (l : list string) : string := foldr String.append "" l.

Lemma str_drop_length n s : (String.length s <= n)%nat -> str_drop n s = "".
Proof.
  intros Hn. assert (String.length (str_drop n s) = 0%nat) as Hl by (rewrite str_length_drop; lia).
  by destruct (str_drop n s).
Qed.

(** One read: nothing is lost, and an end is reported only at the end. *)
Lemma source_read_spec s k d e s' :
  source_read s k = (d, e, s') ->
  d +:+ str_concat (pieces s') = str_concat (pieces s) /\
  eager s' = eager s /\ ending s' = ending s /\ (String.length d <= k)%nat /\
  (e <> More -> pieces s' = [] /\ e = end_of s) /\
  (pieces s = [] -> e <> More).
Proof.
  unfold source_read. destruct (pieces s) as [|c cs] eqn:Ep; intros [= <- <- <-].
  { rewrite Ep. split_and!; try done; simpl; try lia. unfold end_of. by destruct (ending s). }
  simpl. split_and!; try done.
  - destruct (str_drop k c =? "") eqn:Ed; boolprop; simpl.
    + rewrite <-(str_take_drop k c) at 2. by rewrite Ed, str_app_nil_r.
    + by rewrite <-str_app_assoc, str_take_drop.
  - rewrite str_length_take. lia.
  - destruct (eager s); [|done]. simpl. destruct (length _ =? 0)%nat eqn:El; [|done].
    apply Nat.eqb_eq, length_zero_iff_nil in El. intros _. split; [exact El|done].
Qed.

(** The limited reader: as the source while the limit is not reached, and never
    more than the limit. *)
Lemma counting_read_spec s n max k d e s' n' :
  (0 < k)%nat -> (0 <= n <= max)%Z -> counting_read s n max k = (d, e, s', n') ->
  (n = max /\ d = "" /\ e = Broken too_large /\ n' = n) \/
  ((n < max)%Z /\ n' = (n + Z.of_nat (String.length d))%Z /\ (n' <= max)%Z /\
   exists k', (0 < k')%nat /\ source_read s k' = (d, e, s')).
Proof.
  intros Hk Hn. unfold counting_read. destruct (max <=? n)%Z eqn:E0.
  { apply Z.leb_le in E0. intros [= <- <- <- <-]. left. split_and!; [lia|done..]. }
  apply Z.leb_gt in E0.
  set (k' := if (max - n <? Z.of_nat k)%Z then Z.to_nat (max - n) else k).
  assert ((0 < k')%nat /\ (Z.of_nat k' <= max - n)%Z) as [Hk1 Hk2].
  { unfold k'. destruct (_ <? _)%Z eqn:E; [apply Z.ltb_lt in E|apply Z.ltb_ge in E]; lia. }
  destruct (source_read s k') as [[d1 e1] s1] eqn:Er.
  destruct (source_read_spec _ _ _ _ _ Er) as (_ & _ & _ & Hl & _).
  rewrite (proj2 (Z.ltb_ge _ _)) by lia. intros [= <- <- <- <-].
  right. split_and!; [done|done|lia|]. exists k'. split; [lia|done].
Qed.

Section uploads.
Context `{E : Env}.

(** Whatever fails, an upload that succeeds has put the whole body in the file,
    and it is within the limit. *)
Lemma copy_loop_spec fuel tmp s n max acc w :
  content (st_fs w) tmp = Some acc -> n = Z.of_nat (String.length acc) -> (n <= max)%Z ->
  wp (copy_loop fuel tmp s n max acc) (fun r w' =>
    keeps (eq tmp) (st_fs w) (st_fs w') /\
    match r with
    | Ok (n', data) => data = acc +:+ str_concat (pieces s) /\ ending s = None /\
        content (st_fs w') tmp = Some data /\
        n' = Z.of_nat (String.length data) /\ (n' <= max)%Z
    | Err _ => True
    end) w.
Proof.
  revert s n acc w. induction fuel as [|f IH]; intros s n acc w Hc Hn Hmax; cbn [copy_loop].
  { by apply wp_ret. }
  destruct (counting_read s n max copy_buffer) as [[[d e] s'] n'] eqn:Er.
  apply counting_read_spec in Er; [|apply Nat.neq_0_lt_0; done|lia].
  apply wp_rbind.
  apply (wp_mono _ (fun r w1 => keeps (eq tmp) (st_fs w) (st_fs w1) /\
           (is_ok r = true -> content (st_fs w1) tmp = Some (acc +:+ d)))).
  { destruct (d =? "") eqn:Ed; boolprop.
    - apply wp_ret. split; [done|]. intros _. by rewrite Ed, str_app_nil_r.
    - eapply wp_mono; [apply WriteTo_spec|]. intros r w1 Hw. cbv beta in Hw.
      destruct Hw as (x & -> & Hx). split; [by apply append_file_keeps|]. intros Hr.
      rewrite (Hx Hr). apply content_Some in Hc.
      unfold append_file. rewrite Hc. apply content_insert_eq. }
  intros [u|err] w1 [K1 C1]; [|done]. specialize (C1 eq_refl).
  destruct Er as [(-> & -> & -> & ->)|(Hlt & Hn' & Hm & k' & Hk' & Hr)]; [by apply wp_ret|].
  apply source_read_spec in Hr as (Hcat & He1 & He2 & _ & Hend & _).
  destruct e as [| |err].
  - eapply wp_mono; [apply IH; [exact C1|rewrite str_length_app; lia|done]|].
    intros r w2 [K2 H2]. split; [by eapply keeps_trans|].
    destruct r as [[n2 data]|]; [|done]. rewrite str_app_assoc, Hcat, He2 in H2. exact H2.
  - apply wp_ret. split; [done|]. destruct (Hend ltac:(done)) as [Hp He].
    rewrite Hp in Hcat. simpl in Hcat. rewrite str_app_nil_r in Hcat. subst d.
    split_and!; [done| |done|rewrite str_length_app; lia|lia].
    unfold end_of in He. by destruct (ending s).
  - by apply wp_ret.
Qed.

Lemma fill_upload_spec tmp s max w :
  content (st_fs w) tmp = Some "" -> (0 <= max)%Z ->
  wp (fill_upload tmp s max) (fun r w' =>
    keeps (eq tmp) (st_fs w) (st_fs w') /\
    match r with
    | Ok (n, data) => data = str_concat (pieces s) /\ ending s = None /\
        content (st_fs w') tmp = Some data /\ n = Z.of_nat (String.length data) /\ (n <= max)%Z
    | Err _ => True
    end) w.
Proof.
  intros Hc Hm. unfold fill_upload.
  wp_step copy_loop_spec; [exact Hc|done|done|]. intros r w1 [K1 H1].
  destruct r as [[n data]|err]; [|wp_step Close_spec; intros r w2 F2; apply wp_ret; by rewrite F2].
  simpl in H1. wp_step Sync_spec. intros r w2 F2.
  destruct r as [u|err]; [|wp_step Close_spec; intros r w3 F3; apply wp_ret; by rewrite F3, F2].
  wp_step Close_spec. intros r w3 F3. destruct r as [u3|err]; [|by rewrite F3, F2].
  wp_step Chmod_spec. intros r w4 F4.
  destruct r; [apply wp_ret|]; by rewrite F4, F3, F2.
Qed.

Lemma copy_loop_file fuel tmp s n max acc w :
  is_Some (content (st_fs w) tmp) ->
  wp (copy_loop fuel tmp s n max acc) (fun _ w' => is_Some (content (st_fs w') tmp)) w.
Proof.
  revert s n acc w. induction fuel as [|f IH]; intros s n acc w Hc; cbn [copy_loop].
  { by apply wp_ret. }
  destruct (counting_read s n max copy_buffer) as [[[d e] s'] n']. apply wp_rbind.
  apply (wp_mono _ (fun _ w1 => is_Some (content (st_fs w1) tmp))).
  { destruct (d =? ""); [by apply wp_ret|].
    eapply wp_mono; [apply WriteTo_spec|]. intros r w1 (x & -> & _).
    destruct Hc as [y Hy%content_Some]. unfold append_file. rewrite Hy.
    rewrite content_insert_eq. by eexists. }
  intros [u|err] w1 H1; [|done]. destruct e; [by apply IH|by apply wp_ret..].
Qed.

Lemma StageWriteBinary_spec dataDir c id filename body maxBytes s :
  wp (StageWriteBinary dataDir c id filename body maxBytes) (fun r s' =>
    match r with
    | Ok staged =>
        (exists z, StagedPath staged = temp_name ".stage-" z :: FileOpsDir dataDir c id) /\
        content (st_fs s) (StagedPath staged) = None /\
        content (st_fs s') (StagedPath staged) = Some (str_concat (pieces body)) /\
        ending body = None /\
        SByteSize staged = Z.of_nat (String.length (str_concat (pieces body))) /\
        (SByteSize staged <= max_bytes maxBytes)%Z /\
        SSHA256 staged = sha256_hex (str_concat (pieces body)) /\
        (forall q, q <> StagedPath staged -> content (st_fs s') q = content (st_fs s) q)
    | Err _ =>
        keeps (fun q => exists z, q = temp_name ".stage-" z :: FileOpsDir dataDir c id)
          (st_fs s) (st_fs s')
    end) s.
Proof.
  unfold StageWriteBinary. destruct (SafeFileName filename); [|done]. cbn [negb].
  assert (0 <= max_bytes maxBytes)%Z as Hm.
  { unfold max_bytes. destruct (_ <=? 0)%Z eqn:Em; [done|]. apply Z.leb_gt in Em. lia. }
  wp_step MkdirAll_spec. intros r s1 [F1 _]. destruct r as [u|err]; [|intros q _; apply F1].
  wp_step CreateTemp_spec. intros r s2 H2.
  destruct r as [tmp|err]; [|intros q _; rewrite H2; apply F1].
  destruct H2 as (Hnone & F2 & z & Hz).
  assert (forall q, q <> tmp -> content (st_fs s2) q = content (st_fs s) q) as Hrest.
  { intros q Hq. rewrite F2, content_insert_ne by congruence. apply F1. }
  wp_step fill_upload_spec; [rewrite F2; apply content_insert_eq|exact Hm|].
  intros r s3 [K3 H3]. destruct r as [[n data]|err].
  - destruct H3 as (-> & He & Hc & -> & Hmax). apply wp_ret. simpl.
    assert (content (st_fs s) tmp = None) as Hfresh.
    { rewrite <-F1. unfold content. by rewrite Hnone. }
    split_and!; try done; [by exists z|]. intros q Hq. rewrite (K3 q) by congruence. by apply Hrest.
  - wp_step Remove_spec. intros r s4 H4. apply wp_ret. intros q Hq.
    assert (q <> tmp) as Hne by (intros ->; apply Hq; eauto).
    assert (content (st_fs s4) q = content (st_fs s3) q) as ->.
    { destruct r; rewrite H4; [|done]. unfold content. by rewrite lookup_delete_ne. }
    rewrite (K3 q) by congruence. by apply Hrest.
Qed.

(** Whatever system call of a staging fails, a reported success means that
    the staged file is a new one that holds every byte of the body and nothing
    else, that size and SHA-256 are those of the body, and that the body was read
    to its end within the limit; no other file is touched but staging files, and
    a reported failure touches staging files only. *)
Theorem StageWriteBinary_whole dataDir c id filename body maxBytes s :
  wp (StageWriteBinary dataDir c id filename body maxBytes) (fun r s' =>
    match r with
    | Ok staged =>
        content (st_fs s) (StagedPath staged) = None /\
        content (st_fs s') (StagedPath staged) = Some (str_concat (pieces body)) /\
        ending body = None /\
        SByteSize staged = Z.of_nat (String.length (str_concat (pieces body))) /\
        (SByteSize staged <= max_bytes maxBytes)%Z /\
        SSHA256 staged = sha256_hex (str_concat (pieces body)) /\
        (forall q, q <> StagedPath staged -> content (st_fs s') q = content (st_fs s) q)
    | Err _ =>
        keeps (fun q => exists z, q = temp_name ".stage-" z :: FileOpsDir dataDir c id)
          (st_fs s) (st_fs s')
    end) s.
Proof.
  eapply wp_mono; [apply StageWriteBinary_spec|]. intros [staged|err] s' Hst; [|exact Hst].
  destruct Hst as [_ Hst]. exact Hst.
Qed.
End uploads.

(** One read of a source whose pieces are not empty. *)
Lemma source_read_progress s k d e s' :
  Forall (fun c => c <> "") (pieces s) -> (0 < k)%nat -> source_read s k = (d, e, s') ->
  Forall (fun c => c <> "") (pieces s') /\
  (pieces s <> [] -> d <> "" /\ (e = More -> pieces s' = [] -> eager s = false) /\
     (e <> More -> eager s = true)).
Proof.
  intros Hp Hk. unfold source_read. destruct (pieces s) as [|c cs] eqn:Ep; intros [= <- <- <-].
  { rewrite Ep. by split. }
  apply Forall_cons in Hp as [Hc Hcs]. simpl. split.
  { destruct (str_drop k c =? "") eqn:Ed; boolprop; [done|]. by constructor. }
  intros _. split_and!.
  - destruct k, c; [lia|lia|done|done].
  - intros He Hn. destruct (eager s); [|done]. rewrite Hn in He. unfold end_of in He.
    simpl in He. by destruct (ending s).
  - by destruct (eager s).
Qed.

Lemma concat_nonempty l :
  Forall (fun c => c <> "") l -> String.length (str_concat l) = 0%nat -> l = [].
Proof.
  intros [|c l' Hc Hl]; [done|]. simpl. rewrite str_length_app. by destruct c.
Qed.

Section limits.
Context `{NF : NoFault}.

(** How an upload ends when no system call fails. *)
Definition upload_fits (s : source) (n max : Z) : bool :=
  let total := (n + Z.of_nat (String.length (str_concat (pieces s))))%Z in
  (total <? max)%Z || ((total =? max)%Z && (n <? max)%Z && eager s).

Lemma copy_loop_exact fuel tmp s n max acc w :
  Forall (fun c => c <> "") (pieces s) ->
  (String.length (str_concat (pieces s)) < fuel)%nat -> (0 <= n <= max)%Z ->
  fst (copy_loop fuel tmp s n max acc w) =
  if upload_fits s n max then
    match ending s with
    | None => Ok ((n + Z.of_nat (String.length (str_concat (pieces s))))%Z,
                  acc +:+ str_concat (pieces s))
    | Some e => Err e
    end
  else Err too_large.
Proof.
  revert s n acc w. induction fuel as [|f IH]; intros s n acc w Hp Hf Hn; [lia|].
  cbn [copy_loop].
  destruct (counting_read s n max copy_buffer) as [[[d e] s'] n'] eqn:Er.
  apply counting_read_spec in Er; [|apply Nat.neq_0_lt_0; done|done].
  assert (exists w1, (if d =? "" then mret (Ok tt) else WriteTo tmp d) w = (Ok tt, w1)) as [w1 Hw].
  { destruct (d =? ""); [by eexists|]. unfold WriteTo. rewrite sys_eq. by eexists. }
  unfold rbind, mbind, M_bind. rewrite Hw.
  destruct Er as [(-> & -> & -> & ->)|(Hlt & -> & Hm & k' & Hk' & Hr)].
  { simpl. unfold upload_fits. rewrite (proj2 (Z.ltb_ge _ _)) by lia.
    by rewrite (Z.ltb_irrefl max), andb_false_r. }
  pose proof (source_read_spec _ _ _ _ _ Hr) as (Hcat & He1 & He2 & _ & Hend & Hnil).
  pose proof (source_read_progress _ _ _ _ _ Hp Hk' Hr) as [Hp' Hprog].
  assert (String.length (str_concat (pieces s))
          = (String.length d + String.length (str_concat (pieces s')))%nat) as Hlen
    by (by rewrite <-Hcat, str_length_app).
  destruct (decide (pieces s = [])) as [Hn0|Hn0].
  { destruct (Hend (Hnil Hn0)) as [_ ->]. rewrite Hn0 in Hlen |- *. simpl in Hlen.
    assert (d = "") as -> by (destruct d; [done|simpl in Hlen; lia]).
    unfold upload_fits, end_of. rewrite Hn0. simpl. rewrite (proj2 (Z.ltb_lt _ _)) by lia.
    rewrite !str_app_nil_r. by destruct (ending s). }
  destruct (Hprog Hn0) as (Hd & Hm1 & Hm2).
  assert (0 < String.length d)%nat as Hdl by (destruct d; [done|simpl; lia]).
  assert (upload_fits s n max = upload_fits s' (n + Z.of_nat (String.length d)) max \/ e <> More)
    as Hfits.
  { unfold upload_fits. rewrite He1, Hlen.
    destruct e as [| |err]; [left|by right|by right].
    replace (n + Z.of_nat (String.length d + String.length (str_concat (pieces s'))))%Z
      with (n + Z.of_nat (String.length d) + Z.of_nat (String.length (str_concat (pieces s'))))%Z by lia.
    rewrite (proj2 (Z.ltb_lt n max)) by done.
    destruct (n + Z.of_nat (String.length d) <? max)%Z eqn:E1; [done|]. apply Z.ltb_ge in E1.
    destruct (_ =? max)%Z eqn:E2; [|done]. apply Z.eqb_eq in E2.
    rewrite (Hm1 eq_refl); [by rewrite andb_false_r|]. apply concat_nonempty; [done|lia]. }
  destruct e as [| |err].
  - destruct Hfits as [Hfits|]; [|done]. rewrite Hfits. rewrite IH by (done || lia).
    rewrite He2, Hlen, str_app_assoc, Hcat.
    destruct (upload_fits s' _ max); [|reflexivity].
    destruct (ending s); [reflexivity|]. do 2 f_equal. lia.
  - destruct (Hend ltac:(done)) as [Hs' He]. rewrite Hs' in Hcat, Hlen. simpl in Hcat, Hlen.
    rewrite str_app_nil_r in Hcat. unfold upload_fits. rewrite <-Hcat, (Hm2 ltac:(done)).
    rewrite (proj2 (Z.ltb_lt n max)) by done.
    unfold end_of in He. destruct (ending s); [done|].
    destruct (_ <? max)%Z eqn:E1; [done|]. apply Z.ltb_ge in E1.
    by rewrite (proj2 (Z.eqb_eq _ _)) by lia.
  - destruct (Hend ltac:(done)) as [Hs' He]. rewrite Hs' in Hcat, Hlen. simpl in Hcat, Hlen.
    rewrite str_app_nil_r in Hcat. unfold upload_fits. rewrite <-Hcat, (Hm2 ltac:(done)).
    rewrite (proj2 (Z.ltb_lt n max)) by done.
    unfold end_of in He. destruct (ending s); [|done]. injection He as <-.
    destruct (_ <? max)%Z eqn:E1; [done|]. apply Z.ltb_ge in E1.
    by rewrite (proj2 (Z.eqb_eq _ _)) by lia.
Qed.

(** With no failing system call, an upload of a body whose reads deliver at
    least a byte each ends as follows: a body shorter than the limit is accepted
    whole, or fails with the error the body ended in; a longer one is refused as
    too large; and one of exactly the limit is accepted only when the end comes
    together with the last bytes, and refused as too large otherwise. *)
Theorem upload_limit tmp s max w :
  Forall (fun c => c <> "") (pieces s) -> (0 < max)%Z ->
  is_file (st_fs w) tmp = true ->
  let total := Z.of_nat (String.length (str_concat (pieces s))) in
  fst (fill_upload tmp s max w) =
  if (total <? max)%Z || ((total =? max)%Z && eager s) then
    match ending s with
    | None => Ok (total, str_concat (pieces s))
    | Some e => Err e
    end
  else Err too_large.
Proof.
  intros Hp Hm Ht total. unfold fill_upload.
  assert (fst (copy_loop (copy_fuel s) tmp s 0 max "" w) =
          if (total <? max)%Z || ((total =? max)%Z && eager s) then
            match ending s with None => Ok (total, str_concat (pieces s)) | Some e => Err e end
          else Err too_large) as Hc.
  { rewrite copy_loop_exact; [|done| |lia].
    - unfold upload_fits. rewrite (proj2 (Z.ltb_lt 0 max)) by done. by rewrite andb_true_r.
    - unfold copy_fuel. clear. induction (pieces s) as [|c l IH]; simpl; [lia|].
      rewrite str_length_app. lia. }
  assert (is_file (st_fs (snd (copy_loop (copy_fuel s) tmp s 0 max "" w))) tmp = true) as Hfile.
  { apply is_file_content. apply is_file_content in Ht.
    pose proof (copy_loop_file (copy_fuel s) tmp s 0 max "" w Ht) as Hw. unfold wp in Hw.
    by destruct (copy_loop _ _ _ _ _ _ w). }
  unfold mbind, M_bind. destruct (copy_loop _ _ _ _ _ _ w) as [r w1]. simpl in Hc, Hfile. subst r.
  apply is_file_content in Hfile as [y Hy%content_Some].
  assert (exists n, fs_lookup (st_fs w1) tmp = Ok n) as [n Hl].
  { unfold fs_lookup. destruct tmp; [eauto|]. rewrite Hy. eauto. }
  assert (forall p v, Sync p v = (Ok tt, setfs (ticked v) (st_fs v))) as Hsync
    by (intros; unfold Sync; by rewrite sys_eq).
  assert (forall p v, Close p v = (Ok tt, setfs (ticked v) (st_fs v))) as Hclose
    by (intros; unfold Close; by rewrite sys_eq).
  assert (forall v, st_fs v = st_fs w1 -> exists v', Chmod tmp v = (Ok tt, v')) as Hchmod.
  { intros v Hv. unfold Chmod. rewrite sys_eq, Hv, Hl. eauto. }
  destruct (_ || _); [destruct (ending s)|].
  - by rewrite Hclose.
  - rewrite Hsync. unfold rbind, mbind, M_bind. rewrite Hclose.
    destruct (Hchmod (setfs (ticked (setfs (ticked w1) (st_fs w1))) (st_fs (setfs (ticked w1) (st_fs w1)))) eq_refl)
      as [v' ->]. done.
  - by rewrite Hclose.
Qed.
End limits.

(** ** What interrupted commits leave *)

Ltac in_list := rewrite ?elem_of_cons, ?not_elem_of_cons in *; tauto.

Section commit.
Context `{OJSON} `{!OJSONLaws} `{GoJSON} `{!GoJSONLaws}.
Context (dataDir : path) (c id : string).
Hypothesis Hc : plain_collection c = true.
Hypothesis Hid : SafeID id = true.

Notation Mf := (FilesManifestPath dataDir c id).
Notation ops := (FileOpsDir dataDir c id).

(** The entries the manifest file stands for. *)
Definition manifest_is (f : fs) (es : list FileEntry) : Prop :=
  match content f Mf with
  | None => es = []
  | Some text => parse_lines (text_lines text) = Ok es
  end.

Definition upserted (es : list FileEntry) (entry : FileEntry) : string :=
  manifest_text (merge_sort name_le (upsert es entry)).

Lemma manifest_not_temp : is_temp Mf = false.
Proof. rewrite FilesManifestPath_eq by done. by apply SafeID_not_temp. Qed.

Lemma manifest_is_ext f f' es :
  content f' Mf = content f Mf -> manifest_is f es -> manifest_is f' es.
Proof. intros He. unfold manifest_is. by rewrite He. Qed.

Section faults.
Context `{E : Env}.

Lemma ReadFilesManifest_spec s :
  wp (ReadFilesManifest dataDir c id) (fun r s' =>
    st_fs s' = st_fs s /\ forall es, r = Ok es -> manifest_is (st_fs s) es) s.
Proof.
  unfold ReadFilesManifest. wp_step ReadFile_spec. intros r s1 [F1 Hr].
  destruct r as [text|e].
  - apply wp_ret. split; [done|]. intros es Hes. unfold manifest_is.
    destruct Hr as [Hr|[? _]]; [|done]. symmetry in Hr.
    unfold fs_read, fs_lookup in Hr. revert Hr.
    rewrite FilesManifestPath_eq by done. unfold content.
    destruct (st_fs s !! _) as [[d|]|]; [|done|done]. by intros [= ->].
  - destruct (is_not_exist e) eqn:Ee; apply wp_ret; (split; [done|]); [|done].
    intros es [= <-]. unfold manifest_is. destruct Hr as [Hr|[[= ->] _]]; [|done].
    unfold fs_read, fs_lookup in Hr. revert Hr.
    rewrite FilesManifestPath_eq by done. unfold content.
    by destruct (st_fs s !! _) as [[d|]|].
Qed.

Lemma upsert_not_nil es e : upsert es e <> [].
Proof. destruct es as [|x es]; simpl; [done|]. by destruct (_ =? _). Qed.

Lemma UpsertManifestEntry_spec entry s :
  wp (UpsertManifestEntry dataDir c id entry) (fun r s' =>
    keeps (written Mf) (st_fs s) (st_fs s') /\
    (content (st_fs s') Mf = content (st_fs s) Mf /\ is_ok r = false \/
     exists es, manifest_is (st_fs s) es /\
       content (st_fs s') Mf = Some (upserted es entry) /\ is_ok r = true)) s.
Proof.
  unfold UpsertManifestEntry. wp_step ReadFilesManifest_spec. intros r s1 [F1 Hes].
  destruct r as [es|e]; [|rewrite F1; split; [done|by left]].
  unfold WriteFilesManifest.
  assert ((length (merge_sort name_le (upsert es entry)) =? 0)%nat = false) as ->.
  { apply Nat.eqb_neq. rewrite (Permutation_length (merge_sort_Permutation name_le _)).
    intros Hz%length_zero_iff_nil. by apply upsert_not_nil in Hz. }
  eapply wp_mono; [by apply WriteFileAtomic_spec, manifest_not_temp|].
  intros [u|e] s2 W2; cbv beta in W2; rewrite F1 in W2.
  - destruct W2 as [Hm K]. split; [done|]. right. exists es. split; [by apply Hes|]. done.
  - split; [eapply keeps_mono; [exact W2|]; intros q Hq; by right|]. left. split; [|done].
    apply W2. intros [Ht _]. by rewrite manifest_not_temp in Ht.
Qed.

(** *** The journal *)

Definition journal_text (j : FileOpJournal) : string :=
  MarshalIndent (journal_json j) +:+ newline.

Lemma FileOpsDir_child n :
  plain n = true -> join ops [n] = n :: id :: ".fileOps" :: c :: dataDir.
Proof. intros Hn. rewrite FileOpsDir_eq by done. by apply join_plain1. Qed.

Lemma journal_path_eq op :
  SafeID op = true ->
  fileOpJournalPath dataDir c id op = (op +:+ ".json") :: id :: ".fileOps" :: c :: dataDir.
Proof. intros Hop. apply FileOpsDir_child. apply plain_doc_name; [done|simpl; lia|done]. Qed.

Lemma WriteFileOpJournal_spec j s :
  SafeID (JOperationID j) = true ->
  let J := fileOpJournalPath dataDir c id (JOperationID j) in
  wp (WriteFileOpJournal dataDir c id j) (fun r s' =>
    match r with
    | Ok _ => content (st_fs s') J = Some (journal_text j) /\ keeps (written J) (st_fs s) (st_fs s')
    | Err _ => keeps (temps_of J) (st_fs s) (st_fs s')
    end) s.
Proof.
  intros Hop J. unfold WriteFileOpJournal.
  assert (is_temp J = false) as Ht.
  { unfold J. rewrite journal_path_eq by done. by apply SafeID_not_temp. }
  wp_step MkdirAll_spec. intros r s1 [F1 _]. destruct r as [u|e]; [|intros q _; apply F1].
  eapply wp_mono; [by apply WriteFileAtomic_spec|]. intros [u2|e2] s2 W2; cbv beta in W2.
  - destruct W2 as [Hj K]. split; [done|].
    eapply keeps_trans; [intros q _; apply F1|exact K].
  - eapply keeps_trans; [intros q _; apply F1|exact W2].
Qed.
End faults.

(** *** The four files of a commit *)

Lemma SafeFileName_facts n :
  SafeFileName n = true -> plain n = true /\ HasPrefix n "." = false.
Proof.
  unfold SafeFileName. intros Hn.
  destruct ((n =? "") || (n =? ".") || (n =? "..")) eqn:E1; [done|].
  destruct (HasPrefix n ".") eqn:E2; [done|].
  destruct (negb (ValidString n)); [done|].
  destruct (MaxFileNameBytes <? String.length n)%nat; [done|].
  destruct (Contains n "/" || Contains n "\") eqn:E5; [done|].
  apply orb_false_iff in E5 as [E5 _]. rewrite Contains_char in E5.
  apply orb_false_iff in E1 as [E1 E1c]. apply orb_false_iff in E1 as [E1a E1b].
  split; [|done]. unfold plain. by rewrite E1a, E1b, E1c, E5.
Qed.

Lemma BinaryPath_eq n :
  SafeFileName n = true -> BinaryPath dataDir c id n = n :: id :: "lfs" :: c :: dataDir.
Proof.
  intros Hn. unfold BinaryPath. rewrite LFSDir_eq by done.
  apply join_plain1, SafeFileName_facts, Hn.
Qed.

Context (entry : FileEntry) (staged : StagedBinary) (stage : string).
Hypothesis Hname : SafeFileName (FName entry) = true.
Hypothesis Hop : SafeID (FOperationID entry) = true.
Hypothesis Hstage : HasPrefix stage ".stage-" = true.
Hypothesis Hstaged : StagedPath staged = stage :: id :: ".fileOps" :: c :: dataDir.

Notation B := (BinaryPath dataDir c id (FName entry)).
Notation Sp := (StagedPath staged).
Notation J := (fileOpJournalPath dataDir c id (FOperationID entry)).

Lemma stage_not_temp : temp_component stage = false.
Proof.
  unfold temp_component. apply HasPrefix_spec in Hstage as [t ->]. reflexivity.
Qed.

Lemma commit_files :
  NoDup [B; Sp; J; Mf] /\ Forall (fun p => is_temp p = false) [B; Sp; J; Mf].
Proof.
  destruct (SafeFileName_facts _ Hname) as [_ Hdot].
  rewrite BinaryPath_eq, journal_path_eq, FilesManifestPath_eq, Hstaged by done.
  assert (stage <> FOperationID entry +:+ ".json") as Hsj.
  { intros ->. apply HasPrefix_spec in Hstage as [t Ht].
    pose proof (SafeID_no_dot _ Hop) as Hd. destruct (FOperationID entry) as [|x op]; [done|].
    injection Ht as -> _. by destruct op. }
  split.
  - assert (forall n m (l : path), n :: id :: m :: l <> (id +:+ "__files.jsonl") :: l) as Hlen.
    { intros n m l Heq. apply (f_equal length) in Heq. simpl in Heq. lia. }
    repeat apply NoDup_cons_2; [..|apply NoDup_nil_2]; rewrite ?not_elem_of_cons;
      split_and?; try apply not_elem_of_nil; try apply Hlen; congruence.
  - repeat constructor; simpl.
    + by apply no_dot_not_temp.
    + apply stage_not_temp.
    + by apply SafeID_not_temp.
    + by apply SafeID_not_temp.
Qed.

Lemma written_frame p q f f' :
  keeps (written p) f f' -> q <> p -> is_temp q = false -> content f' q = content f q.
Proof. intros K Hne Ht. apply K. intros [?|[? _]]; congruence. Qed.

Lemma temps_frame p q f f' :
  keeps (temps_of p) f f' -> is_temp q = false -> content f' q = content f q.
Proof. intros K Ht. apply K. intros [? _]; congruence. Qed.

(** The journal records of the commit, by the command they name. *)
Definition commit_journal (command staged phase : string) : FileOpJournal :=
  mkJournal command (FName entry) (FContentType entry) (FByteSize entry) (FSHA256 entry)
    (FVersion entry) (FOperationID entry) staged phase.

Definition journal_staged (command : string) : string :=
  journal_text (commit_journal command (path_string Sp) "staged").
Definition journal_moved (command : string) : string :=
  journal_text (commit_journal command "" "blobCommitted").
Definition journal_done (command : string) : string :=
  journal_text (commit_journal command "" "done").

(** What a commit can leave behind. *)
Inductive commit_state (f f' : fs) (data : string) : bool -> Prop :=
| commit_nothing command :
    content f' B = content f B -> content f' Sp = content f Sp -> content f' Mf = content f Mf ->
    content f' J = content f J \/ content f' J = Some (journal_staged command) ->
    command ∈ ["create"; "update"] ->
    commit_state f f' data false
| commit_blob_unrecorded command :
    content f' B = Some data -> content f' Sp = None -> content f' Mf = content f Mf ->
    content f' J = Some (journal_staged command) -> command ∈ ["create"; "update"] ->
    commit_state f f' data false
| commit_blob_recorded command :
    content f' B = Some data -> content f' Sp = None -> content f' Mf = content f Mf ->
    content f' J = Some (journal_moved command) -> command ∈ ["create"; "update"] ->
    commit_state f f' data false
| commit_all command es ok :
    content f' B = Some data -> content f' Sp = None ->
    manifest_is f es -> content f' Mf = Some (upserted es entry) ->
    content f' J = None \/ content f' J = Some (journal_moved command) \/
    content f' J = Some (journal_done command) -> command ∈ ["create"; "update"] ->
    commit_state f f' data ok.

Section commit_faults.
Context `{E : Env}.

(** The end of a commit: the journal says [blobCommitted], then [done], then it
    is gone. *)
Lemma commit_tail_spec command s :
  content (st_fs s) J = Some (journal_moved command) ->
  wp (_ ← WriteFileOpJournal dataDir c id (commit_journal command "" "done");
      ClearFileOpJournal dataDir c id (FOperationID entry)) (fun _ s' =>
    (content (st_fs s') J = None \/ content (st_fs s') J = Some (journal_moved command) \/
     content (st_fs s') J = Some (journal_done command)) /\
    forall q, is_temp q = false -> q <> J -> content (st_fs s') q = content (st_fs s) q) s.
Proof.
  intros HJ. assert (is_temp J = false) as TJ.
  { rewrite journal_path_eq by done. by apply SafeID_not_temp. }
  wp_step WriteFileOpJournal_spec; [done|]. intros r s1 J1. simpl in J1.
  assert ((content (st_fs s1) J = Some (journal_moved command) \/
           content (st_fs s1) J = Some (journal_done command)) /\
          forall q, is_temp q = false -> q <> J -> content (st_fs s1) q = content (st_fs s) q) as [HJ1 C1].
  { destruct r.
    - destruct J1 as [HJ1 K1]. split; [by right|]. intros q Tq Nq. by eapply written_frame.
    - split; [left; rewrite (temps_frame _ _ _ _ J1) by done; exact HJ|].
      intros q Tq _. by eapply temps_frame. }
  unfold ClearFileOpJournal. eapply wp_mono; [apply remove_if_present_spec|].
  intros r2 s2 [->| ->]; [split; [tauto|done]|]. split.
  - left. unfold content. by rewrite lookup_delete_eq.
  - intros q Tq Nq. rewrite <-C1 by done. unfold content. by rewrite lookup_delete_ne.
Qed.

Definition commit_frame (f f' : fs) : Prop :=
  forall q, is_temp q = false -> q ∉ [B; Sp; J; Mf] -> content f' q = content f q.

Definition commit_post (f0 : fs) (data : string) (r : result unit) (s' : st) : Prop :=
  commit_state f0 (st_fs s') data (is_ok r) /\ commit_frame f0 (st_fs s').

Lemma commit_facts :
  (is_temp B = false /\ is_temp Sp = false /\ is_temp J = false /\ is_temp Mf = false) /\
  B <> Sp /\ B <> J /\ B <> Mf /\ Sp <> J /\ Sp <> Mf /\ J <> Mf.
Proof.
  destruct commit_files as [Hnd Htemp].
  apply Forall_cons in Htemp as [TB Htemp]. apply Forall_cons in Htemp as [TS Htemp].
  apply Forall_cons in Htemp as [TJ Htemp]. apply Forall_cons in Htemp as [TM _].
  rewrite !NoDup_cons, !not_elem_of_cons in Hnd. tauto.
Qed.

(** From the rename on. *)
Lemma commit_after_rename command data f0 s :
  command ∈ ["create"; "update"] ->
  content (st_fs s) B = Some data -> content (st_fs s) Sp = None ->
  content (st_fs s) Mf = content f0 Mf -> content (st_fs s) J = Some (journal_staged command) ->
  commit_frame f0 (st_fs s) ->
  wp (WriteFileOpJournal dataDir c id (commit_journal command "" "blobCommitted") ;?
      UpsertManifestEntry dataDir c id entry ;?
      _ ← WriteFileOpJournal dataDir c id (commit_journal command "" "done");
      ClearFileOpJournal dataDir c id (FOperationID entry)) (commit_post f0 data) s.
Proof.
  destruct commit_facts as ((TB & TS & TJ & TM) & NBS & NBJ & NBM & NSJ & NSM & NJM).
  intros Hcmd HB HS HM HJ HO.
  apply wp_rbind. eapply wp_mono; [by apply WriteFileOpJournal_spec|].
  intros [u4|e4] s4 J4; cbv beta in J4; simpl in J4.
  2:{ split; [|intros q Tq Nq; rewrite (temps_frame J q _ _ J4) by done; by apply HO].
      by apply (commit_blob_unrecorded _ _ _ command); [..|done];
        rewrite (temps_frame J _ _ _ J4). }
  destruct J4 as [HJ4 K4].
  assert (forall q, is_temp q = false -> q <> J -> content (st_fs s4) q = content (st_fs s) q) as C4.
  { intros q Tq Nq. by eapply written_frame. }
  apply wp_rbind. eapply wp_mono; [by apply UpsertManifestEntry_spec|]. intros r s5 [K5 U5].
  assert (forall q, is_temp q = false -> q <> Mf -> content (st_fs s5) q = content (st_fs s4) q) as C5.
  { intros q Tq Nq. by eapply written_frame. }
  assert (commit_frame f0 (st_fs s5)) as O5.
  { intros q Tq Nq. rewrite C5, C4 by (done || in_list). by apply HO. }
  destruct U5 as [[M5 Hr]|(es & Hes & M5 & Hr)]; destruct r as [u5|e5]; try done.
  { split; [|done]. apply (commit_blob_recorded _ _ _ command); [..|done].
    - by rewrite C5, C4 by congruence.
    - by rewrite C5, C4 by congruence.
    - by rewrite M5, C4 by congruence.
    - rewrite C5 by congruence. exact HJ4. }
  assert (manifest_is f0 es) as Hes0.
  { eapply manifest_is_ext; [|exact Hes]. by rewrite C4 by congruence. }
  eapply wp_mono; [apply (commit_tail_spec command); rewrite C5 by congruence; exact HJ4|].
  intros r6 s6 [HJ6 C6]. split.
  - apply (commit_all _ _ _ command es); try done; rewrite C6 by congruence; try done;
      by rewrite C5, C4 by congruence.
  - intros q Tq Nq. rewrite C6 by (done || in_list). by apply O5.
Qed.

Lemma CommitStagedBinary_states data s :
  content (st_fs s) Sp = Some data ->
  wp (CommitStagedBinary dataDir c id entry staged) (commit_post (st_fs s) data) s.
Proof.
  destruct commit_facts as ((TB & TS & TJ & TM) & NBS & NBJ & NBM & NSJ & NSM & NJM).
  intros Hdata. unfold CommitStagedBinary. wp_step ReadFilesManifest_spec. intros r0 s0 [F0 _].
  set (command := match r0 with Ok es => _ | Err _ => "create" end).
  assert (command ∈ ["create"; "update"]) as Hcmd.
  { subst command. destruct r0; [|by left]. destruct (LookupFileEntry _ _); [right; by left|by left]. }
  clearbody command. rewrite <-F0 in *. clear F0 r0.
  apply wp_rbind. eapply wp_mono; [by apply WriteFileOpJournal_spec|].
  intros [u|e] s1 J1; cbv beta in J1; simpl in J1.
  2:{ split; [|intros q Tq _; by eapply temps_frame].
      apply (commit_nothing _ _ _ command); [by eapply temps_frame..|left|done].
      by eapply temps_frame. }
  destruct J1 as [HJ1 K1].
  assert (forall q, is_temp q = false -> q <> J -> content (st_fs s1) q = content (st_fs s0) q) as C1.
  { intros q Tq Nq. by eapply written_frame. }
  apply wp_rbind. eapply wp_mono; [apply MkdirAll_spec|]. intros r s2 [F2 _].
  assert (commit_post (st_fs s0) data (Err io_error) s2) as Hstaged2.
  { split.
    - apply (commit_nothing _ _ _ command); rewrite ?F2; [by apply C1; congruence..|by right|done].
    - intros q Tq Nq. rewrite F2. apply C1; [done|]. set_solver. }
  destruct r as [u2|e2]; [|exact Hstaged2].
  wp_step Rename_spec. intros [u3|e3] s3 R3;
    [|apply wp_ret; unfold commit_post; rewrite R3; exact Hstaged2].
  destruct R3 as (d & Hd & F3).
  assert (d = data) as ->.
  { apply content_Some in Hd. rewrite F2, C1, Hdata in Hd by done. congruence. }
  assert (forall q, q <> B -> q <> Sp -> content (st_fs s3) q = content (st_fs s2) q) as C3.
  { intros q Nq1 Nq2. rewrite F3, content_insert_ne by done. unfold content.
    by rewrite lookup_delete_ne. }
  apply (commit_after_rename command); [done|..].
  - rewrite F3. apply content_insert_eq.
  - rewrite F3, content_insert_ne by congruence. unfold content. by rewrite lookup_delete_eq.
  - rewrite C3, F2 by congruence. apply C1; congruence.
  - rewrite C3, F2 by congruence. exact HJ1.
  - intros q Tq Nq. rewrite C3 by in_list. by apply Hstaged2.
Qed.
End commit_faults.

(** *** Recovery *)

Hypothesis Hentry : entry_ok entry.
Hypothesis Hdir : Forall (fun c => plain c = true) dataDir.
Hypothesis Hvalid : ValidString (path_string Sp) = true.
Hypothesis Hplain : plain stage = true.

Lemma journal_roundtrip command staged' phase :
  ValidString command = true -> ValidString staged' = true -> ValidString phase = true ->
  result_bind (Unmarshal (journal_text (commit_journal command staged' phase))) journal_of_json
  = Ok (commit_journal command staged' phase).
Proof.
  intros Vc Vs Vp. destruct Hentry as [Hs Hz].
  apply Forall_cons in Hs as [V1 Hs]. apply Forall_cons in Hs as [V2 Hs].
  apply Forall_cons in Hs as [V3 Hs]. apply Forall_cons in Hs as [V4 Hs].
  apply Forall_cons in Hs as [V5 _].
  unfold journal_text. rewrite unmarshal_indent_newline.
  - cbn [result_bind]. unfold journal_json, journal_of_json, omit_empty, omit_zero. simpl.
    destruct (FContentType entry =? "") eqn:E1, (FByteSize entry =? 0)%Z eqn:E2,
      (FSHA256 entry =? "") eqn:E3, (staged' =? "") eqn:E4; boolprop;
      cbn -[Itoa Atoi]; rewrite ?Atoi_Itoa by done; cbn; unfold commit_journal;
      by rewrite ?E1, ?E2, ?E3, ?E4.
  - unfold journal_json, omit_empty, omit_zero. simpl JFilename. cbn [JCommand JFilename JContentType
      JByteSize JSHA256 JVersion JOperationID JStagedPath JPhase commit_journal].
    destruct (FContentType entry =? ""), (FByteSize entry =? 0)%Z, (FSHA256 entry =? ""),
      (staged' =? ""); cbn [app well_formed]; (apply andb_true_iff; split; [reflexivity|]);
      cbn [forallb fst snd well_formed];
      rewrite ?Vc, ?V1, ?V2, ?V3, ?V4, ?V5, ?Vs, ?Vp, ?number_int; reflexivity.
Qed.

Lemma staged_path_text : path_of_string (path_string Sp) = Sp.
Proof.
  apply path_of_string_roundtrip. rewrite Hstaged.
  repeat apply Forall_cons_2; [done|by apply SafeID_plain|done| |done].
  unfold plain_collection in Hc. by apply andb_true_iff in Hc as [? _].
Qed.

Section recovery_faults.
Context `{E : Env}.

(** What recovery makes of a journal record, when it reports success. *)
Definition recovered (command phase : string) (f f' : fs) : Prop :=
  content f' B = content f B /\
  if phase =? "blobCommitted"
  then exists es, manifest_is f es /\ content f' Mf = Some (upserted es entry)
  else content f' Mf = content f Mf.

Lemma clear_spec s :
  wp (_ ← ClearFileOpJournal dataDir c id (FOperationID entry); mret (Ok tt)) (fun (_ : result unit) s' =>
    forall q, q <> J -> content (st_fs s') q = content (st_fs s) q) s.
Proof.
  apply wp_bind. eapply wp_mono; [apply remove_if_present_spec|].
  intros r s1 [F|F]; apply wp_ret; intros q Hq; rewrite F; [done|].
  unfold content. by rewrite lookup_delete_ne.
Qed.

Lemma recover_one_spec command staged' phase s :
  command ∈ ["create"; "update"] -> phase ∈ ["staged"; "blobCommitted"; "done"] ->
  staged' = path_string Sp \/ staged' = "" ->
  wp (recover_one dataDir c id (commit_journal command staged' phase)) (fun r s' =>
    is_ok r = true -> recovered command phase (st_fs s) (st_fs s')) s.
Proof.
  destruct commit_facts as ((TB & TS & TJ & TM) & NBS & NBJ & NBM & NSJ & NSM & NJM).
  intros Hcmd Hph Hst. unfold recover_one, recovered. cbn [JPhase JCommand JOperationID JStagedPath commit_journal].
  assert ((command =? "delete") = false) as Hdel.
  { rewrite !elem_of_cons in Hcmd. destruct Hcmd as [->|[->|Hn]]; [done|done|set_solver]. }
  rewrite !elem_of_cons in Hph. destruct Hph as [->|[->|[->|Hn]]]; [..|set_solver]; simpl.
  - apply wp_bind.
    apply (wp_mono _ (fun _ s1 => forall q, q <> Sp -> content (st_fs s1) q = content (st_fs s) q)).
    + destruct (staged' <>? "") eqn:En; [|by apply wp_ret].
      destruct Hst as [->| ->]; [|done]. rewrite staged_path_text.
      eapply wp_mono; [apply Remove_spec|]. intros r s1 F q Hq. destruct r; rewrite F; [|done].
      unfold content. by rewrite lookup_delete_ne.
    + intros _ s1 C1. eapply wp_mono; [apply clear_spec|]. intros r s2 C2 _.
      rewrite !C2, !C1 by congruence. done.
  - rewrite Hdel. apply wp_rbind. eapply wp_mono; [by apply UpsertManifestEntry_spec|].
    intros r s1 [K1 U1]. destruct r as [u|e]; [|by intros].
    destruct U1 as [[_ ?]|(es & Hes & M1 & _)]; [done|].
    eapply wp_mono; [apply clear_spec|]. intros r s2 C2 _. rewrite !C2 by congruence.
    split; [by eapply written_frame|]. exists es. split; [done|]. rewrite M1.
    f_equal. unfold upserted. by destruct entry.
  - eapply wp_mono; [apply clear_spec|]. intros r s1 C1 _. rewrite !C1 by congruence. done.
Qed.

(** A listing in which the journal record, if any, is the only one, and names are
    names. *)
Definition listing_ok (l : list dir_entry) : Prop :=
  NoDup (map fst l) /\
  forall n b, (n, b) ∈ l -> plain n = true /\
    (b = false -> HasSuffix n ".json" = true -> n = FOperationID entry +:+ ".json").

Definition jname : string := FOperationID entry +:+ ".json".

Lemma listing_ok_cons e l : listing_ok (e :: l) -> listing_ok l /\ fst e ∉ map fst l.
Proof.
  intros [Hnd Hall]. simpl in Hnd. apply NoDup_cons in Hnd as [Hn Hnd].
  split; [|done]. split; [done|]. intros n b Hin. apply Hall. by right.
Qed.

Lemma stage_remove_spec n s :
  plain n = true ->
  wp (if HasPrefix n ".stage-" then Remove (join ops [n]) else mret (Ok tt)) (fun _ s' =>
    forall q, (forall m, HasPrefix m ".stage-" = true -> q <> m :: id :: ".fileOps" :: c :: dataDir) ->
      content (st_fs s') q = content (st_fs s) q) s.
Proof.
  intros Hn. destruct (HasPrefix n ".stage-") eqn:Ep; [|by apply wp_ret].
  rewrite FileOpsDir_child by done. eapply wp_mono; [apply Remove_spec|].
  intros r s1 F q Hq. destruct r; rewrite F; [|done].
  unfold content. rewrite lookup_delete_ne; [done|]. intros Heq. by apply (Hq n).
Qed.

(** The three files recovery must not confuse with staging files. *)
Lemma not_stage q m :
  q ∈ [B; J; Mf] -> HasPrefix m ".stage-" = true -> q <> m :: id :: ".fileOps" :: c :: dataDir.
Proof.
  rewrite !elem_of_cons. intros Hq Hm ->. apply HasPrefix_spec in Hm as [t ->].
  rewrite BinaryPath_eq, journal_path_eq, FilesManifestPath_eq in Hq by done.
  destruct Hq as [Hq|[Hq|[Hq|Hq]]]; [congruence| | |set_solver].
  - injection Hq as Hq. pose proof (SafeID_no_dot _ Hop) as Hd.
    destruct (FOperationID entry) as [|x o]; [done|]. injection Hq as <- _. by destruct o.
  - apply (f_equal length) in Hq. simpl in Hq. lia.
Qed.

Lemma json_not_stage n : HasPrefix n ".stage-" = true -> n <> jname.
Proof.
  intros Hm ->. apply (not_stage J jname); [set_solver|done|]. by apply journal_path_eq.
Qed.

(** Entries that are not the journal record. *)
Lemma recover_entries_other l s :
  listing_ok l -> (jname, false) ∉ l ->
  wp (recover_entries dataDir c id l) (fun _ s' =>
    forall q, q ∈ [B; J; Mf] -> content (st_fs s') q = content (st_fs s) q) s.
Proof.
  revert s. induction l as [|[n b] l IH]; intros s Hl Hj; cbn [recover_entries]; [done|].
  pose proof (listing_ok_cons _ _ Hl) as [Hl' _]. destruct Hl as [_ Hall].
  destruct (Hall n b ltac:(by left)) as [Hn Hjson].
  destruct (b || negb (HasSuffix n ".json")) eqn:Eb.
  - wp_step stage_remove_spec; [done|]. intros r s1 C1.
    eapply wp_mono; [apply IH; [done|set_solver]|]. intros r2 s2 C2 q Hq.
    rewrite C2 by done. apply C1. intros m Hm. by apply not_stage.
  - exfalso. apply orb_false_iff in Eb as [-> Es%negb_false_iff].
    apply Hj. rewrite (Hjson eq_refl Es). by left.
Qed.

(** A listing with the journal record. *)
Lemma recover_entries_journal l command staged' phase s :
  listing_ok l -> (jname, false) ∈ l ->
  command ∈ ["create"; "update"] -> phase ∈ ["staged"; "blobCommitted"; "done"] ->
  staged' = path_string Sp \/ staged' = "" ->
  content (st_fs s) J = Some (journal_text (commit_journal command staged' phase)) ->
  wp (recover_entries dataDir c id l) (fun r s' =>
    is_ok r = true -> recovered command phase (st_fs s) (st_fs s')) s.
Proof.
  intros Hl Hin Hcmd Hph Hst. revert s Hl Hin.
  induction l as [|[n b] l IH]; intros s Hl Hin HJ; cbn [recover_entries]; [set_solver|].
  pose proof (listing_ok_cons _ _ Hl) as [Hl' Hn']. destruct Hl as [_ Hall].
  destruct (Hall n b ltac:(by left)) as [Hn Hjson].
  destruct (b || negb (HasSuffix n ".json")) eqn:Eb.
  - assert ((jname, false) ∈ l) as Hin'.
    { apply elem_of_cons in Hin as [[= <- <-]|?]; [|done]. exfalso. simpl in Eb.
      unfold jname in Eb. by rewrite HasSuffix_app in Eb. }
    wp_step stage_remove_spec; [done|]. intros r s1 C1.
    assert (forall q, q ∈ [B; J; Mf] -> content (st_fs s1) q = content (st_fs s) q) as C1'.
    { intros q Hq. apply C1. intros m Hm. by apply not_stage. }
    eapply wp_mono; [apply IH; [done|done|rewrite C1' by in_list; exact HJ]|].
    intros r2 s2 Hrec Hr2. specialize (Hrec Hr2). unfold recovered, manifest_is in *.
    rewrite !C1' in Hrec by in_list. exact Hrec.
  - apply orb_false_iff in Eb as [-> Es%negb_false_iff]. rewrite (Hjson eq_refl Es) in *.
    apply wp_rbind. rewrite FileOpsDir_child by done.
    rewrite journal_path_eq in HJ by done.
    eapply wp_mono; [apply ReadFile_spec|]. intros r s1 [F1 Hr].
    destruct r as [raw|e]; [|by intros].
    assert (raw = journal_text (commit_journal command staged' phase)) as ->.
    { destruct Hr as [Hr|[? _]]; [|done].
      apply fs_read_content in HJ; [|done]. rewrite HJ in Hr. congruence. }
    rewrite journal_roundtrip.
    + apply wp_rbind. eapply wp_mono; [by apply recover_one_spec|]. intros r s2 Hrec.
      destruct r as [u|e]; [|by intros]. specialize (Hrec eq_refl). rewrite F1 in Hrec.
      eapply wp_mono; [apply recover_entries_other; [done|]|].
      { intros Hx. apply Hn'. apply list_elem_of_fmap. by exists (jname, false). }
      intros r2 s3 C3 _. unfold recovered in *. rewrite !C3 by in_list. exact Hrec.
    + rewrite !elem_of_cons in Hcmd. destruct Hcmd as [->|[->|?]]; [done|done|set_solver].
    + by destruct Hst as [->| ->].
    + rewrite !elem_of_cons in Hph. destruct Hph as [->|[->|[->|?]]]; [done..|set_solver].
Qed.

(** The directory of staging files and journal records is there, and the names in
    it are names. *)
Definition ops_listed (f : fs) : Prop :=
  f !! (id :: ".fileOps" :: c :: dataDir) = Some Directory /\
  forall n nd, f !! (n :: id :: ".fileOps" :: c :: dataDir) = Some nd -> plain n = true.

(** Recovery of a directory with at most one journal record. *)
Lemma RecoverFileOps_spec s :
  ops_listed (st_fs s) ->
  (forall n, HasSuffix n ".json" = true -> n <> jname ->
     content (st_fs s) (n :: id :: ".fileOps" :: c :: dataDir) = None) ->
  wp (RecoverFileOps dataDir c id) (fun r s' => is_ok r = true ->
    match content (st_fs s) J with
    | None => content (st_fs s') B = content (st_fs s) B /\
              content (st_fs s') Mf = content (st_fs s) Mf
    | Some text => forall command staged' phase,
        command ∈ ["create"; "update"] -> phase ∈ ["staged"; "blobCommitted"; "done"] ->
        staged' = path_string Sp \/ staged' = "" ->
        text = journal_text (commit_journal command staged' phase) ->
        recovered command phase (st_fs s) (st_fs s')
    end) s.
Proof.
  intros [Hdirectory Hnames] Hothers. unfold RecoverFileOps. rewrite FileOpsDir_eq by done.
  wp_step ReadDir_spec. intros r s1 [F1 Hr].
  destruct r as [l|e].
  2:{ destruct (is_not_exist e) eqn:Ee; apply wp_ret; [|by intros].
      destruct Hr as [Hr|[[= ->] _]]; [|done]. exfalso.
      unfold fs_read_dir, fs_lookup in Hr. rewrite Hdirectory in Hr. done. }
  destruct Hr as [Hr|[? _]]; [|done]. symmetry in Hr.
  apply fs_read_dir_spec in Hr as [Hnd Hlist].
  assert (listing_ok l) as Hl.
  { split; [done|]. intros n b Hin. apply Hlist in Hin as (nd & Hnd' & ->).
    split; [by eapply Hnames|]. intros Hb Hs. destruct nd as [d|]; [|done].
    destruct (decide (n = jname)) as [|Hne]; [done|]. exfalso.
    specialize (Hothers n Hs Hne). unfold content in Hothers. by rewrite Hnd' in Hothers. }
  rewrite <-F1. destruct (content (st_fs s1) J) as [text|] eqn:HJ.
  - unfold wp. destruct (recover_entries dataDir c id l s1) as [r2 s2] eqn:Er.
    intros Hok command staged' phase Hcmd Hph Hst ->.
    eapply (wp_elim _ (fun r s' => is_ok r = true -> recovered command phase (st_fs s1) (st_fs s')));
      [|exact Er|done].
    apply (recover_entries_journal l command staged' phase); try done.
    apply Hlist. rewrite journal_path_eq in HJ by done. apply content_Some in HJ.
    rewrite F1 in HJ. eauto.
  - eapply wp_mono; [apply recover_entries_other; [done|]|].
    + intros (nd & Hj & Hb)%Hlist. destruct nd as [d|]; [|done].
      rewrite journal_path_eq in HJ by done. unfold content in HJ. rewrite F1 in HJ.
      unfold jname in Hj. by rewrite Hj in HJ.
    + intros r2 s2 C2 _. rewrite !C2 by in_list. done.
Qed.
End recovery_faults.

(** *** The manifest as a map from names *)

Definition line_fits (e : FileEntry) : Prop :=
  (String.length (marshalFileEntryLine e) < max_token)%nat.

Record manifest_good (f : fs) (es : list FileEntry) : Prop := {
  mg_is : manifest_is f es;
  mg_ok : Forall entry_ok es;
  mg_fits : Forall line_fits es;
  mg_names : NoDup (map FName es);
}.

Lemma manifest_is_unique f es es' : manifest_is f es -> manifest_is f es' -> es = es'.
Proof. unfold manifest_is. destruct (content f Mf); congruence. Qed.

Lemma Forall_upsert (P : FileEntry -> Prop) es : Forall P es -> P entry -> Forall P (upsert es entry).
Proof.
  induction 1 as [|e es He Hes IH]; intros Hp; simpl; [by constructor|].
  destruct (FName e =? FName entry); constructor; auto.
Qed.

(** Writing the entry back makes the manifest the old one with the entry under
    its name. *)
Definition entry_added (es es' : list FileEntry) : Prop :=
  forall n, LookupFileEntry es' n = if FName entry =? n then Some entry else LookupFileEntry es n.

Lemma upsert_added es :
  NoDup (map FName es) -> entry_added es (merge_sort name_le (upsert es entry)).
Proof.
  intros Hnd n. assert (merge_sort name_le (upsert es entry) ≡ₚ upsert es entry) as Hp
    by apply merge_sort_Permutation.
  rewrite (lookup_perm _ (upsert es entry)); [apply lookup_upsert| |done].
  rewrite Hp. by apply upsert_NoDup.
Qed.

Lemma upserted_manifest f f' es :
  line_fits entry -> manifest_good f es -> content f' Mf = Some (upserted es entry) ->
  manifest_good f' (merge_sort name_le (upsert es entry)).
Proof.
  intros Hfit [Hm Hok Hfits Hnd] Hc'.
  assert (merge_sort name_le (upsert es entry) ≡ₚ upsert es entry) as Hp
    by apply merge_sort_Permutation.
  assert (Forall entry_ok (merge_sort name_le (upsert es entry))) as Hok'
    by (rewrite Hp; by apply Forall_upsert).
  assert (Forall line_fits (merge_sort name_le (upsert es entry))) as Hfits'
    by (rewrite Hp; by apply Forall_upsert).
  split; [|done|done|rewrite Hp; by apply upsert_NoDup].
  unfold manifest_is. rewrite Hc'. by apply manifest_roundtrip.
Qed.

Lemma upserted_good f f' es :
  line_fits entry -> manifest_good f es -> content f' Mf = Some (upserted es entry) ->
  exists es', manifest_good f' es' /\ entry_added es es'.
Proof.
  intros Hfit Hgood Hc'. eexists. split; [by eapply upserted_manifest|].
  apply upsert_added, (mg_names _ _ Hgood).
Qed.

Lemma entry_added_twice es es1 es2 :
  entry_added es es1 -> entry_added es1 es2 -> entry_added es es2.
Proof. intros H1' H2' n. rewrite H2', H1'. by destruct (_ =? n). Qed.

Lemma json_name_clean n : HasSuffix n ".json" = true -> temp_component n = false.
Proof.
  intros [s ->]%HasSuffix_spec. destruct s as [|x s]; [done|].
  destruct (Ascii.ascii_dec "." x) as [<-|Hne]; [apply prev_name_not_temp|].
  apply no_dot_not_temp. unfold HasPrefix. cbn [String.append String.prefix].
  by destruct (Ascii.ascii_dec "." x).
Qed.

(** The manifest after recovery, in each of the states a commit can leave. *)
Definition outcome_new (data : string) (f2 : fs) (es : list FileEntry) : Prop :=
  content f2 B = Some data /\ exists es', manifest_good f2 es' /\ entry_added es es'.

Lemma commit_state_recovered data es f f1 f2 ok :
  line_fits entry -> manifest_good f es -> content f J = None ->
  commit_state f f1 data ok ->
  match content f1 J with
  | None => content f2 B = content f1 B /\ content f2 Mf = content f1 Mf
  | Some text => forall command staged' phase,
      command ∈ ["create"; "update"] -> phase ∈ ["staged"; "blobCommitted"; "done"] ->
      staged' = path_string Sp \/ staged' = "" ->
      text = journal_text (commit_journal command staged' phase) ->
      recovered command phase f1 f2
  end ->
  (content f2 B = content f B /\ content f2 Mf = content f Mf) \/
  outcome_new data f2 es \/
  (content f2 B = Some data /\ content f2 Mf = content f Mf /\
   exists command, content f1 J = Some (journal_staged command)).
Proof.
  intros Hfit Hgood HJ0 Hstate Hrec.
  assert ("staged" ∈ ["staged"; "blobCommitted"; "done"]) as P1 by (by left).
  assert ("blobCommitted" ∈ ["staged"; "blobCommitted"; "done"]) as P2 by (right; by left).
  assert ("done" ∈ ["staged"; "blobCommitted"; "done"]) as P3 by (right; right; by left).
  destruct Hstate as [command SB SS SM SJ Hcmd|command SB SS SM SJ Hcmd
                     |command SB SS SM SJ Hcmd|command es1 ok SB SS Hes SM SJ Hcmd].
  - left. destruct SJ as [SJ|SJ].
    + rewrite SJ, HJ0 in Hrec. destruct Hrec as [-> ->]. done.
    + rewrite SJ in Hrec. destruct (Hrec command (path_string Sp) "staged") as [R1 R2]; auto.
      simpl in R2. by rewrite R1, R2.
  - right. right. rewrite SJ in Hrec.
    destruct (Hrec command (path_string Sp) "staged") as [R1 R2]; auto.
    simpl in R2. rewrite R1, R2. eauto.
  - right. left. rewrite SJ in Hrec.
    destruct (Hrec command "" "blobCommitted") as [R1 R2]; auto.
    simpl in R2. destruct R2 as (es1 & Hes1 & R2). rewrite <-R1 in SB. split; [done|].
    assert (manifest_is f es1) as Hes1' by (by eapply manifest_is_ext).
    rewrite (manifest_is_unique _ _ _ Hes1' (mg_is _ _ Hgood)) in R2.
    by eapply upserted_good.
  - right. left. rewrite (manifest_is_unique _ _ _ Hes (mg_is _ _ Hgood)) in SM.
    destruct (upserted_good f f1 es Hfit Hgood SM) as (es' & Hgood1 & Hadd1).
    assert ((content f2 B = content f1 B /\ content f2 Mf = content f1 Mf) \/
            (content f2 B = content f1 B /\ exists es2, manifest_is f1 es2 /\
               content f2 Mf = Some (upserted es2 entry))) as [[R1 R2]|(R1 & es2 & Hes2 & R2)].
    { destruct SJ as [SJ|[SJ|SJ]]; rewrite SJ in Hrec.
      - left. exact Hrec.
      - right. destruct (Hrec command "" "blobCommitted") as [R1 R2]; auto.
      - left. destruct (Hrec command "" "done") as [R1 R2]; auto. }
    + split; [by rewrite R1|]. exists es'. split; [|done].
      destruct Hgood1. split; try done. by eapply manifest_is_ext.
    + split; [by rewrite R1|].
      rewrite (manifest_is_unique _ _ _ Hes2 (mg_is _ _ Hgood1)) in R2.
      destruct (upserted_good f1 f2 es' Hfit Hgood1 R2) as (es3 & Hgood3 & Hadd3).
      exists es3. split; [done|]. by eapply entry_added_twice.
Qed.

(** C27: an upload is committed under any failures, or cut off by a crash at any
    point, and later recovery runs and reports success.  The upload is the only
    operation on the attachments of its document that is not finished: no journal
    of an earlier one is left behind (with one, recovery may bring back an older
    entry, see [Examples.stale_journal_recovered]).  The collection, document and
    operation identifiers and the file name are accepted names, the staged file is
    there, in the directory for it, and the manifest is one that the program writes, its lines within the
    scanner's limit.  Then the attachment and the manifest are both as before the
    commit, or the attachment has the new contents and the manifest has the new
    entry under its name and every other entry as it was; the one exception is a
    commit cut off after the blob was moved and before the journal said so, whose
    new blob is left under the old manifest. *)
Theorem upload_crash_recovery (E1 E2 : Env) data es s :
  line_fits entry -> manifest_good (st_fs s) es -> content (st_fs s) Sp = Some data ->
  (forall n, HasSuffix n ".json" = true ->
     content (st_fs s) (n :: id :: ".fileOps" :: c :: dataDir) = None) ->
  let s1 := snd (CommitStagedBinary (H:=E1) dataDir c id entry staged s) in
  ops_listed (st_fs s1) ->
  wp (RecoverFileOps (H:=E2) dataDir c id) (fun r s2 => is_ok r = true ->
    (content (st_fs s2) B = content (st_fs s) B /\
     content (st_fs s2) Mf = content (st_fs s) Mf) \/
    outcome_new data (st_fs s2) es \/
    (content (st_fs s2) B = Some data /\ content (st_fs s2) Mf = content (st_fs s) Mf /\
     exists command, content (st_fs s1) J = Some (journal_staged command))) s1.
Proof.
  intros Hfit Hgood Hdata Hnone s1 Hlisted.
  pose proof (CommitStagedBinary_states (E:=E1) data s Hdata) as Hcommit. unfold wp in Hcommit.
  destruct (CommitStagedBinary _ _ _ _ _ s) as [r0 s1'] eqn:Ecommit.
  assert (s1 = s1') as -> by done. destruct Hcommit as [Hstate Hframe].
  assert (content (st_fs s) J = None) as HJ0.
  { rewrite journal_path_eq by done. apply Hnone, HasSuffix_app. }
  eapply wp_mono; [apply (RecoverFileOps_spec (E:=E2)); [done|]|].
  - intros n Hs Hne. rewrite Hframe; [by apply Hnone|by apply json_name_clean|].
    rewrite BinaryPath_eq, journal_path_eq, FilesManifestPath_eq, !not_elem_of_cons by done.
    split_and!; [congruence| | | |apply not_elem_of_nil].
    + intros Heq. rewrite <-Heq in Hdata. by rewrite Hnone in Hdata.
    + intros [= Heq]. by apply Hne.
    + intros Heq. apply (f_equal length) in Heq. simpl in Heq. lia.
  - intros r s2 Hrec Hr. specialize (Hrec Hr). eapply commit_state_recovered; eauto.
Qed.
End commit.
