(* ===== verification/Docjson.v ===== *)
(** * Package docjson: the canonical field order of stored documents

    [internal/docjson/docjson.go].  The loops are modelled as written; reading an
    object's keys through its serialisation ([objectFieldKeys]) gives the fields
    of the object in order. *)

From S2P Require Import Prelude GoStrings Json.

Definition metaFieldOrder : list string := ["!"; "$"; "#"].

Definition is_meta (k : string) : bool := (k =? "!") || (k =? "$") || (k =? "#").

(** [reorderBySchema]: the fields named by the schema's children in their order,
    each reordered by its own entry, then the other fields as they come. *)
Fixpoint reorderBySchema (entry : schemaEntry) (value : json) : json :=
  match entry with
  | SE _ kind _ children items _ =>
      match kind, value with
      | KindObject, JObj source =>
          let '(out, seen) :=
            (fix ordered cs out seen :=
               match cs with
               | [] => (out, seen)
               | child :: cs' =>
                   match aget source (entry_name child) with
                   | None => ordered cs' out seen
                   | Some fieldValue =>
                       ordered cs' (aset out (entry_name child) (reorderBySchema child fieldValue))
                         (entry_name child :: seen)
                   end
               end) children [] [] in
          JObj (foldl (fun out kv =>
                         if bool_decide (fst kv ∈ seen) then out else aset out (fst kv) (snd kv))
                  out source)
      | KindArray, JArr l =>
          match items with
          | Some it => JArr (map (reorderBySchema it) l)
          | None => value
          end
      | _, _ => value
      end
  end.

(** The document of [Canonicalize] before printing: metadata, then content. *)
Definition split_meta (m : fields) : fields * fields :=
  foldl (fun acc kv =>
           let '(meta, content) := acc in
           if is_meta (fst kv) then (aset meta (fst kv) (snd kv), content)
           else (meta, aset content (fst kv) (snd kv))) ([], []) m.

Definition canonical_fields (root : schemaEntry) (m : fields) : fields :=
  let '(meta, content) := split_meta m in
  let ordered := reorderBySchema root (JObj content) in
  let out := foldl (fun out key => match aget meta key with
                                   | Some v => aset out key v
                                   | None => out
                                   end) [] metaFieldOrder in
  match ordered with
  | JObj oc => foldl (fun out kv => aset out (fst kv) (snd kv)) out oc
  | _ => out
  end.

Section canonicalize.
Context `{OJSON} `{GoJSON}.

Definition Canonicalize (schemaRaw : string) (doc : json) : result string :=
  match doc with
  | JObj m =>
      match CompileSchemaBytes schemaRaw with
      | Err _ => Err (errorf "docjson: compile schema")
      | Ok root => Ok (ensure_newline (ToPrettyJSONBytes (JObj (canonical_fields root m))))
      end
  | _ => Err (errorf "docjson: document must be an object")
  end.

Definition CanonicalizeBytes (schemaRaw raw : string) : result string :=
  match ReadBytesNoSchema raw with
  | Err _ => Err (errorf "docjson: parse document")
  | Ok doc => Canonicalize schemaRaw doc
  end.

Definition EncodeMap (doc : fields) : result string :=
  PrettyBytes (Marshal (map_order (JObj doc))).

Definition CanonicalizeMap (schemaRaw : string) (doc : fields) : result string :=
  CanonicalizeBytes schemaRaw (Marshal (map_order (JObj doc))).
End canonicalize.

(** ** The order that results, written down directly *)

(** What [reorderBySchema] should do to an object: select and append. *)
Definition ordered_part (children : list schemaEntry) (m : fields) : fields :=
  omap (fun c => v ← aget m (entry_name c); Some (entry_name c, reorderBySchema c v)) children.

Definition extra_part (children : list schemaEntry) (m : fields) : fields :=
  List.filter (fun kv => bool_decide (fst kv ∉ map entry_name children)) m.

Definition ordered_fields (children : list schemaEntry) (m : fields) : fields :=
  ordered_part children m ++ extra_part children m.

Lemma aset_fresh {V} (m : list (string * V)) k v : k ∉ akeys m -> aset m k v = m ++ [(k, v)].
Proof.
  induction m as [|[k' v'] m IH]; simpl; [done|].
  intros [Hne Hk]%not_elem_of_cons. rewrite (proj2 (String.eqb_neq k k')) by done.
  by rewrite IH.
Qed.

Lemma akeys_app (a b : fields) : akeys (a ++ b) = akeys a ++ akeys b.
Proof. apply map_app. Qed.

(** Appending fresh fields one by one is list concatenation. *)
Lemma foldl_aset_fresh (P : string * json -> bool) (l out : fields) :
  NoDup (akeys l) -> (forall kv, kv ∈ l -> P kv = false -> fst kv ∉ akeys out) ->
  foldl (fun out kv => if P kv then out else aset out (fst kv) (snd kv)) out l =
  out ++ List.filter (fun kv => negb (P kv)) l.
Proof.
  revert out. induction l as [|[k v] l IH]; intros out Hnd Hf; simpl.
  { by rewrite app_nil_r. }
  apply NoDup_cons in Hnd as [Hk Hnd]. destruct (P (k, v)) eqn:EP; simpl.
  - apply IH; [done|]. intros kv Hin. apply Hf. by right.
  - rewrite aset_fresh by (apply (Hf (k, v)); [by left|done]).
    rewrite IH; [by rewrite <-app_assoc|done|].
    intros kv Hin HP. rewrite akeys_app, elem_of_app. intros [Ho|Ho].
    + revert Ho. apply Hf; [by right|done].
    + simpl in Ho. apply list_elem_of_singleton in Ho. apply Hk. rewrite <-Ho.
      apply list_elem_of_fmap. exists kv. split; [done|]. done.
Qed.

Lemma elem_of_ordered_part cs m k :
  k ∈ akeys (ordered_part cs m) <-> k ∈ map entry_name cs /\ is_Some (aget m k).
Proof.
  induction cs as [|c cs IH]; simpl.
  { split; [set_solver|]. intros [Hk _]. set_solver. }
  unfold ordered_part in *. cbn [omap list_omap].
  destruct (aget m (entry_name c)) as [v|] eqn:Ev; simpl.
  - rewrite elem_of_cons. rewrite elem_of_cons. unfold akeys in IH. rewrite IH. split.
    + intros [->|[? ?]]; [split; [by left|by rewrite Ev]|split; [by right|done]].
    + intros [[->|?] ?]; [by left|by right].
  - unfold akeys in IH. unfold akeys. rewrite IH, elem_of_cons. split.
    + intros [? ?]. split; [by right|done].
    + intros [[->|?] Hs]; [|done]. rewrite Ev in Hs. by destruct Hs.
Qed.

Lemma reorder_object n f cs items c m :
  NoDup (map entry_name cs) -> NoDup (akeys m) ->
  reorderBySchema (SE n KindObject f cs items c) (JObj m) = JObj (ordered_fields cs m).
Proof.
  intros Hcs Hm. cbn [reorderBySchema].
  set (loop := fix ordered cs out seen := match cs with [] => _ | _ :: _ => _ end).
  assert (forall l out seen, NoDup (map entry_name l) ->
            (forall x, x ∈ map entry_name l -> x ∉ akeys out) ->
            exists seen', loop l out seen = (out ++ ordered_part l m, seen') /\
              forall x, x ∈ seen' <-> x ∈ seen \/ x ∈ akeys (ordered_part l m)) as Hloop.
  { induction l as [|ch l IH]; intros out seen Hnd Hout.
    - exists seen. simpl. rewrite app_nil_r. split; [done|]. intros x. set_solver.
    - simpl in Hnd. apply NoDup_cons in Hnd as [Hch Hnd]. cbn [loop].
      unfold ordered_part. cbn [omap list_omap].
      destruct (aget m (entry_name ch)) as [v|] eqn:Ev; simpl.
      + rewrite aset_fresh by (apply Hout; by left).
        destruct (IH (out ++ [(entry_name ch, reorderBySchema ch v)])
                    (entry_name ch :: seen) Hnd) as (seen' & Hs & Hx).
        { intros x Hx. rewrite akeys_app, elem_of_app. intros [Ho|Ho].
          - revert Ho. apply Hout. by right.
          - apply list_elem_of_singleton in Ho. simpl in Ho. congruence. }
        exists seen'. rewrite Hs, <-app_assoc. split; [done|].
        intros x. rewrite Hx. unfold akeys. simpl. rewrite !elem_of_cons.
        unfold ordered_part. tauto.
      + destruct (IH out seen Hnd) as (seen' & Hs & Hx).
        { intros x Hx. apply Hout. by right. }
        exists seen'. by rewrite Hs. }
  destruct (Hloop cs [] [] Hcs) as (seen & -> & Hseen); [set_solver|].
  simpl. f_equal.
  rewrite (foldl_aset_fresh (fun kv => bool_decide (fst kv ∈ seen))); [|done|].
  - unfold ordered_fields, extra_part. f_equal.
    apply filter_ext_in. intros [k v] Hin. simpl.
    rewrite <-bool_decide_not. apply bool_decide_ext.
    rewrite Hseen, elem_of_ordered_part.
    assert (aget m k = Some v) as Hg.
    { apply aget_in_NoDup; [done|]. by apply list_elem_of_In. }
    rewrite Hg. split; [|set_solver]. intros Hn Hk. apply Hn. right. eauto.
  - intros [k v] Hin HP. simpl in *. apply bool_decide_eq_false in HP.
    intros Hk. apply HP, Hseen. by right.
Qed.

(** ** Same value, other field order *)

(** [v ≈ w]: the two values differ only in the order of object fields. *)
Inductive jeqv : json -> json -> Prop :=
| jeqv_null : jeqv JNull JNull
| jeqv_bool b : jeqv (JBool b) (JBool b)
| jeqv_num l : jeqv (JNum l) (JNum l)
| jeqv_str s : jeqv (JStr s) (JStr s)
| jeqv_arr l l' : Forall2 jeqv l l' -> jeqv (JArr l) (JArr l')
| jeqv_obj m m' :
    akeys m ≡ₚ akeys m' ->
    (forall k v v', aget m k = Some v -> aget m' k = Some v' -> jeqv v v') ->
    jeqv (JObj m) (JObj m').

Lemma jeqv_refl v : jeqv v v.
Proof.
  induction v as [| | | |l IH|m IH] using json_nested_ind; constructor; try done.
  - induction IH; constructor; auto.
  - intros k v v' H1 H2. simplify_eq. apply aget_Some_in in H1.
    rewrite Forall_forall in IH. by apply (IH (k, v)).
Qed.

(** Equal keys on both sides. *)
Lemma akeys_perm_get (m m' : fields) k v :
  akeys m ≡ₚ akeys m' -> aget m k = Some v -> exists v', aget m' k = Some v'.
Proof.
  intros Hp Hk. assert (k ∈ akeys m') as Hin.
  { rewrite <-Hp. apply aget_Some_in in Hk. by apply (list_elem_of_fmap_2 fst) in Hk. }
  destruct (aget m' k) as [v'|] eqn:E; [by eexists|]. by apply aget_None_notin in E.
Qed.

Lemma jeqv_trans v1 v2 v3 : jeqv v1 v2 -> jeqv v2 v3 -> jeqv v1 v3.
Proof.
  revert v2 v3. induction v1 as [| | | |l IH|m IH] using json_nested_ind; intros v2 v3 H1 H2;
    inversion H1; subst; inversion H2; subst; try constructor.
  - rename l' into l2, l'0 into l3. clear H1 H2. revert l2 l3 H0 H3.
    induction IH as [|x l Hx Hl IHl]; intros l2 l3 F1 F2; inversion F1; subst; inversion F2; subst;
      constructor; eauto.
  - by transitivity (akeys m').
  - intros k v v'' Hk Hk''. destruct (akeys_perm_get m m' k v) as [v' Hk']; [done|done|].
    rewrite Forall_forall in IH. apply (IH (k, v)) with v'; eauto. by apply aget_Some_in.
Qed.

Lemma filter_akeys (P : string -> bool) (m : fields) :
  akeys (List.filter (fun kv => P (fst kv)) m) = List.filter P (akeys m).
Proof.
  induction m as [|[k v] m IH]; simpl; [done|]. destruct (P k); simpl; by rewrite IH.
Qed.

Lemma akeys_ordered_part cs m :
  akeys (ordered_part cs m) = List.filter (fun n => ahas m n) (map entry_name cs).
Proof.
  induction cs as [|c cs IH]; [done|].
  unfold ordered_part, ahas in *. cbn [omap list_omap map List.filter].
  destruct (aget m (entry_name c)); [|exact IH].
  cbn [mbind option_bind akeys map fst]. f_equal. exact IH.
Qed.

Lemma akeys_extra_part cs m :
  akeys (extra_part cs m) =
  List.filter (fun n => bool_decide (n ∉ map entry_name cs)) (akeys m).
Proof.
  pose proof (filter_akeys (fun n => bool_decide (n ∉ map entry_name cs)) m) as Hf.
  exact Hf.
Qed.

Lemma ahas_elem (m : fields) k : ahas m k = true <-> k ∈ akeys m.
Proof.
  unfold ahas. pose proof (aget_None_notin m k) as H. destruct (aget m k) eqn:E.
  - split; [intros _|done]. destruct (decide (k ∈ akeys m)); [done|].
    by apply H in n.
  - split; [done|]. intros Hk. by apply H in Hk.
Qed.

Lemma NoDup_ordered_fields cs m :
  NoDup (map entry_name cs) -> NoDup (akeys m) -> NoDup (akeys (ordered_fields cs m)).
Proof.
  intros Hcs Hm. unfold ordered_fields.
  rewrite akeys_app, akeys_ordered_part, akeys_extra_part.
  apply NoDup_app. split_and!; [by apply NoDup_lfilter| |by apply NoDup_lfilter].
  intros k [Hk _]%elem_of_lfilter [_ He]%elem_of_lfilter. apply bool_decide_eq_true in He.
  by apply He.
Qed.

Lemma Permutation_ordered_fields cs m :
  NoDup (map entry_name cs) -> NoDup (akeys m) -> akeys m ≡ₚ akeys (ordered_fields cs m).
Proof.
  intros Hcs Hm. apply NoDup_Permutation; [done|by apply NoDup_ordered_fields|].
  intros k. unfold ordered_fields.
  rewrite akeys_app, akeys_ordered_part, akeys_extra_part, elem_of_app.
  rewrite !elem_of_lfilter. rewrite ahas_elem, bool_decide_eq_true.
  destruct (decide (k ∈ map entry_name cs)); tauto.
Qed.

Lemma aget_app (a b : fields) k :
  aget (a ++ b) k = match aget a k with Some v => Some v | None => aget b k end.
Proof. induction a as [|[k' v'] a IH]; simpl; [done|]. by destruct (k =? k'). Qed.

Lemma aget_filter (P : string -> bool) (m : fields) k :
  aget (List.filter (fun kv => P (fst kv)) m) k = if P k then aget m k else None.
Proof.
  induction m as [|[k' v'] m IH]; simpl; [by destruct (P k)|].
  destruct (k =? k') eqn:E; boolprop; subst.
  - destruct (P k') eqn:EP; simpl; [by rewrite String.eqb_refl|]. rewrite IH. done.
  - destruct (P k'); simpl; [rewrite (proj2 (String.eqb_neq k k')) by done|]; done.
Qed.

Lemma aget_extra_part cs m k :
  aget (extra_part cs m) k =
  if bool_decide (k ∉ map entry_name cs) then aget m k else None.
Proof.
  pose proof (aget_filter (fun n => bool_decide (n ∉ map entry_name cs)) m k) as Hf.
  exact Hf.
Qed.

(** A field of the reordered object: the field of the source, reordered by the
    child of its name when there is one. *)
Lemma aget_ordered_fields cs m k v' :
  NoDup (map entry_name cs) ->
  aget (ordered_fields cs m) k = Some v' ->
  exists v, aget m k = Some v /\
    (v' = v \/ exists c, c ∈ cs /\ entry_name c = k /\ v' = reorderBySchema c v).
Proof.
  intros Hcs. unfold ordered_fields. rewrite aget_app.
  destruct (aget (ordered_part cs m) k) as [w|] eqn:Eo.
  - intros [= <-]. apply aget_Some_in in Eo. unfold ordered_part in Eo.
    apply list_elem_of_omap in Eo as (c & Hc & Hw).
    destruct (aget m (entry_name c)) as [v|] eqn:Ev; simpl in Hw; [|done].
    simplify_eq. exists v. split; [done|]. right. eauto.
  - rewrite aget_extra_part. case_bool_decide; [|done]. intros Hm. exists v'. eauto.
Qed.

Section reorder.
Context `{OJSON}.

Lemma well_formed_obj m :
  well_formed (JObj m) = true <->
  NoDup (akeys m) /\ Forall (fun kv => ValidString (fst kv) = true /\ well_formed (snd kv) = true) m.
Proof.
  simpl. unfold nodup_keys. rewrite andb_true_iff, bool_decide_eq_true, forallb_forall.
  rewrite Forall_forall. split; intros [H1 H2]; (split; [done|]); intros x Hx.
  - apply list_elem_of_In, H2, andb_true_iff in Hx. done.
  - apply list_elem_of_In, H2 in Hx as [? ?]. by apply andb_true_iff.
Qed.

(** The invariant of one reordering: the result is a legal value, the same value
    up to field order, and a second reordering changes nothing. *)
Definition reorder_good (e : schemaEntry) (v : json) : Prop :=
  well_formed (reorderBySchema e v) = true /\ jeqv v (reorderBySchema e v) /\
  reorderBySchema e (reorderBySchema e v) = reorderBySchema e v.

Lemma ordered_fields_well_formed cs m :
  NoDup (map entry_name cs) -> well_formed (JObj m) = true ->
  (forall c v, c ∈ cs -> well_formed v = true -> well_formed (reorderBySchema c v) = true) ->
  well_formed (JObj (ordered_fields cs m)) = true.
Proof.
  intros Hcs [Hm Hall]%well_formed_obj Hc. apply well_formed_obj.
  pose proof (NoDup_ordered_fields cs m Hcs Hm) as Hnd. split; [done|].
  rewrite Forall_forall in *. intros [k v'] Hin. simpl.
  apply (aget_in_NoDup _ _ _ Hnd) in Hin.
  destruct (aget_ordered_fields _ _ _ _ Hcs Hin) as (v & Hv & Hv').
  apply aget_Some_in, Hall in Hv as [? ?]. simpl in *. split; [done|].
  destruct Hv' as [->|(c & Hcin & _ & ->)]; auto.
Qed.

Lemma ordered_part_twice cs0 cs m :
  cs ⊆ cs0 -> NoDup (map entry_name cs0) ->
  (forall c v, c ∈ cs -> aget m (entry_name c) = Some v ->
     reorderBySchema c (reorderBySchema c v) = reorderBySchema c v) ->
  ordered_part cs (ordered_fields cs0 m) = ordered_part cs m.
Proof.
  intros Hsub Hnd Hi. induction cs as [|c cs IH]; [done|].
  unfold ordered_part in *. cbn [omap list_omap].
  assert (aget (ordered_fields cs0 m) (entry_name c) =
          reorderBySchema c <$> aget m (entry_name c)) as ->.
  { unfold ordered_fields. rewrite aget_app.
    assert (c ∈ cs0) as Hc by (apply Hsub; by left).
    assert (entry_name c ∈ map entry_name cs0) as Hn by (apply list_elem_of_fmap; eauto).
    destruct (aget m (entry_name c)) as [v|] eqn:Ev; simpl.
    - enough (aget (ordered_part cs0 m) (entry_name c) = Some (reorderBySchema c v)) as -> by done.
      apply aget_in_NoDup.
      + rewrite akeys_ordered_part. by apply NoDup_lfilter.
      + apply list_elem_of_omap. exists c. by rewrite Ev.
    - destruct (aget (ordered_part cs0 m) (entry_name c)) as [w|] eqn:Ew.
      + apply aget_Some_in, list_elem_of_omap in Ew as (c' & Hc' & Hw).
        destruct (aget m (entry_name c')) eqn:E'; simpl in Hw; [|done]. simplify_eq. congruence.
      + rewrite aget_extra_part. by rewrite bool_decide_eq_false_2 by (intros Hx; by apply Hx). }
  destruct (aget m (entry_name c)) as [v|] eqn:Ev; simpl.
  - rewrite (Hi c v) by (auto; by left). f_equal. apply IH; [set_solver|].
    intros c' v' Hc'. apply Hi. by right.
  - apply IH; [set_solver|]. intros c' v' Hc'. apply Hi. by right.
Qed.

Lemma extra_part_twice cs m :
  extra_part cs (ordered_fields cs m) = extra_part cs m.
Proof.
  unfold ordered_fields, extra_part. rewrite List.filter_app.
  assert (List.filter (fun kv : string * json => bool_decide (fst kv ∉ map entry_name cs))
            (ordered_part cs m) = []) as ->.
  { assert (Forall (fun kv : string * json => fst kv ∈ map entry_name cs) (ordered_part cs m)) as Hf.
    { apply Forall_forall. intros [k v] Hin. apply list_elem_of_omap in Hin as (c & Hc & Hw).
      destruct (aget m (entry_name c)); simpl in Hw; [|done]. simplify_eq. simpl.
      apply list_elem_of_fmap. eauto. }
    induction Hf as [|kv l Hk Hl IH]; simpl; [done|].
    by rewrite bool_decide_eq_false_2 by (intros Hx; by apply Hx). }
  simpl. induction m as [|kv m IH]; simpl; [done|].
  destruct (bool_decide _) eqn:E; simpl; [rewrite E; f_equal|]; done.
Qed.

Lemma reorderBySchema_good e v :
  schema_ok e = true -> well_formed v = true -> reorder_good e v.
Proof.
  revert v. induction e as [n k f cs items c IHcs IHit] using schema_nested_ind.
  intros v Hok Hv. simpl in Hok. apply andb_true_iff in Hok as [Hok Hit].
  apply andb_true_iff in Hok as [Hnd Hcs]. apply bool_decide_eq_true in Hnd.
  rewrite forallb_forall in Hcs. rewrite Forall_forall in IHcs.
  assert (forall ch w, ch ∈ cs -> well_formed w = true -> reorder_good ch w) as Hch.
  { intros ch w Hin. apply IHcs; [done|]. by apply Hcs, list_elem_of_In. }
  assert (reorder_good (SE n k f cs items c) v \/
          (k = KindObject /\ exists m, v = JObj m) \/
          (k = KindArray /\ exists l it, v = JArr l /\ items = Some it)) as [H0|[[-> [m ->]]|[-> (l & it & -> & ->)]]].
  { destruct k, v, items;
      try (left; split_and!; [exact Hv|apply jeqv_refl|done]); eauto 10. }
  - done.
  - destruct (proj1 (well_formed_obj m) Hv) as [Hm Hall]. unfold reorder_good.
    rewrite reorder_object by done. split_and!.
    + apply ordered_fields_well_formed; [done|done|]. intros ch w Hin Hw. by apply Hch.
    + constructor; [by apply Permutation_ordered_fields|].
      intros key w w' Hw Hw'. destruct (aget_ordered_fields _ _ _ _ Hnd Hw') as (w0 & Hw0 & Hr).
      simplify_eq. destruct Hr as [->|(ch & Hin & _ & ->)]; [apply jeqv_refl|].
      apply Hch; [done|]. apply aget_Some_in in Hw. rewrite Forall_forall in Hall.
      by apply Hall in Hw as [_ ?].
    + rewrite reorder_object by (auto using NoDup_ordered_fields). f_equal.
      unfold ordered_fields at 1. rewrite extra_part_twice, ordered_part_twice; [done|done|done|].
      intros ch w Hin Hw. apply Hch; [done|]. apply aget_Some_in in Hw.
      rewrite Forall_forall in Hall. by apply Hall in Hw as [_ ?].
  - simpl in Hv. rewrite forallb_forall in Hv.
    assert (forall w, w ∈ l -> reorder_good it w) as Hl.
    { intros w Hw. apply IHit; [done|done|]. by apply Hv, list_elem_of_In. }
    unfold reorder_good. cbn [reorderBySchema well_formed]. split_and!.
    + apply forallb_forall. intros w (w0 & <- & Hw0)%in_map_iff.
      apply Hl. by apply list_elem_of_In.
    + constructor. clear -Hl. induction l as [|w l IH]; simpl; constructor.
      * apply Hl. by left.
      * apply IH. intros x Hx. apply Hl. by right.
    + f_equal. rewrite map_map. apply map_ext_in. intros w Hw.
      apply Hl. by apply list_elem_of_In.
Qed.
End reorder.

(** ** The canonical document *)

Definition meta_part (m : fields) : fields :=
  omap (fun k => v ← aget m k; Some (k, v)) metaFieldOrder.

Definition content_part (m : fields) : fields :=
  List.filter (fun kv => negb (is_meta (fst kv))) m.

Lemma split_meta_eq m :
  NoDup (akeys m) ->
  split_meta m = (List.filter (fun kv => is_meta (fst kv)) m, content_part m).
Proof.
  unfold split_meta, content_part. intros Hnd.
  assert (forall (l a b : fields), NoDup (akeys l) ->
    (forall k, k ∈ akeys l -> k ∉ akeys a /\ k ∉ akeys b) ->
    foldl (fun (acc : fields * fields) kv => let '(meta, content) := acc in
             if is_meta (fst kv) then (aset meta (fst kv) (snd kv), content)
             else (meta, aset content (fst kv) (snd kv))) (a, b) l =
    (a ++ List.filter (fun kv => is_meta (fst kv)) l,
     b ++ List.filter (fun kv => negb (is_meta (fst kv))) l)) as Hg.
  { induction l as [|[k v] l IH]; intros a b Hl Hf; simpl; [by rewrite !app_nil_r|].
    apply NoDup_cons in Hl as [Hk Hl]. destruct (Hf k ltac:(by left)) as [Ha Hb].
    assert (forall k', k' ∈ akeys l -> k' <> k /\ k' ∉ akeys a /\ k' ∉ akeys b) as Hne.
    { intros k' Hk'. split; [by intros ->|]. apply Hf. by right. }
    destruct (is_meta k); simpl; rewrite aset_fresh by done;
      (rewrite IH; [by rewrite <-app_assoc|done|]); intros k' (? & ? & ?)%Hne;
      rewrite akeys_app; simpl; set_solver. }
  rewrite Hg; [done|done|]. intros k _. split; set_solver.
Qed.

Lemma meta_fold_eq m :
  foldl (fun out key => match aget (List.filter (fun kv => is_meta (fst kv)) m) key with
                        | Some v => aset out key v
                        | None => out
                        end) [] metaFieldOrder = meta_part m.
Proof.
  unfold meta_part, metaFieldOrder. cbn [foldl omap list_omap].
  rewrite !(aget_filter is_meta m). simpl.
  destruct (aget m "!"), (aget m "$"), (aget m "#"); done.
Qed.

Lemma meta_part_keys m k : k ∈ akeys (meta_part m) -> is_meta k = true.
Proof.
  unfold meta_part, metaFieldOrder. simpl.
  destruct (aget m "!"), (aget m "$"), (aget m "#"); simpl;
    rewrite ?elem_of_cons; intros Hk; destruct_or? Hk; subst; try done; set_solver.
Qed.

Lemma NoDup_meta_part m : NoDup (akeys (meta_part m)).
Proof.
  unfold meta_part, metaFieldOrder. simpl.
  destruct (aget m "!"), (aget m "$"), (aget m "#"); simpl; apply (bool_decide_unpack _); done.
Qed.

Lemma aget_meta_part m k : is_meta k = true -> aget (meta_part m) k = aget m k.
Proof.
  unfold is_meta. rewrite !orb_true_iff, !String.eqb_eq. intros Hk.
  assert (k = "!" \/ k = "$" \/ k = "#") as Hk' by tauto. clear Hk.
  unfold meta_part, metaFieldOrder. simpl.
  destruct (aget m "!") eqn:E1, (aget m "$") eqn:E2, (aget m "#") eqn:E3;
    destruct Hk' as [->|[->| ->]]; by simpl.
Qed.

Lemma meta_part_of_parts m oc :
  (forall k, k ∈ akeys oc -> is_meta k = false) ->
  meta_part (meta_part m ++ oc) = meta_part m.
Proof.
  intros Hoc.
  assert (forall k, is_meta k = true -> aget (meta_part m ++ oc) k = aget m k) as Hg.
  { intros k Hk. rewrite aget_app, aget_meta_part by done.
    destruct (aget m k); [done|]. apply aget_None_notin. intros Hin.
    apply Hoc in Hin. congruence. }
  unfold meta_part at 1 3, metaFieldOrder. cbn [omap list_omap].
  by rewrite !Hg.
Qed.

Lemma content_part_keys m k : k ∈ akeys (content_part m) -> is_meta k = false.
Proof.
  unfold content_part. rewrite (filter_akeys (fun k => negb (is_meta k))).
  intros [_ Hk]%elem_of_lfilter. by apply negb_true_iff in Hk.
Qed.

Lemma content_part_of_parts m oc :
  (forall k, k ∈ akeys oc -> is_meta k = false) ->
  content_part (meta_part m ++ oc) = oc.
Proof.
  intros Hoc. unfold content_part. rewrite List.filter_app.
  assert (forall l : fields, (forall k, k ∈ akeys l -> is_meta k = true) ->
            List.filter (fun kv => negb (is_meta (fst kv))) l = []) as Hm.
  { induction l as [|[k v] l IH]; simpl; [done|]. intros Hl.
    rewrite (Hl k) by (by left). simpl. apply IH. intros k' Hk'. apply Hl. by right. }
  rewrite Hm by apply meta_part_keys. simpl.
  induction oc as [|[k v] oc IH]; simpl; [done|].
  rewrite (Hoc k) by (by left). simpl. f_equal. apply IH.
  intros k' Hk'. apply Hoc. by right.
Qed.

Section canonical.
Context `{OJSON}.

Lemma content_part_well_formed m :
  well_formed (JObj m) = true -> well_formed (JObj (content_part m)) = true.
Proof.
  intros [Hm Hall]%well_formed_obj. apply well_formed_obj. split.
  - unfold content_part. rewrite (filter_akeys (fun k => negb (is_meta k))).
    by apply NoDup_lfilter.
  - rewrite Forall_forall in *. intros x Hx. apply Hall.
    by apply elem_of_lfilter in Hx as [Hx _].
Qed.

(** The content after reordering: an object with the same keys. *)
Lemma reorder_content e m :
  schema_ok e = true -> well_formed (JObj m) = true ->
  exists oc, reorderBySchema e (JObj m) = JObj oc /\ akeys m ≡ₚ akeys oc /\
    well_formed (JObj oc) = true /\ reorderBySchema e (JObj oc) = JObj oc /\
    (forall k v v', aget m k = Some v -> aget oc k = Some v' -> jeqv v v').
Proof.
  intros He Hm. destruct (reorderBySchema_good e (JObj m) He Hm) as (Hw & Hq & Hi).
  inversion Hq as [| | | | |m0 oc Hp Hv Heq1 Heq2]; subst.
  exists oc. rewrite <-Heq2 in *. done.
Qed.

Lemma canonical_fields_eq root m :
  schema_ok root = true -> well_formed (JObj m) = true ->
  exists oc, reorderBySchema root (JObj (content_part m)) = JObj oc /\
    canonical_fields root m = meta_part m ++ oc.
Proof.
  intros Hr Hm. destruct (proj1 (well_formed_obj m) Hm) as [Hnd _].
  pose proof (content_part_well_formed m Hm) as Hc.
  destruct (reorder_content root _ Hr Hc) as (oc & Ho & Hp & Hwo & _).
  exists oc. split; [done|]. unfold canonical_fields.
  rewrite split_meta_eq by done. rewrite Ho, meta_fold_eq.
  rewrite (foldl_aset_fresh (fun _ => false)).
  - f_equal. clear. induction oc as [|kv oc IH]; [done|]. cbn [List.filter negb].
    f_equal. exact IH.
  - by apply well_formed_obj in Hwo as [? _].
  - intros [k v] Hin _ Hk%meta_part_keys. simpl in Hk.
    assert (k ∈ akeys (content_part m)) as Hck.
    { rewrite Hp. apply list_elem_of_fmap. by exists (k, v). }
    apply content_part_keys in Hck. congruence.
Qed.

Record canonical_good (root : schemaEntry) (m c : fields) : Prop := {
  cg_wf : well_formed (JObj c) = true;
  cg_eqv : jeqv (JObj m) (JObj c);
  cg_meta : forall k, is_meta k = true -> aget c k = aget m k;
  cg_twice : canonical_fields root c = c;
}.

Lemma canonical_fields_good root m :
  schema_ok root = true -> well_formed (JObj m) = true ->
  canonical_good root m (canonical_fields root m).
Proof.
  intros Hr Hm. destruct (proj1 (well_formed_obj m) Hm) as [Hnd Hall].
  pose proof (content_part_well_formed m Hm) as Hc.
  destruct (canonical_fields_eq root m Hr Hm) as (oc & Ho & ->).
  destruct (reorder_content root _ Hr Hc) as (oc' & Ho' & Hp & Hwo & Htw & Hv).
  rewrite Ho in Ho'. injection Ho' as <-.
  assert (forall k, k ∈ akeys oc -> is_meta k = false) as Hnm.
  { intros k Hk. rewrite <-Hp in Hk. by eapply content_part_keys. }
  destruct (proj1 (well_formed_obj oc) Hwo) as [Hndo Hallo].
  assert (forall k, is_meta k = true -> aget (meta_part m ++ oc) k = aget m k) as Hmeta.
  { intros k Hk. rewrite aget_app, aget_meta_part by done.
    destruct (aget m k); [done|]. apply aget_None_notin. intros Hin.
    apply Hnm in Hin. congruence. }
  assert (well_formed (JObj (meta_part m ++ oc)) = true) as Hwf.
  { apply well_formed_obj. split.
    - rewrite akeys_app. apply NoDup_app. split_and!; [apply NoDup_meta_part| |done].
      intros k Hk%meta_part_keys Hk2%Hnm. congruence.
    - apply Forall_app. split; [|done]. rewrite Forall_forall in *. intros [k v] Hin.
      apply Hall, aget_Some_in. rewrite <-aget_meta_part.
      + apply aget_in_NoDup; [apply NoDup_meta_part|done].
      + apply (meta_part_keys m). apply list_elem_of_fmap. by exists (k, v). }
  split; [done| |done|].
  - constructor.
    + apply NoDup_Permutation; [done|by apply well_formed_obj in Hwf as [? _]|].
      intros k. rewrite akeys_app, elem_of_app, <-Hp.
      unfold content_part. rewrite (filter_akeys (fun k => negb (is_meta k))).
      rewrite elem_of_lfilter.
      destruct (is_meta k) eqn:Ek; simpl.
      * rewrite <-!ahas_elem. unfold ahas. rewrite aget_meta_part by done.
        destruct (aget m k); naive_solver.
      * split; [naive_solver|]. intros [Hk|[? _]]; [|done].
        apply meta_part_keys in Hk. congruence.
    + intros k v v' Hk Hk'. destruct (is_meta k) eqn:Ek.
      * rewrite Hmeta in Hk' by done. simplify_eq. apply jeqv_refl.
      * rewrite aget_app in Hk'.
        destruct (aget (meta_part m) k) eqn:Em.
        { apply aget_Some_in in Em.
          rewrite (meta_part_keys m k) in Ek; [done|].
          apply list_elem_of_fmap. by eexists (k, _). }
        apply (Hv k); [|done]. unfold content_part.
        rewrite (aget_filter (fun k => negb (is_meta k))). by rewrite Ek.
  - destruct (canonical_fields_eq root _ Hr Hwf) as (oc2 & Ho2 & ->).
    rewrite content_part_of_parts in Ho2 by done. rewrite Htw in Ho2. injection Ho2 as <-.
    by rewrite meta_part_of_parts.
Qed.

(** The field order of a document under an object schema. *)
Lemma canonical_keys n f cs items c m :
  schema_ok (SE n KindObject f cs items c) = true -> well_formed (JObj m) = true ->
  akeys (canonical_fields (SE n KindObject f cs items c) m) =
  List.filter (fun k => ahas m k) metaFieldOrder ++
  List.filter (fun k => ahas (content_part m) k) (map entry_name cs) ++
  List.filter (fun k => bool_decide (k ∉ map entry_name cs)) (akeys (content_part m)).
Proof.
  intros Hr Hm. destruct (canonical_fields_eq _ m Hr Hm) as (oc & Ho & ->).
  pose proof (content_part_well_formed m Hm) as [Hnd _]%well_formed_obj.
  simpl in Hr. apply andb_true_iff in Hr as [Hr _]. apply andb_true_iff in Hr as [Hr _].
  apply bool_decide_eq_true in Hr.
  rewrite reorder_object in Ho by done. injection Ho as <-.
  unfold ordered_fields. rewrite !akeys_app, akeys_ordered_part, akeys_extra_part. f_equal.
  unfold meta_part, metaFieldOrder, ahas. simpl.
  by destruct (aget m "!"), (aget m "$"), (aget m "#").
Qed.
End canonical.

(** ** Properties *)

Section properties.
Context `{OJSON} `{!OJSONLaws}.

(** C33: putting a stored document into canonical form keeps its value up to the
    order of fields, gives a text that reads back as the reordered value, and
    does nothing the second time; under an object schema the fields come as the
    metadata in its fixed order, then the fields of the schema in schema order,
    then the others in the order they had. *)
Theorem Canonicalize_canonical schemaRaw m out :
  well_formed (JObj m) = true -> Canonicalize schemaRaw (JObj m) = Ok out ->
  exists root c, CompileSchemaBytes schemaRaw = Ok root /\
    ReadBytesNoSchema out = Ok (JObj c) /\ jeqv (JObj m) (JObj c) /\
    (forall k, is_meta k = true -> aget c k = aget m k) /\
    Canonicalize schemaRaw (JObj c) = Ok out /\
    (entry_kind root = KindObject ->
     akeys c =
       List.filter (fun k => ahas m k) metaFieldOrder ++
       List.filter (fun k => ahas (content_part m) k) (map entry_name (entry_children root)) ++
       List.filter (fun k => bool_decide (k ∉ map entry_name (entry_children root)))
         (akeys (content_part m))).
Proof.
  intros Hw Hc. unfold Canonicalize in *.
  destruct (CompileSchemaBytes schemaRaw) as [root|] eqn:Er; [|done].
  pose proof (compile_ok _ _ Er) as Hroot.
  pose proof (canonical_fields_good root m Hroot Hw) as Hg.
  exists root, (canonical_fields root m). injection Hc as <-.
  split_and!; [done| |apply Hg|apply Hg| |].
  - apply read_pretty_newline, Hg.
  - simpl. by rewrite (cg_twice _ _ _ Hg).
  - destruct root as [n k f cs items cu]. simpl. intros ->. by apply canonical_keys.
Qed.
End properties.
