(* ===== verification/Replication.v ===== *)
(** * Package replication, documents: work items, delivery, catch-up

    [pendingwrites.go], [apply.go], [push.go], [readmember.go] and [catchup.go]
    of [internal/replication], with the three work-item handlers of
    [internal/server/http.go] that the catch-up agent calls. *)

From S2P Require Import Prelude GoStrings World Shard Json Config Store.

(** ** Work items *)

Record DocumentWorkItem := mkItem {
  Collection : string;
  ID : string;
  BeforeVersion : string;
  AfterVersion : string;
  OperationID : string;
  Command : string;
  Patch : list json;
  Payload : string;        (* raw JSON text, empty when absent *)
}.

Definition PendingWritesDir (dataDir : path) (collection : string) : path :=
  join (CollectionDir dataDir collection) [".pendingWrites"].

Definition PendingWritePath (dataDir : path) (collection targetServer docID : string) : path :=
  join (PendingWritesDir dataDir collection) [targetServer +:+ "." +:+ docID +:+ ".json"].

Definition WorkItemID (serverName docID : string) : string := serverName +:+ "-" +:+ docID.

Definition DocIDFromWorkItemID (itemID serverName : string) : option string :=
  let prefix := serverName +:+ "-" in
  if negb (HasPrefix itemID prefix) then None
  else Some (str_drop (String.length prefix) itemID).

(** An optional string field of a struct: left out when empty. *)
Definition omitempty (k s : string) : fields := if s =? "" then [] else [(k, JStr s)].

Section codec.
Context `{GoJSON}.

(** The struct as a JSON value; a raw payload is embedded as the value it
    denotes, and one that is not JSON makes the encoder fail. *)
Definition item_json (item : DocumentWorkItem) : result json :=
  let fs payload :=
    JObj ([("collection", JStr (Collection item)); ("id", JStr (ID item))] ++
          omitempty "beforeVersion" (BeforeVersion item) ++
          omitempty "afterVersion" (AfterVersion item) ++
          [("operationId", JStr (OperationID item)); ("command", JStr (Command item))] ++
          match Patch item with [] => [] | l => [("patch", JArr l)] end ++ payload) in
  if Payload item =? "" then Ok (fs [])
  else result_bind (Unmarshal (Payload item)) (fun v => Ok (fs [("payload", v)])).

Definition array_field (v : json) (k : string) : result (list json) :=
  match Get v k with
  | None | Some JNull => Ok []
  | Some (JArr l) => Ok l
  | Some _ => Err (errorf "not an array")
  end.

(** The text kept for a raw field: a text of its value. *)
Definition raw_field (v : json) (k : string) : string :=
  match Get v k with Some w => Marshal w | None => "" end.

Definition item_of_json (v : json) : result DocumentWorkItem :=
  match v with
  | JObj _ =>
      result_bind (string_field v "collection") (fun collection =>
      result_bind (string_field v "id") (fun id =>
      result_bind (string_field v "beforeVersion") (fun before =>
      result_bind (string_field v "afterVersion") (fun after =>
      result_bind (string_field v "operationId") (fun op =>
      result_bind (string_field v "command") (fun command =>
      result_bind (array_field v "patch") (fun patch =>
      Ok (mkItem collection id before after op command patch (raw_field v "payload")))))))))
  | _ => Err (errorf "not an object")
  end.
End codec.

Section pending.
Context `{Env} `{OJSON} `{GoJSON}.

Definition WritePendingWrite (dataDir : path) (collection targetServer : string)
    (item : DocumentWorkItem) : M (result unit) :=
  match item_json item with
  | Err e => mret (Err e)
  | Ok v => WriteFileAtomic (PendingWritePath dataDir collection targetServer (ID item))
              (MarshalIndent v +:+ newline)
  end.

Definition ReadPendingWrite (dataDir : path) (collection targetServer docID : string)
    : M (result DocumentWorkItem) :=
  data <-? ReadFile (PendingWritePath dataDir collection targetServer docID);
  mret (result_bind (Unmarshal data) item_of_json).

Definition DeletePendingWrite (dataDir : path) (collection targetServer docID : string)
    : M (result bool) :=
  let p := PendingWritePath dataDir collection targetServer docID in
  r ← Stat p;
  match r with
  | Err e => if is_not_exist e then mret (Ok false) else mret (Err e)
  | Ok _ => Remove p ;? mret (Ok true)
  end.

Definition collectionDirs (dataDir : path) : M (result (list string)) :=
  r ← ReadDir dataDir;
  match r with
  | Err e => if is_not_exist e then mret (Ok []) else mret (Err e)
  | Ok entries =>
      mret (Ok (map fst (List.filter (fun e => snd e && negb (HasPrefix (fst e) ".")) entries)))
  end.

Definition ErrNotExist : error := mkError NotExist "file does not exist".

Fixpoint find_pending (dataDir : path) (targetServer docID : string) (dirs : list string)
    : M (result (string * DocumentWorkItem)) :=
  match dirs with
  | [] => mret (Err ErrNotExist)
  | c :: dirs' =>
      r ← ReadPendingWrite dataDir c targetServer docID;
      match r with
      | Ok it => mret (Ok (c, it))
      | Err e => if negb (is_not_exist e) then mret (Err e)
                 else find_pending dataDir targetServer docID dirs'
      end
  end.

Definition FindPendingWrite (dataDir : path) (targetServer docID : string)
    : M (result (string * DocumentWorkItem)) :=
  dirs <-? collectionDirs dataDir;
  find_pending dataDir targetServer docID dirs.

(** The work items of one directory listing. *)
Definition pending_ids (targetServer : string) (entries : list dir_entry) : list string :=
  let prefix := targetServer +:+ "." in
  flat_map (fun e : dir_entry =>
    let name := fst e in
    if snd e || negb (HasSuffix name ".json") || negb (HasPrefix name prefix) then []
    else [WorkItemID targetServer (TrimSuffix (TrimPrefix name prefix) ".json")]) entries.

Fixpoint list_pending (dataDir : path) (targetServer : string) (dirs : list string)
    : M (result (list string)) :=
  match dirs with
  | [] => mret (Ok [])
  | c :: dirs' =>
      r ← ReadDir (PendingWritesDir dataDir c);
      match r with
      | Err e => if is_not_exist e then list_pending dataDir targetServer dirs' else mret (Err e)
      | Ok entries =>
          rest <-? list_pending dataDir targetServer dirs';
          mret (Ok (pending_ids targetServer entries ++ rest))
      end
  end.

Definition ListPendingWorkItemIDs (dataDir : path) (targetServer : string) (limit : Z)
    : M (result (list string * nat)) :=
  dirs <-? collectionDirs dataDir;
  all <-? list_pending dataDir targetServer dirs;
  let all := merge_sort str_le all in
  mret (Ok (if (0 <? limit)%Z && (limit <? Z.of_nat (length all))%Z
            then take (Z.to_nat limit) all else all, length all)).

(** ** Applying a work item on a read member *)

Definition applyCreate (dataDir : path) (item : DocumentWorkItem) : M (result bool) :=
  let p := DocumentPath dataDir (Collection item) (ID item) in
  r ← ReadDocumentJSON p;
  match r with
  | Ok existing =>
      if as_string (aget existing "#") =? AfterVersion item then mret (Ok true)
      else mret (Err (errorf "replication: create conflict"))
  | Err _ =>
      if Payload item =? "" then mret (Err (errorf "replication: create work item is missing payload"))
      else EnsureCollectionDir dataDir (Collection item) ;?
           WriteDocumentJSONVerified p (Payload item) ;?
           mret (Ok true)
  end.

Definition applyPatch (dataDir : path) (item : DocumentWorkItem) : M (result bool) :=
  let p := DocumentPath dataDir (Collection item) (ID item) in
  r ← ReadDocumentValue p;
  match r with
  | Err _ => mret (Err (errorf "replication: patch target not found locally"))
  | Ok doc =>
      if ToStringOrEmpty (Get doc "#") =? AfterVersion item then mret (Ok true)
      else
        PreservePreviousIfAbsent dataDir (Collection item) (ID item) ;?
        if negb (Payload item =? "") then
          WriteDocumentJSONVerified p (Payload item) ;? mret (Ok true)
        else
          match ReadPatchBytes (Marshal (JArr (map map_order (Patch item)))) with
          | Err _ => mret (Err (errorf "replication: parse patch"))
          | Ok patch =>
              match ApplyPatch doc patch with
              | Err _ => mret (Err (errorf "replication: apply patch op"))
              | Ok patched =>
                  WriteDocumentJSONVerified p (ensure_newline (ToPrettyJSONBytes patched)) ;?
                  mret (Ok true)
              end
          end
  end.

Definition applyDelete (dataDir : path) (item : DocumentWorkItem) : M (result bool) :=
  let p := DocumentPath dataDir (Collection item) (ID item) in
  r ← ReadDocumentJSON p;
  match r with
  | Err _ => _ ← CascadeDeleteDocumentFiles dataDir (Collection item) (ID item); mret (Ok true)
  | Ok _ => SoftDeleteDocument dataDir (Collection item) (ID item) ;? mret (Ok true)
  end.

Definition Apply (dataDir : path) (item : DocumentWorkItem) : M (result bool) :=
  if Command item =? "create" then applyCreate dataDir item
  else if Command item =? "patch" then applyPatch dataDir item
  else if Command item =? "delete" then applyDelete dataDir item
  else mret (Err (errorf "replication: unknown command")).
End pending.

(** ** Staleness of a read member *)

Record ReadMemberState := mkRMS {
  StaleThreshold : Z;
  failedCheckins : list (string * Z);
  staleSOT : list (string * bool);
  pendingDocs : list (string * bool);
  pendingFiles : list (string * bool);
}.

Definition docKey (collection documentID : string) : string := collection +:+ "/" +:+ documentID.
Definition fileKey (collection documentID filename : string) : string :=
  collection +:+ "/" +:+ documentID +:+ "/" +:+ filename.

Definition RecordCheckinSuccess (s : ReadMemberState) (sotServer : string) : ReadMemberState :=
  mkRMS (StaleThreshold s) (adel (failedCheckins s) sotServer) (adel (staleSOT s) sotServer)
    (pendingDocs s) (pendingFiles s).

Definition FailedCheckins (s : ReadMemberState) (sotServer : string) : Z :=
  default 0%Z (aget (failedCheckins s) sotServer).

Definition RecordCheckinFailure (s : ReadMemberState) (sotServer : string)
    : Z * ReadMemberState :=
  let count := (FailedCheckins s sotServer + 1)%Z in
  let threshold := if (StaleThreshold s <=? 0)%Z then 3%Z else StaleThreshold s in
  let stale := if (threshold <=? count)%Z then aset (staleSOT s) sotServer true
               else staleSOT s in
  (count, mkRMS (StaleThreshold s) (aset (failedCheckins s) sotServer count) stale
            (pendingDocs s) (pendingFiles s)).

Definition IsStaleForSOT (s : ReadMemberState) (sotServer : string) : bool :=
  default false (aget (staleSOT s) sotServer).

Definition MarkPending (s : ReadMemberState) (collection documentID : string) : ReadMemberState :=
  mkRMS (StaleThreshold s) (failedCheckins s) (staleSOT s)
    (aset (pendingDocs s) (docKey collection documentID) true) (pendingFiles s).

Definition ClearPending (s : ReadMemberState) (collection documentID : string) : ReadMemberState :=
  mkRMS (StaleThreshold s) (failedCheckins s) (staleSOT s)
    (adel (pendingDocs s) (docKey collection documentID)) (pendingFiles s).

Definition IsPending (s : ReadMemberState) (collection documentID : string) : bool :=
  default false (aget (pendingDocs s) (docKey collection documentID)).

Definition MarkPendingFile (s : ReadMemberState) (collection documentID filename : string)
    : ReadMemberState :=
  mkRMS (StaleThreshold s) (failedCheckins s) (staleSOT s) (pendingDocs s)
    (aset (pendingFiles s) (fileKey collection documentID filename) true).

Definition ClearPendingFile (s : ReadMemberState) (collection documentID filename : string)
    : ReadMemberState :=
  mkRMS (StaleThreshold s) (failedCheckins s) (staleSOT s) (pendingDocs s)
    (adel (pendingFiles s) (fileKey collection documentID filename)).

Definition IsPendingFile (s : ReadMemberState) (collection documentID filename : string) : bool :=
  if filename =? "" then false
  else default false (aget (pendingFiles s) (fileKey collection documentID filename)).

Definition HasPendingFilesForDoc (s : ReadMemberState) (collection documentID : string) : bool :=
  existsb (fun kv => HasPrefix (fst kv) (docKey collection documentID +:+ "/")) (pendingFiles s).

(** ** Delivery from the SOT *)

Record PushOutcome := mkOutcome {
  Required : list string;
  Acknowledged : list string;
  Unacknowledged : list string;
  TimeoutMs : Z;
}.

Definition Complete (o : PushOutcome) : bool := (length (Unacknowledged o) =? 0)%nat.

Record Coordinator := mkCoordinator {
  CoServerName : string;
  CoDataDir : path;
  CoCfg : option Config;
  CoTimeoutMs : Z;
}.

(** The network of one delivery: whether the target answers [ok] and [applied]
    within the timeout, and the order in which the goroutines reach the mutex. *)
Class Net := {
  acks : string -> DocumentWorkItem -> bool;
  finish_order : list string -> list string;
  finish_order_perm : forall l, finish_order l ≡ₚ l;
}.

Definition TargetsForAssignment (c : Coordinator) (assignment : ShardAssignment) : list string :=
  foldl (fun out name =>
           if (name =? "") || (name =? CoServerName c) || containsString out name then out
           else out ++ [name]) []
    (ShardReadMember assignment ++ ProxyReadMember assignment).

Definition AssignmentForSlot (cfg : option Config) (slot : Z) : ShardAssignment :=
  default no_assignment (SlotAssignment cfg slot).

Definition RelevantSOTServers (cfg : option Config) (serverName : string) : list string :=
  match cfg with
  | None => []
  | Some cfg =>
      foldl (fun out ra =>
               let sot := ShardSOTMember (snd ra) in
               if (sot =? "") || (sot =? serverName) then out
               else if containsString (ShardReadMember (snd ra)) serverName ||
                       containsString (ProxyReadMember (snd ra)) serverName
                    then if containsString out sot then out else out ++ [sot]
                    else out) [] (shard_entries (ShardMap cfg))
  end.

Section delivery.
Context `{Env} `{OJSON} `{GoJSON} `{Net}.

(** [pushOne]: a target without a known base URL is never reached. *)
Definition pushOne (c : Coordinator) (target : string) (item : DocumentWorkItem) : bool :=
  if ServerBaseURL (CoCfg c) target =? "" then false else acks target item.

(** One goroutine of [ReplicateDocumentWrite], after its push. *)
Definition finish_push (c : Coordinator) (item : DocumentWorkItem)
    (outcome : PushOutcome) (target : string) : M PushOutcome :=
  if pushOne c target item then
    mret (mkOutcome (Required outcome) (Acknowledged outcome ++ [target])
            (Unacknowledged outcome) (TimeoutMs outcome))
  else
    _ ← WritePendingWrite (CoDataDir c) (Collection item) target item;
    mret (mkOutcome (Required outcome) (Acknowledged outcome)
            (Unacknowledged outcome ++ [target]) (TimeoutMs outcome)).

Fixpoint finish_all (c : Coordinator) (item : DocumentWorkItem) (outcome : PushOutcome)
    (targets : list string) : M PushOutcome :=
  match targets with
  | [] => mret outcome
  | t :: ts => o ← finish_push c item outcome t; finish_all c item o ts
  end.

Definition ReplicateDocumentWrite (c : Coordinator) (item : DocumentWorkItem)
    (targets : list string) : M PushOutcome :=
  finish_all c item (mkOutcome targets [] [] (CoTimeoutMs c)) (finish_order targets).

Definition DeliverOnce (c : Coordinator) (item : DocumentWorkItem) (targets : list string)
    : M PushOutcome := ReplicateDocumentWrite c item targets.

Fixpoint StagePendingWrites (c : Coordinator) (item : DocumentWorkItem) (targets : list string)
    : M (result unit) :=
  match targets with
  | [] => mret (Ok tt)
  | t :: ts =>
      if t =? "" then StagePendingWrites c item ts
      else WritePendingWrite (CoDataDir c) (Collection item) t item ;? StagePendingWrites c item ts
  end.
End delivery.

Definition NoteCode : string := "replication_retry_scheduled".

Definition BuildNote (o : PushOutcome) : json :=
  JObj [("code", JStr NoteCode);
        ("message", JStr "Write succeeded on the SOT-member, but one or more read members did not acknowledge the one-time delivery attempt. Durable .pendingWrites entries were recorded; those read members are responsible for catch-up.");
        ("required", JArr (map JStr (Required o)));
        ("acknowledged", JArr (map JStr (Acknowledged o)));
        ("unacknowledged", JArr (map JStr (Unacknowledged o)));
        ("timeoutMs", JNum (Itoa (TimeoutMs o)))].

(** ** Catch-up: a read member and one SOT member

    [sot] and [reader] are the two servers' worlds.  Every request of the reader
    is an exchange: it may be lost on the way there or on the way back. *)

Record cluster := mkCluster {
  sot : st;
  reader : st;
  rms : ReadMemberState;
  exchanges : nat;
}.

Definition C (A : Type) : Type := cluster -> A * cluster.

#[export] Instance C_ret : MRet C := fun A a w => (a, w).
#[export] Instance C_bind : MBind C := fun A B k m w => let '(a, w') := m w in k a w'.

Inductive exchange := Delivered | RequestLost | ReplyLost.

Class Link := link : nat -> exchange.

Definition on_reader {A} (m : M A) : C A := fun w =>
  let '(a, s') := m (reader w) in (a, mkCluster (sot w) s' (rms w) (exchanges w)).

Definition on_sot {A} (m : M A) : C A := fun w =>
  let '(a, s') := m (sot w) in (a, mkCluster s' (reader w) (rms w) (exchanges w)).

Definition on_state (f : ReadMemberState -> ReadMemberState) : C unit := fun w =>
  (tt, mkCluster (sot w) (reader w) (f (rms w)) (exchanges w)).

(** A request handled by the SOT; [Err] when the reader gets no reply. *)
Definition request `{Link} {A} (m : M (result A)) : C (result A) := fun w =>
  let w1 := mkCluster (sot w) (reader w) (rms w) (S (exchanges w)) in
  match link (exchanges w) with
  | RequestLost => (Err (errorf "no reply"), w1)
  | ReplyLost => let '(_, w2) := on_sot m w1 in (Err (errorf "no reply"), w2)
  | Delivered => on_sot m w1
  end.

Section catchup.
Context (envS envR : Env) `{Link} `{OJSON} `{GoJSON}.

(** [handleListPendingDocumentWrites] for the authenticated [serverName]. *)
Definition handleList (sotDir : path) (serverName : string) (limit : Z)
    : M (result (list string)) :=
  if serverName =? "" then mret (Err (errorf "serverName is required"))
  else
    r <-? ListPendingWorkItemIDs (H:=envS) sotDir serverName limit;
    mret (Ok (fst r)).

Definition handleFetch (sotDir : path) (serverName itemID : string)
    : M (result DocumentWorkItem) :=
  match DocIDFromWorkItemID itemID serverName with
  | None => mret (Err (errorf "workItemNotFound"))
  | Some docID =>
      r ← FindPendingWrite (H:=envS) sotDir serverName docID;
      match r with
      | Err e => mret (Err (errorf (if is_not_exist e then "workItemNotFound" else "filesystemError")))
      | Ok (_, item) => mret (Ok item)
      end
  end.

Definition handleComplete (sotDir : path) (serverName itemID : string) : M (result unit) :=
  match DocIDFromWorkItemID itemID serverName with
  | None => mret (Err (errorf "workItemNotFound"))
  | Some docID =>
      r ← FindPendingWrite (H:=envS) sotDir serverName docID;
      match r with
      | Err e => if is_not_exist e then mret (Ok tt) else mret (Err (errorf "filesystemError"))
      | Ok (collection, _) =>
          r ← DeletePendingWrite (H:=envS) sotDir collection serverName docID;
          match r with
          | Err _ => mret (Err (errorf "filesystemError"))
          | Ok _ => mret (Ok tt)
          end
      end
  end.

Record CatchUpAgent := mkCatchUp {
  CuServerName : string;
  CuDataDir : path;
  CuSotDir : path;      (* the data directory of the SOT it talks to *)
  CuLimit : Z;
  CuCfg : option Config;
}.

Definition catchup_limit (a : CatchUpAgent) : Z :=
  if (0 <? CuLimit a)%Z then CuLimit a else 200%Z.

(** The reader's half of [applyOne] once the item is there: the pending mark
    stays only while the item is applied ([defer ClearPending]). *)
Definition apply_fetched (a : CatchUpAgent) (item : DocumentWorkItem) : C (result bool) :=
  _ ← on_state (fun s => MarkPending s (Collection item) (ID item));
  r ← on_reader (Apply (H:=envR) (CuDataDir a) item);
  mret r.

Definition applyOne (a : CatchUpAgent) (itemID : string) : C (result unit) :=
  r ← request (handleFetch (CuSotDir a) (CuServerName a) itemID);
  match r with
  | Err e => mret (Err e)
  | Ok item =>
      let clear := on_state (fun s => ClearPending s (Collection item) (ID item)) in
      r ← apply_fetched a item;
      match r with
      | Err e => _ ← clear; mret (Err e)
      | Ok false => _ ← clear; mret (Err (errorf "replication: work item did not apply"))
      | Ok true =>
          r ← request (handleComplete (CuSotDir a) (CuServerName a) itemID);
          _ ← clear; mret r
      end
  end.

Fixpoint apply_all (a : CatchUpAgent) (ids : list string) (first : option error)
    : C (option error) :=
  match ids with
  | [] => mret first
  | id :: ids' =>
      r ← applyOne a id;
      apply_all a ids' (match r, first with
                        | Err e, None => Some e
                        | _, _ => first
                        end)
  end.

Definition CheckIn (a : CatchUpAgent) (sotServer : string) : C (option error) :=
  if ServerBaseURL (CuCfg a) sotServer =? "" then mret (Some (errorf "no known baseURL"))
  else
    r ← request (handleList (CuSotDir a) (CuServerName a) (catchup_limit a));
    match r with
    | Err e => _ ← on_state (fun s => snd (RecordCheckinFailure s sotServer)); mret (Some e)
    | Ok ids => _ ← on_state (fun s => RecordCheckinSuccess s sotServer); apply_all a ids None
    end.
End catchup.

(** ** Names of pending writes *)

Definition pending_name (target id : string) : string := target +:+ "." +:+ id +:+ ".json".

Lemma json_name_not_temp s : s <> "" -> temp_component (s +:+ ".json") = false.
Proof.
  destruct s as [|x s]; [done|intros _].
  destruct (Ascii.ascii_dec "." x) as [<-|Hne]; [apply prev_name_not_temp|].
  apply no_dot_not_temp. unfold HasPrefix. cbn [String.append String.prefix].
  by destruct (Ascii.ascii_dec "." x).
Qed.

Lemma pending_name_not_temp target id : temp_component (pending_name target id) = false.
Proof.
  unfold pending_name. rewrite <-!str_app_assoc. apply json_name_not_temp.
  by destruct target.
Qed.

Section pending_paths.
Context (dataDir : path) (c id : string).
Hypothesis Hc : plain_collection c = true.
Hypothesis Hid : SafeID id = true.

Lemma PendingWritesDir_eq : PendingWritesDir dataDir c = ".pendingWrites" :: c :: dataDir.
Proof. unfold PendingWritesDir. rewrite CollectionDir_eq by done. by apply join_plain1. Qed.

Lemma PendingWritePath_eq target :
  in_string "/" target = false ->
  PendingWritePath dataDir c target id = pending_name target id :: ".pendingWrites" :: c :: dataDir.
Proof.
  intros Ht. unfold PendingWritePath. rewrite PendingWritesDir_eq. apply join_plain1.
  unfold pending_name.
  apply plain_intro; [rewrite !str_length_app; simpl; lia|].
  by rewrite !in_string_app, Ht, (SafeID_no_slash id).
Qed.
End pending_paths.

(** Two targets without periods never share a pending file. *)
Lemma pending_name_inj t t' id id' :
  in_string "." t = false -> in_string "." t' = false ->
  pending_name t id = pending_name t' id' -> t = t' /\ id = id'.
Proof.
  unfold pending_name. intros Ht Ht' Heq.
  assert (Cut (t +:+ String "." (id +:+ ".json")) "." = Some (t, id +:+ ".json")) as E1
    by (by apply Cut_char).
  assert (Cut (t' +:+ String "." (id' +:+ ".json")) "." = Some (t', id' +:+ ".json")) as E2
    by (by apply Cut_char).
  assert (t +:+ String "." (id +:+ ".json") = t' +:+ String "." (id' +:+ ".json")) as Heq'
    by exact Heq.
  rewrite Heq', E2 in E1. simplify_eq. split; [done|]. symmetry. by eapply str_app_inv_tail.
Qed.

Lemma WorkItemID_roundtrip serverName docID :
  DocIDFromWorkItemID (WorkItemID serverName docID) serverName = Some docID.
Proof.
  unfold DocIDFromWorkItemID, WorkItemID. rewrite <-str_app_assoc.
  by rewrite HasPrefix_app, str_drop_app.
Qed.

(** The listing of a directory finds each of the target's files. *)
Lemma pending_ids_complete target id entries :
  (pending_name target id, false) ∈ entries ->
  WorkItemID target id ∈ pending_ids target entries.
Proof.
  intros Hin. unfold pending_ids. apply list_elem_of_In, in_flat_map.
  exists (pending_name target id, false). split; [by apply list_elem_of_In|].
  assert (HasSuffix (pending_name target id) ".json" = true) as Hs.
  { unfold pending_name. rewrite <-!str_app_assoc. apply HasSuffix_app. }
  assert (pending_name target id = (target +:+ ".") +:+ (id +:+ ".json")) as Hn.
  { unfold pending_name. by rewrite str_app_assoc. }
  cbn [fst snd]. rewrite Hs, Hn, HasPrefix_app, TrimPrefix_app, TrimSuffix_app. by left.
Qed.

(** ** The codec of work items *)

Lemma string_field_obj m k :
  string_field (JObj m) k = match aget m k with
                            | None | Some JNull => Ok ""
                            | Some (JStr s) => Ok s
                            | Some _ => Err (errorf "not a string")
                            end.
Proof. done. Qed.

(** Two items that differ at most in the text of their payload. *)
Definition same_item `{OJSON} (a b : DocumentWorkItem) : Prop :=
  Collection a = Collection b /\ ID a = ID b /\ BeforeVersion a = BeforeVersion b /\
  AfterVersion a = AfterVersion b /\ OperationID a = OperationID b /\ Command a = Command b /\
  Patch a = Patch b /\
  ((Payload a = "" /\ Payload b = "") \/
   exists v, ReadBytesNoSchema (Payload a) = Ok v /\ ReadBytesNoSchema (Payload b) = Ok v).

(** An item that the encoder accepts. *)
Record item_ok `{OJSON} (item : DocumentWorkItem) : Prop := {
  io_strings : Forall (fun s => ValidString s = true)
    [Collection item; ID item; BeforeVersion item; AfterVersion item; OperationID item;
     Command item];
  io_patch : Forall (fun v => well_formed v = true) (Patch item);
  io_payload : Payload item = "" \/ exists v, ReadBytesNoSchema (Payload item) = Ok v;
}.

Section item_codec.
Context `{OJSON} `{!OJSONLaws} `{GoJSON} `{!GoJSONLaws}.

Definition item_fields (item : DocumentWorkItem) (payload : fields) : fields :=
  [("collection", JStr (Collection item)); ("id", JStr (ID item))] ++
  omitempty "beforeVersion" (BeforeVersion item) ++
  omitempty "afterVersion" (AfterVersion item) ++
  [("operationId", JStr (OperationID item)); ("command", JStr (Command item))] ++
  match Patch item with [] => [] | l => [("patch", JArr l)] end ++ payload.

Lemma item_fields_well_formed item payload :
  item_ok item ->
  payload = [] \/ (exists v, payload = [("payload", v)] /\ well_formed v = true) ->
  well_formed (JObj (item_fields item payload)) = true.
Proof.
  intros [Hs Hp _] Hpay. unfold item_fields, omitempty.
  apply Forall_cons in Hs as [V1 Hs]. apply Forall_cons in Hs as [V2 Hs].
  apply Forall_cons in Hs as [V3 Hs]. apply Forall_cons in Hs as [V4 Hs].
  apply Forall_cons in Hs as [V5 Hs]. apply Forall_cons in Hs as [V6 _].
  assert (forallb well_formed (Patch item) = true) as Hpatch.
  { apply forallb_forall. intros v Hv. rewrite Forall_forall in Hp. by apply Hp, list_elem_of_In. }
  destruct (BeforeVersion item =? ""), (AfterVersion item =? ""), (Patch item) as [|p l];
    destruct Hpay as [->|(v & -> & Hv)]; cbn [app well_formed];
    (apply andb_true_iff; split; [reflexivity|]); cbn [forallb fst snd well_formed];
    rewrite ?V1, ?V2, ?V3, ?V4, ?V5, ?V6, ?Hv; cbn [forallb] in Hpatch; rewrite ?Hpatch;
    reflexivity.
Qed.

Lemma item_json_ok item :
  item_ok item -> exists payload,
    item_json item = Ok (JObj (item_fields item payload)) /\
    (payload = [] /\ Payload item = "" \/
     exists v, payload = [("payload", v)] /\ ReadBytesNoSchema (Payload item) = Ok v /\
       well_formed v = true).
Proof.
  intros Hok. unfold item_json. destruct (Payload item =? "") eqn:E.
  - exists []. split; [done|]. left. split; [done|]. by apply String.eqb_eq.
  - destruct (io_payload _ Hok) as [Hp|[v Hv]]; [rewrite Hp in E; done|].
    rewrite (unmarshal_read _ _ Hv). exists [("payload", v)]. split; [done|]. right.
    exists v. split_and!; [done|done|]. by eapply read_well_formed.
Qed.

Lemma item_of_fields item payload :
  payload = [] \/ (exists v, payload = [("payload", v)]) ->
  item_of_json (JObj (item_fields item payload)) =
  Ok (mkItem (Collection item) (ID item) (BeforeVersion item) (AfterVersion item)
        (OperationID item) (Command item) (Patch item)
        (match payload with (_, v) :: _ => Marshal v | [] => "" end)).
Proof.
  intros Hpay. unfold item_fields, omitempty.
  destruct (BeforeVersion item =? "") eqn:E1, (AfterVersion item =? "") eqn:E2,
    (Patch item) as [|p l] eqn:E3; boolprop;
    destruct Hpay as [->|(v & ->)]; cbn; by rewrite ?E1, ?E2.
Qed.

(** Encoding an item and decoding it gives the item back. *)
Lemma item_roundtrip item :
  item_ok item -> exists v item',
    item_json item = Ok v /\ Unmarshal (MarshalIndent v +:+ newline) = Ok v /\
    item_of_json v = Ok item' /\ same_item item item'.
Proof.
  intros Hok. destruct (item_json_ok item Hok) as (payload & Hj & Hp).
  eexists _, _. split; [exact Hj|]. split_and!.
  - apply unmarshal_indent_newline, item_fields_well_formed; [done|].
    destruct Hp as [[-> _]|(v & -> & _ & Hv)]; eauto.
  - apply item_of_fields. destruct Hp as [[-> _]|(v & -> & _)]; eauto.
  - unfold same_item. simpl. split_and!; try done.
    destruct Hp as [[-> Hp]|(v & -> & Hr & Hv)]; [by left|]. right. exists v.
    split; [done|]. by apply read_marshal.
Qed.
End item_codec.

(** ** Delivery *)

Section deliver_faults.
Context `{E : Env} `{OJSON} `{GoJSON} `{Net}.

(** Whatever fails, delivery touches the pending files of the targets only. *)
Definition pending_touch (dataDir : path) (item : DocumentWorkItem) (q : path) : Prop :=
  exists n, temp_component n = false /\
    written (n :: ".pendingWrites" :: Collection item :: dataDir) q.

Lemma WritePendingWrite_keeps dataDir target item s :
  plain_collection (Collection item) = true -> SafeID (ID item) = true ->
  in_string "/" target = false ->
  wp (WritePendingWrite dataDir (Collection item) target item) (fun _ s' =>
    keeps (pending_touch dataDir item) (st_fs s) (st_fs s')) s.
Proof.
  intros Hc Hid Ht. unfold WritePendingWrite. destruct (item_json item); [|done].
  rewrite PendingWritePath_eq by done.
  eapply wp_mono; [apply WriteFileAtomic_spec; apply pending_name_not_temp|].
  intros [u|e] s'; [intros [_ K]|intros K]; (eapply keeps_mono; [exact K|]); intros q Hq;
    exists (pending_name target (ID item)); (split; [apply pending_name_not_temp|]);
    [done|by right].
Qed.

Lemma DeliverOnce_keeps co item targets s :
  plain_collection (Collection item) = true -> SafeID (ID item) = true ->
  Forall (fun t => in_string "/" t = false) targets ->
  wp (DeliverOnce co item targets) (fun _ s' =>
    keeps (pending_touch (CoDataDir co) item) (st_fs s) (st_fs s')) s.
Proof.
  intros Hc Hid Ht. unfold DeliverOnce, ReplicateDocumentWrite.
  rewrite <-(finish_order_perm targets) in Ht.
  generalize (mkOutcome targets [] [] (CoTimeoutMs co)) as o.
  revert s. induction Ht as [|t ts Ht Hts IH]; intros s o; cbn [finish_all]; [done|].
  apply wp_bind. unfold finish_push. destruct (pushOne co t item).
  - apply wp_ret. eapply wp_mono; [apply IH|]. done.
  - apply wp_bind. eapply wp_mono; [by apply WritePendingWrite_keeps|].
    intros r s1 K1. apply wp_ret. eapply wp_mono; [apply IH|].
    intros o' s2 K2. eapply keeps_trans; [exact K1|exact K2].
Qed.
End deliver_faults.

Section deliver_runs.
Context `{NF : NoFault} `{OJSON} `{!OJSONLaws} `{GoJSON} `{!GoJSONLaws} `{Net}.
Context (dataDir : path).

(** The text of a pending file. *)
Definition pending_text (item : DocumentWorkItem) : string :=
  match item_json item with Ok v => MarshalIndent v +:+ newline | Err _ => "" end.

Lemma WritePendingWrite_runs target item s :
  plain_collection (Collection item) = true -> SafeID (ID item) = true ->
  in_string "/" target = false -> item_ok item -> store_ok dataDir (st_fs s) ->
  let p := pending_name target (ID item) :: ".pendingWrites" :: Collection item :: dataDir in
  exists f', runs (WritePendingWrite dataDir (Collection item) target item) s (Ok tt) f' /\
    store_ok dataDir f' /\ content f' p = Some (pending_text item) /\
    forall q, q <> p -> content f' q = content (st_fs s) q.
Proof.
  intros Hc Hid Ht Hok Hst p. unfold WritePendingWrite, pending_text.
  destruct (item_json_ok item Hok) as (payload & -> & _).
  rewrite PendingWritePath_eq by done.
  assert (".pendingWrites" ∈ queue_dirs) as Hin by set_solver.
  apply layout_write_runs; [done| | |].
  - eapply queue_writable; [done|done|done|apply pending_name_not_temp].
  - apply queue_file_place; [done|done|apply pending_name_not_temp].
  - by apply queue_dir_place.
Qed.

Lemma ReadPendingWrite_runs target item s :
  plain_collection (Collection item) = true -> SafeID (ID item) = true ->
  in_string "/" target = false -> item_ok item ->
  content (st_fs s) (pending_name target (ID item) :: ".pendingWrites" :: Collection item :: dataDir)
    = Some (pending_text item) ->
  exists item', same_item item item' /\
    runs (ReadPendingWrite dataDir (Collection item) target (ID item)) s (Ok item') (st_fs s).
Proof.
  intros Hc Hid Ht Hok Hp. destruct (item_roundtrip item Hok) as (v & item' & Hj & Hu & Hi & Hs).
  exists item'. split; [done|]. unfold ReadPendingWrite. rewrite PendingWritePath_eq by done.
  apply fs_read_content in Hp; [|done].
  eapply runs_rbind; [rewrite <-Hp; apply ReadFile_runs|].
  intros s' F I. unfold pending_text. rewrite Hj, Hu. simpl. rewrite Hi, <-F. apply runs_ret.
Qed.

(** The outcome of a delivery and the files it leaves. *)
Definition pend (item : DocumentWorkItem) (t : string) : path :=
  pending_name t (ID item) :: ".pendingWrites" :: Collection item :: dataDir.

Lemma pend_inj item t t' : pend item t = pend item t' -> t = t'.
Proof.
  unfold pend, pending_name. intros Heq. injection Heq as Heq.
  by eapply str_app_inv_tail.
Qed.

Lemma finish_all_runs co item ts o s :
  CoDataDir co = dataDir ->
  plain_collection (Collection item) = true -> SafeID (ID item) = true ->
  Forall (fun t => in_string "/" t = false) ts -> item_ok item ->
  store_ok dataDir (st_fs s) ->
  exists f', runs (finish_all co item o ts) s
      (mkOutcome (Required o)
         (Acknowledged o ++ List.filter (fun t => pushOne co t item) ts)
         (Unacknowledged o ++ List.filter (fun t => negb (pushOne co t item)) ts)
         (TimeoutMs o)) f' /\
    store_ok dataDir f' /\
    (forall t, t ∈ ts -> pushOne co t item = false ->
       content f' (pend item t) = Some (pending_text item)) /\
    (forall q, (forall t, t ∈ ts -> pushOne co t item = false -> q <> pend item t) ->
       content f' q = content (st_fs s) q).
Proof.
  intros Hco Hc Hid Hts Hok. revert o s.
  induction Hts as [|t ts Ht Hts IH]; intros o s Hst; cbn [finish_all].
  { exists (st_fs s). split_and!; [|done|set_solver|done].
    rewrite !app_nil_r. destruct o; apply runs_ret. }
  unfold finish_push. destruct (pushOne co t item) eqn:Ep.
  - set (o1 := mkOutcome _ _ _ _).
    destruct (IH o1 s Hst) as (f' & (s2 & R & F & I) & Hst' & Hp & Hq). exists f'. split_and!.
    + cbn [List.filter]. rewrite Ep. subst o1. exists s2.
      unfold mbind, M_bind, mret, M_ret. cbn [negb]. rewrite R. simpl. rewrite <-!app_assoc. done.
    + done.
    + intros t' [->|Hin]%elem_of_cons Hn; [congruence|auto].
    + intros q Hne. apply Hq. intros t' Hin. apply Hne. by right.
  - destruct (WritePendingWrite_runs t item s Hc Hid Ht Hok Hst)
      as (f1 & (s1 & R1 & F1 & I1) & Hst1 & Hp1 & Hr1).
    set (o1 := mkOutcome (Required o) (Acknowledged o) (Unacknowledged o ++ [t]) (TimeoutMs o)).
    rewrite <-F1 in Hst1.
    destruct (IH o1 s1 Hst1) as (f' & (s2 & R & F & I) & Hst' & Hp & Hq). exists f'. split_and!.
    + cbn [List.filter]. rewrite Ep. subst o1. exists s2.
      unfold mbind, M_bind, mret, M_ret. rewrite Hco, R1, R. simpl. rewrite <-!app_assoc.
      split_and!; [done|done|congruence].
    + done.
    + intros t' [->|Hin]%elem_of_cons Hn; [|auto].
      destruct (decide (t ∈ ts)) as [Hin|Hni]; [auto|].
      rewrite Hq, F1; [done|]. intros t' Hin' _ Heq. apply pend_inj in Heq. by subst.
    + intros q Hne. rewrite Hq, F1.
      * apply Hr1. apply Hne; [by left|done].
      * intros t' Hin. apply Hne. by right.
Qed.

Lemma DeliverOnce_runs co item targets s :
  CoDataDir co = dataDir ->
  plain_collection (Collection item) = true -> SafeID (ID item) = true ->
  Forall (fun t => in_string "/" t = false) targets -> item_ok item ->
  store_ok dataDir (st_fs s) ->
  exists o f', runs (DeliverOnce co item targets) s o f' /\ store_ok dataDir f' /\
    (forall t, t ∈ Acknowledged o <-> t ∈ targets /\ pushOne co t item = true) /\
    (forall t, t ∈ Unacknowledged o <-> t ∈ targets /\ pushOne co t item = false) /\
    (forall t, t ∈ targets -> pushOne co t item = false ->
       content f' (pend item t) = Some (pending_text item)) /\
    (forall q, (forall t, t ∈ targets -> pushOne co t item = false -> q <> pend item t) ->
       content f' q = content (st_fs s) q).
Proof.
  intros Hco Hc Hid Hts Hok Hst. unfold DeliverOnce, ReplicateDocumentWrite.
  rewrite <-(finish_order_perm targets) in Hts.
  destruct (finish_all_runs co item _ (mkOutcome targets [] [] (CoTimeoutMs co)) s
              Hco Hc Hid Hts Hok Hst) as (f' & R & Hst' & Hp & Hq).
  eexists _, f'. split; [exact R|].
  assert (forall t, t ∈ finish_order targets <-> t ∈ targets) as Hperm.
  { intros t. by rewrite finish_order_perm. }
  split; [done|]. simpl. split; [|split; [|split]].
  - intros t. rewrite elem_of_lfilter, Hperm. done.
  - intros t. rewrite elem_of_lfilter, Hperm, negb_true_iff. done.
  - intros t Ht. apply Hp. by apply Hperm.
  - intros q Hne. apply Hq. intros t Ht. apply Hne. by apply Hperm.
Qed.

(** Delivery keeps the layout, whatever the item. *)
Lemma WritePendingWrite_layout target item s :
  plain_collection (Collection item) = true -> SafeID (ID item) = true ->
  in_string "/" target = false -> store_ok dataDir (st_fs s) ->
  wp (WritePendingWrite dataDir (Collection item) target item)
    (fun _ s' => store_ok dataDir (st_fs s')) s.
Proof.
  intros Hc Hid Ht Hst. unfold WritePendingWrite. destruct (item_json item) as [v|]; [|done].
  rewrite PendingWritePath_eq by done.
  destruct (layout_write_runs dataDir
    (pending_name target (ID item) :: ".pendingWrites" :: Collection item :: dataDir)
    (MarshalIndent v +:+ newline) s Hst) as (f' & (s' & R & F & _) & Hok & _).
  - eapply queue_writable; [done|done|set_solver|apply pending_name_not_temp].
  - apply queue_file_place; [done|set_solver|apply pending_name_not_temp].
  - apply queue_dir_place; [done|set_solver].
  - unfold wp. rewrite R. by subst f'.
Qed.

Lemma DeliverOnce_layout co item targets s :
  CoDataDir co = dataDir ->
  plain_collection (Collection item) = true -> SafeID (ID item) = true ->
  Forall (fun t => in_string "/" t = false) targets -> store_ok dataDir (st_fs s) ->
  wp (DeliverOnce co item targets) (fun _ s' => store_ok dataDir (st_fs s')) s.
Proof.
  intros Hco Hc Hid Ht. unfold DeliverOnce, ReplicateDocumentWrite.
  rewrite <-(finish_order_perm targets) in Ht.
  generalize (mkOutcome targets [] [] (CoTimeoutMs co)) as o.
  revert s. induction Ht as [|t ts Ht Hts IH]; intros s o Hst; cbn [finish_all]; [done|].
  apply wp_bind. unfold finish_push. destruct (pushOne co t item).
  - apply wp_ret. by apply IH.
  - apply wp_bind. rewrite Hco. eapply wp_mono; [by apply WritePendingWrite_layout|].
    intros r s1 Hst1. apply wp_ret. by apply IH.
Qed.
End deliver_runs.

(** ** Staleness over a history *)

(** What happens to a read member's bookkeeping, in the order the mutex gives. *)
Inductive rms_event :=
| CheckedIn (sotServer : string)
| Missed (sotServer : string)
| Marked (collection documentID : string)
| Cleared (collection documentID : string).

Definition rms_step (s : ReadMemberState) (ev : rms_event) : ReadMemberState :=
  match ev with
  | CheckedIn sot => RecordCheckinSuccess s sot
  | Missed sot => snd (RecordCheckinFailure s sot)
  | Marked c id => MarkPending s c id
  | Cleared c id => ClearPending s c id
  end.

Definition rms_run (threshold : Z) (evs : list rms_event) : ReadMemberState :=
  foldl rms_step (mkRMS threshold [] [] [] []) evs.

(** Check-ins missed since the last one that worked. *)
Definition count_miss (sotServer : string) (n : Z) (ev : rms_event) : Z :=
  match ev with
  | CheckedIn t => if t =? sotServer then 0%Z else n
  | Missed t => if t =? sotServer then (n + 1)%Z else n
  | _ => n
  end.

Definition misses (sotServer : string) (evs : list rms_event) : Z :=
  foldl (count_miss sotServer) 0%Z evs.

Definition marked (collection documentID : string) (evs : list rms_event) : bool :=
  foldl (fun b ev => match ev with
                     | Marked c id => if docKey c id =? docKey collection documentID then true else b
                     | Cleared c id => if docKey c id =? docKey collection documentID then false else b
                     | _ => b
                     end) false evs.

Definition stale_limit (threshold : Z) : Z := if (threshold <=? 0)%Z then 3 else threshold.

Lemma misses_nonneg sotServer evs : (0 <= misses sotServer evs)%Z.
Proof.
  unfold misses. assert (forall n, (0 <= n)%Z -> (0 <= foldl (count_miss sotServer) n evs)%Z) as H;
    [|by apply H].
  induction evs as [|ev evs IH]; intros n Hn; simpl; [done|]. apply IH.
  destruct ev; simpl; try done; case_match; lia.
Qed.


(** C35: after any history of check-ins, a read member's failure count for a
    source-of-truth server is the number of check-ins missed since the last that
    worked, it refuses reads of that server's slots exactly when that number has
    reached the threshold (three when none is configured), whatever happened with
    other servers; and a document is marked exactly when its last mark was not
    cleared. *)
Theorem rms_history threshold evs sotServer collection documentID :
  let s := rms_run threshold evs in
  FailedCheckins s sotServer = misses sotServer evs /\
  IsStaleForSOT s sotServer = (stale_limit threshold <=? misses sotServer evs)%Z /\
  IsPending s collection documentID = marked collection documentID evs.
Proof.
  cbv zeta. unfold rms_run.
  assert (StaleThreshold (foldl rms_step (mkRMS threshold [] [] [] []) evs) = threshold /\
          FailedCheckins (rms_run threshold evs) sotServer = misses sotServer evs /\
          IsStaleForSOT (rms_run threshold evs) sotServer
            = (stale_limit threshold <=? misses sotServer evs)%Z /\
          IsPending (rms_run threshold evs) collection documentID
            = marked collection documentID evs) as H; [|tauto].
  unfold rms_run. induction evs as [|ev evs (IH1 & IH2 & IH3 & IH4)] using rev_ind.
  { simpl. split_and!; try done. unfold stale_limit, misses. simpl.
    destruct (threshold <=? 0)%Z eqn:E; [done|]. apply Z.leb_gt in E. symmetry. by apply Z.leb_gt. }
  pose proof (misses_nonneg sotServer evs) as Hn.
  unfold misses, marked in *. rewrite !foldl_app. simpl.
  set (s := foldl rms_step _ evs) in *. clearbody s.
  unfold FailedCheckins, IsStaleForSOT, IsPending in *.
  destruct ev as [t|t|c id|c id]; simpl; rewrite ?aget_adel, ?aget_aset.
  - split_and!; [done| | |done]; destruct (t =? sotServer); try done. simpl.
    unfold stale_limit. symmetry. apply Z.leb_gt. destruct (threshold <=? 0)%Z eqn:E; lia.
  - unfold FailedCheckins. rewrite IH1. fold (stale_limit threshold).
    split_and!; [done| | |done]; destruct (t =? sotServer) eqn:Et; try done.
    + apply String.eqb_eq in Et as ->. simpl. by rewrite IH2.
    + apply String.eqb_eq in Et as ->. rewrite IH2. destruct (_ <=? _ + 1)%Z eqn:E.
      * by rewrite aget_aset, String.eqb_refl.
      * rewrite IH3. apply Z.leb_gt. apply Z.leb_gt in E. lia.
    + destruct (_ <=? _ + 1)%Z; [|done]. by rewrite aget_aset, Et.
  - split_and!; [done|done|done|]. by destruct (_ =? _).
  - split_and!; [done|done|done|]. by destruct (_ =? _).
Qed.

(** ** Properties of delivery *)

Section properties.
Context `{NF : NoFault} `{OJSON} `{!OJSONLaws} `{GoJSON} `{!GoJSONLaws} `{Net}.

(** C28: with no failing system call, one delivery reaches a verdict on every
    required target: the acknowledged ones are exactly those that answered, and
    for every other one a pending write is on disk that reads back as the item
    that was to be delivered.  Nothing but those files changes, and the layout is
    kept. *)
Theorem DeliverOnce_complete co item targets s :
  plain_collection (Collection item) = true -> SafeID (ID item) = true ->
  Forall (fun t => in_string "/" t = false) targets -> item_ok item ->
  store_ok (CoDataDir co) (st_fs s) ->
  exists o s', DeliverOnce co item targets s = (o, s') /\
    store_ok (CoDataDir co) (st_fs s') /\
    (forall t, t ∈ targets ->
       (t ∈ Acknowledged o <-> pushOne co t item = true) /\
       (t ∈ Unacknowledged o <-> pushOne co t item = false)) /\
    (forall t, t ∈ Unacknowledged o ->
       exists item', same_item item item' /\
         fst (ReadPendingWrite (CoDataDir co) (Collection item) t (ID item) s') = Ok item') /\
    (forall q, (forall t, t ∈ Unacknowledged o -> q <> pend (CoDataDir co) item t) ->
       content (st_fs s') q = content (st_fs s) q).
Proof.
  intros Hc Hid Ht Hok Hst.
  destruct (DeliverOnce_runs (CoDataDir co) co item targets s eq_refl Hc Hid Ht Hok Hst)
    as (o & f' & (s' & R & F & I) & Hst' & Ha & Hu & Hp & Hq).
  exists o, s'. subst f'. split_and!; [done|done| | |].
  - intros t Hin. rewrite Ha, Hu. tauto.
  - intros t Hin. apply Hu in Hin as [Hin Hn].
    destruct (ReadPendingWrite_runs (CoDataDir co) t item s' Hc Hid) as (item' & Hs & s2 & R2 & _);
      [|done|by apply Hp|].
    { rewrite Forall_forall in Ht. by apply Ht. }
    exists item'. split; [done|]. by rewrite R2.
  - intros q Hne. apply Hq. intros t Hin Hn. apply Hne, Hu. done.
Qed.

(** A target that misses the delivery of a creation and then that of a patch
    of the same document is left with the patch alone, and a member that does not
    hold the document refuses it without changing anything: the pending write of
    the creation is lost for good. *)
Theorem pending_create_lost co created patched targets t s :
  plain_collection (Collection created) = true -> SafeID (ID created) = true ->
  Collection patched = Collection created -> ID patched = ID created ->
  Command patched = "patch" -> item_ok created -> item_ok patched ->
  Forall (fun t => in_string "/" t = false) targets -> t ∈ targets ->
  pushOne co t created = false -> pushOne co t patched = false ->
  store_ok (CoDataDir co) (st_fs s) ->
  let s1 := snd (DeliverOnce co created targets s) in
  let s2 := snd (DeliverOnce co patched targets s1) in
  exists item', fst (ReadPendingWrite (CoDataDir co) (Collection created) t (ID created) s2) = Ok item' /\
    same_item patched item' /\
    forall readerDir rs, content (st_fs rs) (DocumentPath readerDir (Collection created) (ID created)) = None ->
      is_ok (fst (Apply readerDir item' rs)) = false /\
      st_fs (snd (Apply readerDir item' rs)) = st_fs rs.
Proof.
  intros Hc Hid Ec Ei Ecmd Ok1 Ok2 Ht Hin P1 P2 Hst s1 s2.
  destruct (DeliverOnce_runs (CoDataDir co) co created targets s eq_refl Hc Hid Ht Ok1 Hst)
    as (o1 & f1 & (s1' & R1 & F1 & I1) & Hst1 & _).
  assert (s1 = s1') as -> by (unfold s1; by rewrite R1). rewrite <-F1 in Hst1.
  rewrite <-Ec in Hc. rewrite <-Ei in Hid.
  destruct (DeliverOnce_runs (CoDataDir co) co patched targets s1' eq_refl Hc Hid Ht Ok2 Hst1)
    as (o2 & f2 & (s2' & R2 & F2 & I2) & Hst2 & _ & _ & Hp2 & _).
  assert (s2 = s2') as -> by (unfold s2; by rewrite R2). subst f2.
  rewrite Forall_forall in Ht.
  destruct (ReadPendingWrite_runs (CoDataDir co) t patched s2' Hc Hid (Ht _ Hin) Ok2)
    as (item' & Hs & s3 & R3 & _); [by apply Hp2|].
  exists item'. rewrite <-Ec, <-Ei, R3. split_and!; [done|done|].
  intros readerDir rs Hnone. destruct Hs as (Sc & Si & _ & _ & _ & Scmd & _).
  unfold Apply. rewrite <-Scmd, Ecmd. simpl. unfold applyPatch. rewrite <-Sc, <-Si.
  destruct (ReadDocumentValue_missing _ rs Hnone) as (e & rs' & Rr & Fr & _).
  unfold mbind, M_bind. rewrite Rr. done.
Qed.
End properties.
