(* ===== verification/Operation.v ===== *)
(** * Package replication: durable operations

    [operation.go] and [resume.go] of [internal/replication]: the record an SOT
    member keeps of an operation until every target has acknowledged it, and the
    resumption of incomplete operations when a server starts. *)

From S2P Require Import Prelude GoStrings World Shard Json Config Store Attach Replication.

Inductive State :=
| StateReceived
| StateValidated
| StateCommittedLocal
| StateReplicating
| StateReplicated
| StateFailed
| StateOther (s : string).      (* any other text of a record *)

#[export] Instance State_eq_dec : EqDecision State.
Proof. solve_decision. Defined.

Definition state_text (s : State) : string :=
  match s with
  | StateReceived => "received"
  | StateValidated => "validated"
  | StateCommittedLocal => "committedLocal"
  | StateReplicating => "replicating"
  | StateReplicated => "replicated"
  | StateFailed => "failed"
  | StateOther t => t
  end.

Definition state_of (t : string) : State :=
  if t =? "received" then StateReceived
  else if t =? "validated" then StateValidated
  else if t =? "committedLocal" then StateCommittedLocal
  else if t =? "replicating" then StateReplicating
  else if t =? "replicated" then StateReplicated
  else if t =? "failed" then StateFailed
  else StateOther t.

Definition Terminal (s : State) : bool :=
  match s with StateReplicated | StateFailed => true | _ => false end.

(** Slices and maps are [None] when nil; times are the texts encoding/json prints. *)
Record Operation := mkOperation {
  OpID : string;
  OpItem : DocumentWorkItem;
  OpState : State;
  OpTargets : option (list string);
  OpAcknowledged : option (list string);
  OpResponse : option fields;
  OpCreatedAt : string;
  OpUpdatedAt : string;
}.

(** The clock and the texts of times: [read_time] gives the text of the time it
    read. *)
Class Clock := {
  now : nat -> string;
  read_time : string -> option string;
}.

(** A time that was printed reads back as itself. *)
Class ClockLaws `{Clock} := {
  now_read : forall n, read_time (now n) = Some (now n);
  now_valid : forall n, ValidString (now n) = true;
}.

Definition zero_time : string := "0001-01-01T00:00:00Z".

Definition omit_strings (k : string) (l : option (list string)) : fields :=
  match l with None | Some [] => [] | Some l => [(k, JArr (map JStr l))] end.

Definition omit_map (k : string) (m : option fields) : fields :=
  match m with None | Some [] => [] | Some m => [(k, map_order (JObj m))] end.

Section codec.
Context `{GoJSON} `{Clock}.

Definition operation_json (op : Operation) : result json :=
  result_bind (item_json (OpItem op)) (fun item =>
    Ok (JObj ([("operationId", JStr (OpID op)); ("item", item); ("state", JStr (state_text (OpState op)))] ++
              omit_strings "targets" (OpTargets op) ++ omit_strings "acknowledged" (OpAcknowledged op) ++
              omit_map "response" (OpResponse op) ++
              [("createdAt", JStr (OpCreatedAt op)); ("updatedAt", JStr (OpUpdatedAt op))]))).

Definition time_field (v : json) (k : string) : result string :=
  match Get v k with
  | None | Some JNull => Ok zero_time
  | Some (JStr t) => match read_time t with Some t' => Ok t' | None => Err (errorf "not a time") end
  | Some _ => Err (errorf "not a time")
  end.

Definition map_field (v : json) (k : string) : result (option fields) :=
  match Get v k with
  | None | Some JNull => Ok None
  | Some (JObj m) => Ok (Some (map (fun kv => (fst kv, floats (snd kv))) m))
  | Some _ => Err (errorf "not an object")
  end.

Definition no_item : DocumentWorkItem := mkItem "" "" "" "" "" "" [] "".

Definition item_field (v : json) (k : string) : result DocumentWorkItem :=
  match Get v k with
  | None | Some JNull => Ok no_item
  | Some w => item_of_json w
  end.

Definition operation_of_json (v : json) : result Operation :=
  match v with
  | JNull => Ok (mkOperation "" no_item (StateOther "") None None None zero_time zero_time)
  | JObj _ =>
      result_bind (string_field v "operationId") (fun id =>
      result_bind (item_field v "item") (fun item =>
      result_bind (string_field v "state") (fun state =>
      result_bind (strings_field v "targets") (fun targets =>
      result_bind (strings_field v "acknowledged") (fun acked =>
      result_bind (map_field v "response") (fun response =>
      result_bind (time_field v "createdAt") (fun created =>
      result_bind (time_field v "updatedAt") (fun updated =>
      Ok (mkOperation id item (state_of state) targets acked response created updated)))))))))
  | _ => Err (errorf "not an object")
  end.
End codec.

Section operations.
Context `{Env} `{OJSON} `{GoJSON} `{Net} `{Clock}.

Definition time_now : M string := fun s => (now (st_tick s), s).

(** [op] is updated in place: the new value is returned. *)
Definition Save (dataDir : path) (op : Operation) : M (Operation * result unit) :=
  t ← time_now;
  let op := mkOperation (OpID op) (OpItem op) (OpState op) (OpTargets op) (OpAcknowledged op)
              (OpResponse op) (OpCreatedAt op) t in
  match operation_json op with
  | Err e => mret (op, Err e)
  | Ok v =>
      r ← WriteFileAtomic (OperationPath dataDir (OpID op)) (MarshalIndent v +:+ newline);
      mret (op, r)
  end.

Definition with_state (op : Operation) (state : State) : Operation :=
  mkOperation (OpID op) (OpItem op) state (OpTargets op) (OpAcknowledged op) (OpResponse op)
    (OpCreatedAt op) (OpUpdatedAt op).

Definition SetState (dataDir : path) (op : Operation) (state : State)
    : M (Operation * result unit) :=
  Save dataDir (with_state op state).

Definition Begin (dataDir : path) (item : DocumentWorkItem) : M (result Operation) :=
  if OperationID item =? "" then mret (Err (errorf "replication: operationId is required"))
  else
    t ← time_now;
    p ← Save dataDir (mkOperation (OperationID item) item StateReceived None None None t zero_time);
    mret (result_bind (snd p) (fun _ => Ok (fst p))).

Definition Load (dataDir : path) (operationID : string) : M (result Operation) :=
  data <-? ReadFile (OperationPath dataDir operationID);
  mret (result_bind (Unmarshal data) operation_of_json).

Fixpoint list_incomplete (dataDir : path) (entries : list dir_entry) : M (list Operation) :=
  match entries with
  | [] => mret []
  | (name, dir) :: entries' =>
      if dir || negb (HasSuffix name ".json") then list_incomplete dataDir entries'
      else
        r ← Load dataDir (TrimSuffix name ".json");
        rest ← list_incomplete dataDir entries';
        mret (match r with
              | Err _ => rest
              | Ok op => if Terminal (OpState op) then rest else op :: rest
              end)
  end.

Definition ListIncomplete (dataDir : path) : M (result (list Operation)) :=
  r ← ReadDir (OperationsDir dataDir);
  match r with
  | Err e => if is_not_exist e then mret (Ok []) else mret (Err e)
  | Ok entries => l ← list_incomplete dataDir entries; mret (Ok l)
  end.

(** ** Resumption *)

Definition acked (op : Operation) : list string := default [] (OpAcknowledged op).

Definition with_targets (op : Operation) (targets : option (list string)) : Operation :=
  mkOperation (OpID op) (OpItem op) (OpState op) targets (OpAcknowledged op) (OpResponse op)
    (OpCreatedAt op) (OpUpdatedAt op).

(** [append] to a slice: appending nothing to a nil slice leaves it nil. *)
Definition with_acks (op : Operation) (more : list string) : Operation :=
  mkOperation (OpID op) (OpItem op) (OpState op) (OpTargets op)
    (match OpAcknowledged op, more with None, [] => None | a, _ => Some (default [] a ++ more) end)
    (OpResponse op) (OpCreatedAt op) (OpUpdatedAt op).

Definition remaining (op : Operation) (allTargets : list string) : list string :=
  List.filter (fun t => negb (containsString (acked op) t)) allTargets.

(** The operation after the attempt, with the note or the error. *)
Definition ReplicateOperation (c : Coordinator) (op : Operation) (allTargets : option (list string))
    : M (Operation * result (option json)) :=
  let targets := default [] allTargets in
  p ← SetState (CoDataDir c) (with_targets op allTargets) StateReplicating;
  let '(op, r) := p in
  match r with
  | Err e => mret (op, Err e)
  | Ok _ =>
      let finish op : M (Operation * result (option json)) :=
        p ← SetState (CoDataDir c) op StateReplicated;
        mret (fst p, result_bind (snd p) (fun _ => Ok None)) in
      match remaining op targets with
      | [] => finish op
      | rest =>
          outcome ← ReplicateDocumentWrite c (OpItem op) rest;
          let op := with_acks op (Acknowledged outcome) in
          match Unacknowledged outcome with
          | [] => finish op
          | un =>
              p ← Save (CoDataDir c) op;
              mret (fst p, result_bind (snd p) (fun _ =>
                Ok (Some (BuildNote (mkOutcome targets (acked (fst p)) un (TimeoutMs outcome))))))
          end
      end
  end.

(** A nil slice of targets, when there are none. *)
Definition slice (l : list string) : option (list string) :=
  match l with [] => None | _ => Some l end.

Fixpoint resume_all (c : Coordinator) (ops : list Operation) (firstErr : option error)
    : M (list Operation * option error) :=
  match ops with
  | [] => mret ([], firstErr)
  | op :: ops' =>
      let targets := match OpTargets op with
                     | Some l => Some l
                     | None => slice (TargetsForAssignment c
                                 (AssignmentForSlot (CoCfg c) (Slot (ID (OpItem op)))))
                     end in
      p ← ReplicateOperation c op targets;
      let firstErr := match snd p, firstErr with Err e, None => Some e | _, _ => firstErr end in
      rest ← resume_all c ops' firstErr;
      mret (fst p :: fst rest, snd rest)
  end.

Definition ResumeIncomplete (c : Coordinator) : M (result (list Operation * option error)) :=
  ops <-? ListIncomplete (CoDataDir c);
  r ← resume_all c ops None;
  mret (Ok r).
End operations.
