(* ===== verification/OperationSpec.v ===== *)
(** * Durable operations

    What an attempt to replicate an operation does to its record, whatever system
    call fails. *)

From S2P Require Import Prelude GoStrings World Shard Json Config Store Attach AttachSpec Replication Operation.

Lemma OperationPath_eq dataDir id :
  SafeID id = true -> OperationPath dataDir id = (id +:+ ".json") :: ".operations" :: dataDir.
Proof.
  intros Hid. unfold OperationPath, OperationsDir. rewrite (join_plain1 dataDir ".operations") by done.
  apply join_plain1. by apply plain_doc_name; [|simpl; lia|].
Qed.

Section attempts.
Context `{E : Env} `{OJSON} `{GoJSON} `{Net} `{Clock}.
Context (co : Coordinator).

Notation D := (CoDataDir co).

(** The text of a record. *)
Definition record_text (op : Operation) : option string :=
  match operation_json op with Ok v => Some (MarshalIndent v +:+ newline) | Err _ => None end.

Definition on_disk (op : Operation) (f : fs) : Prop :=
  exists text, record_text op = Some text /\ content f (OperationPath D (OpID op)) = Some text.

Definition same_but_time (op op' : Operation) : Prop :=
  OpID op' = OpID op /\ OpItem op' = OpItem op /\ OpState op' = OpState op /\
  OpTargets op' = OpTargets op /\ OpAcknowledged op' = OpAcknowledged op.

Lemma Save_spec op s :
  SafeID (OpID op) = true ->
  wp (Save D op) (fun p s' =>
    same_but_time op (fst p) /\
    (forall q, is_temp q = false -> q <> OperationPath D (OpID op) -> content (st_fs s') q = content (st_fs s) q) /\
    (if is_ok (snd p) then on_disk (fst p) (st_fs s')
     else content (st_fs s') (OperationPath D (OpID op)) = content (st_fs s) (OperationPath D (OpID op)))) s.
Proof.
  intros Hid. set (P := OperationPath D (OpID op)).
  assert (is_temp P = false) as HP by (unfold P; rewrite OperationPath_eq by done; by apply SafeID_not_temp).
  unfold Save. apply wp_bind. unfold time_now, wp at 1.
  set (op' := mkOperation _ _ _ _ _ _ _ _). destruct (operation_json op') as [v|e] eqn:Ej.
  2:{ apply wp_ret. simpl. split; [done|]. done. }
  change (OperationPath D (OpID op')) with P.
  apply wp_bind. eapply wp_mono; [by apply WriteFileAtomic_spec|]. intros [u|e] s1 W; cbv beta in W; apply wp_ret; simpl.
  - destruct W as [W K]. split; [done|]. split; [|eexists; unfold record_text; by rewrite Ej].
    intros q Hq Hne. by eapply written_frame.
  - split; [done|]. split; [|by eapply temps_frame]. intros q Hq _. by eapply temps_frame.
Qed.

(** The verdicts of a delivery do not depend on failing system calls. *)
Lemma finish_all_verdicts item o ts s :
  wp (finish_all co item o ts) (fun o' _ =>
    Acknowledged o' = Acknowledged o ++ List.filter (fun t => pushOne co t item) ts /\
    Unacknowledged o' = Unacknowledged o ++ List.filter (fun t => negb (pushOne co t item)) ts) s.
Proof.
  revert o s. induction ts as [|t ts IH]; intros o s; cbn [finish_all List.filter].
  { by rewrite !app_nil_r. }
  apply wp_bind. unfold finish_push. destruct (pushOne co t item).
  - apply wp_ret. eapply wp_mono; [apply IH|]. intros o' s' [-> ->]. simpl. by rewrite <-!app_assoc.
  - apply wp_bind. eapply (wp_mono _ (fun _ _ => True)); [unfold wp; by destruct (WritePendingWrite _ _ _ _ _)|].
    intros r s1 _. apply wp_ret. eapply wp_mono; [apply IH|]. intros o' s' [-> ->]. simpl. by rewrite <-!app_assoc.
Qed.

Lemma delivery_verdicts item ts s :
  plain_collection (Collection item) = true -> SafeID (ID item) = true ->
  Forall (fun t => in_string "/" t = false) ts ->
  wp (ReplicateDocumentWrite co item ts) (fun o s' =>
    keeps (pending_touch D item) (st_fs s) (st_fs s') /\
    (forall t, t ∈ Acknowledged o <-> t ∈ ts /\ pushOne co t item = true) /\
    (forall t, t ∈ Unacknowledged o <-> t ∈ ts /\ pushOne co t item = false)) s.
Proof.
  intros Hc Hid Ht. pose proof (DeliverOnce_keeps co item ts s Hc Hid Ht) as K.
  pose proof (finish_all_verdicts item (mkOutcome ts [] [] (CoTimeoutMs co)) (finish_order ts) s) as V.
  unfold DeliverOnce, ReplicateDocumentWrite, wp in *. destruct (finish_all _ _ _ _ s) as [o s'].
  destruct V as [-> ->]. split; [exact K|]. simpl.
  split; intros t; rewrite elem_of_lfilter, finish_order_perm, ?negb_true_iff; done.
Qed.

(** A record that claims no more than was acknowledged. *)
Definition truthful (targets : list string) (op : Operation) : Prop :=
  OpState op = StateReplicating \/
  (OpState op = StateReplicated /\ forall t, t ∈ targets -> t ∈ acked op).

Record attempt (op : Operation) (targets : list string) (f : fs) (op' : Operation)
    (r : result (option json)) (f' : fs) : Prop := {
  at_truthful : truthful targets op';
  at_kept : forall t, t ∈ acked op -> t ∈ acked op';
  at_acked : forall t, t ∈ acked op' -> t ∈ acked op \/ (t ∈ targets /\ pushOne co t (OpItem op) = true);
  at_disk : content f' (OperationPath D (OpID op)) = content f (OperationPath D (OpID op)) \/
            exists rec, truthful targets rec /\ OpID rec = OpID op /\ on_disk rec f';
  at_saved : is_ok r = true -> on_disk op' f';
  at_done : r = Ok None -> OpState op' = StateReplicated;
  at_note : forall n, r = Ok (Some n) -> OpState op' = StateReplicating /\
              exists t, t ∈ targets /\ t ∉ acked op /\ pushOne co t (OpItem op) = false;
}.

Lemma remaining_spec op targets t :
  t ∈ remaining op targets <-> t ∈ targets /\ t ∉ acked op.
Proof.
  unfold remaining. rewrite elem_of_lfilter, negb_true_iff. unfold containsString.
  split; intros [H1' H2']; (split; [done|]).
  - intros Hin. apply not_true_iff_false in H2'. apply H2', existsb_exists. exists t.
    split; [by apply list_elem_of_In|apply String.eqb_refl].
  - apply not_true_iff_false. intros (x & Hx%list_elem_of_In & Heq%String.eqb_eq)%existsb_exists. by subst.
Qed.

(** The last step of an attempt in which nothing is left to acknowledge. *)
Lemma finish_attempt op targets f op1 s :
  SafeID (OpID op) = true -> OpID op1 = OpID op -> OpItem op1 = OpItem op ->
  (forall t, t ∈ acked op -> t ∈ acked op1) ->
  (forall t, t ∈ acked op1 -> t ∈ acked op \/ (t ∈ targets /\ pushOne co t (OpItem op) = true)) ->
  (forall t, t ∈ targets -> t ∈ acked op1) ->
  (exists rec, truthful targets rec /\ OpID rec = OpID op /\ on_disk rec (st_fs s)) ->
  wp (p ← SetState D op1 StateReplicated; mret (fst p, result_bind (snd p) (fun _ => Ok None)))
    (fun p s' => attempt op targets f (fst p) (snd p) (st_fs s')) s.
Proof.
  intros Hid Ei Em Hk Ha Hall (rec & Hrec & Hri & text & Ht & Hd). apply wp_bind. unfold SetState.
  eapply wp_mono; [apply Save_spec; simpl; by rewrite Ei|]. intros [op2 r] s1 ((I2 & M2 & S2 & T2 & A2) & _ & Hdisk).
  simpl in *. apply wp_ret. simpl. assert (acked op2 = acked op1) as EA by (unfold acked; by rewrite A2).
  assert (truthful targets op2) as Htr by (right; by rewrite S2, EA).
  rewrite Ei in *. split; rewrite ?EA; try done.
  - destruct r as [u|e]; simpl in Hdisk; [right; by exists op2|]. right. exists rec. split; [done|]. split; [done|].
    exists text. split; [done|]. rewrite Hri in *. by rewrite Hdisk.
  - destruct r; [|done]. intros _. done.
  - intros n. by destruct r.
Qed.

Lemma attempt_spec op targets s :
  SafeID (OpID op) = true -> plain_collection (Collection (OpItem op)) = true ->
  SafeID (ID (OpItem op)) = true -> Forall (fun t => in_string "/" t = false) (default [] targets) ->
  wp (ReplicateOperation co op targets) (fun p s' =>
    attempt op (default [] targets) (st_fs s) (fst p) (snd p) (st_fs s')) s.
Proof.
  intros Hid Hc Hdoc Hts. unfold ReplicateOperation. set (ts := default [] targets) in *.
  apply wp_bind. unfold SetState at 1. eapply wp_mono; [by apply Save_spec|].
  intros [op1 r] s1 ((I1 & M1 & S1 & T1 & A1) & F1 & Hdisk). simpl in *.
  assert (acked op1 = acked op) as EA by (unfold acked; by rewrite A1).
  assert (truthful ts op1) as Htr by (by left).
  destruct r as [u|e]; simpl in Hdisk.
  2:{ apply wp_ret. split; simpl; rewrite ?EA; try done; auto. }
  destruct (remaining op1 ts) as [|t0 rest] eqn:Er.
  { apply finish_attempt; rewrite ?EA; try done; [auto| |by exists op1].
    intros t Ht. destruct (decide (t ∈ acked op)) as [|Hn]; [done|]. exfalso.
    assert (t ∈ remaining op1 ts) as Hin by (apply remaining_spec; by rewrite EA). rewrite Er in Hin. set_solver. }
  rewrite <-Er. apply wp_bind. eapply wp_mono; [apply delivery_verdicts|]; rewrite ?M1; try done.
  { rewrite Forall_forall in *. intros t [Ht _]%remaining_spec. by apply Hts. }
  intros o s2 (K2 & Hack & Hun). setoid_rewrite remaining_spec in Hack. setoid_rewrite remaining_spec in Hun.
  rewrite EA in Hack, Hun.
  assert (forall op', OpID op' = OpID op -> on_disk op' (st_fs s1) -> on_disk op' (st_fs s2)) as Hkeep.
  { intros op' Ei (text & Ht & Hd). exists text. split; [done|]. rewrite <-Hd. apply K2. rewrite Ei, OperationPath_eq by done.
    intros (n & _ & [Heq|[Htmp _]]); [apply (f_equal length) in Heq; simpl in Heq; lia|].
    simpl in Htmp. by rewrite (SafeID_not_temp _ ".json") in Htmp. }
  set (op2 := with_acks op1 (Acknowledged o)).
  assert (forall t, t ∈ acked op2 <-> t ∈ acked op \/ t ∈ Acknowledged o) as EA2.
  { intros t. rewrite <-EA. unfold op2, with_acks, acked at 1. cbn [OpAcknowledged].
    unfold acked. destruct (OpAcknowledged op1), (Acknowledged o); simpl; rewrite ?elem_of_app; set_solver. }
  assert (forall t, t ∈ acked op2 -> t ∈ acked op \/ (t ∈ ts /\ pushOne co t (OpItem op) = true)) as Hfrom.
  { intros t [?|Ht]%EA2; [by left|right]. apply Hack in Ht. tauto. }
  destruct (Unacknowledged o) as [|u0 us] eqn:Eu.
  { apply finish_attempt; try done.
    - intros t Ht. apply EA2. by left.
    - intros t Ht. apply EA2. destruct (decide (t ∈ acked op)) as [|Hn]; [by left|right]. apply Hack.
      split; [done|]. destruct (pushOne co t (OpItem op)) eqn:Ep; [done|]. exfalso.
      assert (t ∈ []) as Hin by (by apply Hun). set_solver.
    - exists op1. split; [done|]. split; [done|]. by apply Hkeep. }
  apply wp_bind. eapply wp_mono; [apply Save_spec; simpl; by rewrite I1|].
  intros [op3 r3] s3 ((I3 & M3 & S3 & T3 & A3) & _ & Hdisk3). simpl in *. apply wp_ret. simpl.
  assert (acked op3 = acked op2) as EA3 by (unfold acked; by rewrite A3).
  assert (truthful ts op3) as Htr3 by (left; by rewrite S3).
  split; rewrite ?EA3; try done.
  - intros t Ht. apply EA2. by left.
  - destruct r3 as [u3|e3]; simpl in Hdisk3; right.
    + exists op3. split; [done|]. split; [by rewrite I3|done].
    + exists op1. split; [done|]. split; [done|]. destruct (Hkeep op1 I1 Hdisk) as (text & Ht & Hd).
      exists text. split; [done|]. by rewrite Hdisk3.
  - by destruct r3.
  - by destruct r3.
  - intros n Hn. rewrite S3. split; [done|]. exists u0.
    assert (u0 ∈ u0 :: us) as Hin by (by left). apply Hun in Hin. tauto.
Qed.

(** C29: an attempt to replicate an operation never forgets an acknowledgement and
    records none that was not given; whatever system call fails, the record on disk
    is the old one or says [replicating], or says [replicated] and names every
    target as acknowledged.  An attempt that succeeds leaves its result on disk: it
    ends without a note only when the operation is replicated, and with a note only
    when a target that had not acknowledged before did not do so now. *)
Theorem ReplicateOperation_truthful op targets s :
  SafeID (OpID op) = true -> plain_collection (Collection (OpItem op)) = true ->
  SafeID (ID (OpItem op)) = true -> Forall (fun t => in_string "/" t = false) (default [] targets) ->
  wp (ReplicateOperation co op targets) (fun p s' =>
    attempt op (default [] targets) (st_fs s) (fst p) (snd p) (st_fs s')) s.
Proof. apply attempt_spec. Qed.
End attempts.
