(* ===== verification/FileRepl.v ===== *)
(** * Package replication, attachments: delivery and catch-up

    [file_workitem.go], [file_apply.go], [file_push.go] and [file_catchup.go] of
    [internal/replication], with the handlers of [internal/server/http_files.go]
    they talk to, from the point where the caller is authenticated. *)

From S2P Require Import Prelude GoStrings Sha256 World Shard Json Config Store Attach Replication.

(** ** Work items *)

Record FileWorkItem := mkFileItem {
  FwCollection : string;
  FwID : string;
  FwFilename : string;
  FwContentType : string;
  FwByteSize : Z;
  FwSHA256 : string;
  FwVersion : string;
  FwOperationID : string;
  FwCommand : string;
}.

Definition file_item_json (i : FileWorkItem) : json :=
  JObj ([("collection", JStr (FwCollection i)); ("id", JStr (FwID i)); ("filename", JStr (FwFilename i))] ++
        omit_empty "contentType" (FwContentType i) ++ omit_zero "byteSize" (FwByteSize i) ++
        omit_empty "sha256" (FwSHA256 i) ++
        [("version", JStr (FwVersion i)); ("operationId", JStr (FwOperationID i));
         ("command", JStr (FwCommand i))]).

Definition no_file_item : FileWorkItem := mkFileItem "" "" "" "" 0 "" "" "" "".

(** [json.Unmarshal] into the struct; [null] leaves it empty. *)
Definition file_item_of_json (v : json) : result FileWorkItem :=
  match v with
  | JNull => Ok no_file_item
  | JObj _ =>
      result_bind (string_field v "collection") (fun collection =>
      result_bind (string_field v "id") (fun id =>
      result_bind (string_field v "filename") (fun filename =>
      result_bind (string_field v "contentType") (fun ct =>
      result_bind (int_field v "byteSize") (fun size =>
      result_bind (string_field v "sha256") (fun sha =>
      result_bind (string_field v "version") (fun version =>
      result_bind (string_field v "operationId") (fun op =>
      result_bind (string_field v "command") (fun command =>
      Ok (mkFileItem collection id filename ct size sha version op command))))))))))
  | _ => Err (errorf "not an object")
  end.

Definition PendingFileWritePath (dataDir : path) (collection targetServer docID filename : string)
    : path :=
  join (PendingFileWritesDir dataDir collection)
    [targetServer +:+ "." +:+ docID +:+ "." +:+ filename +:+ ".json"].

Definition FileWorkItemID (serverName docID filename : string) : string :=
  serverName +:+ "-" +:+ docID +:+ "-" +:+ filename.

(** The texts before and after every occurrence of a character, in order. *)
Fixpoint splits (c : ascii) (s : string) : list (string * string) :=
  match s with
  | EmptyString => []
  | String x s' =>
      let rest := map (fun p => (String x (fst p), snd p)) (splits c s') in
      if Ascii.eqb x c then (EmptyString, s') :: rest else rest
  end.

Definition file_pair (p : string * string) : bool := SafeID (fst p) && SafeFileName (snd p).

(** The longest document identifier wins. *)
Definition longer_id (best : option (string * string)) (p : string * string)
    : option (string * string) :=
  if file_pair p then
    match best with
    | None => Some p
    | Some (docID, _) =>
        if (String.length docID <? String.length (fst p))%nat then Some p else best
    end
  else best.

Definition ParseFileWorkItemID (itemID serverName : string) : option (string * string) :=
  let prefix := serverName +:+ "-" in
  if negb (HasPrefix itemID prefix) then None
  else foldl longer_id None (splits "-" (str_drop (String.length prefix) itemID)).

Definition parsePendingFileWriteName (name targetServer : string) : option (string * string) :=
  let prefix := targetServer +:+ "." in
  if negb (HasPrefix name prefix) || negb (HasSuffix name ".json") then None
  else
    let rest := TrimSuffix (str_drop (String.length prefix) name) ".json" in
    match Cut rest "." with
    | None => None
    | Some (before, _) =>
        if before =? "" then None
        else List.find file_pair (rev (List.filter (fun p => fst p <>? "") (splits "." rest)))
    end.

Section pending.
Context `{Env} `{OJSON} `{GoJSON}.

Definition WritePendingFileWrite (dataDir : path) (collection targetServer : string)
    (item : FileWorkItem) : M (result unit) :=
  MkdirAll (PendingFileWritesDir dataDir collection) ;?
  WriteFileAtomic (PendingFileWritePath dataDir collection targetServer (FwID item) (FwFilename item))
    (MarshalIndent (file_item_json item) +:+ newline).

Definition ReadPendingFileWrite (dataDir : path) (collection targetServer docID filename : string)
    : M (result FileWorkItem) :=
  data <-? ReadFile (PendingFileWritePath dataDir collection targetServer docID filename);
  mret (result_bind (Unmarshal data) file_item_of_json).

Definition DeletePendingFileWrite (dataDir : path) (collection targetServer docID filename : string)
    : M (result bool) :=
  let p := PendingFileWritePath dataDir collection targetServer docID filename in
  r ← Stat p;
  match r with
  | Err e => if is_not_exist e then mret (Ok false) else mret (Err e)
  | Ok _ => Remove p ;? mret (Ok true)
  end.

Fixpoint find_pending_file (dataDir : path) (targetServer docID filename : string)
    (dirs : list string) : M (result (string * FileWorkItem)) :=
  match dirs with
  | [] => mret (Err ErrNotExist)
  | c :: dirs' =>
      r ← ReadPendingFileWrite dataDir c targetServer docID filename;
      match r with
      | Ok it => mret (Ok (c, it))
      | Err e => if negb (is_not_exist e) then mret (Err e)
                 else find_pending_file dataDir targetServer docID filename dirs'
      end
  end.

Definition FindPendingFileWrite (dataDir : path) (targetServer docID filename : string)
    : M (result (string * FileWorkItem)) :=
  dirs <-? collectionDirs dataDir;
  find_pending_file dataDir targetServer docID filename dirs.

Definition pending_file_ids (targetServer : string) (entries : list dir_entry) : list string :=
  flat_map (fun e : dir_entry =>
    let name := fst e in
    if snd e || negb (HasSuffix name ".json") || negb (HasPrefix name (targetServer +:+ ".")) then []
    else match parsePendingFileWriteName name targetServer with
         | Some (docID, filename) => [FileWorkItemID targetServer docID filename]
         | None => []
         end) entries.

Fixpoint list_pending_files (dataDir : path) (targetServer : string) (dirs : list string)
    : M (result (list string)) :=
  match dirs with
  | [] => mret (Ok [])
  | c :: dirs' =>
      r ← ReadDir (PendingFileWritesDir dataDir c);
      match r with
      | Err e => if is_not_exist e then list_pending_files dataDir targetServer dirs' else mret (Err e)
      | Ok entries =>
          rest <-? list_pending_files dataDir targetServer dirs';
          mret (Ok (pending_file_ids targetServer entries ++ rest))
      end
  end.

Definition ListPendingFileWorkItemIDs (dataDir : path) (targetServer : string) (limit : Z)
    : M (result (list string * nat)) :=
  dirs <-? collectionDirs dataDir;
  all <-? list_pending_files dataDir targetServer dirs;
  let all := merge_sort str_le all in
  mret (Ok (if (0 <? limit)%Z && (limit <? Z.of_nat (length all))%Z
            then take (Z.to_nat limit) all else all, length all)).

(** ** Applying a work item on a read member *)

(** The boolean is [applied]. *)
Definition ApplyMetadataOnly (dataDir : path) (item : FileWorkItem) : M (result bool) :=
  if FwCommand item <>? "fileDelete"
  then mret (Err (errorf "replication: ApplyMetadataOnly expects fileDelete"))
  else
    entries <-? ReadFilesManifest dataDir (FwCollection item) (FwID item);
    match LookupFileEntry entries (FwFilename item) with
    | None => mret (Ok true)
    | Some _ =>
        let entry := mkFileEntry (FwFilename item) (FwContentType item) (FwByteSize item)
                       (FwSHA256 item) (FwVersion item) (FwOperationID item) in
        CommitFileDelete dataDir (FwCollection item) (FwID item) entry ;?
        mret (Ok true)
    end.

(** A failure after staging removes the staged file. *)
Definition unstage {A} (staged : StagedBinary) (e : error) : M (result A) :=
  _ ← Remove (StagedPath staged); mret (Err e).

Definition ApplyStream (dataDir : path) (item : FileWorkItem) (r : source) (maxBytes : Z)
    : M (result bool) :=
  if (FwCommand item <>? "fileCreate") && (FwCommand item <>? "fileUpdate")
  then mret (Err (errorf "replication: ApplyStream expects fileCreate/fileUpdate"))
  else
    entries <-? ReadFilesManifest dataDir (FwCollection item) (FwID item);
    if match LookupFileEntry entries (FwFilename item) with
       | Some existing => (FVersion existing =? FwVersion item) && (FSHA256 existing =? FwSHA256 item)
       | None => false
       end
    then mret (Ok true)
    else
      staged <-? StageWriteBinary dataDir (FwCollection item) (FwID item) (FwFilename item) r maxBytes;
      if (FwSHA256 item <>? "") && (SSHA256 staged <>? FwSHA256 item)
      then unstage staged (errorf "replication: sha256 mismatch")
      else if (0 <? FwByteSize item)%Z && negb (SByteSize staged =? FwByteSize item)%Z
      then unstage staged (errorf "replication: byteSize mismatch")
      else
        let ct := if FwContentType item =? "" then "application/octet-stream" else FwContentType item in
        let entry := mkFileEntry (FwFilename item) ct (SByteSize staged) (SSHA256 staged)
                       (FwVersion item) (FwOperationID item) in
        r ← CommitStagedBinary dataDir (FwCollection item) (FwID item) entry staged;
        match r with
        | Err e => unstage staged e
        | Ok _ => mret (Ok true)
        end.
End pending.

(** ** HTTP replies *)

(** The errors of an envelope as JSON; [path], [expected] and [actual] are left
    out when empty. *)
Definition error_json (e : EError) : json :=
  JObj ([("code", JStr (Code e))] ++ omit_empty "path" (EPath e) ++ [("message", JStr (Message e))] ++
        match Expected e with Some v => [("expected", v)] | None => [] end ++
        match Actual e with Some v => [("actual", v)] | None => [] end).

Definition envelope_json (r : Envelope) : json :=
  map_order (JObj (map (fun kv => (fst kv, match snd kv with
                                           | EJ v => v
                                           | EErrors l => JArr (map error_json l)
                                           end)) r)).

(** A JSON envelope, or the contents of an attachment with the announced length. *)
Inductive reply_body :=
| JsonBody (r : Envelope)
| FileBody (length : Z) (data : string).

Record Reply := mkReply {
  RStatus : Z;
  RHeaders : list (string * string);
  RBody : reply_body;
}.

(** [writeJSON]: every envelope, also one of failure, goes out with status 200. *)
Definition writeJSON (r : Envelope) : Reply :=
  mkReply 200 [("Content-Type", "application/json")] (JsonBody r).

Definition accepted (r : Reply) : bool := (200 <=? RStatus r)%Z && (RStatus r <? 300)%Z.

Definition header (r : Reply) (k : string) : string := default "" (aget (RHeaders r) k).

(** The value of a header on the other side: net/http trims ASCII white space at
    both ends. *)
Definition header_space (c : ascii) : bool :=
  let b := byte_of c in (b =? 32)%Z || (b =? 9)%Z || (b =? 10)%Z || (b =? 13)%Z.

Fixpoint trim_left (s : string) : string :=
  match s with
  | String c s' => if header_space c then trim_left s' else s
  | EmptyString => EmptyString
  end.

Fixpoint trim_right (s : string) : string :=
  match s with
  | EmptyString => EmptyString
  | String c s' => let t := trim_right s' in if header_space c && (t =? "") then "" else String c t
  end.

Definition TrimString (s : string) : string := trim_right (trim_left s).

(** ** Delivery from the SOT *)

(** The request of a push, as the target reads it. *)
Record FileRequest := mkFileRequest {
  FrTarget : string;
  FrItem : FileWorkItem;
  FrBody : string;
}.

Definition push_request (target : string) (item : FileWorkItem) (body : string) : FileRequest :=
  let h := TrimString in
  let deleted := FwCommand item =? "fileDelete" in
  mkFileRequest (h target)
    (mkFileItem (h (FwCollection item)) (h (FwID item)) (h (FwFilename item))
       (if deleted || (FwContentType item =? "") then "application/octet-stream" else h (FwContentType item))
       (if deleted then 0%Z else FwByteSize item)
       (if deleted then "" else h (FwSHA256 item))
       (h (FwVersion item)) (h (FwOperationID item)) (h (FwCommand item)))
    body.

(** The network of one delivery: what comes back for a request within the
    timeout, if anything, and the order in which the goroutines finish.  They work
    on different pending files and different targets. *)
Class FileNet := {
  file_reply : string -> FileRequest -> option Reply;
  file_finish_order : list string -> list string;
  file_finish_order_perm : forall l, file_finish_order l ≡ₚ l;
}.

Section delivery.
Context `{Env} `{OJSON} `{GoJSON} `{FileNet}.

Definition pushFileOne (c : Coordinator) (target : string) (item : FileWorkItem) : M bool :=
  if ServerBaseURL (CoCfg c) target =? "" then mret false
  else
    let send body : M bool := mret (match file_reply target (push_request target item body) with
                           | Some r => accepted r
                           | None => false
                           end) in
    if FwCommand item =? "fileDelete" then send ""
    else
      r ← OpenBinary (CoDataDir c) (FwCollection item) (FwID item) (FwFilename item);
      match r with
      | Err _ => mret false
      | Ok data => send data
      end.

(** One goroutine of [DeliverFileOnce]. *)
Definition deliver_file_to (c : Coordinator) (item : FileWorkItem) (outcome : PushOutcome)
    (target : string) : M PushOutcome :=
  _ ← WritePendingFileWrite (CoDataDir c) (FwCollection item) target item;
  ok ← pushFileOne c target item;
  match ok with
  | true =>
    _ ← DeletePendingFileWrite (CoDataDir c) (FwCollection item) target (FwID item) (FwFilename item);
    mret (mkOutcome (Required outcome) (Acknowledged outcome ++ [target])
            (Unacknowledged outcome) (TimeoutMs outcome))
  | false =>
    mret (mkOutcome (Required outcome) (Acknowledged outcome)
            (Unacknowledged outcome ++ [target]) (TimeoutMs outcome))
  end.

Fixpoint deliver_file_all (c : Coordinator) (item : FileWorkItem) (outcome : PushOutcome)
    (targets : list string) : M PushOutcome :=
  match targets with
  | [] => mret outcome
  | t :: ts => o ← deliver_file_to c item outcome t; deliver_file_all c item o ts
  end.

Definition DeliverFileOnce (c : Coordinator) (item : FileWorkItem) (targets : list string)
    : M PushOutcome :=
  deliver_file_all c item (mkOutcome targets [] [] (CoTimeoutMs c)) (file_finish_order targets).
End delivery.

(** A nil slice is printed as [null]. *)
Definition slice_json (l : list string) : json :=
  match l with [] => JNull | _ => JArr (map JStr l) end.

Definition BuildFileNote (o : PushOutcome) : json :=
  JObj [("code", JStr "fileReplicationIncomplete");
        ("message", JStr "One or more read/proxy members did not acknowledge the file write within the delivery timeout; the latest desired state remains pending for catch-up.");
        ("required", JArr (map JStr (Required o)));
        ("acknowledged", slice_json (Acknowledged o));
        ("unacknowledged", slice_json (Unacknowledged o));
        ("timeoutMs", JNum (Itoa (TimeoutMs o)))].

(** ** The handlers of server/http_files.go *)

Section handlers.
Context `{Env} `{OJSON} `{GoJSON}.

Definition fail_reply (fs : fields) (code message : string) : Reply :=
  writeJSON (Fail fs [mk_err code message]).

Definition file_limit (cfg : Config) : Z :=
  if (0 <? MaxFileBytes (General cfg))%Z then MaxFileBytes (General cfg) else DefaultMaxFileBytes.

(** The body reaches the handler as the source [body]. *)
Definition handleApplyFileWrite (dataDir : path) (serverName : string) (cfg : Config)
    (req : FileRequest) (body : source) : M Reply :=
  let item := FrItem req in
  if FrTarget req =? "" then
    mret (fail_reply [] "invalidRequest" "X-DatoriumDB-Target-Server is required")
  else if FrTarget req <>? serverName then
    mret (writeJSON (Fail [("targetServer", JStr (FrTarget req))]
      [mkEError "targetServerMismatch" "" "this delivery is not addressed to this server"
         (Some (JStr serverName)) (Some (JStr (FrTarget req)))]))
  else if (FwCollection item =? "") || (FwID item =? "") || (FwFilename item =? "") || (FwCommand item =? "") then
    mret (fail_reply [] "invalidRequest" "file apply headers are incomplete")
  else if negb (SafeFileName (FwFilename item)) then
    mret (fail_reply [] "invalidFileName" "file name is invalid")
  else
    r ← (if FwCommand item =? "fileDelete" then ApplyMetadataOnly dataDir item
         else ApplyStream dataDir item body (file_limit cfg)) : M (result bool);
    match r with
    | Err e => mret (fail_reply [("operationId", JStr (FwOperationID item))] "applyFailed" (err_msg e))
    | Ok applied =>
        mret (writeJSON (OK [("applied", JBool applied); ("operationId", JStr (FwOperationID item))]))
    end.

Definition handleListPendingFileWrites (dataDir : path) (serverName : string) (limit : Z) : M Reply :=
  if serverName =? "" then
    mret (writeJSON (Fail [] [mkEError "invalidRequest" "/serverName" "serverName is required" None None]))
  else
    r ← ListPendingFileWorkItemIDs dataDir serverName limit;
    match r with
    | Err e => mret (fail_reply [("serverName", JStr serverName)] "filesystemError" (err_msg e))
    | Ok (ids, total) =>
        mret (writeJSON (OK [("totalItems", JNum (Itoa (Z.of_nat total))); ("items", JArr (map JStr ids))]))
    end.

Definition handleFetchPendingFileWrite (dataDir : path) (serverName itemID : string) : M Reply :=
  let missing msg : M Reply := mret (fail_reply [("itemId", JStr itemID)] "workItemNotFound" msg) in
  match ParseFileWorkItemID itemID serverName with
  | None => missing "work item ID does not belong to the authenticated server"
  | Some (docID, filename) =>
      r ← FindPendingFileWrite dataDir serverName docID filename;
      match r with
      | Err _ => missing "pending file write not found"
      | Ok (_, item) => mret (writeJSON (OK [("item", file_item_json item)]))
      end
  end.

Definition OpenLocalFileBody (dataDir : path) (item : FileWorkItem) : M (result string) :=
  if FwCommand item =? "fileDelete" then mret (Err (errorf "delete has no body"))
  else OpenBinary dataDir (FwCollection item) (FwID item) (FwFilename item).

Definition handleFetchPendingFileContent (dataDir : path) (serverName itemID : string) : M Reply :=
  let failed code msg : M Reply := mret (fail_reply [("itemId", JStr itemID)] code msg) in
  match ParseFileWorkItemID itemID serverName with
  | None => failed "workItemNotFound" "work item ID does not belong to the authenticated server"
  | Some (docID, filename) =>
      r ← FindPendingFileWrite dataDir serverName docID filename;
      match r with
      | Err _ => failed "workItemNotFound" "pending file write not found"
      | Ok (_, item) =>
          if FwCommand item =? "fileDelete"
          then failed "invalidRequest" "delete pending file writes have no content body"
          else
            r ← OpenLocalFileBody dataDir item;
            match r with
            | Err e => failed "filesystemError" (err_msg e)
            | Ok data =>
                let ct := if FwContentType item =? "" then "application/octet-stream" else FwContentType item in
                mret (mkReply 200
                  [("Content-Type", TrimString ct); ("X-DatoriumDB-SHA256", TrimString (FwSHA256 item));
                   ("X-DatoriumDB-Byte-Size", Itoa (FwByteSize item));
                   ("X-DatoriumDB-Version", TrimString (FwVersion item));
                   ("X-DatoriumDB-Operation-Id", TrimString (FwOperationID item))]
                  (FileBody (FwByteSize item) data))
            end
      end
  end.

Definition handleCompletePendingFileWrite (dataDir : path) (serverName itemID : string) : M Reply :=
  let done existing : M Reply := mret (writeJSON (OK (("completed", JBool true) :: existing))) in
  match ParseFileWorkItemID itemID serverName with
  | None => mret (fail_reply [("itemId", JStr itemID)] "workItemNotFound"
                    "work item ID does not belong to the authenticated server")
  | Some (docID, filename) =>
      r ← FindPendingFileWrite dataDir serverName docID filename;
      match r with
      | Err _ => done [("existing", JBool false)]
      | Ok (collection, _) =>
          r ← DeletePendingFileWrite dataDir collection serverName docID filename;
          match r with
          | Err e => mret (fail_reply [("itemId", JStr itemID)] "filesystemError" (err_msg e))
          | Ok false => done [("existing", JBool false)]
          | Ok true => done []
          end
      end
  end.
End handlers.

(** ** Catch-up of a read member *)

(** The item identifier of a request path, as the server decodes it: a query or
    a fragment is cut off, percent escapes are decoded.  The flag says that
    something was cut off. *)
Fixpoint PathUnescape (fuel : nat) (s : string) : option string :=
  match fuel, s with
  | _, EmptyString => Some EmptyString
  | O, _ => None
  | S f, String c s' =>
      if Ascii.eqb c "%" then
        match s' with
        | String a (String b t) =>
            match parse_digits 16 0 (String a (String b EmptyString)) with
            | Some v => option_map (String (of_byte v)) (PathUnescape f t)
            | None => None
            end
        | _ => None
        end
      else option_map (String c) (PathUnescape f s')
  end.

Definition cut_before (s : string) (c : ascii) : string * bool :=
  match Cut s (String c EmptyString) with Some (a, _) => (a, true) | None => (s, false) end.

Definition request_item (itemID : string) : option (string * bool) :=
  let '(s, fragment) := cut_before itemID "#" in
  let '(s, query) := cut_before s "?" in
  match PathUnescape (String.length s) s with
  | Some id => Some (id, fragment || query)
  | None => None
  end.

(** The network: how the body of a reply arrives, piece by piece, and whether it
    breaks off. *)
Class Wire := wire : nat -> string -> source.

Section file_catchup.
Context (envS envR : Env) `{Link} `{Wire} `{OJSON} `{GoJSON}.

Record FileCatchUpAgent := mkFileCatchUp {
  FcServerName : string;
  FcDataDir : path;
  FcSotDir : path;
  FcCfg : option Config;
  FcLimit : Z;
  FcMaxFileBytes : Z;
  FcTracked : bool;       (* [State] is set *)
}.

Definition file_checkin_limit (a : FileCatchUpAgent) : Z :=
  if (0 <? FcLimit a)%Z then FcLimit a else 200%Z.

Definition asked (m : M Reply) : C (result Reply) :=
  request (r ← m; mret (Ok r)).

(** A request about one item; a path that does not parse sends nothing. *)
Definition ask_item (itemID : string) (handler : string -> bool -> M Reply) : C (result Reply) :=
  match request_item itemID with
  | None => mret (Err (errorf "parse url"))
  | Some (id, truncated) => asked (handler id truncated)
  end.

Definition json_reply (r : Reply) : result Envelope :=
  match RBody r with
  | JsonBody e => Ok e
  | FileBody _ _ => Err (errorf "invalid character")
  end.

Definition listFileWorkItems (a : FileCatchUpAgent) : C (result (list string)) :=
  r ← asked (handleListPendingFileWrites (H:=envS) (FcSotDir a) (FcServerName a) (file_checkin_limit a));
  mret (result_bind r (fun r =>
    if negb (accepted r) then Err (errorf "list pending file writes: status")
    else result_bind (json_reply r) (fun e =>
         if negb (env_ok e) then Err (errorf "list pending file writes not ok")
         else Ok (match env_field e "items" with
                  | Some (JArr l) => omap (fun v => match v with JStr s => Some s | _ => None end) l
                  | _ => []
                  end)))).

(** The reply is decoded whatever its [ok] says; a missing item is [null]. *)
Definition fetchFileWorkItem (a : FileCatchUpAgent) (itemID : string) : C (result FileWorkItem) :=
  r ← ask_item itemID (fun id _ => handleFetchPendingFileWrite (H:=envS) (FcSotDir a) (FcServerName a) id);
  mret (result_bind r (fun r =>
    if negb (accepted r) then Err (errorf "fetch pending file write: status")
    else result_bind (json_reply r) (fun e =>
         file_item_of_json (floats (default JNull (env_field e "item")))))).

(** The body of a reply as the client reads it: an attachment is cut at the
    announced length, and breaks off when it is shorter. *)
Definition body_source (n : nat) (r : Reply) : source :=
  match RBody r with
  | JsonBody e => wire n (Encode (envelope_json e))
  | FileBody len data =>
      let s := wire n (str_take (Z.to_nat len) data) in
      if (Z.of_nat (String.length data) <? len)%Z
      then mkSource (pieces s) (eager s) (Some (errorf "unexpected EOF")) else s
  end.

(** A path that was cut off before [/content] reaches the other handler. *)
Definition fetchFileContent (a : FileCatchUpAgent) (itemID : string) : C (result (Reply * source)) :=
  n ← (fun w => (exchanges w, w) : nat * cluster);
  r ← ask_item itemID (fun id truncated =>
        if truncated then handleFetchPendingFileWrite (H:=envS) (FcSotDir a) (FcServerName a) id
        else handleFetchPendingFileContent (H:=envS) (FcSotDir a) (FcServerName a) id);
  mret (result_bind r (fun r =>
    if negb (accepted r) then Err (errorf "fetch pending file content: status")
    else Ok (r, body_source n r))).

Definition completeFileWorkItem (a : FileCatchUpAgent) (itemID : string) : C (result unit) :=
  r ← ask_item itemID (fun id _ => handleCompletePendingFileWrite (H:=envS) (FcSotDir a) (FcServerName a) id);
  mret (result_bind r (fun r =>
    if accepted r then Ok tt else Err (errorf "complete pending file write: status"))).

(** The item with what the headers of the contents say. *)
Definition with_headers (item : FileWorkItem) (r : Reply) : FileWorkItem :=
  let sha := header r "X-DatoriumDB-SHA256" in
  let size := header r "X-DatoriumDB-Byte-Size" in
  let ct := header r "Content-Type" in
  mkFileItem (FwCollection item) (FwID item) (FwFilename item)
    (if (ct <>? "") && (FwContentType item =? "") then ct else FwContentType item)
    (if size =? "" then FwByteSize item else default (FwByteSize item) (Atoi size))
    (if sha =? "" then FwSHA256 item else sha)
    (FwVersion item) (FwOperationID item) (FwCommand item).

Definition on_tracked (a : FileCatchUpAgent) (f : ReadMemberState -> ReadMemberState) : C unit :=
  if FcTracked a then on_state f else mret tt.

Definition applyFileOne (a : FileCatchUpAgent) (itemID : string) : C (result unit) :=
  r ← fetchFileWorkItem a itemID;
  match r with
  | Err e => mret (Err e)
  | Ok item =>
      _ ← on_tracked a (fun s => MarkPendingFile s (FwCollection item) (FwID item) (FwFilename item));
      r ← (if FwCommand item =? "fileDelete"
           then on_reader (ApplyMetadataOnly (H:=envR) (FcDataDir a) item)
           else r ← fetchFileContent a itemID;
                match r with
                | Err e => mret (Err e)
                | Ok (reply, body) =>
                    on_reader (ApplyStream (H:=envR) (FcDataDir a) (with_headers item reply) body (FcMaxFileBytes a))
                end) : C (result bool);
      match r with
      | Err e => mret (Err e)
      | Ok _ =>
          r ← completeFileWorkItem a itemID;
          match r with
          | Err e => mret (Err e)
          | Ok _ =>
              _ ← on_tracked a (fun s => ClearPendingFile s (FwCollection item) (FwID item) (FwFilename item));
              mret (Ok tt)
          end
      end
  end.

(** The first failure ends the check-in. *)
Fixpoint apply_files (a : FileCatchUpAgent) (ids : list string) : C (result unit) :=
  match ids with
  | [] => mret (Ok tt)
  | id :: ids' =>
      r ← applyFileOne a id;
      match r with
      | Err e => mret (Err e)
      | Ok _ => apply_files a ids'
      end
  end.

Definition CheckInFile (a : FileCatchUpAgent) (sotServer : string) : C (result unit) :=
  if ServerBaseURL (FcCfg a) sotServer =? "" then mret (Err (errorf "no base URL"))
  else
    r ← listFileWorkItems a;
    match r with
    | Err e => mret (Err e)
    | Ok ids => apply_files a ids
    end.
End file_catchup.
