(* ===== verification/FileReplSpec.v ===== *)
(** * Replication of attachments

    Names of pending writes, delivery with no failing system call, and what a read
    member holds after it applied a streamed attachment. *)

From S2P Require Import Prelude GoStrings Sha256 World Shard Json Config Store Attach AttachSpec Replication.
From S2P Require Import FileRepl.

(** ** Names *)

Lemma splits_none c b : in_string c b = false -> splits c b = [].
Proof.
  induction b as [|x b IH]; intros Hb; [done|].
  cbn [in_string splits] in *. apply orb_false_iff in Hb as [Hx Hb].
  rewrite IH, Ascii.eqb_sym, Hx by done. done.
Qed.

Lemma splits_app c a b :
  splits c (a +:+ String c b) =
  map (fun p => (fst p, snd p +:+ String c b)) (splits c a) ++
  (a, b) :: map (fun p => (a +:+ String c (fst p), snd p)) (splits c b).
Proof.
  induction a as [|x a IH]; cbn [String.append splits]; [by rewrite Ascii.eqb_refl|].
  rewrite IH, map_app, map_cons, !map_map.
  destruct (Ascii.eqb x c); cbn [map app fst snd]; by rewrite map_map.
Qed.

Lemma splits_text c s p : p ∈ splits c s -> s = fst p +:+ String c (snd p).
Proof.
  revert p. induction s as [|x s IH]; intros p; cbn [splits]; [by intros ?%elem_of_nil|].
  assert (p ∈ map (fun p => (String x (fst p), snd p)) (splits c s) ->
          String x s = fst p +:+ String c (snd p)) as Hr.
  { intros (q & -> & Hq)%list_elem_of_fmap. cbn. f_equal. by apply IH. }
  destruct (Ascii.eqb_spec x c) as [->|]; [|exact Hr]. by intros [->|Hp]%elem_of_cons; [|apply Hr].
Qed.

Lemma splits_shorter c a p : p ∈ splits c a -> (String.length (fst p) < String.length a)%nat.
Proof. intros ->%splits_text. rewrite str_length_app. simpl. lia. Qed.

Lemma longest_last l p :
  file_pair p = true -> Forall (fun q => (String.length (fst q) < String.length (fst p))%nat) l ->
  foldl longer_id None (l ++ [p]) = Some p.
Proof.
  intros Hp Hl. rewrite foldl_app. simpl.
  assert (forall best, match best with Some q => (String.length (fst q) < String.length (fst p))%nat | None => True end ->
    match foldl longer_id best l with
    | Some q => (String.length (fst q) < String.length (fst p))%nat | None => True end) as Hb.
  { induction Hl as [|q l Hq Hl IH]; intros best Hbest; simpl; [done|]. apply IH.
    unfold longer_id. destruct (file_pair q); [|done]. destruct best as [[d f]|]; [|done].
    by destruct (_ <? _)%nat. }
  specialize (Hb None I). unfold longer_id. rewrite Hp.
  destruct (foldl _ None l) as [[d f]|]; [|done]. simpl in Hb. by rewrite (proj2 (Nat.ltb_lt _ _) Hb).
Qed.

Lemma file_item_id_parsed server docID filename :
  SafeID docID = true -> SafeFileName filename = true -> in_string "-" filename = false ->
  ParseFileWorkItemID (FileWorkItemID server docID filename) server = Some (docID, filename).
Proof.
  intros Hd Hf Hn. unfold ParseFileWorkItemID, FileWorkItemID.
  change (server +:+ "-" +:+ docID +:+ "-" +:+ filename)
    with (server +:+ String "-" (docID +:+ String "-" filename)).
  rewrite <-(str_app_assoc server "-" (docID +:+ String "-" filename) : _ = server +:+ String "-" _).
  rewrite HasPrefix_app, str_drop_app. simpl negb. cbv iota.
  rewrite splits_app, (splits_none _ filename) by done.
  apply longest_last; [by unfold file_pair; simpl; rewrite Hd, Hf|].
  apply Forall_fmap, Forall_forall. intros p Hp. simpl. by eapply splits_shorter.
Qed.

Lemma find_last {A} (f : A -> bool) l x r :
  f x = true -> exists y, List.find f (rev (l ++ x :: r)) = Some y /\ f y = true /\ y ∈ x :: r.
Proof.
  intros Hx. rewrite rev_app_distr. cbn [rev]. rewrite <-app_assoc.
  assert (forall l1 l2, (exists y, List.find f l1 = Some y) ->
    List.find f (l1 ++ l2) = List.find f l1) as Happ.
  { induction l1 as [|z l1 IH]; intros l2 [y Hy]; simpl in *; [done|].
    destruct (f z); [done|]. apply IH. by eexists. }
  destruct (List.find f (rev r ++ [x])) as [y|] eqn:Ey.
  - exists y. rewrite app_assoc, Happ, Ey by eauto. split; [done|].
    apply List.find_some in Ey as [Hin Hy]. split; [done|].
    apply in_app_iff in Hin as [Hin|[<-|[]]]; [|by left]. right. by apply list_elem_of_In, in_rev.
  - pose proof (List.find_none _ _ Ey x) as Hno. rewrite Hno in Hx; [done|].
    apply in_app_iff. right. by left.
Qed.

Lemma pending_name_parsed t docID filename :
  SafeID docID = true -> SafeFileName filename = true ->
  exists d f, parsePendingFileWriteName (t +:+ "." +:+ docID +:+ "." +:+ filename +:+ ".json") t = Some (d, f) /\
    SafeID d = true /\ SafeFileName f = true /\
    d +:+ "." +:+ f = docID +:+ "." +:+ filename /\
    (in_string "-" filename = false -> in_string "-" f = false).
Proof.
  intros Hd Hf. unfold parsePendingFileWriteName.
  set (rest := docID +:+ String "." filename).
  assert (t +:+ "." +:+ docID +:+ "." +:+ filename +:+ ".json" = (t +:+ ".") +:+ rest +:+ ".json") as ->.
  { unfold rest. rewrite !str_app_assoc. reflexivity. }
  rewrite HasPrefix_app, str_drop_app, TrimSuffix_app, <-str_app_assoc, HasSuffix_app. cbn [negb orb].
  assert (docID <> "") as Hne by (by intros ->).
  destruct (first_char "." rest) as (before & after & Hrest & Hb).
  { unfold rest. by rewrite in_string_app, orb_true_r. }
  assert (before <> "") as Hbefore.
  { intros ->. pose proof (SafeID_no_dot _ Hd) as Hdot. unfold rest in Hrest.
    destruct docID as [|x u]; [done|]. injection Hrest as -> _. by destruct u. }
  assert (Cut rest "." = Some (before, after)) as -> by (rewrite Hrest; by apply Cut_char).
  rewrite (proj2 (String.eqb_neq before "") Hbefore).
  unfold rest. rewrite splits_app, List.filter_app. cbn [List.filter fst].
  rewrite (proj2 (String.eqb_neq docID "") Hne). cbn [negb].
  set (l := List.filter _ _). set (r := List.filter _ _).
  destruct (find_last file_pair l (docID, filename) r) as ([d f] & -> & Hp & Hin).
  { unfold file_pair. simpl. by rewrite Hd, Hf. }
  exists d, f. split; [done|]. unfold file_pair in Hp. apply andb_true_iff in Hp as [Hp1 Hp2].
  split; [done|]. split; [done|]. apply elem_of_cons in Hin as [[= -> ->]|Hin]; [done|].
  apply elem_of_lfilter in Hin as [(q & Hq & Hin)%list_elem_of_fmap _]. simplify_eq.
  apply splits_text in Hin. simpl. rewrite Hin.
  split; [by rewrite str_app_assoc|]. rewrite in_string_app. cbn [in_string]. by intros [_ ?]%orb_false_iff.
Qed.

(** A pending attachment write is found again.  The file names of pending
    writes join document and file name with a period, which both may contain, and
    item identifiers join them with a hyphen, which both may contain: listing may
    take the file for one of another document.  But the identifier it then makes
    leads back to the same file, when the file name has no hyphen. *)
Theorem pending_file_found dataDir c server docID filename :
  SafeID docID = true -> SafeFileName filename = true -> in_string "-" filename = false ->
  exists d f,
    pending_file_ids server [(server +:+ "." +:+ docID +:+ "." +:+ filename +:+ ".json", false)]
      = [FileWorkItemID server d f] /\
    ParseFileWorkItemID (FileWorkItemID server d f) server = Some (d, f) /\
    PendingFileWritePath dataDir c server d f = PendingFileWritePath dataDir c server docID filename.
Proof.
  intros Hd Hf Hn. destruct (pending_name_parsed server docID filename Hd Hf)
    as (d & f & Hp & Hd' & Hf' & Htext & Hh).
  exists d, f. split; [|split; [by apply file_item_id_parsed; auto|]].
  - unfold pending_file_ids. cbn [flat_map fst snd]. rewrite Hp.
    assert (server +:+ "." +:+ docID +:+ "." +:+ filename +:+ ".json" =
            (server +:+ "." +:+ docID +:+ "." +:+ filename) +:+ ".json") as -> by (by rewrite !str_app_assoc).
    rewrite HasSuffix_app, <-(str_app_assoc server "."), str_app_assoc, HasPrefix_app. done.
  - unfold PendingFileWritePath. do 3 f_equal. rewrite <-!(str_app_assoc _ _ ".json").
    rewrite <-!(str_app_assoc "." _ _). simpl. do 2 f_equal. exact Htext.
Qed.
(** ** A streamed attachment on a read member *)

(** An attachment after a commit: as it was; the new bytes under the old
    manifest; or the new bytes with their entry in the manifest, the other entries
    as they were.  The manifest reads back when the entry is one the encoder and
    the line scanner accept. *)
Definition attachment_outcome `{GoJSON} (dataDir : path) (c id : string) (entry : FileEntry)
    (es : list FileEntry) (data : string) (f f' : fs) (ok : bool) : Prop :=
  let B := BinaryPath dataDir c id (FName entry) in
  let Mf := FilesManifestPath dataDir c id in
  (ok = false /\ content f' Mf = content f Mf /\
   (content f' B = content f B \/ content f' B = Some data)) \/
  (content f' B = Some data /\ exists es', content f' Mf = Some (manifest_text es') /\
   entry_added entry es es' /\ (entry_ok entry -> line_fits entry -> manifest_good dataDir c id f' es')).

Section upload.
Context `{OJSON} `{!OJSONLaws} `{GoJSON} `{!GoJSONLaws} `{E : Env}.
Context (dataDir : path) (c id : string).
Hypothesis Hc : plain_collection c = true.
Hypothesis Hid : SafeID id = true.

Lemma stage_name_prefix z : HasPrefix (temp_name ".stage-" z) ".stage-" = true.
Proof. apply HasPrefix_app. Qed.

(** Staging files are none of the attachment's own files. *)
Lemma stage_distinct n z :
  SafeFileName n = true ->
  let p := temp_name ".stage-" z :: FileOpsDir dataDir c id in
  p <> BinaryPath dataDir c id n /\ p <> FilesManifestPath dataDir c id.
Proof.
  intros Hn p.
  pose proof (commit_facts dataDir c id Hc Hid (mkFileEntry n "" 0 "" "" id) (mkStaged p 0 "")
    (temp_name ".stage-" z) Hn Hid (stage_name_prefix z)) as Hf.
  simpl StagedPath in Hf. unfold p in *. rewrite FileOpsDir_eq in Hf by done.
  destruct (Hf eq_refl) as (_ & ? & _ & _ & _ & ? & _). rewrite FileOpsDir_eq by done.
  simpl FName in *. split; [by apply not_eq_sym|done].
Qed.

(** Committing a staged attachment. *)
Lemma CommitStagedBinary_outcome entry staged z es data s :
  SafeFileName (FName entry) = true -> SafeID (FOperationID entry) = true ->
  manifest_good dataDir c id (st_fs s) es ->
  StagedPath staged = temp_name ".stage-" z :: FileOpsDir dataDir c id ->
  content (st_fs s) (StagedPath staged) = Some data ->
  wp (CommitStagedBinary dataDir c id entry staged) (fun r s' =>
    attachment_outcome dataDir c id entry es data (st_fs s) (st_fs s') (is_ok r)) s.
Proof.
  intros Hn Hop Hgood Hst Hdata. rewrite FileOpsDir_eq in Hst by done.
  eapply wp_mono.
  { apply (CommitStagedBinary_states dataDir c id Hc Hid entry staged (temp_name ".stage-" z) Hn Hop
      (stage_name_prefix z) Hst data s Hdata). }
  intros r s' [Hstate _]. unfold attachment_outcome.
  destruct Hstate as [? SB _ SM _ _|? SB _ SM _ _|? SB _ SM _ _|? es1 ok SB _ Hes SM _ _];
    [left; auto..|].
  right. split; [done|]. rewrite (manifest_is_unique _ _ _ _ _ _ Hes (mg_is _ _ _ _ _ Hgood)) in SM.
  eexists. split; [exact SM|]. split; [apply upsert_added, (mg_names _ _ _ _ _ Hgood)|].
  intros Hok Hfit. by apply (upserted_manifest dataDir c id entry Hok (st_fs s)).
Qed.

Lemma attachment_outcome_ext entry es data f0 f f' f1 ok ok' :
  let B := BinaryPath dataDir c id (FName entry) in
  let Mf := FilesManifestPath dataDir c id in
  content f B = content f0 B -> content f Mf = content f0 Mf ->
  content f1 B = content f' B -> content f1 Mf = content f' Mf -> (ok' = ok \/ ok' = false) ->
  attachment_outcome dataDir c id entry es data f f' ok ->
  attachment_outcome dataDir c id entry es data f0 f1 ok'.
Proof.
  intros B Mf HB HM HB1 HM1 Hokk. unfold attachment_outcome. fold B Mf. rewrite HB, HM, HB1, HM1.
  intros [(-> & ? & ?)|(? & es' & ? & ? & Hg)]; [left; destruct Hokk; auto|].
  right. split; [done|]. exists es'. split_and!; [done|done|]. intros Ho Hf. destruct (Hg Ho Hf).
  split; try done. by eapply manifest_is_ext.
Qed.

(** The entry a read member records, and what it checks first. *)
Definition applied_entry (item : FileWorkItem) (data : string) : FileEntry :=
  mkFileEntry (FwFilename item)
    (if FwContentType item =? "" then "application/octet-stream" else FwContentType item)
    (Z.of_nat (String.length data)) (sha256_hex data) (FwVersion item) (FwOperationID item).

Definition verified (item : FileWorkItem) (data : string) : Prop :=
  (FwSHA256 item = "" \/ FwSHA256 item = sha256_hex data) /\
  ((FwByteSize item <= 0)%Z \/ FwByteSize item = Z.of_nat (String.length data)).

Definition already_applied (es : list FileEntry) (item : FileWorkItem) : Prop :=
  exists e, LookupFileEntry es (FwFilename item) = Some e /\
    FVersion e = FwVersion item /\ FSHA256 e = FwSHA256 item.

Lemma unstage_spec {A} staged e s :
  wp (unstage (A:=A) staged e) (fun r s' => r = Err e /\
    forall q, q <> StagedPath staged -> content (st_fs s') q = content (st_fs s) q) s.
Proof.
  unfold unstage. wp_step Remove_spec. intros r s1 F. apply wp_ret. split; [done|]. intros q Hq.
  destruct r; rewrite F; [|done]. unfold content. by rewrite lookup_delete_ne.
Qed.

Lemma ApplyStream_outcome item body maxBytes es s :
  FwCollection item = c -> FwID item = id ->
  let data := str_concat (pieces body) in
  let entry := applied_entry item data in
  let B := BinaryPath dataDir c id (FwFilename item) in
  let Mf := FilesManifestPath dataDir c id in
  SafeFileName (FwFilename item) = true -> SafeID (FwOperationID item) = true ->
  manifest_good dataDir c id (st_fs s) es ->
  wp (ApplyStream dataDir item body maxBytes) (fun r s' =>
    (content (st_fs s') B = content (st_fs s) B /\ content (st_fs s') Mf = content (st_fs s) Mf /\
     (is_ok r = true -> already_applied es item)) \/
    (ending body = None /\ verified item data /\
     attachment_outcome dataDir c id entry es data (st_fs s) (st_fs s') (is_ok r))) s.
Proof.
  intros Hic Hii data entry B Mf Hn Hop Hgood. unfold ApplyStream. rewrite Hic, Hii.
  destruct (_ && _); [apply wp_ret; by left|].
  apply wp_rbind. eapply wp_mono; [by apply ReadFilesManifest_spec|]. intros [es0|e0] s0 [F0 Hes].
  2:{ rewrite F0. by left. }
  rewrite (manifest_is_unique _ _ _ _ _ _ (Hes es0 eq_refl) (mg_is _ _ _ _ _ Hgood)). rewrite <-F0 in *.
  clear Hes. destruct (match LookupFileEntry es (FwFilename item) with Some _ => _ | None => _ end) eqn:Ea.
  { apply wp_ret. left. split_and!; [done..|]. intros _. unfold already_applied.
    destruct (LookupFileEntry es (FwFilename item)) as [e|]; [|done]. boolprop. eauto. }
  apply wp_rbind. eapply wp_mono; [apply StageWriteBinary_spec|]. intros [staged|e1] s1 Hs1.
  2:{ left. split_and!; [| |done]; apply Hs1; intros [z Hz];
        destruct (stage_distinct (FwFilename item) z Hn) as [HB HM]; by rewrite <-Hz in *. }
  destruct Hs1 as ([z Hz] & _ & Hdata & Hend & Hsize & _ & Hsha & Hframe). fold data in Hdata, Hsize, Hsha.
  destruct (stage_distinct (FwFilename item) z Hn) as [HB HM]. rewrite <-Hz in HB, HM.
  apply not_eq_sym in HB, HM.
  assert (content (st_fs s1) B = content (st_fs s0) B) as CB by (by apply Hframe).
  assert (content (st_fs s1) Mf = content (st_fs s0) Mf) as CM by (by apply Hframe).
  destruct ((FwSHA256 item <>? "") && _) eqn:Esha; [|destruct ((0 <? FwByteSize item)%Z && _) eqn:Esz].
  1,2: eapply wp_mono; [apply unstage_spec|]; intros r s2 [-> C2]; left;
       rewrite !C2 by done; split_and!; done.
  assert (verified item data) as Hver.
  { rewrite Hsha in Esha. rewrite Hsize in Esz. split.
    - destruct (FwSHA256 item =? "") eqn:E1; boolprop; [by left|]. right.
      destruct (sha256_hex data =? FwSHA256 item) eqn:E2; boolprop; [done|]. simpl in Esha. done.
    - destruct (0 <? FwByteSize item)%Z eqn:E1; [|left; by apply Z.ltb_ge].
      right. simpl in Esz. apply negb_false_iff, Z.eqb_eq in Esz. done. }
  assert (manifest_good dataDir c id (st_fs s1) es) as Hgood1.
  { destruct Hgood. split; try done. by eapply manifest_is_ext. }
  rewrite Hsize, Hsha. fold (applied_entry item data). fold entry.
  apply wp_bind. eapply wp_mono; [by apply (CommitStagedBinary_outcome entry staged z es data)|].
  intros [u|e2] s2 Ho; cbv beta in Ho.
  - apply wp_ret. right. split_and!; [done..|]. by eapply attachment_outcome_ext; [..|exact Ho]; auto.
  - eapply wp_mono; [apply unstage_spec|]. intros r s3 [-> C3]. right. split_and!; [done..|].
    eapply attachment_outcome_ext; [..|exact Ho]; [done|done|by apply C3..|by left].
Qed.

(** C11: under any failures, a read member that applies a streamed attachment
    leaves the attachment and the manifest as they were, and then reports success
    only for the version and digest it already has; or the whole body arrived and
    has the announced digest and size, and the attachment is the old one under the
    old manifest, the new bytes under the old manifest (both only with an error), or
    the new bytes with their entry in the manifest, the other entries unchanged.
    Conditions: collection name without slash and leading dot, safe document
    identifier and file name; the operation identifier of the item, which may be
    one a client chose, is safe as a file name (neither server checks it, see
    [operation_id_escapes]); and the manifest on disk parses, with distinct
    names. *)
Theorem ApplyStream_verified item body maxBytes es s :
  FwCollection item = c -> FwID item = id ->
  let data := str_concat (pieces body) in
  let entry := applied_entry item data in
  let B := BinaryPath dataDir c id (FwFilename item) in
  let Mf := FilesManifestPath dataDir c id in
  SafeFileName (FwFilename item) = true -> SafeID (FwOperationID item) = true ->
  manifest_good dataDir c id (st_fs s) es ->
  wp (ApplyStream dataDir item body maxBytes) (fun r s' =>
    (content (st_fs s') B = content (st_fs s) B /\ content (st_fs s') Mf = content (st_fs s) Mf /\
     (is_ok r = true -> already_applied es item)) \/
    (ending body = None /\ verified item data /\
     attachment_outcome dataDir c id entry es data (st_fs s) (st_fs s') (is_ok r))) s.
Proof. apply ApplyStream_outcome. Qed.
End upload.

(** ** Delivery touches pending files only *)

Definition pending_file_name (target id filename : string) : string :=
  target +:+ "." +:+ id +:+ "." +:+ filename +:+ ".json".

Lemma pending_file_name_not_temp target id filename :
  temp_component (pending_file_name target id filename) = false.
Proof.
  unfold pending_file_name. rewrite <-!str_app_assoc. apply json_name_not_temp. by destruct target.
Qed.

Lemma SafeFileName_no_slash n : SafeFileName n = true -> in_string "/" n = false.
Proof.
  intros [Hp _]%SafeFileName_facts. unfold plain in Hp. boolprop. done.
Qed.

Section pending_paths.
Context (dataDir : path) (c id filename : string).
Hypothesis Hc : plain_collection c = true.
Hypothesis Hid : SafeID id = true.
Hypothesis Hn : SafeFileName filename = true.

Lemma PendingFileWritesDir_eq :
  PendingFileWritesDir dataDir c = ".pendingFileWrites" :: c :: dataDir.
Proof. unfold PendingFileWritesDir. rewrite CollectionDir_eq by done. by apply join_plain1. Qed.

Lemma PendingFileWritePath_eq target :
  in_string "/" target = false ->
  PendingFileWritePath dataDir c target id filename =
  pending_file_name target id filename :: ".pendingFileWrites" :: c :: dataDir.
Proof.
  intros Ht. unfold PendingFileWritePath. rewrite PendingFileWritesDir_eq. apply join_plain1.
  unfold pending_file_name. apply plain_intro; [rewrite !str_length_app; simpl; lia|].
  by rewrite !in_string_app, Ht, (SafeID_no_slash id), (SafeFileName_no_slash filename).
Qed.
End pending_paths.

Section deliver_faults.
Context `{E : Env} `{OJSON} `{GoJSON} `{FileNet}.

Definition pending_file_touch (dataDir : path) (item : FileWorkItem) (q : path) : Prop :=
  exists n, temp_component n = false /\
    written (n :: ".pendingFileWrites" :: FwCollection item :: dataDir) q.

Definition file_addressed (item : FileWorkItem) : Prop :=
  plain_collection (FwCollection item) = true /\ SafeID (FwID item) = true /\
  SafeFileName (FwFilename item) = true.

Lemma WritePendingFileWrite_keeps dataDir target item s :
  file_addressed item -> in_string "/" target = false ->
  wp (WritePendingFileWrite dataDir (FwCollection item) target item) (fun _ s' =>
    keeps (pending_file_touch dataDir item) (st_fs s) (st_fs s')) s.
Proof.
  intros (Hc & Hid & Hn) Ht. unfold WritePendingFileWrite. wp_step MkdirAll_spec.
  intros r s1 [F1 _]. destruct r as [u|e]; [|intros q _; apply F1].
  rewrite PendingFileWritePath_eq by done.
  eapply wp_mono; [apply WriteFileAtomic_spec; apply pending_file_name_not_temp|].
  intros [u2|e2] s2; [intros [_ K]|intros K];
    (eapply keeps_trans; [intros q _; apply F1|eapply keeps_mono; [exact K|]]); intros q Hq;
    exists (pending_file_name target (FwID item) (FwFilename item));
    (split; [apply pending_file_name_not_temp|]); [done|by right].
Qed.

Lemma DeletePendingFileWrite_keeps dataDir target item s :
  file_addressed item -> in_string "/" target = false ->
  wp (DeletePendingFileWrite dataDir (FwCollection item) target (FwID item) (FwFilename item))
    (fun _ s' => keeps (pending_file_touch dataDir item) (st_fs s) (st_fs s')) s.
Proof.
  intros (Hc & Hid & Hn) Ht. unfold DeletePendingFileWrite. rewrite PendingFileWritePath_eq by done.
  wp_step Stat_spec. intros r s1 [F1 _].
  destruct r as [nd|e]; [|destruct (is_not_exist e); apply wp_ret; by rewrite F1].
  wp_step Remove_spec. intros [u|e] s2 F2; [|by rewrite F2, F1].
  apply wp_ret. rewrite F2, F1. apply keeps_delete. eexists. split; [apply pending_file_name_not_temp|].
  by left.
Qed.

Lemma pushFileOne_keeps co target item s :
  wp (pushFileOne co target item) (fun _ s' => st_fs s' = st_fs s) s.
Proof.
  unfold pushFileOne. destruct (_ =? ""); [done|]. destruct (FwCommand item =? "fileDelete"); [done|].
  unfold OpenBinary. destruct (negb _); [done|]. wp_step ReadFile_spec. intros [d|e] s1 [F1 _]; by apply wp_ret.
Qed.

Lemma DeliverFileOnce_keeps co item targets s :
  file_addressed item -> Forall (fun t => in_string "/" t = false) targets ->
  wp (DeliverFileOnce co item targets) (fun _ s' =>
    keeps (pending_file_touch (CoDataDir co) item) (st_fs s) (st_fs s')) s.
Proof.
  intros Hi Ht. unfold DeliverFileOnce. rewrite <-(file_finish_order_perm targets) in Ht.
  generalize (mkOutcome targets [] [] (CoTimeoutMs co)) as o.
  revert s. induction Ht as [|t ts Ht Hts IH]; intros s o; cbn [deliver_file_all]; [done|].
  apply wp_bind. unfold deliver_file_to.
  wp_step WritePendingFileWrite_keeps; [done|done|]. intros r s1 K1.
  wp_step pushFileOne_keeps. intros ok s2 F2. rewrite <-F2 in K1. destruct ok.
  - wp_step DeletePendingFileWrite_keeps; [done|done|]. intros r3 s3 K3. apply wp_ret.
    eapply wp_mono; [apply IH|]. intros r4 s4 K4.
    eapply keeps_trans; [exact K1|]. by eapply keeps_trans.
  - apply wp_ret. eapply wp_mono; [apply IH|]. intros r4 s4 K4. by eapply keeps_trans.
Qed.
End deliver_faults.
