(* ===== verification/Concrete.v ===== *)
(** * A concrete environment

    Instances of the classes that stand for code outside the repository: a text
    form of JSON values that satisfies the laws assumed of the JSON libraries, an
    environment in which no system call fails, one in which a chosen call does,
    and a network.  The theorems are applied at these instances to show that
    their hypotheses can hold together. *)

From stdpp Require Import countable.
From S2P Require Import Prelude GoStrings World Shard Json Config Store Replication.

(** ** A text form of JSON values *)

Fixpoint tree_of (v : json) : gen_tree string :=
  match v with
  | JNull => GenNode 0 []
  | JBool false => GenNode 1 []
  | JBool true => GenNode 2 []
  | JNum l => GenNode 3 [GenLeaf l]
  | JStr s => GenNode 4 [GenLeaf s]
  | JArr l => GenNode 5 (map tree_of l)
  | JObj m => GenNode 6 (map (fun kv => GenNode 7 [GenLeaf (fst kv); tree_of (snd kv)]) m)
  end.

Fixpoint of_tree (t : gen_tree string) : json :=
  match t with
  | GenNode 1 _ => JBool false
  | GenNode 2 _ => JBool true
  | GenNode 3 [GenLeaf l] => JNum l
  | GenNode 4 [GenLeaf s] => JStr s
  | GenNode 5 l => JArr (map of_tree l)
  | GenNode 6 l =>
      JObj (map (fun x => match x with
                          | GenNode _ [GenLeaf k; y] => (k, of_tree y)
                          | _ => ("", JNull)
                          end) l)
  | _ => JNull
  end.

Lemma of_tree_of v : of_tree (tree_of v) = v.
Proof.
  induction v as [|[]| | |l IH|m IH] using json_nested_ind; try done; simpl; f_equal.
  - rewrite map_map. induction IH as [|x l Hx Hl IHl]; simpl; [done|]. by rewrite Hx, IHl.
  - rewrite map_map. induction IH as [|[k x] l Hx Hl IHl]; simpl in *; [done|]. by rewrite Hx, IHl.
Qed.

Fixpoint bits (p : positive) : string :=
  match p with
  | xH => "}"
  | xO p => String "0" (bits p)
  | xI p => String "1" (bits p)
  end.

Fixpoint of_bits (s : string) : option positive :=
  match s with
  | "" => None
  | String c s' =>
      if Ascii.eqb c "0" then xO <$> of_bits s'
      else if Ascii.eqb c "1" then xI <$> of_bits s'
      else if s =? "}" then Some xH else None
  end.

Lemma of_bits_bits p : of_bits (bits p) = Some p.
Proof. induction p as [p IH|p IH|]; simpl; [by rewrite IH..|done]. Qed.

(** Trailing newlines removed. *)
Fixpoint rstrip (s : string) : string :=
  match s with
  | "" => ""
  | String c s' =>
      match rstrip s' with
      | "" => if Ascii.eqb c "010"%char then "" else String c ""
      | r => String c r
      end
  end.

Lemma rstrip_newline s : rstrip (s +:+ newline) = rstrip s.
Proof. induction s as [|c s IH]; [done|]. simpl. by rewrite IH. Qed.

Lemma rstrip_bits p : rstrip (bits p) = bits p.
Proof. induction p as [p IH|p IH|]; simpl; rewrite ?IH; [by destruct (bits p)..|done]. Qed.

(** The bits of the value between braces. *)
Definition text_of (v : json) : string := String "{" (bits (encode (tree_of v))).

Definition value_of (s : string) : option json :=
  match rstrip s with
  | String "{" t => of_bits t ≫= fun p => of_tree <$> decode p
  | _ => None
  end.

Lemma rstrip_text p : rstrip (String "{" (bits p)) = String "{" (bits p).
Proof. cbn [rstrip]. rewrite rstrip_bits. by destruct p. Qed.

Lemma bits_shape p : exists t, bits p = t +:+ "}" /\ in_string "010" t = false.
Proof.
  induction p as [p (t & E & Ht)|p (t & E & Ht)|].
  - exists (String "1" t). simpl. by rewrite E.
  - exists (String "0" t). simpl. by rewrite E.
  - by exists "".
Qed.

Lemma value_of_text v : value_of (text_of v) = Some v.
Proof.
  unfold value_of, text_of. rewrite rstrip_text, of_bits_bits. simpl.
  rewrite decode_encode. simpl. by rewrite of_tree_of.
Qed.

(** ** The libraries *)

Definition any_schema : schemaEntry := SE "" KindObject "" [] None None.

Definition ops_of (v : json) : list patch_op :=
  match v with
  | JArr l => map (fun o => mkPatchOp (as_string (Get o "path")) (as_string (Get o "from")) o) l
  | _ => []
  end.

(** [add] and [replace] of one member of the document; other operations fail. *)
Definition apply_op (v : json) (op : patch_op) : result json :=
  match v, op_path op, Get (op_json op) "value" with
  | JObj m, String "/" k, Some w => Ok (JObj (aset m k w))
  | _, _, _ => Err (errorf "cannot apply")
  end.

Definition base_json : OJSON := {|
  number_ok := fun _ => true;
  ReadBytesNoSchema := fun s => Err (errorf s);
  ToPrettyJSONBytes := text_of;
  ToJSONBytes := text_of;
  CompileSchemaBytes := fun _ => Ok any_schema;
  SchemaValidate := fun _ _ => Ok tt;
  PatchFromJSONValue := fun v => Ok (ops_of v);
  ReadPatchBytes := fun _ => Ok [];
  ApplyPatch := fun v _ => Ok v;
|}.

Definition read_text (s : string) : result json :=
  match value_of s with
  | Some v => if well_formed (H:=base_json) v then Ok v else Err (errorf "not JSON")
  | None => Err (errorf "not JSON")
  end.

Definition apply_text (v : json) (ops : list patch_op) : result json :=
  result_bind (foldl (fun r op => result_bind r (fun v => apply_op v op)) (Ok v) ops) (fun w =>
  if well_formed (H:=base_json) w then Ok w else Err (errorf "not JSON")).

Definition text_json : OJSON := {|
  number_ok := fun _ => true;
  ReadBytesNoSchema := read_text;
  ToPrettyJSONBytes := text_of;
  ToJSONBytes := text_of;
  CompileSchemaBytes := fun _ => Ok any_schema;
  SchemaValidate := fun _ _ => Ok tt;
  PatchFromJSONValue := fun v => Ok (ops_of v);
  ReadPatchBytes := fun s => result_bind (read_text s) (fun v => Ok (ops_of v));
  ApplyPatch := apply_text;
|}.

Definition text_gojson : GoJSON := {|
  Marshal := text_of;
  MarshalIndent := text_of;
  Unmarshal := read_text;
  Decode := read_text;
  DecodeRaw := fun s =>
    match read_text s with
    | Ok (JObj m) => Ok (map (fun kv => (fst kv, text_of (snd kv))) m)
    | Ok JNull => Ok []
    | Ok _ => Err (errorf "not an object")
    | Err e => Err e
    end;
  Encode := text_of;
  FloatText := fun l => l;
  Sprint := text_of;
|}.

Lemma well_formed_base v : well_formed (H:=text_json) v = well_formed (H:=base_json) v.
Proof. reflexivity. Qed.

Lemma read_text_of v : well_formed (H:=base_json) v = true -> read_text (text_of v) = Ok v.
Proof. intros Hv. unfold read_text. by rewrite value_of_text, Hv. Qed.

Lemma text_json_laws : OJSONLaws (H:=text_json).
Proof.
  split.
  - done.
  - intros s v. rewrite well_formed_base. simpl. unfold read_text.
    destruct (value_of s) as [w|]; [|done]. destruct (well_formed w) eqn:E; [|done].
    intros [= <-]. done.
  - intros v. rewrite well_formed_base. apply read_text_of.
  - intros v. rewrite well_formed_base. apply read_text_of.
  - intros m v. cbn. unfold read_text. rewrite value_of_text. destruct (well_formed _); [|done]. intros [= <-].
    by eexists.
  - done.
  - intros s. simpl. unfold read_text, value_of. by rewrite rstrip_newline.
  - intros s e [= <-]. done.
  - intros v ops w _. rewrite well_formed_base. simpl. unfold apply_text.
    destruct (foldl _ _ _) as [x|]; [|done]. simpl. destruct (well_formed x) eqn:E; [|done].
    intros [= <-]. done.
Qed.

Lemma text_gojson_laws : GoJSONLaws (H:=text_json) (H0:=text_gojson).
Proof.
  split; [intros v; rewrite well_formed_base; apply read_text_of..|done|done|].
  intros m _. simpl. unfold text_of.
  destruct (bits_shape (encode (tree_of (JObj m)))) as (t & -> & Ht). by exists t.
Qed.

(** ** Environments *)

Definition calm_ids (n : nat) : result string := Ok ("v" +:+ Itoa (Z.of_nat n)).

(** No system call fails. *)
Definition calm : Env := {|
  fault := fun _ => None; tmprand := fun _ n => Z.of_nat n; newid := calm_ids |}.

Lemma calm_nofault : @NoFault calm.
Proof. done. Qed.

(** The [n]-th system call fails, and no other. *)
Definition fails_at (k : nat) : Env := {|
  fault := fun n => if (n =? k)%nat then Some 0%nat else None;
  tmprand := fun _ n => Z.of_nat n; newid := calm_ids |}.

(** The server stops before its [k]-th system call. *)
Definition crash_at (k : nat) : Env := {|
  fault := fun n => if (k <=? n)%nat then Some 0%nat else None;
  tmprand := fun _ n => Z.of_nat n; newid := calm_ids |}.

(** A network on which nobody answers, and one on which everybody does. *)
Definition silent : Net := {|
  acks := fun _ _ => false; finish_order := fun l => l; finish_order_perm := fun l => Permutation_refl l |}.

Definition prompt : Net := {|
  acks := fun _ _ => true; finish_order := fun l => l; finish_order_perm := fun l => Permutation_refl l |}.

(** ** A small database *)

(** Server [a] owns every slot, [b] reads them all; there is one collection. *)
Definition demo_map : ShardMapBody := Some [("00-FF", mkShardAssignment "a" ["b"] [])].

Definition demo_cfg : Config :=
  mkConfig (mkGeneralBody "demo" "a" 1 5 5 3 1000)
    [("a", mkServerEntry "http://a"); ("b", mkServerEntry "http://b")] demo_map
    (mkAuthBody "" "" 0 0 []) [("users", "{}")] [("users", 1%Z)] [] [] [] [] [].

Definition demo_dir : path := ["data"].

(** An empty data directory, and one that holds the document [u1]. *)
Definition demo_fs : fs := {[ demo_dir := Directory; ("users" :: demo_dir) := Directory ]}.

Definition demo_doc : json :=
  JObj [("!", JStr "u1"); ("$", JStr "users:1"); ("#", JStr "v0"); ("name", JStr "Ada")].

Definition demo_fs1 : fs := <[DocumentPath demo_dir "users" "u1" := File (text_of demo_doc)]> demo_fs.

Definition demo_st (f : fs) : st := mkSt f 0 7.
