(* ===== verification/Engine.v ===== *)
(** * Package engine: the commands that change documents

    [create], [patch] and [delete] of [internal/engine/engine.go] with the
    helpers they share: routing, staleness, metadata, delivery.  A handler is one
    function from the request and its decoded detail to an envelope, in the monad
    of the server's world; the mutex of the source makes the part before
    [deliverOnce] one atomic section.  The configuration is loaded before commands
    are served, so [ECfg] is not nil. *)

From S2P Require Import Prelude GoStrings World Shard Json Config Store Docjson Replication.

(** ** Requests: package commandreq *)

Record Request := mkRequest {
  ReqCommand : string;
  ReqTarget : string;
  ReqParameter : string;
  ReqDetail : string;
}.

Section requests.
Context `{GoJSON}.

Definition DetailMap (r : Request) : result fields :=
  match Decode (ReqDetail r) with
  | Ok (JObj m) => Ok m
  | Ok JNull => Ok []
  | _ => Err (errorf "invalid detail object")
  end.

Definition StringField (detail : fields) (key : string) : string :=
  match aget detail key with
  | None | Some JNull => ""
  | Some (JStr s) => s
  | Some (JNum l) => l
  | Some (JBool true) => "true"
  | Some (JBool false) => "false"
  | Some v => Sprint v
  end.

(** [commandreq.DecodeJSON]: the four-field command of an HTTP body. *)
Definition allowed_root : list string := ["command"; "target"; "parameter"; "detail"].

(** [json.Unmarshal] of an optional member into a string: null leaves it empty. *)
Definition opt_string (raw : list (string * string)) (k : string) : result string :=
  match aget raw k with
  | None => Ok ""
  | Some v =>
      match Unmarshal v with
      | Ok (JStr s) => Ok s
      | Ok JNull => Ok ""
      | _ => Err (errorf (k +:+ " must be a string"))
      end
  end.

Definition is_object (text : string) : bool :=
  match Unmarshal text with Ok (JObj _) => true | _ => false end.

(** The detail stays the bytes that were sent. *)
Definition DecodeJSON (data : string) : result Request :=
  match DecodeRaw data with
  | Err _ => Err (errorf "invalid JSON command body")
  | Ok raw =>
      if negb (forallb (fun k => containsString allowed_root k) (akeys raw))
      then Err (errorf "unknown root field")
      else
        result_bind (opt_string raw "command") (fun command =>
        result_bind (opt_string raw "target") (fun target =>
        result_bind (opt_string raw "parameter") (fun parameter =>
        match aget raw "detail" with
        | None => Err (errorf "detail is required")
        | Some d =>
            let detail := TrimSpace d in
            if negb (HasPrefix detail "{") then Err (errorf "detail must be a JSON object")
            else if negb (is_object detail) then Err (errorf "detail must be a JSON object")
            else
              let command := TrimSpace command in
              let target := TrimSpace target in
              let parameter := TrimSpace parameter in
              if command =? "" then Err (errorf "command is required")
              else if target =? "" then Err (errorf "target is required")
              else Ok (mkRequest command target parameter detail)
        end)))
  end.
End requests.

(** ** The engine *)

Record Engine := mkEngine {
  EDataDir : path;
  EServerName : string;
  ECfg : Config;
  EReplicator : option Coordinator;
  EDistributor : option (string -> string -> string -> M bool);
  EReadState : option ReadMemberState;
}.

Definition currentSchemaMarker (collection : string) (cfg : Config) : string :=
  collection +:+ ":" +:+ Itoa (SchemaVersion (Some cfg) collection).

Definition base_fields (command collection id : string) : fields :=
  [("command", JStr command); ("collection", JStr collection); ("id", JStr id)].

Definition fail_doc (command collection id code message : string) : Envelope :=
  Fail (base_fields command collection id) [mk_err code message].

Definition fail_doc_at (command collection id code p message expected actual : string)
    : Envelope :=
  Fail (base_fields command collection id)
    [mkEError code p message (Some (JStr expected)) (Some (JStr actual))].

Definition wrongMachineResult (command collection id : string) (cfg : Config) (message : string)
    : Envelope :=
  Fail (base_fields command collection id ++
        [("configVersion", JNum (Itoa (Version (General cfg))))])
    [mk_err "wrongMachine" message].

Definition checkRouting (e : Engine) (id command collection : string) : option Envelope :=
  if EServerName e =? "" then None
  else
    let assignment := AssignmentForSlot (Some (ECfg e)) (Slot id) in
    if (command =? "create") || (command =? "patch") || (command =? "delete") then
      if ShardSOTMember assignment =? EServerName e then None
      else Some (wrongMachineResult command collection id (ECfg e)
                   "This server is not the SHARD_SOT_MEMBER for the target shard.")
    else if command =? "read" then
      if containsString (ShardReadMember assignment) (EServerName e) then None
      else Some (wrongMachineResult command collection id (ECfg e)
                   "This server is not a SHARD_READ_MEMBER for the target shard; refresh establishment config and retry.")
    else None.

Definition checkStaleness (e : Engine) (id command collection : string) : option Envelope :=
  match EReadState e with
  | None => None
  | Some rs =>
      let sot := ShardSOTMember (AssignmentForSlot (Some (ECfg e)) (Slot id)) in
      if (sot <>? "") && (sot <>? EServerName e) && IsStaleForSOT rs sot then
        Some (fail_doc command collection id "readMemberStale"
                "This read member has failed too many check-ins with the shard's SOT-member and refuses all reads for this shard slot until it catches up.")
      else if IsPending rs collection id then
        Some (fail_doc command collection id "documentStale"
                "This document has a pending replicated write that has not been applied yet.")
      else None
  end.

Definition restrictedPointer (p : string) : bool :=
  if p =? "" then false
  else (p =? "/!") || (p =? "/$") || (p =? "/#") ||
       HasPrefix p "/!/" || HasPrefix p "/$/" || HasPrefix p "/#/".

Definition write_meta (k : string) : bool :=
  (k =? "operationId") || (k =? "!") || (k =? "$") || (k =? "#") || (k =? "RFC6902").

Definition stripWriteMeta (detail : fields) : fields :=
  List.filter (fun kv => negb (write_meta (fst kv))) detail.

Section engine.
Context `{Env} `{OJSON} `{GoJSON} `{Net}.

Definition validateValueAgainstSchema (schemaRaw : string) (value : json) : result unit :=
  result_bind (CompileSchemaBytes schemaRaw) (fun schema =>
  if bool_decide (entry_kind schema = KindObject) then SchemaValidate schema value
  else Err (errorf "collection schema root must be object")).

Definition validateAgainstSchema (schemaRaw : string) (doc : fields) : result unit :=
  result_bind (ReadBytesNoSchema (Marshal (map_order (JObj doc)))) (fun value =>
  validateValueAgainstSchema schemaRaw value).

(** Setting the three metadata fields. *)
Definition set_meta (doc : json) (id marker version : string) : result json :=
  result_bind (SetTry doc "!" (NewString id)) (fun doc =>
  result_bind (SetTry doc "$" (NewString marker)) (fun doc =>
  SetTry doc "#" (NewString version))).

Definition canonicalCreateDocument (schemaRaw detailJSON id marker version : string)
    : result string :=
  result_bind (ReadBytesNoSchema detailJSON) (fun doc =>
  result_bind (set_meta (RemoveField doc "operationId") id marker version) (fun doc =>
  Canonicalize schemaRaw doc)).

Definition deliverOnce (e : Engine) (item : DocumentWorkItem) (result : Envelope) : M Envelope :=
  '(docComplete, result) ←
    match EReplicator e with
    | None => mret (true, result)
    | Some co =>
        let targets := TargetsForAssignment co (AssignmentForSlot (Some (ECfg e)) (Slot (ID item))) in
        outcome ← DeliverOnce co item targets;
        mret (Complete outcome,
              if Complete outcome then result else aset result "note" (EJ (BuildNote outcome)))
    end;
  derivedComplete ←
    match EDistributor e with
    | None => mret false
    | Some d => d (Command item) (Collection item) (ID item)
    end;
  mret (aset result "distributionComplete" (EJ (JBool (docComplete && derivedComplete)))).

(** The operation identifier: the client's, or a fresh one. *)
Definition operation_id (detail : fields) : M (result string) :=
  let opID := StringField detail "operationId" in
  if opID =? "" then NewID else mret (Ok opID).

(** The local commit of [create]: everything under the lock. *)
Definition commit_create (e : Engine) (collection id docBytes : string)
    : M (option Envelope) :=
  let p := DocumentPath (EDataDir e) collection id in
  let failed code msg := mret (Some (fail_doc "create" collection id code msg)) in
  r ← Stat p;
  match r with
  | Ok _ => failed "documentExists" "document already exists"
  | Err _ =>
      r ← EnsureCollectionDir (EDataDir e) collection;
      match r with
      | Err err => failed "filesystemError" (err_msg err)
      | Ok _ =>
          r ← WriteDocumentJSONVerified p docBytes;
          match r with
          | Err err => failed "filesystemError" (err_msg err)
          | Ok _ =>
              r ← EnqueueChange (EDataDir e) collection id "create";
              match r with
              | Err err => failed "queueWriteFailed" (err_msg err)
              | Ok _ => mret None
              end
          end
      end
  end.

Definition create (e : Engine) (req : Request) (detail : fields) : M Envelope :=
  let collection := ReqTarget req in
  match aget (Schemas (ECfg e)) collection with
  | None => mret (Fail [("command", JStr "create"); ("collection", JStr collection)]
                    [mk_err "collectionNotFound" "collection does not exist"])
  | Some schemaRaw =>
  let id := ReqParameter req in
  let failed code msg := mret (fail_doc "create" collection id code msg) in
  if (id =? "") || (id =? "null") then
    failed "documentIdRequired" "create requires a client-supplied document id; server-side id generation is not supported"
  else if negb (ValidDocumentID id) || negb (SafeID id) then
    failed "invalidDocumentId" "document id is invalid or unsafe for filesystem storage"
  else
  match checkRouting e id "create" collection with
  | Some wrong => mret wrong
  | None =>
  op ← operation_id detail;
  match op with
  | Err err => failed "idGenerationFailed" (err_msg err)
  | Ok opID =>
  let marker := currentSchemaMarker collection (ECfg e) in
  let given := as_string (aget detail "$") in
  if (given <>? "") && (given <>? marker) then
    mret (fail_doc_at "create" collection id "schemaMismatch" "/$"
            "Document schema marker does not match the collection schema." marker given)
  else if ahas detail "#" then
    mret (Fail (base_fields "create" collection id)
            [mkEError "invalidMetadata" "/#" "create content cannot include #" None None])
  else
  let bang := as_string (aget detail "!") in
  if (bang <>? "") && (bang <>? id) then
    mret (fail_doc_at "create" collection id "idMismatch" "/!"
            "supplied ! does not match document id" id bang)
  else
  match validateAgainstSchema schemaRaw (stripWriteMeta detail) with
  | Err err => failed "invalidSchema" (err_msg err)
  | Ok _ =>
  ver ← NewID;
  match ver with
  | Err err => failed "idGenerationFailed" (err_msg err)
  | Ok version =>
  match canonicalCreateDocument schemaRaw (ReqDetail req) id marker version with
  | Err err => failed "documentEncodeFailed" (err_msg err)
  | Ok docBytes =>
  let item := mkItem collection id "" version opID "create" [] docBytes in
  r ← commit_create e collection id docBytes;
  match r with
  | Some failure => mret failure
  | None =>
  deliverOnce e item
    (OK [("command", JStr "create"); ("collection", JStr collection); ("id", JStr id);
         ("$", JStr marker); ("#", JStr version); ("operationId", JStr opID)])
  end end end end end end end.

(** The document a patch produces, or the failure the client sees.  [doc] is the
    stored document. *)
Definition patch_document (e : Engine) (schemaRaw : string) (req : Request) (detail : fields)
    (doc : json) : sum Envelope (list patch_op * json) :=
  let collection := ReqTarget req in
  let id := ReqParameter req in
  let failed code msg := inl (fail_doc "patch" collection id code msg) in
  let expectedVer := as_string (aget detail "#") in
  let actualVer := ToStringOrEmpty (Get doc "#") in
  if (expectedVer =? "") || (expectedVer <>? actualVer) then
    inl (fail_doc_at "patch" collection id "versionMismatch" "/#"
           "Document version does not match." expectedVer actualVer)
  else
  let marker := currentSchemaMarker collection (ECfg e) in
  let given := as_string (aget detail "$") in
  if given <>? marker then
    inl (fail_doc_at "patch" collection id "schemaMismatch" "/$"
           "Document schema marker does not match the collection schema." marker given)
  else
  let bang := ToStringOrEmpty (Get doc "!") in
  if bang <>? id then
    inl (fail_doc_at "patch" collection id "idMismatch" "/!"
           "document ! does not match id" id bang)
  else
  match ReadBytesNoSchema (ReqDetail req) with
  | Err err => failed "invalidDetail" (err_msg err)
  | Ok detailValue =>
  match Get detailValue "RFC6902" with
  | Some (JArr ops) =>
  match PatchFromJSONValue (JArr ops) with
  | Err err => failed "invalidPatch" (err_msg err)
  | Ok patch =>
  match list_find (fun op => restrictedPointer (op_path op) || restrictedPointer (op_from op)) patch with
  | Some (_, op) =>
      inl (Fail (base_fields "patch" collection id)
             [mkEError "invalidPatchPath" (op_path op) "cannot patch database-owned metadata"
                None None])
  | None =>
  match ApplyPatch doc patch with
  | Err err => failed "invalidPatch" (err_msg err)
  | Ok patched =>
  let content := foldl RemoveField patched ["!"; "$"; "#"; "operationId"] in
  match validateValueAgainstSchema schemaRaw content with
  | Err err => failed "invalidSchema" (err_msg err)
  | Ok _ => inr (patch, patched)
  end end end end
  | _ => failed "invalidPatch" "RFC6902 array is required"
  end end.

(** [patchOpsToMaps] and the metadata operation every replica needs. *)
Definition patchOpsToMaps (patch : list patch_op) : result (list json) :=
  if forallb (fun op => bool_decide (Kind (Some (op_json op)) = KindObject)) patch
  then Ok (map op_json patch) else Err (errorf "expected object").

Definition version_op (after : string) : json :=
  JObj [("op", JStr "replace"); ("path", JStr "/#"); ("value", JStr after)].

Definition commit_patch (e : Engine) (collection id docBytes : string) : M (option Envelope) :=
  let p := DocumentPath (EDataDir e) collection id in
  let failed code msg := mret (Some (fail_doc "patch" collection id code msg)) in
  r ← PreservePreviousIfAbsent (EDataDir e) collection id;
  match r with
  | Err err => failed "filesystemError" (err_msg err)
  | Ok _ =>
      r ← WriteDocumentJSONVerified p docBytes;
      match r with
      | Err err => failed "filesystemError" (err_msg err)
      | Ok _ =>
          r ← EnqueueChange (EDataDir e) collection id "patch";
          match r with
          | Err err => failed "queueWriteFailed" (err_msg err)
          | Ok _ => mret None
          end
      end
  end.

Definition patch (e : Engine) (req : Request) (detail : fields) : M Envelope :=
  let collection := ReqTarget req in
  let id := ReqParameter req in
  let failed code msg := mret (fail_doc "patch" collection id code msg) in
  if negb (ValidDocumentID id) || negb (SafeID id) then
    failed "invalidDocumentId" "document id is invalid or unsafe for filesystem storage"
  else
  match checkRouting e id "patch" collection with
  | Some wrong => mret wrong
  | None =>
  match aget (Schemas (ECfg e)) collection with
  | None => failed "collectionNotFound" "collection does not exist"
  | Some schemaRaw =>
  r ← ReadDocumentValue (DocumentPath (EDataDir e) collection id);
  match r with
  | Err _ => failed "documentNotFound" "document not found"
  | Ok doc =>
  match patch_document e schemaRaw req detail doc with
  | inl failure => mret failure
  | inr (ops, patched) =>
  let expectedVer := as_string (aget detail "#") in
  let marker := currentSchemaMarker collection (ECfg e) in
  ver ← NewID;
  match ver with
  | Err err => failed "idGenerationFailed" (err_msg err)
  | Ok after =>
  match set_meta patched id marker after with
  | Err err => failed "documentEncodeFailed" (err_msg err)
  | Ok patched =>
  let patched := RemoveField patched "operationId" in
  match patchOpsToMaps ops with
  | Err err => failed "invalidPatch" (err_msg err)
  | Ok opMaps =>
  op ← operation_id detail;
  match op with
  | Err err => failed "idGenerationFailed" (err_msg err)
  | Ok opID =>
  match Canonicalize schemaRaw patched with
  | Err err => failed "documentEncodeFailed" (err_msg err)
  | Ok docBytes =>
  let item := mkItem collection id expectedVer after opID "patch"
                (opMaps ++ [version_op after]) docBytes in
  r ← commit_patch e collection id docBytes;
  match r with
  | Some failure => mret failure
  | None =>
  deliverOnce e item
    (OK [("command", JStr "patch"); ("collection", JStr collection); ("id", JStr id);
         ("$", JStr marker); ("operationId", JStr opID);
         ("versions", JObj [("before", JStr expectedVer); ("after", JStr after)])])
  end end end end end end end end end end.

Definition commit_delete (e : Engine) (collection id : string) : M (option Envelope) :=
  let failed code msg := mret (Some (fail_doc "delete" collection id code msg)) in
  r ← SoftDeleteDocument (EDataDir e) collection id;
  match r with
  | Err err => failed "filesystemError" (err_msg err)
  | Ok _ =>
      r ← EnqueueChange (EDataDir e) collection id "delete";
      match r with
      | Err err => failed "queueWriteFailed" (err_msg err)
      | Ok _ => mret None
      end
  end.

Definition delete_doc (e : Engine) (req : Request) (detail : fields) : M Envelope :=
  let collection := ReqTarget req in
  let id := ReqParameter req in
  let failed code msg := mret (fail_doc "delete" collection id code msg) in
  if negb (ValidDocumentID id) || negb (SafeID id) then
    failed "invalidDocumentId" "document id is invalid or unsafe for filesystem storage"
  else
  match checkRouting e id "delete" collection with
  | Some wrong => mret wrong
  | None =>
  r ← ReadDocumentJSON (DocumentPath (EDataDir e) collection id);
  match r with
  | Err _ => failed "documentNotFound" "document not found"
  | Ok doc =>
  let expectedVer := as_string (aget detail "#") in
  let actualVer := as_string (aget doc "#") in
  if (expectedVer =? "") || (expectedVer <>? actualVer) then
    mret (fail_doc_at "delete" collection id "versionMismatch" "/#"
            "Document version does not match." expectedVer actualVer)
  else
  op ← operation_id detail;
  match op with
  | Err err => failed "idGenerationFailed" (err_msg err)
  | Ok opID =>
  let item := mkItem collection id expectedVer expectedVer opID "delete" [] "" in
  r ← commit_delete e collection id;
  match r with
  | Some failure => mret failure
  | None =>
  deliverOnce e item
    (OK [("command", JStr "delete"); ("collection", JStr collection); ("id", JStr id);
         ("#", JStr expectedVer); ("operationId", JStr opID)])
  end end end end.
End engine.

(** ** Structure of the handlers *)

Lemma wp_runs {A} (m : M A) (Q : A -> st -> Prop) s a f :
  runs m s a f -> (forall s', st_fs s' = f -> Q a s') -> wp m Q s.
Proof. intros (s' & Hm & Hf & _) HQ. unfold wp. rewrite Hm. auto. Qed.

Lemma fail_doc_not_ok command collection id code msg :
  env_ok (fail_doc command collection id code msg) = false.
Proof. apply Fail_not_ok. simpl. set_solver. Qed.

Lemma fail_doc_at_not_ok command collection id code p msg e a :
  env_ok (fail_doc_at command collection id code p msg e a) = false.
Proof. apply Fail_not_ok. simpl. set_solver. Qed.

Lemma fail_base_not_ok command collection id errs :
  env_ok (Fail (base_fields command collection id) errs) = false.
Proof. apply Fail_not_ok. simpl. set_solver. Qed.

Lemma wrongMachine_not_ok command collection id cfg msg :
  env_ok (wrongMachineResult command collection id cfg msg) = false.
Proof. apply Fail_not_ok. simpl. set_solver. Qed.

#[export] Hint Resolve fail_doc_not_ok fail_doc_at_not_ok fail_base_not_ok
  wrongMachine_not_ok : go.

Lemma checkRouting_not_ok e id command collection r :
  checkRouting e id command collection = Some r -> env_ok r = false.
Proof.
  unfold checkRouting. intros Hr. repeat case_match; simplify_eq; auto with go.
Qed.

Lemma checkRouting_write e id command collection :
  command ∈ ["create"; "patch"; "delete"] ->
  checkRouting e id command collection = None ->
  EServerName e = "" \/
  ShardSOTMember (AssignmentForSlot (Some (ECfg e)) (Slot id)) = EServerName e.
Proof.
  unfold checkRouting. intros Hin Hr.
  destruct (EServerName e =? "") eqn:Ee; [left; by apply String.eqb_eq|right].
  assert ((command =? "create") || (command =? "patch") || (command =? "delete") = true) as Ec.
  { rewrite !elem_of_cons in Hin. destruct Hin as [->|[->|[->|Hn]]]; [done|done|done|set_solver]. }
  rewrite Ec in Hr. destruct (_ =? EServerName e) eqn:Es; [by apply String.eqb_eq|done].
Qed.

(** Splits a [wp] of a match on its scrutinee. *)
Ltac wp_case :=
  match goal with
  | |- wp (match ?x with _ => _ end) _ _ => destruct x eqn:?
  end.

Section structure.
Context `{E : Env} `{OJSON} `{GoJSON} `{Net}.

Lemma NewID_spec s : wp NewID (fun _ s' => st_fs s' = st_fs s) s.
Proof. done. Qed.

Lemma operation_id_spec detail s :
  wp (operation_id detail) (fun _ s' => st_fs s' = st_fs s) s.
Proof. unfold operation_id. by destruct (_ =? ""). Qed.

(** Every path through [create] fails before it touches a file or reaches the
    commit with a document it built. *)
Lemma create_structure (e : Engine) req detail (Q : Envelope -> st -> Prop) s :
  (forall r s', st_fs s' = st_fs s -> env_ok r = false -> Q r s') ->
  (forall schemaRaw opID version docBytes s',
     st_fs s' = st_fs s ->
     aget (Schemas (ECfg e)) (ReqTarget req) = Some schemaRaw ->
     SafeID (ReqParameter req) = true ->
     checkRouting e (ReqParameter req) "create" (ReqTarget req) = None ->
     ahas detail "#" = false ->
     validateAgainstSchema schemaRaw (stripWriteMeta detail) = Ok tt ->
     canonicalCreateDocument schemaRaw (ReqDetail req) (ReqParameter req)
       (currentSchemaMarker (ReqTarget req) (ECfg e)) version = Ok docBytes ->
     wp (r ← commit_create e (ReqTarget req) (ReqParameter req) docBytes;
         match r with
         | Some failure => mret failure
         | None => deliverOnce e
             (mkItem (ReqTarget req) (ReqParameter req) "" version opID "create" [] docBytes)
             (OK [("command", JStr "create"); ("collection", JStr (ReqTarget req));
                  ("id", JStr (ReqParameter req));
                  ("$", JStr (currentSchemaMarker (ReqTarget req) (ECfg e)));
                  ("#", JStr version); ("operationId", JStr opID)])
         end) Q s') ->
  wp (create e req detail) Q s.
Proof.
  intros Hfail Hgo. unfold create.
  wp_case; [|apply wp_ret, Hfail; [done|]; apply Fail_not_ok; simpl; set_solver].
  wp_case; [apply wp_ret, Hfail; auto with go|].
  wp_case; [apply wp_ret, Hfail; auto with go|].
  apply orb_false_iff in Heqb0 as [_ Hsafe%negb_false_iff].
  wp_case; [apply wp_ret, Hfail; [done|]; by eapply checkRouting_not_ok|].
  wp_step operation_id_spec. intros [opID|err] s1 F1; [|apply wp_ret, Hfail; auto with go].
  wp_case; [apply wp_ret, Hfail; auto with go|].
  wp_case; [apply wp_ret, Hfail; auto with go|].
  wp_case; [apply wp_ret, Hfail; auto with go|].
  wp_case; [|apply wp_ret, Hfail; auto with go].
  destruct a. wp_step NewID_spec.
  intros [version|err] s2 F2; [|apply wp_ret, Hfail; [congruence|auto with go]].
  wp_case; [|apply wp_ret, Hfail; [congruence|auto with go]].
  eapply Hgo; eauto. congruence.
Qed.

Lemma patch_document_not_ok e schemaRaw req detail doc r :
  patch_document e schemaRaw req detail doc = inl r -> env_ok r = false.
Proof.
  unfold patch_document. intros Hr.
  repeat (case_match; simplify_eq; auto with go).
Qed.

(** The operations of a request: those its detail lists under [RFC6902]. *)
Definition requested_ops (req : Request) (ops : list patch_op) : Prop :=
  exists detail l, ReadBytesNoSchema (ReqDetail req) = Ok detail /\
    Get detail "RFC6902" = Some (JArr l) /\ PatchFromJSONValue (JArr l) = Ok ops.

(** What an accepted patch has been checked for: the operations are the
    request's, and the result is the stored document with them applied. *)
Record patch_accepted (e : Engine) (schemaRaw : string) (req : Request) (detail : fields)
    (doc : json) (ops : list patch_op) (patched : json) : Prop := {
  pa_version : as_string (aget detail "#") = ToStringOrEmpty (Get doc "#");
  pa_version_given : as_string (aget detail "#") <> "";
  pa_marker : as_string (aget detail "$") = currentSchemaMarker (ReqTarget req) (ECfg e);
  pa_id : ToStringOrEmpty (Get doc "!") = ReqParameter req;
  pa_request : requested_ops req ops;
  pa_unrestricted : Forall (fun op => restrictedPointer (op_path op) = false /\
                                      restrictedPointer (op_from op) = false) ops;
  pa_applied : ApplyPatch doc ops = Ok patched;
  pa_valid : validateValueAgainstSchema schemaRaw
               (foldl RemoveField patched ["!"; "$"; "#"; "operationId"]) = Ok tt;
}.

Lemma patch_document_accepted e schemaRaw req detail doc ops patched :
  patch_document e schemaRaw req detail doc = inr (ops, patched) ->
  patch_accepted e schemaRaw req detail doc ops patched.
Proof.
  unfold patch_document. intros Hr.
  destruct ((as_string (aget detail "#") =? "") ||
            (as_string (aget detail "#") <>? ToStringOrEmpty (Get doc "#"))) eqn:E1; [done|].
  destruct (as_string (aget detail "$") <>? _) eqn:E0; [done|].
  destruct (ToStringOrEmpty (Get doc "!") <>? ReqParameter req) eqn:E2; [done|].
  destruct (ReadBytesNoSchema (ReqDetail req)) as [dv|] eqn:Er; [|done].
  destruct (Get dv "RFC6902") as [[| | | |l|]|] eqn:Eg; try done.
  destruct (PatchFromJSONValue (JArr l)) as [p|] eqn:Ep; [|done].
  destruct (list_find _ p) as [[i op]|] eqn:E3; [done|].
  destruct (ApplyPatch doc p) as [w|] eqn:E4; [|done].
  destruct (validateValueAgainstSchema _ _) as [[]|] eqn:E5; [|done].
  simplify_eq. boolprop. split; auto; [by exists dv, l|].
  apply list_find_None in E3. eapply Forall_impl; [exact E3|].
  intros op Hop. simpl in Hop.
  by destruct (restrictedPointer (op_path op)), (restrictedPointer (op_from op)); simpl in Hop.
Qed.

Lemma patch_structure (e : Engine) req detail (Q : Envelope -> st -> Prop) s :
  (forall r s', st_fs s' = st_fs s -> env_ok r = false -> Q r s') ->
  (forall schemaRaw d doc ops patched after full opMaps opID docBytes s',
     st_fs s' = st_fs s ->
     aget (Schemas (ECfg e)) (ReqTarget req) = Some schemaRaw ->
     SafeID (ReqParameter req) = true ->
     checkRouting e (ReqParameter req) "patch" (ReqTarget req) = None ->
     content (st_fs s) (DocumentPath (EDataDir e) (ReqTarget req) (ReqParameter req)) = Some d ->
     ReadBytesNoSchema d = Ok doc ->
     patch_accepted e schemaRaw req detail doc ops patched ->
     set_meta patched (ReqParameter req) (currentSchemaMarker (ReqTarget req) (ECfg e)) after
       = Ok full ->
     Canonicalize schemaRaw (RemoveField full "operationId") = Ok docBytes ->
     wp (r ← commit_patch e (ReqTarget req) (ReqParameter req) docBytes;
         match r with
         | Some failure => mret failure
         | None => deliverOnce e
             (mkItem (ReqTarget req) (ReqParameter req) (as_string (aget detail "#")) after opID
                "patch" (opMaps ++ [version_op after]) docBytes)
             (OK [("command", JStr "patch"); ("collection", JStr (ReqTarget req));
                  ("id", JStr (ReqParameter req));
                  ("$", JStr (currentSchemaMarker (ReqTarget req) (ECfg e)));
                  ("operationId", JStr opID);
                  ("versions", JObj [("before", JStr (as_string (aget detail "#")));
                                     ("after", JStr after)])])
         end) Q s') ->
  wp (patch e req detail) Q s.
Proof.
  intros Hfail Hgo. unfold patch.
  wp_case; [apply wp_ret, Hfail; auto with go|].
  apply orb_false_iff in Heqb as [_ Hsafe%negb_false_iff].
  wp_case; [apply wp_ret, Hfail; [done|]; by eapply checkRouting_not_ok|].
  wp_case; [|apply wp_ret, Hfail; auto with go].
  wp_step ReadDocumentValue_spec. intros [doc|err] s1 [F1 Hd];
    [|apply wp_ret, Hfail; auto with go].
  destruct (Hd doc eq_refl) as (d & Hcd & Hrd).
  wp_case; [apply wp_ret, Hfail; [done|]; by eapply patch_document_not_ok|].
  destruct p as [ops patched]. 
  match goal with Hp : patch_document _ _ _ _ _ = _ |- _ =>
    apply patch_document_accepted in Hp end.
  wp_step NewID_spec. intros [after|err] s2 F2; [|apply wp_ret, Hfail; [congruence|auto with go]].
  wp_case; [|apply wp_ret, Hfail; [congruence|auto with go]].
  wp_case; [|apply wp_ret, Hfail; [congruence|auto with go]].
  wp_step operation_id_spec.
  intros [opID|err] s3 F3; [|apply wp_ret, Hfail; [congruence|auto with go]].
  wp_case; [|apply wp_ret, Hfail; [congruence|auto with go]].
  eapply Hgo; eauto. congruence.
Qed.

Lemma delete_structure (e : Engine) req detail (Q : Envelope -> st -> Prop) s :
  (forall r s', st_fs s' = st_fs s -> env_ok r = false -> Q r s') ->
  (forall d m opID s',
     st_fs s' = st_fs s ->
     SafeID (ReqParameter req) = true ->
     checkRouting e (ReqParameter req) "delete" (ReqTarget req) = None ->
     content (st_fs s) (DocumentPath (EDataDir e) (ReqTarget req) (ReqParameter req)) = Some d ->
     ReadBytesNoSchema d = Ok (JObj m) ->
     as_string (aget detail "#") = as_string (aget m "#") ->
     as_string (aget detail "#") <> "" ->
     wp (r ← commit_delete e (ReqTarget req) (ReqParameter req);
         match r with
         | Some failure => mret failure
         | None => deliverOnce e
             (mkItem (ReqTarget req) (ReqParameter req) (as_string (aget detail "#"))
                (as_string (aget detail "#")) opID "delete" [] "")
             (OK [("command", JStr "delete"); ("collection", JStr (ReqTarget req));
                  ("id", JStr (ReqParameter req)); ("#", JStr (as_string (aget detail "#")));
                  ("operationId", JStr opID)])
         end) Q s') ->
  wp (delete_doc e req detail) Q s.
Proof.
  intros Hfail Hgo. unfold delete_doc.
  wp_case; [apply wp_ret, Hfail; auto with go|].
  apply orb_false_iff in Heqb as [_ Hsafe%negb_false_iff].
  wp_case; [apply wp_ret, Hfail; [done|]; by eapply checkRouting_not_ok|].
  wp_step ReadDocumentJSON_spec. intros [m|err] s1 [F1 Hd];
    [|apply wp_ret, Hfail; auto with go].
  destruct (Hd m eq_refl) as (d & Hcd & Hrd).
  wp_case; [apply wp_ret, Hfail; auto with go|].
  wp_step operation_id_spec.
  intros [opID|err] s2 F2; [|apply wp_ret, Hfail; [congruence|auto with go]].
  boolprop. eapply Hgo; eauto. congruence.
Qed.
End structure.
