(* ===== verification/EngineSpec.v ===== *)
(** * The contract of the document commands

    The database a client sees is a partial map from collection and identifier to
    a JSON document.  This file proves that [create], [patch] and [delete] of the
    engine implement insertion of an absent key, compare-and-set and
    compare-and-remove on it when no system call fails, and what is left of that
    when any system call may fail or the server may stop at any point. *)

From S2P Require Import Prelude GoStrings World Shard Json Config Store Docjson Replication Engine.

(** ** The abstract database *)

Definition db := string -> string -> option json.

Definition db_eq (a b : db) : Prop := forall c id, a c id = b c id.

Definition db_set (d : db) (c id : string) (v : option json) : db := fun c' id' =>
  if (c =? c') && (id =? id') then v else d c' id'.

#[export] Instance db_eq_equiv : Equivalence db_eq.
Proof.
  split; unfold db_eq; [done|auto|]. intros a b d H1 H2 c id. by rewrite H1.
Qed.

#[export] Instance db_set_proper : Proper (db_eq ==> eq ==> eq ==> eq ==> db_eq) db_set.
Proof.
  intros a b Hab c ? <- id ? <- v ? <- c' id'. unfold db_set. by destruct (_ && _).
Qed.

Section abs.
Context `{OJSON}.

(** What the files of a data directory mean. *)
Definition abs (dataDir : path) (f : fs) : db := fun c id =>
  if plain_collection c && SafeID id then
    match content f (DocumentPath dataDir c id) with
    | Some d => match ReadBytesNoSchema d with Ok v => Some v | Err _ => None end
    | None => None
    end
  else None.

Lemma abs_ext dataDir f f' :
  (forall n c, content f' (n :: c :: dataDir) = content f (n :: c :: dataDir)) ->
  db_eq (abs dataDir f') (abs dataDir f).
Proof.
  intros He c id. unfold abs. destruct (plain_collection c) eqn:Hc; [|done].
  destruct (SafeID id) eqn:Hid; [|done]. simpl. by rewrite DocumentPath_eq, He.
Qed.

Lemma doc_path_inj dataDir c id c' id' :
  plain_collection c = true -> SafeID id = true ->
  plain_collection c' = true -> SafeID id' = true ->
  DocumentPath dataDir c id = DocumentPath dataDir c' id' -> c = c' /\ id = id'.
Proof.
  intros Hc Hid Hc' Hid'. rewrite !DocumentPath_eq by done. intros Heq.
  injection Heq as Heq ->. split; [done|]. by eapply str_app_inv_tail.
Qed.

(** One document changed, every other kept. *)
Lemma abs_update dataDir f f' c id v :
  plain_collection c = true -> SafeID id = true ->
  (forall c' id', plain_collection c' = true -> SafeID id' = true -> c' <> c \/ id' <> id ->
     content f' (DocumentPath dataDir c' id') = content f (DocumentPath dataDir c' id')) ->
  match v with
  | Some v => exists d, content f' (DocumentPath dataDir c id) = Some d /\ ReadBytesNoSchema d = Ok v
  | None => content f' (DocumentPath dataDir c id) = None
  end ->
  db_eq (abs dataDir f') (db_set (abs dataDir f) c id v).
Proof.
  intros Hc Hid Hother Hv c' id'. unfold db_set, abs.
  destruct ((c =? c') && (id =? id')) eqn:E; boolprop; subst.
  - rewrite Hc, Hid. simpl. destruct v as [v|]; [destruct Hv as (d & -> & ->)|rewrite Hv]; done.
  - destruct (plain_collection c') eqn:Hc'; [|done]. destruct (SafeID id') eqn:Hid'; [|done].
    simpl. rewrite Hother; [done|done|done|].
    apply andb_false_iff in E as [E|E]; apply String.eqb_neq in E; [left|right]; congruence.
Qed.

(** The metadata of a stored document. *)
Definition meta_is (v : json) (id marker version : string) : Prop :=
  Get v "!" = Some (JStr id) /\ Get v "$" = Some (JStr marker) /\ Get v "#" = Some (JStr version).
End abs.

(** ** Building documents *)

Section build.
Context `{OJSON} `{!OJSONLaws}.

Lemma well_formed_aset m k v :
  well_formed (JObj m) = true -> ValidString k = true -> well_formed v = true ->
  well_formed (JObj (aset m k v)) = true.
Proof.
  intros [Hnd Hall]%well_formed_obj Hk Hv. apply well_formed_obj.
  split; [by apply NoDup_akeys_aset|]. clear Hnd.
  induction m as [|[k' v'] m IH]; simpl; [by repeat constructor|].
  apply Forall_cons in Hall as [H1 H2]. destruct (k =? k'); constructor; auto.
  simpl in *. tauto.
Qed.

Lemma well_formed_adel m k :
  well_formed (JObj m) = true -> well_formed (JObj (adel m k)) = true.
Proof.
  intros [Hnd Hall]%well_formed_obj. apply well_formed_obj.
  split; [by apply NoDup_akeys_adel|]. clear Hnd.
  induction m as [|[k' v'] m IH]; simpl; [done|].
  apply Forall_cons in Hall as [H1 H2]. destruct (k =? k'); [auto|constructor; auto].
Qed.

Lemma set_meta_ok doc id marker version full :
  well_formed doc = true -> set_meta doc id marker version = Ok full ->
  exists m, full = JObj m /\ well_formed full = true /\ meta_is full id marker version /\
    ValidString version = true /\
    forall m0 k, doc = JObj m0 -> is_meta k = false -> aget m k = aget m0 k.
Proof.
  unfold set_meta, NewString. intros Hw Hs.
  destruct doc as [| | | | |m]; simpl in Hs; try (destruct (ValidString id); done).
  destruct (ValidString id) eqn:E1; [|done]. simpl in Hs.
  destruct (ValidString marker) eqn:E2; [|done]. simpl in Hs.
  destruct (ValidString version) eqn:E3; [|done]. simpl in Hs. injection Hs as <-.
  eexists. split; [done|]. split_and!.
  - by repeat apply well_formed_aset.
  - unfold meta_is. simpl. by rewrite !aget_aset.
  - done.
  - intros m0 k [= <-] Hk. unfold is_meta in Hk. boolprop.
    rewrite !aget_aset_ne by congruence. done.
Qed.

Lemma Canonicalize_ok schemaRaw m out :
  well_formed (JObj m) = true -> Canonicalize schemaRaw (JObj m) = Ok out ->
  exists root, CompileSchemaBytes schemaRaw = Ok root /\
    out = stored (JObj (canonical_fields root m)) /\
    ReadBytesNoSchema out = Ok (JObj (canonical_fields root m)) /\
    canonical_good root m (canonical_fields root m).
Proof.
  intros Hw. unfold Canonicalize. destruct (CompileSchemaBytes schemaRaw) as [root|] eqn:Er; [|done].
  intros [= <-]. exists root.
  pose proof (canonical_fields_good root m (compile_ok _ _ Er) Hw) as Hg.
  split_and!; [done|done| |done]. apply read_pretty_newline, Hg.
Qed.

Lemma meta_is_canonical root m id marker version :
  canonical_good root m (canonical_fields root m) -> meta_is (JObj m) id marker version ->
  meta_is (JObj (canonical_fields root m)) id marker version.
Proof.
  intros Hg (H1 & H2 & H3). unfold meta_is in *. simpl in *.
  by rewrite !(cg_meta _ _ _ Hg) by done.
Qed.

(** [v] holds the content of [src]: the same fields with the same values up to
    the order of fields, the metadata and the operation identifier apart. *)
Definition carries (src v : json) : Prop :=
  exists m, jeqv (JObj m) v /\
    forall k, is_meta k = false -> k <> "operationId" -> aget m k = Get src k.

(** The document [create] stores. *)
Lemma create_document schemaRaw detailJSON id marker version out :
  canonicalCreateDocument schemaRaw detailJSON id marker version = Ok out ->
  exists src v, ReadBytesNoSchema detailJSON = Ok src /\ ReadBytesNoSchema out = Ok v /\
    out = stored v /\ meta_is v id marker version /\ carries src v.
Proof.
  unfold canonicalCreateDocument. intros Hc.
  destruct (ReadBytesNoSchema detailJSON) as [doc|] eqn:Er; [|done]. simpl in Hc.
  pose proof (read_well_formed _ _ Er) as Hw.
  destruct (set_meta _ _ _ _) as [full|] eqn:Em; [|done]. simpl in Hc.
  destruct doc as [| | | | |m0]; simpl in Em;
    try (unfold set_meta in Em; simpl in Em; destruct (NewString id); done).
  apply set_meta_ok in Em as (m & -> & Hwf & Hmeta & _ & Hkeep); [|by apply well_formed_adel].
  destruct (Canonicalize_ok _ _ _ Hwf Hc) as (root & _ & Hout & Hread & Hg).
  exists (JObj m0), (JObj (canonical_fields root m)). split_and!; [done|done|done| |].
  - by apply meta_is_canonical.
  - exists m. split; [apply Hg|]. intros k Hk Hop.
    rewrite (Hkeep _ k eq_refl Hk). rewrite aget_adel.
    by rewrite (proj2 (String.eqb_neq "operationId" k)) by done.
Qed.

(** The document [patch] stores. *)
Lemma patch_document_stored schemaRaw doc ops patched id marker after full out :
  well_formed doc = true -> ApplyPatch doc ops = Ok patched ->
  set_meta patched id marker after = Ok full ->
  Canonicalize schemaRaw (RemoveField full "operationId") = Ok out ->
  exists v, ReadBytesNoSchema out = Ok v /\ out = stored v /\ meta_is v id marker after /\
    carries patched v.
Proof.
  intros Hw Ha Hm Hc.
  assert (exists m0, patched = JObj m0) as [m0 ->].
  { unfold set_meta in Hm. destruct patched; try (simpl in Hm; destruct (NewString id); done). eauto. }
  apply set_meta_ok in Hm as (m & -> & Hwf & Hmeta & _ & Hkeep); [|by eapply patch_well_formed].
  simpl in Hc. apply Canonicalize_ok in Hc as (root & _ & Hout & Hread & Hg);
    [|by apply well_formed_adel].
  eexists. split_and!; [exact Hread|exact Hout| |].
  - apply meta_is_canonical; [done|]. destruct Hmeta as (M1 & M2 & M3).
    unfold meta_is in *. simpl in *. by rewrite !aget_adel.
  - eexists. split; [apply Hg|]. intros k Hk Hop. rewrite aget_adel.
    rewrite (proj2 (String.eqb_neq "operationId" k)) by done. by apply Hkeep.
Qed.
End build.

(** ** The commits, when no system call fails *)

Section commits.
Context `{NF : NoFault} `{OJSON} `{!OJSONLaws}.
Context (e : Engine) (c id : string).
Hypothesis Hc : plain_collection c = true.
Hypothesis Hid : SafeID id = true.

Notation live := (DocumentPath (EDataDir e) c id).
Notation prev := (PreviousDocumentPath (EDataDir e) c id).
Notation qfile change :=
  (queue_name change c id ".queue" :: ".changeQueue" :: c :: EDataDir e).

Lemma live_not_queue change : live <> qfile change.
Proof.
  rewrite DocumentPath_eq by done. intros Heq. apply (f_equal length) in Heq. simpl in Heq. lia.
Qed.

Lemma prev_not_queue change : prev <> qfile change.
Proof.
  rewrite PreviousDocumentPath_eq by done.
  intros Heq. apply (f_equal length) in Heq. simpl in Heq. lia.
Qed.

Lemma live_not_prev : live <> prev.
Proof.
  rewrite DocumentPath_eq, PreviousDocumentPath_eq by done. intros Heq.
  injection Heq as Heq. by eapply doc_name_not_prev.
Qed.

Lemma Stat_live_runs s :
  store_ok (EDataDir e) (st_fs s) ->
  exists r, runs (Stat live) s r (st_fs s) /\
    match content (st_fs s) live with Some _ => is_ok r = true | None => is_ok r = false end.
Proof.
  intros Hok. eexists. split; [apply Stat_runs|]. rewrite DocumentPath_eq by done.
  pose proof (so_doc _ _ Hok c id ".json" Hc Hid ltac:(set_solver)) as Hnd.
  unfold content. destruct (st_fs s !! _) as [[d|]|] eqn:E; [|done|].
  - by rewrite (fs_lookup_some _ _ _ _ E).
  - rewrite fs_lookup_missing; [done|done|]. by eapply collection_ready.
Qed.

Lemma commit_create_runs docBytes v s :
  ReadBytesNoSchema docBytes = Ok v -> store_ok (EDataDir e) (st_fs s) ->
  match content (st_fs s) live with
  | Some _ => runs (commit_create e c id docBytes) s
                (Some (fail_doc "create" c id "documentExists" "document already exists")) (st_fs s)
  | None => exists f', runs (commit_create e c id docBytes) s None f' /\
      store_ok (EDataDir e) f' /\ content f' live = Some (stored v) /\
      content f' (qfile "create") = Some "" /\
      forall q, q <> live -> q <> qfile "create" -> content f' q = content (st_fs s) q
  end.
Proof.
  intros Hr Hok. destruct (Stat_live_runs s Hok) as (r & Hs & Hrr). unfold commit_create.
  destruct (content (st_fs s) live) as [d|] eqn:El; destruct r as [n|err]; try done.
  { eapply runs_bind; [exact Hs|]. intros s1 F1 _. rewrite <-F1. apply runs_ret. }
  destruct Hs as (s1 & R1 & F1 & I1).
  assert (runs (EnsureCollectionDir (EDataDir e) c) s1 (Ok tt) (mkdirs (st_fs s1) (c :: EDataDir e)))
    as (s2 & R2 & F2 & I2).
  { unfold EnsureCollectionDir. rewrite CollectionDir_eq by done. apply MkdirAll_runs.
    rewrite F1. by eapply collection_ready. }
  assert (store_ok (EDataDir e) (st_fs s2)) as Hok2.
  { rewrite F2, F1. apply store_ok_mkdirs; [by apply col_dir_place|done]. }
  destruct (write_doc_runs (EDataDir e) c id Hc Hid docBytes v s2 Hr Hok2)
    as (f3 & (s3 & R3 & F3 & I3) & Hok3 & Hl3 & Hq3).
  rewrite <-F3 in Hok3.
  destruct (EnqueueChange_runs (EDataDir e) c id Hc Hid "create" s3 eq_refl ltac:(done) eq_refl Hok3)
    as (f4 & (s4 & R4 & F4 & I4) & Hok4 & Hl4 & Hq4).
  exists f4. split_and!.
  - exists s4. unfold mbind, M_bind. rewrite R1, R2, R3, R4. split_and!; [done|done|congruence].
  - done.
  - rewrite Hq4 by apply live_not_queue. by rewrite F3.
  - done.
  - intros q Hn1 Hn2. rewrite Hq4, F3, Hq3, F2, F1 by done. apply content_mkdirs.
Qed.

Lemma commit_patch_runs docBytes d v s :
  ReadBytesNoSchema docBytes = Ok v -> store_ok (EDataDir e) (st_fs s) ->
  content (st_fs s) live = Some d ->
  exists f', runs (commit_patch e c id docBytes) s None f' /\
    store_ok (EDataDir e) f' /\ content f' live = Some (stored v) /\
    content f' prev = Some (default d (content (st_fs s) prev)) /\
    content f' (qfile "patch") = Some "" /\
    forall q, q <> live -> q <> prev -> q <> qfile "patch" -> content f' q = content (st_fs s) q.
Proof.
  intros Hr Hok Hd.
  destruct (Preserve_runs (EDataDir e) c id Hc Hid d s Hok Hd)
    as (f1 & (s1 & R1 & F1 & I1) & Hok1 & Hk1 & Hp1).
  rewrite <-F1 in Hok1.
  destruct (write_doc_runs (EDataDir e) c id Hc Hid docBytes v s1 Hr Hok1)
    as (f3 & (s3 & R3 & F3 & I3) & Hok3 & Hl3 & Hq3).
  rewrite <-F3 in Hok3.
  destruct (EnqueueChange_runs (EDataDir e) c id Hc Hid "patch" s3 eq_refl ltac:(done) eq_refl Hok3)
    as (f4 & (s4 & R4 & F4 & I4) & Hok4 & Hl4 & Hq4).
  pose proof live_not_prev as Hlp.
  exists f4. split_and!.
  - exists s4. unfold commit_patch, mbind, M_bind. rewrite R1, R3, R4.
    split_and!; [done|done|congruence].
  - done.
  - rewrite Hq4 by apply live_not_queue. by rewrite F3.
  - rewrite Hq4 by apply prev_not_queue. rewrite F3, Hq3, F1 by congruence.
    destruct (content (st_fs s) prev) as [d0|]; apply Hp1.
  - done.
  - intros q Hn1 Hn2 Hn3. rewrite Hq4, F3, Hq3, F1 by done. by apply Hk1.
Qed.

Lemma commit_delete_runs d s :
  store_ok (EDataDir e) (st_fs s) -> content (st_fs s) live = Some d ->
  exists f', runs (commit_delete e c id) s None f' /\
    store_ok (EDataDir e) f' /\ content f' live = None /\
    content f' prev = Some (default d (content (st_fs s) prev)) /\
    content f' (qfile "delete") = Some "" /\
    forall q, q <> live -> q <> prev -> q <> qfile "delete" ->
      ~ attachments (EDataDir e) c id q -> content f' q = content (st_fs s) q.
Proof.
  intros Hok Hd.
  destruct (SoftDelete_runs (EDataDir e) c id Hc Hid d s Hok Hd)
    as (f1 & (s1 & R1 & F1 & I1) & Hok1 & Hl1 & Hp1 & Hk1).
  rewrite <-F1 in Hok1.
  destruct (EnqueueChange_runs (EDataDir e) c id Hc Hid "delete" s1 eq_refl ltac:(done) eq_refl Hok1)
    as (f4 & (s4 & R4 & F4 & I4) & Hok4 & Hl4 & Hq4).
  exists f4. split_and!.
  - exists s4. unfold commit_delete, mbind, M_bind. rewrite R1, R4.
    split_and!; [done|done|congruence].
  - done.
  - rewrite Hq4 by apply live_not_queue. by rewrite F1.
  - rewrite Hq4 by apply prev_not_queue. by rewrite F1.
  - done.
  - intros q Hn1 Hn2 Hn3 Hn4. rewrite Hq4, F1 by done. by apply Hk1.
Qed.
End commits.

(** ** Delivery *)

(** What the engine relies on from the component that distributes derived data
    (searches and caches): the documents stay as they are, and so does the
    layout. *)
Definition same_documents (dataDir : path) (f f' : fs) : Prop :=
  forall c id, plain_collection c = true -> SafeID id = true ->
    content f' (DocumentPath dataDir c id) = content f (DocumentPath dataDir c id).

#[export] Instance same_documents_preorder dataDir : PreOrder (same_documents dataDir).
Proof.
  split; unfold same_documents; [done|]. intros f g h H1 H2 c id Hc Hid.
  by rewrite H2, H1.
Qed.

Class DocFrame (dataDir : path) {A} (m : M A) : Prop := {
  frame_documents : forall s, wp m (fun _ s' => same_documents dataDir (st_fs s) (st_fs s')) s;
}.

Class LayoutFrame (dataDir : path) {A} (m : M A) : Prop := {
  frame_layout : forall s, store_ok dataDir (st_fs s) ->
    wp m (fun _ s' => store_ok dataDir (st_fs s')) s;
}.

(** The calls the engine makes of its distributor: one of the three commands, on
    a document it has just committed. *)
Definition committed (command c id : string) : Prop :=
  command ∈ ["create"; "patch"; "delete"] /\ plain_collection c = true /\ SafeID id = true.

Definition plain_server (t : string) : bool := negb (in_string "/" t).

(** An engine as the server builds it: the coordinator shares the data
    directory, server names are names, and the distributor leaves the live
    documents alone when it is called for a committed change. *)
Record engine_ok (e : Engine) : Prop := {
  eo_dir : forall co, EReplicator e = Some co -> CoDataDir co = EDataDir e;
  eo_names : forall slot, Forall (fun t => plain_server t = true)
    (ShardReadMember (AssignmentForSlot (Some (ECfg e)) slot) ++
     ProxyReadMember (AssignmentForSlot (Some (ECfg e)) slot));
  eo_dist : forall d command c id, EDistributor e = Some d -> committed command c id ->
    DocFrame (EDataDir e) (d command c id);
}.

Definition engine_layout (e : Engine) : Prop := forall d command c id,
  EDistributor e = Some d -> committed command c id ->
  LayoutFrame (EDataDir e) (d command c id).

(** A work item of one of the three commands. *)
Definition item_committed (item : DocumentWorkItem) : Prop :=
  committed (Command item) (Collection item) (ID item).

Lemma TargetsForAssignment_sub co a t :
  t ∈ TargetsForAssignment co a -> t ∈ ShardReadMember a ++ ProxyReadMember a.
Proof.
  unfold TargetsForAssignment. generalize (ShardReadMember a ++ ProxyReadMember a) as l.
  assert (forall l out, t ∈ foldl (fun out name =>
           if (name =? "") || (name =? CoServerName co) || containsString out name then out
           else out ++ [name]) out l -> t ∈ out \/ t ∈ l) as H.
  { induction l as [|x l IH]; intros out Ht; simpl in Ht; [by left|].
    apply IH in Ht as [Ht|Ht]; [|right; by right].
    destruct (_ || _); [by left|]. apply elem_of_app in Ht as [Ht|Ht]; [by left|].
    right. set_solver. }
  intros l Ht. apply H in Ht as [Ht|Ht]; [set_solver|done].
Qed.

Lemma engine_targets e co a slot :
  engine_ok e -> a = AssignmentForSlot (Some (ECfg e)) slot ->
  Forall (fun t => in_string "/" t = false) (TargetsForAssignment co a).
Proof.
  intros Hok ->. apply Forall_forall. intros t Ht. apply TargetsForAssignment_sub in Ht.
  pose proof (eo_names _ Hok slot) as Hn. rewrite Forall_forall in Hn. apply Hn in Ht.
  by apply negb_true_iff.
Qed.

Lemma env_ok_aset r k v : k <> "ok" -> env_ok (aset r k v) = env_ok r.
Proof. intros Hk. unfold env_ok. by rewrite aget_aset_ne. Qed.

Lemma env_field_aset r k k' v : k <> k' -> env_field (aset r k v) k' = env_field r k'.
Proof. intros Hk. unfold env_field. by rewrite aget_aset_ne. Qed.

(** What delivery adds to a result. *)
Definition delivered_from (r r' : Envelope) : Prop :=
  env_ok r' = env_ok r /\
  forall k, k <> "note" -> k <> "distributionComplete" -> env_field r' k = env_field r k.

Section delivering.
Context `{E : Env} `{OJSON} `{GoJSON} `{Net}.

Lemma deliverOnce_spec e item result s :
  engine_ok e -> item_committed item ->
  wp (deliverOnce e item result) (fun r s' =>
    delivered_from result r /\ same_documents (EDataDir e) (st_fs s) (st_fs s')) s.
Proof.
  intros Hok Hit. pose proof Hit as (_ & Hc & Hid). unfold deliverOnce. apply wp_bind.
  apply (wp_mono _ (fun p s1 =>
    delivered_from result (snd p) /\ same_documents (EDataDir e) (st_fs s) (st_fs s1))).
  - destruct (EReplicator e) as [co|] eqn:Eco; [|by apply wp_ret].
    wp_step DeliverOnce_keeps; [done|done|by eapply engine_targets|].
    intros o s1 K. apply wp_ret. split.
    + simpl. destruct (Complete o); [by split|]. split; [by apply env_ok_aset|].
      intros k Hk _. apply env_field_aset. congruence.
    + intros c id Hc' Hid'. apply K. rewrite DocumentPath_eq by done. rewrite (eo_dir _ Hok _ Eco).
      intros (n & _ & [Heq|[Ht _]]).
      * apply (f_equal length) in Heq. simpl in Heq. lia.
      * simpl in Ht. by rewrite (SafeID_not_temp id ".json") in Ht.
  - intros [b r1] s1 [[Hok1 Hf1] Hd1]. simpl in *. apply wp_bind.
    apply (wp_mono _ (fun _ s2 => same_documents (EDataDir e) (st_fs s) (st_fs s2))).
    + destruct (EDistributor e) as [d|] eqn:Ed; [|by apply wp_ret].
      eapply wp_mono; [apply (eo_dist _ Hok _ (Command item) (Collection item) (ID item) Ed Hit)|].
      intros b2 s2 Hs. by transitivity (st_fs s1).
    + intros b2 s2 Hs. apply wp_ret. split; [|done]. split; [by rewrite env_ok_aset|].
      intros k Hk1 Hk2. rewrite env_field_aset by congruence. by apply Hf1.
Qed.
End delivering.

Section delivering_layout.
Context `{NF : NoFault} `{OJSON} `{!OJSONLaws} `{GoJSON} `{!GoJSONLaws} `{Net}.

Lemma deliverOnce_layout e item result s :
  engine_ok e -> engine_layout e ->
  item_committed item -> store_ok (EDataDir e) (st_fs s) ->
  wp (deliverOnce e item result) (fun _ s' => store_ok (EDataDir e) (st_fs s')) s.
Proof.
  intros Hok Hlay Hit Hst. pose proof Hit as (_ & Hc & Hid). unfold deliverOnce. apply wp_bind.
  apply (wp_mono _ (fun _ s1 => store_ok (EDataDir e) (st_fs s1))).
  - destruct (EReplicator e) as [co|] eqn:Eco; [|by apply wp_ret].
    apply wp_bind. eapply wp_mono; [apply (DeliverOnce_layout (EDataDir e))|]; auto;
      [by eapply eo_dir|by eapply engine_targets].
  - intros [b r1] s1 Hst1. apply wp_bind.
    apply (wp_mono _ (fun _ s1 => store_ok (EDataDir e) (st_fs s1))); [|done].
    destruct (EDistributor e) as [d|] eqn:Ed; [|by apply wp_ret].
    by apply (Hlay _ (Command item) (Collection item) (ID item) Ed Hit).
Qed.
End delivering_layout.

(** ** Refinement: the three commands on the abstract database *)

Section refinement.
Context `{NF : NoFault} `{OJSON} `{!OJSONLaws} `{GoJSON} `{!GoJSONLaws} `{Net}.
Context (e : Engine) (Hok : engine_ok e) (Hlay : engine_layout e).
Context (req : Request) (detail : fields).

Notation c := (ReqTarget req).
Notation id := (ReqParameter req).
Notation D := (EDataDir e).

(** A commit that answered, and then the delivery of its result. *)
Lemma commit_then_deliver (m : M (option Envelope)) item result s f1 (Q : Envelope -> st -> Prop) :
  runs m s None f1 -> store_ok D f1 ->
  item_committed item ->
  (forall r s', delivered_from result r -> store_ok D (st_fs s') ->
     same_documents D f1 (st_fs s') -> Q r s') ->
  wp (r ← m; match r with Some failure => mret failure | None => deliverOnce e item result end) Q s.
Proof.
  intros Hm Hst Hit HQ. apply wp_bind. eapply wp_runs; [exact Hm|]. intros s1 F1.
  subst f1. eapply wp_mono.
  { apply wp_and; [by apply deliverOnce_spec|by apply deliverOnce_layout]. }
  intros r s2 [[Hr Hd] Hs]. by apply HQ.
Qed.

(** One document changed by the commit, none by the delivery. *)
Lemma abs_commit f f1 f' v :
  plain_collection c = true -> SafeID id = true ->
  (forall c' id', plain_collection c' = true -> SafeID id' = true -> c' <> c \/ id' <> id ->
     content f1 (DocumentPath D c' id') = content f (DocumentPath D c' id')) ->
  match v with
  | Some v => content f1 (DocumentPath D c id) = Some (stored v) /\ well_formed v = true
  | None => content f1 (DocumentPath D c id) = None
  end ->
  same_documents D f1 f' ->
  db_eq (abs D f') (db_set (abs D f) c id v).
Proof.
  intros Hc Hid Hother Hv Hsame. apply abs_update; [done|done| |].
  - intros c' id' Hc' Hid' Hne. rewrite Hsame by done. by apply Hother.
  - rewrite Hsame by done. destruct v as [v|]; [|done]. destruct Hv as [Hv Hw].
    exists (stored v). split; [done|]. by apply read_pretty_newline.
Qed.

Lemma other_live c' id' :
  plain_collection c = true -> SafeID id = true ->
  plain_collection c' = true -> SafeID id' = true -> c' <> c \/ id' <> id ->
  DocumentPath D c' id' <> DocumentPath D c id.
Proof.
  intros Hc Hid Hc' Hid' Hne Heq. apply doc_path_inj in Heq as [-> ->]; [|done..].
  by destruct Hne.
Qed.

Lemma other_prev c' id' :
  plain_collection c = true -> SafeID id = true ->
  plain_collection c' = true -> SafeID id' = true ->
  DocumentPath D c' id' <> PreviousDocumentPath D c id.
Proof.
  intros Hc Hid Hc' Hid'. rewrite DocumentPath_eq, PreviousDocumentPath_eq by done.
  intros Heq. injection Heq as Heq _. by eapply doc_name_not_prev.
Qed.

Lemma other_queue c' id' n d :
  plain_collection c' = true -> SafeID id' = true ->
  DocumentPath D c' id' <> n :: d :: c :: D.
Proof.
  intros Hc' Hid'. rewrite DocumentPath_eq by done.
  intros Heq. apply (f_equal length) in Heq. simpl in Heq. lia.
Qed.

Lemma other_attachment c' id' :
  plain_collection c = true -> SafeID id = true ->
  plain_collection c' = true -> SafeID id' = true ->
  ~ attachments D c id (DocumentPath D c' id').
Proof.
  intros Hc Hid Hc' Hid' Ha. rewrite DocumentPath_eq in Ha by done.
  pose proof (attachment_not_shallow D c id Hc Hid _ (id' +:+ ".json") _ Ha eq_refl) as Heq.
  symmetry in Heq. by apply str_suffix_neq in Heq.
Qed.

(** C1: with no failing system call, [create] is insertion of an absent key of
    the abstract database: when it replies success there was no document, and the
    database is the old one with a document at the key that carries the content
    of the request and the identifier, the schema marker and the version the
    server chose, the version being the one replied; when it replies failure the
    database is unchanged.  The layout of the data directory is kept.
    Conditions: the collection name has no slash and no leading dot; the server
    names of the shard map have no slash; the replicator works in the same data
    directory; the distributor, for committed changes, leaves the live documents
    and the layout as they are (the change agent the server installs does:
    [server_engine_ok], [server_engine_layout]). *)
Theorem create_refines s :
  plain_collection c = true -> store_ok D (st_fs s) ->
  wp (create e req detail) (fun r s' =>
    store_ok D (st_fs s') /\
    if env_ok r then
      content (st_fs s) (DocumentPath D c id) = None /\
      exists src v version,
        ReadBytesNoSchema (ReqDetail req) = Ok src /\ carries src v /\
        meta_is v id (currentSchemaMarker c (ECfg e)) version /\
        env_field r "#" = Some (JStr version) /\
        db_eq (abs D (st_fs s')) (db_set (abs D (st_fs s)) c id (Some v))
    else db_eq (abs D (st_fs s')) (abs D (st_fs s))) s.
Proof.
  intros Hc Hst. apply create_structure.
  { intros r s' Hf Hr. rewrite Hr, Hf. done. }
  intros schemaRaw opID version docBytes s1 F1 Hschema Hid Hroute Hnov Hvalid Hdoc.
  apply create_document in Hdoc as (src & v & Hsrc & Hread & Hout & Hmeta & Hcar).
  rewrite <-F1 in *. pose proof (commit_create_runs e c id Hc Hid docBytes v s1 Hread Hst) as Hrun.
  destruct (content (st_fs s1) (DocumentPath D c id)) as [d|].
  { apply wp_bind. eapply wp_runs; [exact Hrun|]. intros s2 F2. apply wp_ret.
    rewrite fail_doc_not_ok, F2. done. }
  destruct Hrun as (f1 & Hrun & Hst1 & Hl1 & _ & Hrest).
  eapply commit_then_deliver; [exact Hrun|done|split_and!; [set_solver|done|done]|].
  intros r s2 [Hr Hrf] Hst2 Hsame. rewrite OK_ok in Hr by (simpl; set_solver). rewrite Hr.
  split; [done|]. split; [done|]. exists src, v, version. split_and!; [done|done|done| |].
  - by rewrite Hrf.
  - eapply abs_commit; [done|done| |split; [exact Hl1|by eapply read_well_formed]|done].
    intros c' id' Hc' Hid' Hne. apply Hrest; [by apply other_live|by apply other_queue].
Qed.


(** C3: with no failing system call, and for a target that is a collection name
    (no slash, no leading dot; [delete] does not check this, see
    [delete_target_escapes]), [delete] is compare-and-remove: when it replies
    success the stored document had the version the request named and the key is
    gone, every other key being as it was; when it replies failure the database
    is unchanged.  The layout is kept.  Conditions on the engine as for [create]:
    server names without slash, and a distributor that leaves live documents and
    layout alone, as the change agent does. *)
Theorem delete_refines s :
  plain_collection c = true -> store_ok D (st_fs s) ->
  wp (delete_doc e req detail) (fun r s' =>
    store_ok D (st_fs s') /\
    if env_ok r then
      exists doc,
        abs D (st_fs s) c id = Some doc /\
        as_string (aget detail "#") = as_string (Get doc "#") /\
        as_string (aget detail "#") <> "" /\
        db_eq (abs D (st_fs s')) (db_set (abs D (st_fs s)) c id None)
    else db_eq (abs D (st_fs s')) (abs D (st_fs s))) s.
Proof.
  intros Hc Hst. apply delete_structure.
  { intros r s' Hf Hr. rewrite Hr, Hf. done. }
  intros d m opID s1 F1 Hid Hroute Hd Hread Hver Hne. rewrite <-F1 in *.
  destruct (commit_delete_runs e c id Hc Hid d s1 Hst Hd)
    as (f1 & Hrun & Hst1 & Hl1 & _ & _ & Hrest).
  eapply commit_then_deliver; [exact Hrun|done|split_and!; [set_solver|done|done]|].
  intros r s2 [Hr Hrf] Hst2 Hsame. rewrite OK_ok in Hr by (simpl; set_solver). rewrite Hr.
  split; [done|]. exists (JObj m). split_and!; try done.
  - unfold abs. by rewrite Hc, Hid, Hd, Hread.
  - eapply abs_commit; [done|done| |exact Hl1|done].
    intros c' id' Hc' Hid' Hne'.
    apply Hrest; [by apply other_live|by apply other_prev|by apply other_queue|].
    by apply other_attachment.
Qed.
End refinement.

(** ** Failures: any system call may fail at any point *)

Section faults.
Context `{E : Env} `{OJSON} `{!OJSONLaws} `{GoJSON} `{Net}.
Context (e : Engine) (Hok : engine_ok e).
Context (req : Request) (detail : fields).

Notation c := (ReqTarget req).
Notation id := (ReqParameter req).
Notation D := (EDataDir e).
Notation live := (DocumentPath D c id).
Notation prev := (PreviousDocumentPath D c id).

(** Every document but one is as it was. *)
Definition others_kept (f f' : fs) : Prop :=
  forall c' id', plain_collection c' = true -> SafeID id' = true -> c' <> c \/ id' <> id ->
    content f' (DocumentPath D c' id') = content f (DocumentPath D c' id').

Lemma others_kept_keeps f f' (P : path -> Prop) :
  plain_collection c = true -> SafeID id = true -> keeps P f f' ->
  (forall c' id', plain_collection c' = true -> SafeID id' = true -> c' <> c \/ id' <> id ->
     ~ P (DocumentPath D c' id')) ->
  others_kept f f'.
Proof. intros Hc Hid K HP c' id' Hc' Hid' Hne. by apply K, HP. Qed.

Lemma others_written p :
  plain_collection c = true -> SafeID id = true ->
  p = live \/ (exists n, p = n :: ".changeQueue" :: c :: D) ->
  forall c' id', plain_collection c' = true -> SafeID id' = true -> c' <> c \/ id' <> id ->
    ~ written p (DocumentPath D c' id').
Proof.
  intros Hc Hid Hp c' id' Hc' Hid' Hne [Heq|[Ht _]].
  - destruct Hp as [->|[n ->]]; revert Heq; [by apply other_live|by apply other_queue].
  - rewrite DocumentPath_eq in Ht by done. simpl in Ht.
    by rewrite (SafeID_not_temp id' ".json") in Ht.
Qed.

Lemma not_temp_doc q n : q = n :: c :: D -> temp_component n = false -> is_temp q = false.
Proof. by intros ->. Qed.

Lemma live_not_temp : plain_collection c = true -> SafeID id = true -> is_temp live = false.
Proof. intros Hc Hid. rewrite DocumentPath_eq by done. by apply SafeID_not_temp. Qed.

Lemma prev_not_temp : plain_collection c = true -> SafeID id = true -> is_temp prev = false.
Proof. intros Hc Hid. rewrite PreviousDocumentPath_eq by done. apply prev_name_not_temp. Qed.

(** Recording the change touches no document. *)
Lemma enqueue_frame change s :
  plain_collection c = true -> SafeID id = true -> change ∈ ["create"; "patch"; "delete"] ->
  wp (EnqueueChange D c id change) (fun _ s' =>
    others_kept (st_fs s) (st_fs s') /\
    content (st_fs s') live = content (st_fs s) live /\
    content (st_fs s') prev = content (st_fs s) prev) s.
Proof.
  intros Hc Hid Hch.
  assert (HasPrefix change "." = false /\ change <> "" /\ in_string "/" change = false)
    as (C1 & C2 & C3).
  { rewrite !elem_of_cons in Hch. destruct Hch as [->|[->|[->|Hn]]]; [done..|set_solver]. }
  pose proof (EnqueueChange_spec D c id change s) as Hs. cbv zeta in Hs.
  rewrite queue_path_eq in Hs by done.
  eapply wp_mono; [apply Hs; by apply queue_name_no_temp|].
  intros r s' Hr. set (q := queue_name change c id ".queue" :: _) in *.
  assert (keeps (written q) (st_fs s) (st_fs s')) as K.
  { destruct r; [apply Hr|]. eapply keeps_mono; [exact Hr|]. intros x Hx. by right. }
  split_and!.
  - eapply others_kept_keeps; [done|done|exact K|]. apply others_written; eauto.
  - apply K. intros [Heq|[Ht _]]; [by apply (live_not_queue e c id Hc Hid change)|].
    by rewrite live_not_temp in Ht.
  - apply K. intros [Heq|[Ht _]]; [by apply (prev_not_queue e c id Hc Hid change)|].
    by rewrite prev_not_temp in Ht.
Qed.

(** Writing the document leaves the old text or the whole new one. *)
Lemma write_frame raw v s :
  plain_collection c = true -> SafeID id = true -> ReadBytesNoSchema raw = Ok v ->
  wp (WriteDocumentJSONVerified live raw) (fun r s' =>
    others_kept (st_fs s) (st_fs s') /\
    content (st_fs s') prev = content (st_fs s) prev /\
    (content (st_fs s') live = content (st_fs s) live /\ is_ok r = false \/
     content (st_fs s') live = Some (stored v))) s.
Proof.
  intros Hc Hid Hv. eapply wp_mono; [by apply WriteDocumentJSONVerified_spec, live_not_temp|].
  intros r s' Hr. cbv beta in Hr.
  assert (keeps (written live) (st_fs s) (st_fs s')) as K.
  { destruct Hr as [[K _]|(out & _ & _ & K)]; [|done]. eapply keeps_mono; [exact K|].
    intros x Hx. by right. }
  split_and!.
  - eapply others_kept_keeps; [done|done|exact K|]. apply others_written; eauto.
  - apply K. intros [Heq|[Ht _]]; [by apply (live_not_prev e c id Hc Hid)|].
    by rewrite prev_not_temp in Ht.
  - destruct Hr as [[K' Hr]|(out & Ho & Hl & _)]; [left; split; [|done]|right].
    + apply K'. intros [Ht _]. by rewrite live_not_temp in Ht.
    + unfold PrettyBytes in Ho. rewrite Hv in Ho. simpl in Ho. rewrite Hl.
      unfold stored. congruence.
Qed.

Lemma others_kept_trans f g h : others_kept f g -> others_kept g h -> others_kept f h.
Proof. intros K1 K2 c' id' Hc' Hid' Hne. rewrite K2 by done. by apply K1. Qed.

Lemma others_kept_same f g h : others_kept f g -> same_documents D g h -> others_kept f h.
Proof. intros K1 K2 c' id' Hc' Hid' Hne. rewrite K2 by done. by apply K1. Qed.

(** The commit of a new document. *)
Lemma commit_create_spec docBytes v s :
  plain_collection c = true -> SafeID id = true -> ReadBytesNoSchema docBytes = Ok v ->
  wp (commit_create e c id docBytes) (fun r s' =>
    others_kept (st_fs s) (st_fs s') /\
    match r with Some failure => env_ok failure = false | None => True end /\
    (content (st_fs s') live = content (st_fs s) live /\ r <> None \/
     content (st_fs s') live = Some (stored v) /\ (content (st_fs s) live = None \/ faulty))) s.
Proof.
  intros Hc Hid Hv. unfold commit_create.
  wp_step Stat_spec. intros r s1 [F1 Hr]. destruct r as [n|err].
  { apply wp_ret. rewrite F1. split_and!; [done|auto with go|]. by left. }
  assert (content (st_fs s) live = None \/ faulty) as Habs.
  { destruct Hr as [Hr|[_ Hf]]; [left|by right]. unfold content.
    rewrite DocumentPath_eq in Hr by done. rewrite DocumentPath_eq by done.
    destruct (st_fs s !! _) as [[d|]|] eqn:Ed; [|done|done].
    rewrite (fs_lookup_some _ _ _ _ Ed) in Hr. done. }
  unfold EnsureCollectionDir. wp_step MkdirAll_spec. intros r s2 [K2 _].
  assert (others_kept (st_fs s) (st_fs s2)) as O2.
  { intros c' id' _ _ _. rewrite K2. by rewrite F1. }
  assert (content (st_fs s2) live = content (st_fs s) live) as L2 by (rewrite K2; by rewrite F1).
  destruct r as [u|err2]; [|apply wp_ret; split_and!; [done|auto with go|by left]].
  wp_step write_frame; [done|done|exact Hv|]. intros r s3 (O3 & _ & H3).
  destruct r as [u3|err3].
  2:{ apply wp_ret. split_and!; [by eapply others_kept_trans|auto with go|].
      destruct H3 as [[H3 _]|H3]; [left; split; [congruence|done]|by right]. }
  destruct H3 as [[_ H3]|H3]; [done|].
  wp_step enqueue_frame; [done|done|set_solver|]. intros r s4 (O4 & L4 & _).
  assert (others_kept (st_fs s) (st_fs s4)) as O14.
  { eapply others_kept_trans; [exact O2|]. by eapply others_kept_trans. }
  destruct r as [u4|err4]; apply wp_ret; (split_and!; [done|auto with go|right]);
    (split; [congruence|done]).
Qed.

(** The commit of a patch: the old document is live, or the new one is, or the
    old one waits at the previous path. *)
Lemma commit_patch_spec docBytes d v s :
  plain_collection c = true -> SafeID id = true -> ReadBytesNoSchema docBytes = Ok v ->
  content (st_fs s) live = Some d ->
  wp (commit_patch e c id docBytes) (fun r s' =>
    others_kept (st_fs s) (st_fs s') /\
    match r with Some failure => env_ok failure = false | None => True end /\
    (content (st_fs s') live = Some d /\ r <> None \/
     content (st_fs s') live = Some (stored v) \/
     content (st_fs s') live = None /\ content (st_fs s') prev = Some d /\ r <> None)) s.
Proof.
  intros Hc Hid Hv Hd. unfold commit_patch.
  wp_step Preserve_spec. intros r s1 Hr. destruct r as [u|err].
  2:{ apply wp_ret. rewrite Hr. split_and!; [done|auto with go|by left]. }
  pose proof (live_not_prev e c id Hc Hid) as Hlp.
  assert (others_kept (st_fs s) (st_fs s1) /\
          (content (st_fs s1) live = Some d \/
           content (st_fs s1) live = None /\ content (st_fs s1) prev = Some d)) as [O1 L1].
  { destruct Hr as [[-> _]|(d' & _ & Hd' & ->)]; [split; [done|by left]|].
    rewrite (proj1 (content_Some _ _ _) Hd) in Hd'. injection Hd' as <-. split.
    - intros c' id' Hc' Hid' Hne.
      rewrite content_insert_ne by (by apply not_eq_sym, other_prev).
      unfold content. rewrite lookup_delete_ne; [done|]. by apply not_eq_sym, other_live.
    - right. split; [|apply content_insert_eq].
      rewrite content_insert_ne by congruence. unfold content. by rewrite lookup_delete_eq. }
  wp_step write_frame; [done|done|exact Hv|]. intros r s3 (O3 & P3 & H3).
  destruct r as [u3|err3].
  2:{ apply wp_ret. split_and!; [by eapply others_kept_trans|auto with go|].
      destruct H3 as [[H3 _]|H3]; [|by auto].
      destruct L1 as [L1|[L1 P1]]; [left|right; right]; split_and!; congruence. }
  destruct H3 as [[_ H3]|H3]; [done|].
  wp_step enqueue_frame; [done|done|set_solver|]. intros r s4 (O4 & L4 & _).
  assert (others_kept (st_fs s) (st_fs s4)) as O14.
  { eapply others_kept_trans; [exact O1|]. by eapply others_kept_trans. }
  destruct r as [u4|err4]; apply wp_ret; (split_and!; [done|auto with go|right; left; congruence]).
Qed.

(** The commit of a removal: the document is live, or it is gone and a copy or an
    older text is at the previous path. *)
Lemma commit_delete_spec d s :
  plain_collection c = true -> SafeID id = true -> content (st_fs s) live = Some d ->
  (st_fs s !! prev <> Some Directory) ->
  wp (commit_delete e c id) (fun r s' =>
    others_kept (st_fs s) (st_fs s') /\
    match r with Some failure => env_ok failure = false | None => True end /\
    (content (st_fs s') live = Some d /\ r <> None \/
     content (st_fs s') live = None /\ is_Some (content (st_fs s') prev))) s.
Proof.
  intros Hc Hid Hd Hnd. unfold commit_delete.
  pose proof (live_not_prev e c id Hc Hid) as Hlp.
  wp_step SoftDelete_spec. intros r s1 Hr.
  assert (others_kept (st_fs s) (st_fs s1) /\
          (content (st_fs s1) live = Some d /\ is_ok r = false \/
           content (st_fs s1) live = None /\ is_Some (content (st_fs s1) prev))) as [O1 L1].
  { destruct Hr as [[-> Hr]|(f1 & K & Hf1)]; [split; [done|by left]|].
    assert (others_kept f1 (st_fs s1)) as OK.
    { eapply others_kept_keeps; [done|done|exact K|]. intros. by apply other_attachment. }
    rewrite (K live) by (by apply live_not_attachment).
    rewrite (K prev) by (by apply prev_not_attachment).
    destruct Hf1 as [[Hp ->]|(d' & Hd' & _ & ->)]; (split; [|right]).
    - eapply others_kept_trans; [|exact OK]. intros c' id' Hc' Hid' Hne.
      unfold content. rewrite lookup_delete_ne; [done|]. by apply not_eq_sym, other_live.
    - unfold content. rewrite lookup_delete_eq, lookup_delete_ne by done. split; [done|].
      rewrite PreviousDocumentPath_eq in * by done. unfold fs_lookup in Hp.
      destruct (st_fs s !! _) as [[x|]|]; [by eexists|done|done].
    - eapply others_kept_trans; [|exact OK]. intros c' id' Hc' Hid' Hne.
      rewrite content_insert_ne by (by apply not_eq_sym, other_prev).
      unfold content. rewrite lookup_delete_ne; [done|]. by apply not_eq_sym, other_live.
    - rewrite content_insert_eq, content_insert_ne by congruence.
      unfold content. rewrite lookup_delete_eq. split; [done|by eexists]. }
  destruct r as [u|err].
  2:{ apply wp_ret. split_and!; [done|auto with go|].
      destruct L1 as [[L1 _]|L1]; [by left|by right]. }
  destruct L1 as [[_ L1]|[L1 P1]]; [done|].
  wp_step enqueue_frame; [done|done|set_solver|]. intros r s4 (O4 & L4 & P4).
  assert (others_kept (st_fs s) (st_fs s4)) as O14 by (by eapply others_kept_trans).
  destruct r as [u4|err4]; apply wp_ret; (split_and!; [done|auto with go|right]);
    rewrite P4; (split; [congruence|done]).
Qed.

(** A commit with its specification, then the delivery of its result. *)
Lemma commit_deliver_spec (m : M (option Envelope)) (P : bool -> fs -> Prop) item result s
    (Q : Envelope -> st -> Prop) :
  wp m (fun r s' => match r with Some failure => env_ok failure = false | None => True end /\
                    P (match r with None => true | _ => false end) (st_fs s')) s ->
  item_committed item ->
  (forall r s', env_ok r = false -> P false (st_fs s') -> Q r s') ->
  (forall r s' f, delivered_from result r -> P true f -> same_documents D f (st_fs s') -> Q r s') ->
  wp (r ← m; match r with Some failure => mret failure | None => deliverOnce e item result end) Q s.
Proof.
  intros Hm Hit Hbad Hgood. apply wp_bind. eapply wp_mono; [exact Hm|].
  intros [failure|] s1 [Hf HP]; [apply wp_ret; by apply Hbad|].
  eapply wp_mono; [by apply deliverOnce_spec|]. intros r s2 [Hr Hd]. by eapply Hgood.
Qed.

(** C4: whatever system call of [create] fails, at whatever point, every other
    document is as it was, and the target is as it was or holds the whole new
    document: the content of the request with the metadata the server chose; a
    reply of success means the new document is there under the version the reply
    names, and an existing document can only have been replaced when a failing
    call hid it.  Conditions: a collection name without slash and leading dot,
    server names without slash, and a distributor that for committed changes
    leaves the live documents alone, as the change agent does
    ([server_engine_ok]). *)
Theorem create_all_or_nothing s :
  plain_collection c = true ->
  wp (create e req detail) (fun r s' =>
    others_kept (st_fs s) (st_fs s') /\
    (content (st_fs s') live = content (st_fs s) live /\ env_ok r = false \/
     exists src v version,
       ReadBytesNoSchema (ReqDetail req) = Ok src /\ carries src v /\
       content (st_fs s') live = Some (stored v) /\ ReadBytesNoSchema (stored v) = Ok v /\
       meta_is v id (currentSchemaMarker c (ECfg e)) version /\
       (env_ok r = true -> env_field r "#" = Some (JStr version)) /\
       (content (st_fs s) live = None \/ faulty))) s.
Proof.
  intros Hc. apply create_structure.
  { intros r s' Hf Hr. rewrite Hf. split; [done|by left]. }
  intros schemaRaw opID version docBytes s1 F1 _ Hid _ _ _ Hdoc.
  apply create_document in Hdoc as (src & v & Hsrc & Hread & Hout & Hmeta & Hcar).
  rewrite <-F1. rewrite Hout in Hread.
  eapply (commit_deliver_spec _ (fun good f => others_kept (st_fs s1) f /\
    (content f live = content (st_fs s1) live /\ good = false \/
     content f live = Some (stored v) /\ (content (st_fs s1) live = None \/ faulty))));
    [|split_and!; [set_solver|done|done]| |].
  - eapply wp_mono; [apply (commit_create_spec docBytes v); [done|done|by rewrite Hout]|].
    intros r s' (O & Hr & L). split; [done|]. split; [done|].
    destruct L as [[L Hn]|L]; [left|by right]. by destruct r.
  - intros r s' Hr [O [[L _]|[L Habs]]]; (split; [done|]); [by left|right].
    exists src, v, version. split_and!; try done. by rewrite Hr.
  - intros r s' f [Hr Hrf] [O L] Hsame. split; [by eapply others_kept_same|right].
    destruct L as [[_ L]|[L Habs]]; [done|]. exists src, v, version.
    rewrite Hsame by done. split_and!; try done. intros _. by rewrite Hrf.
Qed.

(** C5: whatever system call of [patch] fails, at whatever point, every other
    document is as it was and the old text of the target is not lost: it is
    live, or the whole new text is live, or the live file is missing and the old
    text is at the hidden previous path; the new text is the old document with
    the operations of the request applied, under the metadata the server chose,
    and a reply of success means it is live.  Conditions as for
    [create_all_or_nothing]: a collection name without slash and leading dot,
    server names without slash, and a distributor that leaves the live documents
    alone, as the change agent does. *)
Theorem patch_loses_nothing d s :
  plain_collection c = true -> content (st_fs s) live = Some d ->
  wp (patch e req detail) (fun r s' =>
    others_kept (st_fs s) (st_fs s') /\
    (content (st_fs s') live = Some d /\ env_ok r = false \/
     content (st_fs s') live = None /\ content (st_fs s') prev = Some d /\ env_ok r = false \/
     exists schemaRaw doc ops patched v after,
       ReadBytesNoSchema d = Ok doc /\
       patch_accepted e schemaRaw req detail doc ops patched /\ carries patched v /\
       content (st_fs s') live = Some (stored v) /\ ReadBytesNoSchema (stored v) = Ok v /\
       meta_is v id (currentSchemaMarker c (ECfg e)) after)) s.
Proof.
  intros Hc Hd. apply patch_structure.
  { intros r s' Hf Hr. rewrite Hf. split; [done|by left]. }
  intros schemaRaw d' doc ops patched after full opMaps opID docBytes s1 F1 _ Hid _
    Hd' Hread Hacc Hmeta Hcan.
  rewrite Hd in Hd'. injection Hd' as <-.
  destruct (patch_document_stored _ _ _ _ _ _ _ _ _ (read_well_formed _ _ Hread)
              (pa_applied _ _ _ _ _ _ _ Hacc) Hmeta Hcan) as (v & Hrv & Hout & Hm & Hcar).
  rewrite <-F1 in *.
  eapply (commit_deliver_spec _ (fun good f => others_kept (st_fs s1) f /\
    (content f live = Some d /\ good = false \/ content f live = Some (stored v) \/
     content f live = None /\ content f prev = Some d /\ good = false)));
    [|split_and!; [set_solver|done|done]| |].
  - eapply wp_mono; [apply (commit_patch_spec docBytes d v); [done|done|done|done]|].
    intros r s' (O & Hr & L). split; [done|]. split; [done|].
    destruct L as [[L Hn]|[L|(L & P & Hn)]]; [left|by auto|right; right]; by destruct r.
  - rewrite Hout in Hrv. intros r s' Hr [O L]. split; [done|].
    destruct L as [[L _]|[L|(L & P & _)]]; [by left|right; right|by eauto].
    exists schemaRaw, doc, ops, patched, v, after. done.
  - rewrite Hout in Hrv. intros r s' f [Hr Hrf] [O L] Hsame.
    split; [by eapply others_kept_same|].
    destruct L as [[_ L]|[L|(_ & _ & L)]]; [done| |done]. right; right.
    exists schemaRaw, doc, ops, patched, v, after. rewrite Hsame by done. done.
Qed.

(** C6: whatever system call of [delete] fails, at whatever point, and for a
    target that is a collection name (no slash, no leading dot; [delete] does not
    check this, see [delete_target_escapes]) whose hidden previous path is no
    directory, every other document is as it was and the target is live, or it is
    gone; gone after a reply of failure, a text of it is still at the hidden
    previous path.  Conditions on the engine as for [create_all_or_nothing]:
    server names without slash, and a distributor that leaves the live documents
    alone, as the change agent does. *)
Theorem delete_keeps_copy d s :
  plain_collection c = true -> content (st_fs s) live = Some d ->
  st_fs s !! prev <> Some Directory ->
  wp (delete_doc e req detail) (fun r s' =>
    others_kept (st_fs s) (st_fs s') /\
    (content (st_fs s') live = Some d /\ env_ok r = false \/
     content (st_fs s') live = None /\
       (env_ok r = false -> is_Some (content (st_fs s') prev)))) s.
Proof.
  intros Hc Hd Hnd. apply delete_structure.
  { intros r s' Hf Hr. rewrite Hf. split; [done|by left]. }
  intros d' m opID s1 F1 Hid _ Hd' Hread Hver Hne. rewrite <-F1 in *.
  eapply (commit_deliver_spec _ (fun good f => others_kept (st_fs s1) f /\
    (content f live = Some d /\ good = false \/
     content f live = None /\ is_Some (content f prev)))); [|split_and!; [set_solver|done|done]| |].
  - eapply wp_mono; [by apply (commit_delete_spec d)|].
    intros r s' (O & Hr & L). split; [done|]. split; [done|].
    destruct L as [[L Hn]|L]; [left; by destruct r|by right].
  - intros r s' Hr [O [[L _]|[L P]]]; (split; [done|]); [by left|by right].
  - intros r s' f [Hr Hrf] [O [[_ L]|[L P]]] Hsame; [done|].
    split; [by eapply others_kept_same|right]. rewrite Hsame by done. split; [done|].
    rewrite Hr, OK_ok by (simpl; set_solver). done.
Qed.
End faults.
