(* ===== verification/EngineFiles.v ===== *)
(** * Package engine: attachments

    [internal/engine/files.go]: the commands that create, update, delete, list and
    open the attachments of a document.  As in [Engine], the mutex makes the part
    between staging and delivery one atomic section. *)

From S2P Require Import Prelude GoStrings Sha256 World Shard Json Config Store Attach Replication.
From S2P Require Import Engine FileRepl.

Record PutFileOptions := mkPutFileOptions {
  PfContentType : string;
  PfIfMatch : string;      (* empty: create only *)
  PfOperationID : string;
}.

Definition maxFileBytes (e : Engine) : Z := file_limit (ECfg e).

Definition file_fields (command collection docID filename : string) : fields :=
  [("command", JStr command); ("collection", JStr collection); ("id", JStr docID);
   ("filename", JStr filename)].

Definition fail_file (command collection docID filename code message : string) : Envelope :=
  Fail (file_fields command collection docID filename) [mk_err code message].

Definition wrongMachineFile (base : Envelope) (command filename : string) : Envelope :=
  let base := if command =? "" then base else aset base "command" (EJ (JStr command)) in
  if filename =? "" then base else aset base "filename" (EJ (JStr filename)).

Definition checkFileStaleness (e : Engine) (id command collection filename : string)
    : option Envelope :=
  match EReadState e with
  | None => None
  | Some rs =>
      let sot := ShardSOTMember (AssignmentForSlot (Some (ECfg e)) (Slot id)) in
      let fs := [("command", JStr command); ("collection", JStr collection); ("id", JStr id)] ++
                (if filename =? "" then [] else [("filename", JStr filename)]) in
      if (sot <>? "") && (sot <>? EServerName e) && IsStaleForSOT rs sot then
        Some (Fail fs [mk_err "fileStale"
          "This read member has failed too many check-ins with the shard's SOT-member and refuses file reads for this shard slot until it catches up."])
      else if IsPendingFile rs collection id filename ||
              ((filename =? "") && HasPendingFilesForDoc rs collection id) then
        Some (Fail fs [mk_err "fileStale"
          "This file has a pending replicated write that has not been applied yet."])
      else None
  end.

Section files.
Context `{Env} `{OJSON} `{GoJSON} `{FileNet}.

Definition deliverFileOnce (e : Engine) (item : FileWorkItem) (result : Envelope) : M Envelope :=
  p ← match EReplicator e with
      | None => mret (true, result)
      | Some co =>
          let targets := TargetsForAssignment co (AssignmentForSlot (Some (ECfg e)) (Slot (FwID item))) in
          outcome ← DeliverFileOnce co item targets;
          mret (Complete outcome,
                if Complete outcome then result else aset result "note" (EJ (BuildFileNote outcome)))
      end;
  mret (aset (snd p) "distributionComplete" (EJ (JBool (fst p)))).

(** The version check of an upload: the command that will be carried out. *)
Definition check_file_version (collection docID filename ifMatch : string)
    (entries : list FileEntry) : Envelope + string :=
  match LookupFileEntry entries filename with
  | Some existing =>
      if ifMatch =? "" then
        inl (Fail (file_fields "fileCreate" collection docID filename)
          [mkEError "fileExists" "" "file already exists; provide If-Match with the current file version to update"
             None (Some (JStr (FVersion existing)))])
      else if FVersion existing <>? ifMatch then
        inl (Fail (file_fields "fileUpdate" collection docID filename)
          [mkEError "fileVersionMismatch" "" "file version does not match"
             (Some (JStr ifMatch)) (Some (JStr (FVersion existing)))])
      else inr "fileUpdate"
  | None =>
      if ifMatch =? "" then inr "fileCreate"
      else inl (fail_file "fileUpdate" collection docID filename "fileNotFound" "file not found")
  end.

(** The operation identifier: the client's, or a fresh one. *)
Definition file_operation (opID : string) : M (result string) :=
  if opID =? "" then NewID else mret (Ok opID).

Definition file_reply_fields (command collection docID : string) (entry : FileEntry) (opID : string)
    : fields :=
  [("command", JStr command); ("collection", JStr collection); ("id", JStr docID);
   ("filename", JStr (FName entry)); ("version", JStr (FVersion entry));
   ("byteSize", JNum (Itoa (FByteSize entry))); ("sha256", JStr (FSHA256 entry));
   ("contentType", JStr (FContentType entry)); ("operationId", JStr opID)].

Definition file_item (command collection docID : string) (entry : FileEntry) (opID : string)
    : FileWorkItem :=
  mkFileItem collection docID (FName entry) (FContentType entry) (FByteSize entry) (FSHA256 entry)
    (FVersion entry) opID command.

(** Under the lock, the upload staged: the entry that was committed and its
    command, or the failure.  A failure removes the staged file. *)
Definition commit_upload (e : Engine) (collection docID filename cmd : string) (opts : PutFileOptions)
    (staged : StagedBinary) : M (Envelope + string * FileEntry) :=
  let stop r : M (Envelope + string * FileEntry) := _ ← Remove (StagedPath staged); mret (inl r) in
  live ← DocumentExistsLive (EDataDir e) collection docID;
  match live with
  | false => stop (fail_file cmd collection docID filename "documentNotFound" "parent document not found")
  | true =>
  r ← ReadFilesManifest (EDataDir e) collection docID;
  match r with
  | Err err => stop (fail_file cmd collection docID filename "filesystemError" (err_msg err))
  | Ok entries =>
  match check_file_version collection docID filename (PfIfMatch opts) entries with
  | inl r => stop r
  | inr cmd =>
  r ← file_operation (PfOperationID opts);
  match r with
  | Err err => stop (fail_file cmd collection docID filename "idGenerationFailed" (err_msg err))
  | Ok opID =>
  r ← NewID;
  match r with
  | Err err => stop (fail_file cmd collection docID filename "idGenerationFailed" (err_msg err))
  | Ok version =>
  let contentType := if PfContentType opts =? "" then "application/octet-stream" else PfContentType opts in
  let entry := mkFileEntry filename contentType (SByteSize staged) (SSHA256 staged) version opID in
  r ← CommitStagedBinary (EDataDir e) collection docID entry staged;
  match r with
  | Err err => stop (fail_file cmd collection docID filename "filesystemError" (err_msg err))
  | Ok _ => mret (inr (cmd, entry))
  end end end end end end.

Definition PutFile (e : Engine) (r : source) (collection docID filename : string)
    (opts : PutFileOptions) : M Envelope :=
  let cmd := if PfIfMatch opts =? "" then "fileCreate" else "fileUpdate" in
  if negb (ValidDocumentID docID) || negb (SafeID docID) then
    mret (fail_file "fileCreate" collection docID filename "invalidDocumentId"
            "document id is invalid or unsafe for filesystem storage")
  else if negb (SafeFileName filename) then
    mret (fail_file "fileCreate" collection docID filename "invalidFileName"
            "file name is invalid or unsafe for filesystem storage")
  else
  match checkRouting e docID "create" collection with
  | Some wrong => mret (wrongMachineFile wrong cmd filename)
  | None =>
  staged ← StageWriteBinary (EDataDir e) collection docID filename r (maxFileBytes e);
  match staged with
  | Err err =>
      if IsFileTooLarge err
      then mret (fail_file cmd collection docID filename "fileTooLarge"
                   ("file exceeds maxFileBytes limit of " +:+ Itoa (maxFileBytes e)))
      else mret (fail_file cmd collection docID filename "filesystemError" (err_msg err))
  | Ok staged =>
  r ← commit_upload e collection docID filename cmd opts staged;
  match r with
  | inl failure => mret failure
  | inr (cmd, entry) =>
      deliverFileOnce e (file_item cmd collection docID entry (FOperationID entry))
        (OK (file_reply_fields cmd collection docID entry (FOperationID entry)))
  end end end.

(** Under the lock: the entry that was removed and the operation, or the failure. *)
Definition commit_file_delete (e : Engine) (collection docID filename ifMatch operationID : string)
    : M (Envelope + FileEntry * string) :=
  let failed code msg : M (Envelope + FileEntry * string) :=
    mret (inl (fail_file "fileDelete" collection docID filename code msg)) in
  live ← DocumentExistsLive (EDataDir e) collection docID;
  match live with
  | false => failed "documentNotFound" "parent document not found"
  | true =>
  r ← ReadFilesManifest (EDataDir e) collection docID;
  match r with
  | Err err => failed "filesystemError" (err_msg err)
  | Ok entries =>
  match LookupFileEntry entries filename with
  | None => failed "fileNotFound" "file not found"
  | Some existing =>
  if (ifMatch =? "") || (ifMatch <>? FVersion existing) then
    mret (inl (Fail (file_fields "fileDelete" collection docID filename)
      [mkEError "fileVersionMismatch" "" "file version does not match"
         (Some (JStr ifMatch)) (Some (JStr (FVersion existing)))]))
  else
  r ← file_operation operationID;
  match r with
  | Err err => failed "idGenerationFailed" (err_msg err)
  | Ok opID =>
  let entry := mkFileEntry (FName existing) (FContentType existing) (FByteSize existing)
                 (FSHA256 existing) (FVersion existing) opID in
  r ← CommitFileDelete (EDataDir e) collection docID entry;
  match r with
  | Err err => failed "filesystemError" (err_msg err)
  | Ok _ => mret (inr (existing, opID))
  end end end end end.

Definition DeleteFile (e : Engine) (collection docID filename ifMatch operationID : string)
    : M Envelope :=
  if negb (ValidDocumentID docID) || negb (SafeID docID) then
    mret (fail_file "fileDelete" collection docID filename "invalidDocumentId"
            "document id is invalid or unsafe for filesystem storage")
  else if negb (SafeFileName filename) then
    mret (fail_file "fileDelete" collection docID filename "invalidFileName"
            "file name is invalid or unsafe for filesystem storage")
  else
  match checkRouting e docID "delete" collection with
  | Some wrong => mret (wrongMachineFile wrong "fileDelete" filename)
  | None =>
  r ← commit_file_delete e collection docID filename ifMatch operationID;
  match r with
  | inl failure => mret failure
  | inr (existing, opID) =>
      deliverFileOnce e (file_item "fileDelete" collection docID existing opID)
        (OK (file_reply_fields "fileDelete" collection docID existing opID))
  end end.

Definition entry_fields (ent : FileEntry) : json :=
  JObj [("name", JStr (FName ent)); ("contentType", JStr (FContentType ent));
        ("byteSize", JNum (Itoa (FByteSize ent))); ("sha256", JStr (FSHA256 ent));
        ("version", JStr (FVersion ent)); ("operationId", JStr (FOperationID ent))].

Definition ListFiles (e : Engine) (collection docID : string) : M Envelope :=
  let failed code msg : M Envelope := mret (fail_doc "fileList" collection docID code msg) in
  if negb (ValidDocumentID docID) || negb (SafeID docID) then
    failed "invalidDocumentId" "document id is invalid or unsafe for filesystem storage"
  else
  match checkRouting e docID "read" collection with
  | Some wrong => mret (wrongMachineFile wrong "fileList" "")
  | None =>
  match checkFileStaleness e docID "fileList" collection "" with
  | Some stale => mret stale
  | None =>
  live ← DocumentExistsLive (EDataDir e) collection docID;
  match live with
  | false => failed "documentNotFound" "parent document not found"
  | true =>
  r ← ReadFilesManifest (EDataDir e) collection docID;
  match r with
  | Err err => failed "filesystemError" (err_msg err)
  | Ok entries =>
      mret (OK [("command", JStr "fileList"); ("collection", JStr collection); ("id", JStr docID);
                ("files", JArr (map entry_fields entries))])
  end end end end.

Definition OpenFileForDownload (e : Engine) (collection docID filename : string)
    : M (Envelope + FileEntry * string) :=
  let failed code msg : M (Envelope + FileEntry * string) :=
    mret (inl (fail_file "fileRead" collection docID filename code msg)) in
  if negb (ValidDocumentID docID) || negb (SafeID docID) then
    failed "invalidDocumentId" "document id is invalid or unsafe for filesystem storage"
  else if negb (SafeFileName filename) then
    failed "invalidFileName" "file name is invalid or unsafe for filesystem storage"
  else
  match checkRouting e docID "read" collection with
  | Some wrong => mret (inl (wrongMachineFile wrong "fileRead" filename))
  | None =>
  match checkFileStaleness e docID "fileRead" collection filename with
  | Some stale => mret (inl stale)
  | None =>
  live ← DocumentExistsLive (EDataDir e) collection docID;
  match live with
  | false => failed "documentNotFound" "parent document not found"
  | true =>
  r ← ReadFilesManifest (EDataDir e) collection docID;
  match r with
  | Err err => failed "filesystemError" (err_msg err)
  | Ok entries =>
  match LookupFileEntry entries filename with
  | None => failed "fileNotFound" "file not found"
  | Some ent =>
  r ← OpenBinary (EDataDir e) collection docID filename;
  match r with
  | Err err => if is_not_exist err then failed "fileNotFound" "file not found"
               else failed "filesystemError" (err_msg err)
  | Ok data => mret (inr (ent, data))
  end end end end end end.
End files.
