(* ===== verification/EngineFilesSpec.v ===== *)
(** * The attachment commands of the engine

    Uploads compare the version the client names with the manifest's and set the
    new contents; deletions remove an attachment at the version the client names.
    Both hold whatever system call fails. *)

From S2P Require Import Prelude GoStrings Sha256 World Shard Json Config Store Attach AttachSpec Replication.
From S2P Require Import Engine EngineSpec FileRepl FileReplSpec EngineFiles.

(** ** Replies *)

Lemma fail_file_not_ok command c id n code msg :
  env_ok (fail_file command c id n code msg) = false.
Proof. apply Fail_not_ok. simpl. set_solver. Qed.

Lemma fail_file_fields_not_ok command c id n errs :
  env_ok (Fail (file_fields command c id n) errs) = false.
Proof. apply Fail_not_ok. simpl. set_solver. Qed.

Lemma wrongMachineFile_ok r command n : env_ok (wrongMachineFile r command n) = env_ok r.
Proof.
  unfold wrongMachineFile. destruct (command =? ""), (n =? ""); rewrite ?env_ok_aset by done; done.
Qed.

#[export] Hint Resolve fail_file_not_ok fail_file_fields_not_ok : go.

Lemma check_file_version_not_ok c id n ifMatch es r :
  check_file_version c id n ifMatch es = inl r -> env_ok r = false.
Proof.
  unfold check_file_version. intros Hr. repeat case_match; simplify_eq; auto with go.
Qed.

(** The version a client names is that of the attachment; none, for one that is
    not there. *)
Definition version_matches (es : list FileEntry) (n ifMatch : string) : Prop :=
  match LookupFileEntry es n with
  | None => ifMatch = ""
  | Some existing => ifMatch <> "" /\ FVersion existing = ifMatch
  end.

Lemma check_file_version_matches c id n ifMatch es cmd :
  check_file_version c id n ifMatch es = inr cmd -> version_matches es n ifMatch.
Proof.
  unfold check_file_version, version_matches. intros Hr.
  destruct (LookupFileEntry es n) as [ex|]; destruct (ifMatch =? "") eqn:E1; boolprop; try done.
  destruct (FVersion ex =? ifMatch) eqn:E2; boolprop; [done|]. by simpl in Hr.
Qed.

Definition put_entry (n : string) (opts : PutFileOptions) (data version op : string) : FileEntry :=
  mkFileEntry n (if PfContentType opts =? "" then "application/octet-stream" else PfContentType opts)
    (Z.of_nat (String.length data)) (sha256_hex data) version op.

(** Identifiers of operations are usable as file names: the client's, if any, and
    those the server makes. *)
Definition ids_safe `{Env} (op : string) : Prop :=
  (op = "" \/ SafeID op = true) /\ forall k v, newid k = Ok v -> SafeID v = true.

(** ** Removing an attachment *)

(** An attachment after a deletion: under its entry as before or with its bytes
    gone, only with an error; or gone with its entry, the other entries as they
    were. *)
Definition removal_outcome `{GoJSON} (dataDir : path) (c id n : string) (es : list FileEntry)
    (f f' : fs) (ok : bool) : Prop :=
  let B := BinaryPath dataDir c id n in
  let Mf := FilesManifestPath dataDir c id in
  (ok = false /\ content f' Mf = content f Mf /\ (content f' B = content f B \/ content f' B = None)) \/
  (content f' B = None /\ exists es', manifest_good dataDir c id f' es' /\
   forall m, LookupFileEntry es' m = if n =? m then None else LookupFileEntry es m).

Section removal.
Context `{OJSON} `{!OJSONLaws} `{GoJSON} `{!GoJSONLaws} `{E : Env}.
Context (dataDir : path) (c id n : string).
Hypothesis Hc : plain_collection c = true.
Hypothesis Hid : SafeID id = true.
Hypothesis Hn : SafeFileName n = true.

Notation B := (BinaryPath dataDir c id n).
Notation Mf := (FilesManifestPath dataDir c id).

Lemma remove_gone p s :
  wp (remove_if_present p) (fun r s' => (forall q, q <> p -> content (st_fs s') q = content (st_fs s) q) /\
    content (st_fs s') p = if is_ok r then None else content (st_fs s) p) s.
Proof.
  unfold remove_if_present, Remove. apply wp_bind, wp_sys; [|intros k _; by apply wp_ret].
  unfold fs_remove. intros r f' Hr.
  assert ((r = Ok tt /\ f' = delete p (st_fs s)) \/ (exists e, r = Err e /\ f' = st_fs s /\
            (is_not_exist e = true -> st_fs s !! p = None))) as [[-> ->]|(e & -> & -> & He)].
  { destruct (st_fs s !! p) as [[d|]|]; simplify_eq; [by left| |by right; eauto].
    destruct (existsb _ _); simplify_eq; [|by left]. right. by eexists. }
  - apply wp_ret. split; unfold content; cbn; [intros q Hq; by rewrite lookup_delete_ne|].
    by rewrite lookup_delete_eq.
  - destruct (is_not_exist e) eqn:Ee; apply wp_ret; (split; [done|]); [|done].
    unfold content. cbn. by rewrite He.
Qed.

Lemma removed_good es f' :
  Forall entry_ok es -> Forall line_fits es -> NoDup (map FName es) ->
  let es' := merge_sort name_le (List.filter (fun e => negb (FName e =? n)) es) in
  content f' Mf = (if (length es' =? 0)%nat then None else Some (manifest_text es')) ->
  manifest_good dataDir c id f' es' /\
  forall m, LookupFileEntry es' m = if n =? m then None else LookupFileEntry es m.
Proof.
  intros Hok Hfit Hnd es' Hf'. set (keep := fun e => negb (FName e =? n)) in *.
  assert (es' ≡ₚ List.filter keep es) as Hp by apply merge_sort_Permutation.
  assert (forall P : FileEntry -> Prop, Forall P es -> Forall P es') as Hall.
  { intros P HP. rewrite Hp. rewrite Forall_forall in *. intros x [Hx _]%elem_of_lfilter. by apply HP. }
  assert (NoDup (map FName (List.filter keep es))) as Hnd'.
  { clear -Hnd. induction es as [|x es IH]; simpl in *; [done|].
    apply NoDup_cons in Hnd as [Hx Hnd]. destruct (keep x); [|by apply IH].
    simpl. apply NoDup_cons. split; [|by apply IH]. intros (y & Hy & Hin)%list_elem_of_fmap.
    apply Hx. apply list_elem_of_fmap. exists y. split; [done|]. by apply elem_of_lfilter in Hin as [? _]. }
  split.
  - split; [|by apply Hall|by apply Hall|by rewrite Hp]. unfold manifest_is. rewrite Hf'.
    destruct (length es' =? 0)%nat eqn:El; [by apply Nat.eqb_eq, length_zero_iff_nil in El|].
    apply manifest_roundtrip; by apply Hall.
  - intros m. rewrite (lookup_perm es' (List.filter keep es)); [apply lookup_remove|by rewrite Hp|done].
Qed.

Lemma RemoveManifestEntry_spec es s :
  manifest_good dataDir c id (st_fs s) es ->
  wp (RemoveManifestEntry dataDir c id n) (fun r s' =>
    keeps (written Mf) (st_fs s) (st_fs s') /\
    (is_ok r = false /\ content (st_fs s') Mf = content (st_fs s) Mf \/
     exists es', manifest_good dataDir c id (st_fs s') es' /\
       forall m, LookupFileEntry es' m = if n =? m then None else LookupFileEntry es m)) s.
Proof.
  intros [Hm Hok Hfit Hnd]. pose proof (manifest_not_temp dataDir c id Hc Hid) as TM.
  unfold RemoveManifestEntry. wp_step ReadFilesManifest_spec; [done|done|]. intros [es0|err] s1 [F1 Hes].
  2:{ rewrite F1. split; [done|by left]. }
  rewrite (manifest_is_unique _ _ _ _ _ _ (Hes es0 eq_refl) Hm). clear Hes.
  pose proof (fun f' => removed_good es f' Hok Hfit Hnd) as Hgood. cbv zeta in Hgood.
  unfold WriteFilesManifest. set (es' := merge_sort _ _) in *.
  destruct (length es' =? 0)%nat eqn:El.
  - eapply wp_mono; [apply remove_gone|]. intros r s2 [K2 C2]. rewrite F1 in *. split.
    { intros q Hq. apply K2. intros ->. apply Hq. by left. }
    destruct (is_ok r); [right|by left]. eexists. by apply Hgood.
  - eapply wp_mono; [by apply WriteFileAtomic_spec|]. intros [u|err] s2 W2; cbv beta in W2; rewrite F1 in W2.
    + destruct W2 as [C2 K2]. split; [done|]. right. eexists. by apply Hgood.
    + split; [|left; split; [done|by eapply temps_frame]]. eapply keeps_mono; [exact W2|]. intros q. by right.
Qed.

Lemma CommitFileDelete_outcome entry es s :
  FName entry = n -> SafeID (FOperationID entry) = true -> manifest_good dataDir c id (st_fs s) es ->
  wp (CommitFileDelete dataDir c id entry) (fun r s' =>
    removal_outcome dataDir c id n es (st_fs s) (st_fs s') (is_ok r)) s.
Proof.
  intros Hname Hop Hgood. unfold CommitFileDelete.
  assert (SafeFileName (FName entry) = true) as Hn' by (by rewrite Hname).
  destruct (commit_facts dataDir c id Hc Hid entry
    (mkStaged (temp_name ".stage-" 0 :: id :: ".fileOps" :: c :: dataDir) 0 "") (temp_name ".stage-" 0)
    Hn' Hop (stage_name_prefix 0) eq_refl) as ((TB & _ & TJ & TM) & _ & NBJ & NBM & _ & _ & NJM).
  rewrite Hname in *.
  set (J := fileOpJournalPath dataDir c id (FOperationID entry)) in *.
  assert (forall j s0, JOperationID j = FOperationID entry ->
    wp (WriteFileOpJournal dataDir c id j) (fun _ s1 =>
      forall q, is_temp q = false -> q <> J -> content (st_fs s1) q = content (st_fs s0) q) s0) as Hj.
  { intros j s0 Hjop. eapply wp_mono; [apply WriteFileOpJournal_spec; [done|done|by rewrite Hjop]|].
    rewrite Hjop. intros [u|e] s1; [intros [_ K] q Tq Nq; by eapply written_frame|].
    intros K q Tq _. by eapply temps_frame. }
  wp_step Hj; [done|]. intros r1 s1 C1. pose proof (C1 _ TB NBJ) as CB1. pose proof (C1 _ TM ltac:(congruence)) as CM1.
  destruct r1 as [u1|e1]; [|left; auto].
  unfold RemoveBinary. apply wp_rbind. eapply wp_mono; [apply remove_gone|]. intros r2 s2 [K2 C2].
  pose proof (K2 Mf ltac:(congruence)) as CM2. rewrite CM1 in CM2. rewrite CB1 in C2.
  destruct r2 as [u2|e2]; simpl in C2; [|left; auto].
  wp_step Hj; [done|]. intros r3 s3 C3. pose proof (C3 _ TB NBJ) as CB3. pose proof (C3 _ TM ltac:(congruence)) as CM3.
  rewrite C2 in CB3. rewrite CM2 in CM3.
  destruct r3 as [u3|e3]; [|left; auto].
  apply wp_rbind. eapply wp_mono; [apply (RemoveManifestEntry_spec es)|].
  { destruct Hgood. split; try done. by eapply manifest_is_ext. }
  intros r4 s4 [K4 R4]. assert (content (st_fs s4) B = None) as CB4.
  { rewrite <-CB3. by eapply written_frame. }
  destruct R4 as [[Hr CM4]|(es' & Hg & Hlook)].
  { destruct r4; [done|]. left. rewrite CM4. auto. }
  destruct r4 as [u4|e4]; [|right; eauto].
  unfold ClearFileOpJournal. eapply wp_mono; [apply remove_gone|]. intros r5 s5 [K5 _]. right.
  split; [by rewrite K5|]. exists es'. split; [|done]. destruct Hg. split; try done.
  eapply manifest_is_ext; [|done]. by apply K5, not_eq_sym.
Qed.
End removal.

(** ** The commands *)

Section commands.
Context `{OJSON} `{!OJSONLaws} `{GoJSON} `{!GoJSONLaws} `{E : Env} `{FileNet}.
Context (e : Engine) (Hok : engine_ok e).
Context (c id n : string).
Hypothesis Hc : plain_collection c = true.

Notation D := (EDataDir e).
Notation B := (BinaryPath (EDataDir e) c id n).
Notation Mf := (FilesManifestPath (EDataDir e) c id).

Lemma file_operation_spec op s :
  ids_safe op ->
  wp (file_operation op) (fun r s' => st_fs s' = st_fs s /\ forall v, r = Ok v -> SafeID v = true) s.
Proof.
  intros [Hop Hids]. unfold file_operation. destruct (op =? "") eqn:Eo; boolprop.
  - unfold wp, NewID. split; [done|]. intros v Hv. by eapply Hids.
  - apply wp_ret. split; [done|]. intros v [= <-]. by destruct Hop.
Qed.

(** Delivery leaves the attachment and the manifest alone. *)
Lemma deliverFileOnce_spec item result s :
  FwCollection item = c -> FwID item = id -> FwFilename item = n ->
  SafeID id = true -> SafeFileName n = true ->
  wp (deliverFileOnce e item result) (fun r s' => delivered_from result r /\
    content (st_fs s') B = content (st_fs s) B /\ content (st_fs s') Mf = content (st_fs s) Mf) s.
Proof.
  intros Ec Ei En Hid Hn. unfold deliverFileOnce. apply wp_bind.
  apply (wp_mono _ (fun p s1 => delivered_from result (snd p) /\
    content (st_fs s1) B = content (st_fs s) B /\ content (st_fs s1) Mf = content (st_fs s) Mf)).
  - destruct (EReplicator e) as [co|] eqn:Eco; [|by apply wp_ret].
    wp_step DeliverFileOnce_keeps; [by unfold file_addressed; subst|by eapply engine_targets|].
    intros o s1 K. apply wp_ret. split.
    + simpl. destruct (Complete o); [by split|]. split; [by apply env_ok_aset|].
      intros k Hk _. apply env_field_aset. congruence.
    + unfold pending_file_touch in K. rewrite (eo_dir _ Hok _ Eco), Ec in K.
      split; apply K; rewrite ?(BinaryPath_eq D c id Hc Hid n Hn), ?FilesManifestPath_eq by done;
        intros (m & _ & [Heq|[Ht _]]); try (apply (f_equal length) in Heq; simpl in Heq; lia).
      * simpl in Ht. destruct (SafeFileName_facts _ Hn) as [_ Hd]. by rewrite no_dot_not_temp in Ht.
      * simpl in Ht. by rewrite (SafeID_not_temp id "__files.jsonl") in Ht.
  - intros [b r1] s1 ([Hr Hf] & HB & HM). apply wp_ret. simpl in *. split; [|done].
    split; [by rewrite env_ok_aset|]. intros k Hk1 Hk2. rewrite env_field_aset by congruence. by apply Hf.
Qed.

(** *** Uploads *)

Section put.
Context (opts : PutFileOptions) (body : source) (es : list FileEntry).

Notation data := (str_concat (pieces body)).

(** What an upload leaves: nothing new; or, when the client named the right
    version, the outcome of a commit. *)
Definition upload_result (f f' : fs) (ok : bool) (report : string -> string -> Prop) : Prop :=
  (ok = false /\ content f' B = content f B /\ content f' Mf = content f Mf) \/
  (version_matches es n (PfIfMatch opts) /\ exists version op,
    attachment_outcome D c id (put_entry n opts data version op) es data f f' ok /\
    (ok = true -> report version op)).

Lemma commit_upload_spec cmd staged z s :
  ids_safe (PfOperationID opts) -> SafeID id = true -> SafeFileName n = true ->
  manifest_good D c id (st_fs s) es ->
  StagedPath staged = temp_name ".stage-" z :: FileOpsDir D c id ->
  content (st_fs s) (StagedPath staged) = Some data ->
  SByteSize staged = Z.of_nat (String.length data) -> SSHA256 staged = sha256_hex data ->
  wp (commit_upload e c id n cmd opts staged) (fun r s' =>
    match r with
    | inl failure => env_ok failure = false /\ upload_result (st_fs s) (st_fs s') false (fun _ _ => True)
    | inr (_, entry) => upload_result (st_fs s) (st_fs s') true (fun version op =>
        entry = put_entry n opts data version op)
    end) s.
Proof.
  intros Hids Hid Hn Hgood Hst Hdata Hsize Hsha.
  destruct (stage_distinct D c id Hc Hid n z Hn) as [HB HM]. rewrite <-Hst in HB, HM.
  apply not_eq_sym in HB, HM. unfold commit_upload.
  assert (forall r s1, env_ok r = false -> st_fs s1 = st_fs s ->
    wp (_ ← Remove (StagedPath staged); mret (inl r : Envelope + string * FileEntry)) (fun r s' =>
      match r with
      | inl failure => env_ok failure = false /\ upload_result (st_fs s) (st_fs s') false (fun _ _ => True)
      | inr (_, entry) => upload_result (st_fs s) (st_fs s') true (fun version op =>
          entry = put_entry n opts data version op)
      end) s1) as Hstop.
  { intros r s1 Hr F1. wp_step Remove_spec. intros r2 s2 F2. apply wp_ret. split; [done|]. left.
    destruct r2; rewrite F2, F1; [|done]. unfold content. by rewrite !lookup_delete_ne. }
  unfold DocumentExistsLive. apply wp_bind. wp_step Stat_spec. intros live s1 [F1 _]. apply wp_ret.
  destruct (is_ok live); [|apply Hstop; auto with go].
  wp_step ReadFilesManifest_spec; [done|done|]. intros [es0|err] s2 [F2 Hes]; [|apply Hstop; [auto with go|congruence]].
  rewrite F1 in F2, Hes.
  rewrite (manifest_is_unique _ _ _ _ _ _ (Hes es0 eq_refl) (mg_is _ _ _ _ _ Hgood)). clear Hes es0.
  destruct (check_file_version c id n (PfIfMatch opts) es) as [r|cmd'] eqn:Ev;
    [apply Hstop; [by eapply check_file_version_not_ok|done]|].
  apply check_file_version_matches in Ev.
  wp_step file_operation_spec; [exact Hids|]. intros [op|err] s3 [F3 Hop];
    [|apply Hstop; [auto with go|congruence]]. specialize (Hop op eq_refl).
  wp_step NewID_spec. intros [version|err] s4 F4; [|apply Hstop; [auto with go|congruence]].
  rewrite Hsize, Hsha. fold (put_entry n opts data version op).
  assert (st_fs s4 = st_fs s) as F by congruence. rewrite <-F in Hgood, Hdata.
  apply wp_bind. eapply wp_mono; [by apply (CommitStagedBinary_outcome D c id Hc Hid _ staged z es data)|].
  rewrite F. intros [u|err] s5 Ho; cbv beta in Ho.
  - apply wp_ret. right. split; [done|]. exists version, op. split; [done|]. done.
  - wp_step Remove_spec. intros r2 s6 F6. apply wp_ret. split; [auto with go|]. right. split; [done|].
    exists version, op. split; [|done]. eapply attachment_outcome_ext; [..|exact Ho]; [done|done|..|by left];
      destruct r2; rewrite F6; try done; unfold content; by rewrite lookup_delete_ne.
Qed.

End put.

(** *** Deletions *)

(** C10: a deletion is a compare-and-delete.  Whatever system call fails, either
    the reply is a failure and the attachment and the manifest are as they were, or
    the client named the version the manifest had and the removal had one of its
    outcomes; a reply of success means that the attachment and its entry are gone
    and every other entry is as it was.  Conditions: the collection name has no
    slash and no leading dot; the operation identifier, the client's or the one
    the server makes, is safe as a file name (the server does not check the
    client's, see [operation_id_escapes]); and the manifest on disk parses, with
    distinct names. *)
Theorem DeleteFile_compare_and_delete ifMatch op es s :
  ids_safe op -> manifest_good D c id (st_fs s) es ->
  wp (DeleteFile e c id n ifMatch op) (fun r s' =>
    (env_ok r = false /\ content (st_fs s') B = content (st_fs s) B /\
     content (st_fs s') Mf = content (st_fs s) Mf) \/
    (ifMatch <> "" /\ (exists existing, LookupFileEntry es n = Some existing /\ FVersion existing = ifMatch) /\
     removal_outcome D c id n es (st_fs s) (st_fs s') (env_ok r))) s.
Proof.
  intros Hids Hgood. unfold DeleteFile.
  wp_case; [apply wp_ret; left; auto with go|].
  apply orb_false_iff in Heqb as [_ Hid%negb_false_iff].
  wp_case; [apply wp_ret; left; auto with go|]. apply negb_false_iff in Heqb as Hn.
  wp_case; [apply wp_ret; left; rewrite wrongMachineFile_ok; split; [by eapply checkRouting_not_ok|done]|].
  unfold commit_file_delete. apply wp_bind, wp_bind. unfold DocumentExistsLive.
  wp_step Stat_spec. intros live s1 [F1 _]. apply wp_ret. rewrite <-F1 in *.
  destruct (is_ok live); [|do 2 apply wp_ret; left; auto with go].
  wp_step ReadFilesManifest_spec; [done|done|]. intros [es0|err] s2 [F2 Hes];
    [|do 2 apply wp_ret; left; rewrite F2; auto with go].
  rewrite (manifest_is_unique _ _ _ _ _ _ (Hes es0 eq_refl) (mg_is _ _ _ _ _ Hgood)). clear Hes es0.
  rewrite <-F2 in *.
  destruct (LookupFileEntry es n) as [existing|] eqn:El; [|do 2 apply wp_ret; left; auto with go].
  destruct ((ifMatch =? "") || (ifMatch <>? FVersion existing)) eqn:Ev;
    [do 2 apply wp_ret; left; auto with go|].
  apply orb_false_iff in Ev as [Hm Hv]. boolprop.
  wp_step file_operation_spec; [exact Hids|]. intros [op'|err] s3 [F3 Hop];
    [|do 2 apply wp_ret; left; rewrite F3; auto with go].
  specialize (Hop op' eq_refl). rewrite <-F3 in *.
  assert (FName existing = n) as Hname.
  { unfold LookupFileEntry in El. apply List.find_some in El as [_ ?]. by boolprop. }
  apply wp_bind. eapply wp_mono; [by apply (CommitFileDelete_outcome D c id n Hc Hid Hn _ es)|].
  intros [u|err] s4 Ho; cbv beta in Ho.
  - apply wp_ret. eapply wp_mono; [by apply deliverFileOnce_spec|].
    intros r s5 ([Hr Hf] & HB & HM). right. split; [done|]. split; [by eexists|].
    rewrite Hr, OK_ok by (simpl; set_solver). unfold removal_outcome in *. rewrite HB, HM.
    destruct Ho as [[? _]|(? & es' & Hg & ?)]; [done|]. right. split; [done|]. exists es'.
    split; [|done]. destruct Hg. split; try done. by eapply manifest_is_ext.
  - do 2 apply wp_ret. right. rewrite fail_file_not_ok. split; [done|]. split; [by eexists|done].
Qed.
End commands.
