(* ===== verification/HttpRange.v ===== *)
(** * Byte ranges of downloads

    [parseSingleByteRange] and [parseRangeNumber] of
    [internal/server/http_range.go]; sizes and offsets are int64. *)

From S2P Require Import Prelude GoStrings.

Definition parseRangeNumber (raw : string) : result Z :=
  if raw =? "" then Err (errorf "range number is empty")
  else if negb (forallb (fun ch => in_range 48 ch 57) (runes raw))
  then Err (errorf "range number must contain only digits")
  else match Atoi raw with
       | Some v => Ok v
       | None => Err (errorf "value out of range")
       end.

(** The start, the length and whether the reply is partial. *)
Definition parseSingleByteRange (raw : string) (size : Z) : result (Z * Z * bool) :=
  let raw := TrimSpace raw in
  if raw =? "" then Ok (0%Z, size, false)
  else if negb (HasPrefix raw "bytes=") then Ok (0%Z, size, false)
  else if (size <=? 0)%Z then Err (errorf "invalid byte range")
  else
    let spec := TrimSpace (TrimPrefix raw "bytes=") in
    if (spec =? "") || Contains spec ","
    then Err (errorf "exactly one byte range is supported")
    else
      match Cut spec "-" with
      | None => Err (errorf "invalid byte range")
      | Some (lhs, rhs) =>
          if lhs =? "" then
            match parseRangeNumber rhs with
            | Err _ => Err (errorf "invalid suffix byte range")
            | Ok suffix =>
                if (suffix =? 0)%Z then Err (errorf "invalid suffix byte range")
                else let suffix := if (size <? suffix)%Z then size else suffix in
                     Ok ((size - suffix)%Z, suffix, true)
            end
          else
            match parseRangeNumber lhs with
            | Err _ => Err (errorf "byte range start is unsatisfiable")
            | Ok start =>
                if (size <=? start)%Z then Err (errorf "byte range start is unsatisfiable")
                else if rhs =? "" then Ok (start, (size - 1 - start + 1)%Z, true)
                else
                  match parseRangeNumber rhs with
                  | Err _ => Err (errorf "invalid byte range end")
                  | Ok end_ =>
                      if (end_ <? start)%Z then Err (errorf "invalid byte range end")
                      else let end_ := if (size <=? end_)%Z then (size - 1)%Z else end_ in
                           Ok (start, (end_ - start + 1)%Z, true)
                  end
            end
      end.

(** ** Numbers *)

Lemma runes_digits s :
  str_all is_digit s = true -> forallb (fun ch => in_range 48 ch 57) (runes s) = true.
Proof.
  unfold runes. induction s as [|c s IH]; [done|]. cbn [str_all]. intros [Hc Hs]%andb_true_iff.
  pose proof (graphic_facts c (is_digit_graphic c Hc)) as [Hb _].
  rewrite decoded_cons by done. rewrite DecodeRune_ascii by done. cbn [fst snd map forallb str_drop].
  replace (str_drop 0 s) with s by (by destruct s). rewrite IH by done. by rewrite andb_true_r.
Qed.

Lemma parseRangeNumber_Itoa n : (0 <= n < 2 ^ 63)%Z -> parseRangeNumber (Itoa n) = Ok n.
Proof.
  intros Hn. destruct (Itoa_nonneg n) as (Hd & Hne & Hp); [lia|]. unfold parseRangeNumber.
  rewrite (proj2 (String.eqb_neq _ _)) by done. rewrite runes_digits by done.
  by rewrite (Atoi_digits _ _ Hd Hne Hp Hn).
Qed.

Lemma parse_digits_nonneg s base acc v :
  (0 <= base)%Z -> (0 <= acc)%Z -> parse_digits base acc s = Some v -> (0 <= v)%Z.
Proof.
  intros Hb. revert acc. induction s as [|c s IH]; intros acc Ha; cbn [parse_digits].
  { intros [= <-]. done. }
  destruct (digit_val c) as [d|] eqn:Ed; [|done]. destruct (d <? base)%Z; [|done].
  apply IH. assert (0 <= d)%Z; [|nia]. unfold digit_val, in_range in Ed.
  repeat case_match; simplify_eq; boolprop; lia.
Qed.

(** A string that starts with a digit's rune starts with that digit's byte. *)
Lemma digit_head raw :
  raw <> "" -> forallb (fun ch => in_range 48 ch 57) (runes raw) = true ->
  exists c s, raw = String c s /\ Ascii.eqb c "-" = false.
Proof.
  destruct raw as [|c s]; [done|]. intros _ Hr. exists c, s. split; [done|].
  apply Ascii.eqb_neq. intros ->. revert Hr. unfold runes.
  rewrite decoded_cons by done. rewrite DecodeRune_ascii by (vm_compute; done). done.
Qed.

Lemma parseRangeNumber_nonneg raw n : parseRangeNumber raw = Ok n -> (0 <= n < 2 ^ 63)%Z.
Proof.
  unfold parseRangeNumber. destruct (raw =? "") eqn:Er; [done|].
  destruct (forallb _ _) eqn:Ed; [|done]. simpl.
  apply String.eqb_neq in Er. destruct (digit_head raw Er Ed) as (c & s & -> & Hm).
  unfold Atoi. rewrite Hm.
  set (body := (if Ascii.eqb c "+" then (false, s) else (false, String c s))).
  assert (fst body = false) as Hneg by (subst body; by destruct (Ascii.eqb c "+")).
  destruct body as [neg b]. simpl in Hneg. subst neg.
  destruct (b =? ""); [done|]. destruct (parse_digits 10 0 b) as [v|] eqn:Ep; [|done].
  apply parse_digits_nonneg in Ep; [|lia..].
  destruct (_ && _) eqn:Eb; [|done]. intros [= <-]. boolprop. lia.
Qed.

(** ** Properties *)

(** For every header and every file size, an accepted range lies inside the
    file: a partial reply has at least one byte and ends at or before the last
    one, and a full reply is the whole file. *)
Theorem byte_range_within raw size start len partial :
  (0 <= size < 2 ^ 63)%Z -> parseSingleByteRange raw size = Ok (start, len, partial) ->
  if partial then (0 <= start /\ 1 <= len /\ start + len <= size)%Z
  else start = 0%Z /\ len = size.
Proof.
  intros Hs. unfold parseSingleByteRange.
  destruct (TrimSpace raw =? ""); [by intros [= <- <- <-]|].
  destruct (negb _); [by intros [= <- <- <-]|].
  destruct (size <=? 0)%Z eqn:E0; [done|]. apply Z.leb_gt in E0.
  destruct (_ || _); [done|]. destruct (Cut _ "-") as [[lhs rhs]|]; [|done].
  destruct (lhs =? "").
  { destruct (parseRangeNumber rhs) as [suffix|] eqn:Er; [|done].
    apply parseRangeNumber_nonneg in Er. destruct (suffix =? 0)%Z eqn:Ez; [done|].
    apply Z.eqb_neq in Ez. intros [= <- <- <-]. cbv iota zeta.
    destruct (size <? suffix)%Z eqn:El; [|apply Z.ltb_ge in El]; lia. }
  destruct (parseRangeNumber lhs) as [st|] eqn:El; [|done].
  apply parseRangeNumber_nonneg in El. destruct (size <=? st)%Z eqn:Es; [done|].
  apply Z.leb_gt in Es. destruct (rhs =? ""); [intros [= <- <- <-]; cbv iota; lia|].
  destruct (parseRangeNumber rhs) as [en|] eqn:Er; [|done].
  apply parseRangeNumber_nonneg in Er. destruct (en <? st)%Z eqn:Ee; [done|].
  apply Z.ltb_ge in Ee. intros [= <- <- <-]. cbv iota zeta.
  destruct (size <=? en)%Z eqn:Ec; [|apply Z.leb_gt in Ec]; lia.
Qed.

Lemma byte_range_within_witness :
  parseSingleByteRange "bytes=2-99" 10 = Ok (2, 8, true)%Z /\ (2 + 8 <= 10)%Z.
Proof.
  assert (parseSingleByteRange "bytes=2-99" 10 = Ok (2, 8, true)%Z) as H by (vm_compute; reflexivity).
  split; [exact H|]. apply (byte_range_within "bytes=2-99" 10 2 8 true); [lia|exact H].
Defined.

Definition spec_char (c : ascii) : bool := is_digit c || Ascii.eqb c "-".

Lemma spec_char_graphic c : spec_char c = true -> graphic c = true.
Proof.
  unfold spec_char. intros [H|H]%orb_true_iff; [by apply is_digit_graphic|].
  apply Ascii.eqb_eq in H as ->. reflexivity.
Qed.

Lemma spec_no_comma s : str_all spec_char s = true -> in_string "," s = false.
Proof.
  induction s as [|c s IH]; [done|]. cbn [str_all in_string]. intros [Hc Hs]%andb_true_iff.
  rewrite IH by done. rewrite orb_false_r. apply Ascii.eqb_neq. intros <-. done.
Qed.

Lemma digits_no_dash s : str_all is_digit s = true -> in_string "-" s = false.
Proof.
  induction s as [|c s IH]; [done|]. cbn [str_all in_string]. intros [Hc Hs]%andb_true_iff.
  rewrite IH by done. rewrite orb_false_r. apply digit_sign in Hc as [Hc _].
  apply Ascii.eqb_neq in Hc. apply Ascii.eqb_neq. congruence.
Qed.

(** The header parses to its specification part when that part is made of digits
    and a dash. *)
Lemma range_header lhs rhs size :
  str_all is_digit lhs = true -> str_all is_digit rhs = true -> (0 < size)%Z ->
  let spec := lhs +:+ String "-" rhs in
  TrimSpace ("bytes=" +:+ spec) = "bytes=" +:+ spec /\
  TrimSpace (TrimPrefix ("bytes=" +:+ spec) "bytes=") = spec /\
  Contains spec "," = false /\ Cut spec "-" = Some (lhs, rhs) /\ spec <> "".
Proof.
  intros Hl Hr Hs spec.
  assert (str_all spec_char spec = true) as Hspec.
  { unfold spec. rewrite str_all_app. cbn [str_all].
    assert (forall s, str_all is_digit s = true -> str_all spec_char s = true) as Hd.
    { intros s. apply str_all_impl. intros c Hc. unfold spec_char. by rewrite Hc. }
    rewrite !Hd by done. reflexivity. }
  assert (str_all graphic spec = true) as Hg by (by eapply str_all_impl; [apply spec_char_graphic|]).
  split_and!.
  - apply TrimSpace_graphic. rewrite str_all_app, Hg. reflexivity.
  - rewrite TrimPrefix_app. by apply TrimSpace_graphic.
  - rewrite Contains_char. by apply spec_no_comma.
  - unfold spec. apply Cut_char. by apply digits_no_dash.
  - unfold spec. by destruct lhs.
Qed.

Lemma range_header_run lhs rhs size (P : result (Z * Z * bool) -> Prop) :
  str_all is_digit lhs = true -> str_all is_digit rhs = true -> (0 < size)%Z ->
  P (if lhs =? "" then
       match parseRangeNumber rhs with
       | Err _ => Err (errorf "invalid suffix byte range")
       | Ok suffix =>
           if (suffix =? 0)%Z then Err (errorf "invalid suffix byte range")
           else let suffix := if (size <? suffix)%Z then size else suffix in
                Ok ((size - suffix)%Z, suffix, true)
       end
     else
       match parseRangeNumber lhs with
       | Err _ => Err (errorf "byte range start is unsatisfiable")
       | Ok start =>
           if (size <=? start)%Z then Err (errorf "byte range start is unsatisfiable")
           else if rhs =? "" then Ok (start, (size - 1 - start + 1)%Z, true)
           else
             match parseRangeNumber rhs with
             | Err _ => Err (errorf "invalid byte range end")
             | Ok end_ =>
                 if (end_ <? start)%Z then Err (errorf "invalid byte range end")
                 else let end_ := if (size <=? end_)%Z then (size - 1)%Z else end_ in
                      Ok (start, (end_ - start + 1)%Z, true)
             end
       end) ->
  P (parseSingleByteRange ("bytes=" +:+ lhs +:+ String "-" rhs) size).
Proof.
  intros Hl Hr Hs HP. destruct (range_header lhs rhs size Hl Hr Hs) as (H1 & H2 & H3 & H4 & H5).
  unfold parseSingleByteRange. rewrite H1, H2, H3, H4.
  rewrite (HasPrefix_app "bytes="). rewrite (proj2 (Z.leb_gt _ _)) by done.
  rewrite (proj2 (String.eqb_neq _ _)) by (by destruct lhs).
  rewrite (proj2 (String.eqb_neq (lhs +:+ String "-" rhs) "")) by done. exact HP.
Qed.

(** The three forms of a range header mean what they say: first and last
    byte, the last cut off at the end of the file; from a byte to the end; and
    the last [n] bytes, the whole file when it is shorter. *)
Theorem byte_range_forms size a b n :
  (0 <= a <= b)%Z -> (a < size < 2 ^ 63)%Z -> (b < 2 ^ 63)%Z -> (0 < n < 2 ^ 63)%Z ->
  parseSingleByteRange ("bytes=" +:+ Itoa a +:+ "-" +:+ Itoa b) size
    = Ok (a, (Z.min b (size - 1) - a + 1)%Z, true) /\
  parseSingleByteRange ("bytes=" +:+ Itoa a +:+ "-") size = Ok (a, (size - a)%Z, true) /\
  parseSingleByteRange ("bytes=" +:+ "-" +:+ Itoa n) size
    = Ok ((size - Z.min n size)%Z, Z.min n size, true).
Proof.
  intros Hab Hs Hb Hn.
  destruct (Itoa_nonneg a ltac:(lia)) as (Da & Na & _).
  destruct (Itoa_nonneg b ltac:(lia)) as (Db & Nb & _).
  destruct (Itoa_nonneg n ltac:(lia)) as (Dn & Nn & _).
  split_and!.
  - apply (range_header_run (Itoa a) (Itoa b) size (fun r => r = _)); [done|done|lia|].
    rewrite !(proj2 (String.eqb_neq _ _)) by done. rewrite !parseRangeNumber_Itoa by lia.
    rewrite (proj2 (Z.leb_gt _ _)), (proj2 (Z.ltb_ge _ _)) by lia. cbv zeta.
    destruct (size <=? b)%Z eqn:E; [apply Z.leb_le in E|apply Z.leb_gt in E];
      (do 3 f_equal); lia.
  - apply (range_header_run (Itoa a) "" size (fun r => r = _)); [done|done|lia|].
    rewrite (proj2 (String.eqb_neq _ _)) by done. rewrite !parseRangeNumber_Itoa by lia.
    rewrite (proj2 (Z.leb_gt _ _)) by lia. cbn [String.eqb]. do 3 f_equal. lia.
  - apply (range_header_run "" (Itoa n) size (fun r => r = _)); [done|done|lia|].
    cbn [String.eqb]. rewrite !parseRangeNumber_Itoa by lia.
    rewrite (proj2 (Z.eqb_neq _ _)) by lia. cbv zeta.
    destruct (size <? n)%Z eqn:E; [apply Z.ltb_lt in E|apply Z.ltb_ge in E];
      (do 3 f_equal); lia.
Qed.

Lemma byte_range_forms_witness :
  parseSingleByteRange "bytes=2-5" 10 = Ok (2, 4, true)%Z /\
  parseSingleByteRange "bytes=2-" 10 = Ok (2, 8, true)%Z /\
  parseSingleByteRange "bytes=-3" 10 = Ok (7, 3, true)%Z.
Proof. apply (byte_range_forms 10 2 5 3); lia. Defined.
