(* ===== verification/Cache.v ===== *)
(** * Package agents/cache: cached summaries of referenced documents

    [internal/agents/cache]: pending cache updates ([workitem.go]), their
    application on a read member ([apply.go]), the references of a document and
    the summaries a read returns ([projection.go]), the pull agent ([agent.go])
    with the handlers of [server/http_cache.go] it talks to, and
    [engine/cachesummaries.go], which puts the summaries of a read together. *)

From S2P Require Import Prelude GoStrings World Shard Json Config Store Docjson Replication.

(** ** References *)

Definition RefPrefix : string := "@@__".

Definition ParseRef (s : string) : option (string * string) :=
  if negb (HasPrefix s RefPrefix) then None
  else match SplitN (str_drop 4 s) "__" 2 with
       | [c; id] => if (c =? "") || (id =? "") then None else Some (c, id)
       | _ => None
       end.

Definition EncodeRef (collection id : string) : string :=
  RefPrefix +:+ collection +:+ "__" +:+ id.

Record RefField := mkRefField {
  FieldName : string;
  TargetCollection : string;
  TargetID : string;
  Summary : list string;
}.

Definition stringItems (v : option json) : list string :=
  match v with
  | Some (JArr l) => omap (fun x => match x with JStr s => Some s | _ => None end) l
  | _ => []
  end.

Definition joinFieldPath (base name : string) : string :=
  if base =? "" then name else if name =? "" then base else base +:+ "/" +:+ name.

Definition refFieldFrom (fieldName stored : string) (custom : option json) : list RefField :=
  match ParseRef stored with
  | None => []
  | Some (collection, id) =>
      [mkRefField fieldName collection id
         (stringItems (match custom with Some c => Get c "summary" | None => None end))]
  end.

(** The references of [value], in the order they are appended. *)
Fixpoint collectRefFields (entry : schemaEntry) (value : json) (p : string) : list RefField :=
  let 'SE name kind format children items custom := entry in
  match value with
  | JNull => []
  | _ =>
      if format =? "DatoriumCachedRef" then
        match value with
        | JStr s => refFieldFrom (if p =? "" then name else p) s custom
        | _ => []
        end
      else
        match kind, value with
        | KindObject, JObj m =>
            flat_map (fun child =>
              match aget m (entry_name child) with
              | None => []
              | Some raw => collectRefFields child raw (joinFieldPath p (entry_name child))
              end) children
        | KindArray, JArr arr =>
            match items with
            | None => []
            | Some it =>
                flat_map (fun elem => collectRefFields it elem (if p =? "" then name else p)) arr
            end
        | _, _ => []
        end
  end.

Definition FindRefFields `{OJSON} (schemaRaw : string) (doc : fields) : result (list RefField) :=
  result_bind (CompileSchemaBytes schemaRaw) (fun root =>
  Ok (collectRefFields root (JObj doc) "")).

(** ** Summaries *)

Fixpoint lookup_segments (cur : json) (segments : list string) : option json :=
  match segments with
  | [] => Some cur
  | seg :: segs =>
      match cur with
      | JObj m => match aget m seg with Some v => lookup_segments v segs | None => None end
      | _ => None
      end
  end.

Definition lookupPath (doc : fields) (p : string) : option json :=
  lookup_segments (JObj doc) (Split (TrimPrefix p "/") "/").

Definition opt_set (m : fields) (k : string) (v : option json) : fields :=
  match v with Some x => aset m k x | None => m end.

(** [cached["#"]] of a missing key is nil. *)
Definition BuildSummary (cached : fields) (summaryPaths : list string) : fields :=
  foldl (fun out p => opt_set out p (lookupPath cached p))
    (aset (opt_set (opt_set [] "!" (aget cached "!")) "$" (aget cached "$"))
       "#" (default JNull (aget cached "#")))
    summaryPaths.

(** ** Work items *)

(** [Payload] is [None] for the nil map. *)
Record WorkItem := mkWorkItem {
  SourceCollection : string;
  SourceDocumentID : string;
  WBeforeVersion : string;
  WAfterVersion : string;
  WOperationID : string;
  WCommand : string;
  WPayload : option fields;
}.

Definition cache_item_json (item : WorkItem) : json :=
  JObj ([("sourceCollection", JStr (SourceCollection item));
         ("sourceDocumentId", JStr (SourceDocumentID item))] ++
        omitempty "beforeVersion" (WBeforeVersion item) ++
        omitempty "afterVersion" (WAfterVersion item) ++
        [("operationId", JStr (WOperationID item)); ("command", JStr (WCommand item));
         ("payload", match WPayload item with
                     | Some m => map_order (JObj m)
                     | None => JNull
                     end)]).

(** The payload goes through [map[string]any]: its numbers become float64. *)
Definition cache_item_of_json `{GoJSON} (v : json) : result WorkItem :=
  match v with
  | JObj _ =>
      result_bind (string_field v "sourceCollection") (fun collection =>
      result_bind (string_field v "sourceDocumentId") (fun id =>
      result_bind (string_field v "beforeVersion") (fun before =>
      result_bind (string_field v "afterVersion") (fun after =>
      result_bind (string_field v "operationId") (fun op =>
      result_bind (string_field v "command") (fun command =>
      match Get v "payload" with
      | None | Some JNull => Ok (mkWorkItem collection id before after op command None)
      | Some (JObj m) =>
          match floats (JObj m) with
          | JObj m' => Ok (mkWorkItem collection id before after op command (Some m'))
          | _ => Err (errorf "not an object")
          end
      | Some _ => Err (errorf "not an object")
      end))))))
  | JNull => Ok (mkWorkItem "" "" "" "" "" "" None)
  | _ => Err (errorf "not an object")
  end.

Section cache.
Context `{Env} `{OJSON} `{GoJSON}.

Definition WriteWorkItem (dataDir : path) (readServerName : string) (item : WorkItem)
    : M (result unit) :=
  WriteFileAtomic
    (PendingCacheUpdatePath dataDir (SourceCollection item) readServerName (SourceDocumentID item))
    (MarshalIndent (cache_item_json item) +:+ newline).

Definition ReadWorkItem (dataDir : path) (sourceCollection readServerName sourceDocID : string)
    : M (result WorkItem) :=
  data <-? ReadFile (PendingCacheUpdatePath dataDir sourceCollection readServerName sourceDocID);
  mret (result_bind (Unmarshal data) cache_item_of_json).

Definition DeleteWorkItem (dataDir : path) (sourceCollection readServerName sourceDocID : string)
    : M (result bool) :=
  let p := PendingCacheUpdatePath dataDir sourceCollection readServerName sourceDocID in
  r ← Stat p;
  match r with
  | Err e => if is_not_exist e then mret (Ok false) else mret (Err e)
  | Ok _ => Remove p ;? mret (Ok true)
  end.

Fixpoint find_work_item (dataDir : path) (readServerName sourceDocID : string)
    (collections : list string) : M (result (string * WorkItem)) :=
  match collections with
  | [] => mret (Err ErrNotExist)
  | c :: cs =>
      r ← ReadWorkItem dataDir c readServerName sourceDocID;
      match r with
      | Ok it => mret (Ok (c, it))
      | Err e => if negb (is_not_exist e) then mret (Err e)
                 else find_work_item dataDir readServerName sourceDocID cs
      end
  end.

Definition FindWorkItem (dataDir : path) (readServerName sourceDocID : string)
    : M (result (string * WorkItem)) :=
  collections <-? ListCollections dataDir;
  find_work_item dataDir readServerName sourceDocID collections.

Fixpoint list_work_items (dataDir : path) (readServerName : string) (collections : list string)
    : M (result (list string)) :=
  match collections with
  | [] => mret (Ok [])
  | c :: cs =>
      r ← ReadDir (PendingCacheUpdatesDir dataDir c);
      match r with
      | Err e => if is_not_exist e then list_work_items dataDir readServerName cs
                 else mret (Err e)
      | Ok entries =>
          rest <-? list_work_items dataDir readServerName cs;
          mret (Ok (pending_ids readServerName entries ++ rest))
      end
  end.

Definition ListWorkItemIDs (dataDir : path) (readServerName : string) (limit : Z)
    : M (result (list string * nat)) :=
  collections <-? ListCollections dataDir;
  all <-? list_work_items dataDir readServerName collections;
  let all := merge_sort str_le all in
  mret (Ok (if (0 <? limit)%Z && (limit <? Z.of_nat (length all))%Z
            then take (Z.to_nat limit) all else all, length all)).

(** ** Cache files *)

(** [Ok None] when there is no cache file. *)
Definition LoadCacheFile (dataDir : path) (sourceCollection sourceDocID : string)
    : M (result (option fields)) :=
  r ← ReadDocumentJSON (CachePath dataDir sourceCollection sourceDocID);
  match r with
  | Ok doc => mret (Ok (Some doc))
  | Err e => if is_not_exist e then mret (Ok None) else mret (Err e)
  end.

Definition stub (sourceDocID : string) : fields := [("!", JStr sourceDocID); ("#", JNull)].

Definition EnsureStub (dataDir : path) (sourceCollection sourceDocID : string)
    : M (result fields) :=
  existing <-? LoadCacheFile dataDir sourceCollection sourceDocID;
  match existing with
  | Some doc => mret (Ok doc)
  | None =>
      MkdirAll (CacheDir dataDir sourceCollection) ;?
      match EncodeMap (stub sourceDocID) with
      | Err e => mret (Err e)
      | Ok raw =>
          WriteDocumentJSON (CachePath dataDir sourceCollection sourceDocID) raw ;?
          mret (Ok (stub sourceDocID))
      end
  end.

Definition write_cache (p : path) (doc : fields) : M (result bool) :=
  match EncodeMap doc with
  | Err e => mret (Err e)
  | Ok raw => WriteDocumentJSON p raw ;? mret (Ok true)
  end.

Definition ApplyCache (dataDir : path) (item : WorkItem) : M (result bool) :=
  existing <-? LoadCacheFile dataDir (SourceCollection item) (SourceDocumentID item);
  match existing with
  | None => mret (Ok true)
  | Some doc =>
      if (WAfterVersion item <>? "") && (as_string (aget doc "#") =? WAfterVersion item)
      then mret (Ok true)
      else
        let p := CachePath dataDir (SourceCollection item) (SourceDocumentID item) in
        if WCommand item =? "delete" then write_cache p (stub (SourceDocumentID item))
        else if (WCommand item =? "create") || (WCommand item =? "patch") then
          match WPayload item with
          | None => mret (Err (errorf "work item is missing payload"))
          | Some payload => write_cache p payload
          end
        else mret (Err (errorf "unknown command"))
  end.

(** ** The summaries of a read *)

(** Summaries by collection and document, merged field by field. *)
Definition merge_summary (out : list (string * list (string * fields)))
    (collection id : string) (summary : fields) : list (string * list (string * fields)) :=
  let byCollection := default [] (aget out collection) in
  aset out collection
    (aset byCollection id
       (match aget byCollection id with
        | Some existing => aset_all existing summary
        | None => summary
        end)).

Fixpoint add_summaries (dataDir : path) (refs : list RefField)
    (out : list (string * list (string * fields)))
    : M (list (string * list (string * fields))) :=
  match refs with
  | [] => mret out
  | ref :: refs' =>
      let add cached := add_summaries dataDir refs'
        (merge_summary out (TargetCollection ref) (TargetID ref)
           (BuildSummary cached (Summary ref))) in
      r ← LoadCacheFile dataDir (TargetCollection ref) (TargetID ref);
      match r with
      | Err _ => add_summaries dataDir refs' out
      | Ok (Some cached) => add cached
      | Ok None =>
          r ← EnsureStub dataDir (TargetCollection ref) (TargetID ref);
          match r with
          | Err _ => add_summaries dataDir refs' out
          | Ok cached => add cached
          end
      end
  end.

Definition buildCacheSummaries (dataDir : path) (doc : fields) (schemaRaw : option string)
    : M (list (string * list (string * fields))) :=
  match schemaRaw with
  | None => mret []
  | Some raw =>
      match FindRefFields raw doc with
      | Err _ => mret []
      | Ok refs => add_summaries dataDir refs []
      end
  end.
End cache.

(** ** The handlers of server/http_cache.go

    After authentication: [serverName] is the caller's identity. *)

Section handlers.
Context `{Env} `{OJSON} `{GoJSON}.

Definition handleListPendingCacheUpdates (dataDir : path) (serverName : string) (limit : Z)
    : M (result (list string * nat)) :=
  if serverName =? "" then mret (Err (errorf "invalidRequest"))
  else
    r ← ListWorkItemIDs dataDir serverName limit;
    match r with
    | Err _ => mret (Err (errorf "filesystemError"))
    | Ok ids => mret (Ok ids)
    end.

Definition handleFetchPendingCacheUpdate (dataDir : path) (serverName itemID : string)
    : M (result WorkItem) :=
  match DocIDFromWorkItemID itemID serverName with
  | None => mret (Err (errorf "workItemNotFound"))
  | Some docID =>
      r ← FindWorkItem dataDir serverName docID;
      match r with
      | Err e => mret (Err (errorf (if is_not_exist e then "workItemNotFound" else "filesystemError")))
      | Ok (_, item) => mret (Ok item)
      end
  end.

Definition handleCompletePendingCacheUpdate (dataDir : path) (serverName itemID : string)
    : M (result unit) :=
  match DocIDFromWorkItemID itemID serverName with
  | None => mret (Err (errorf "workItemNotFound"))
  | Some docID =>
      r ← FindWorkItem dataDir serverName docID;
      match r with
      | Err e => if is_not_exist e then mret (Ok tt) else mret (Err (errorf "filesystemError"))
      | Ok (sourceCollection, _) =>
          r ← DeleteWorkItem dataDir sourceCollection serverName docID;
          match r with
          | Err _ => mret (Err (errorf "filesystemError"))
          | Ok _ => mret (Ok tt)
          end
      end
  end.

(** The receiving side of a push, on the server [self]. *)
Definition handleApplyCacheUpdate (dataDir : path) (self targetServer : string) (item : WorkItem)
    : M (result unit) :=
  if targetServer =? "" then mret (Err (errorf "invalidRequest"))
  else if targetServer <>? self then mret (Err (errorf "targetServerMismatch"))
  else if (SourceCollection item =? "") || (SourceDocumentID item =? "") then
    mret (Err (errorf "invalidRequest"))
  else
    r ← ApplyCache dataDir item;
    match r with
    | Err _ => mret (Err (errorf "applyFailed"))
    | Ok _ => mret (Ok tt)
    end.
End handlers.

(** ** The pull agent of a read member

    [pw_self] is the world of the read member, [pw_sots] those of the servers it
    checks in with; a request may be lost on the way there or on the way back. *)

Record pull_world := mkPull {
  pw_self : st;
  pw_sots : list (string * st);
  pw_exchanges : nat;
}.

Definition W (A : Type) : Type := pull_world -> A * pull_world.

#[export] Instance W_ret : MRet W := fun A a w => (a, w).
#[export] Instance W_bind : MBind W := fun A B k m w => let '(a, w') := m w in k a w'.

Definition on_self {A} (m : M A) : W A := fun w =>
  let '(a, s') := m (pw_self w) in (a, mkPull s' (pw_sots w) (pw_exchanges w)).

Definition no_reply {A} : result A := Err (errorf "no reply").

Definition request_to `{Link} {A} (server : string) (m : M (result A)) : W (result A) := fun w =>
  let idle := mkPull (pw_self w) (pw_sots w) (S (pw_exchanges w)) in
  match aget (pw_sots w) server with
  | None => (no_reply, idle)
  | Some s =>
      let '(r, s') := m s in
      let served := mkPull (pw_self w) (aset (pw_sots w) server s') (S (pw_exchanges w)) in
      match link (pw_exchanges w) with
      | RequestLost => (no_reply, idle)
      | ReplyLost => (no_reply, served)
      | Delivered => (r, served)
      end
  end.

Section pull.
Context (envS : string -> Env) (envR : Env) `{Link} `{OJSON} `{GoJSON}.

Record CacheAgent := mkCacheAgent {
  CaServerName : string;
  CaDataDir : path;
  CaSotDir : string -> path;   (* the data directory of each SOT *)
  CaCfg : option Config;
  CaLimit : Z;
}.

Definition DefaultCheckinLimit : Z := 200.

Definition cache_limit (a : CacheAgent) : Z :=
  if (0 <? CaLimit a)%Z then CaLimit a else DefaultCheckinLimit.

Definition listWorkItems (a : CacheAgent) (sotServer : string) : W (result (list string * nat)) :=
  request_to sotServer
    (handleListPendingCacheUpdates (H:=envS sotServer) (CaSotDir a sotServer) (CaServerName a)
       (cache_limit a)).

(** The item is encoded by the handler and decoded here. *)
Definition fetchWorkItem (a : CacheAgent) (sotServer itemID : string) : W (result WorkItem) :=
  r ← request_to sotServer
        (handleFetchPendingCacheUpdate (H:=envS sotServer) (CaSotDir a sotServer)
           (CaServerName a) itemID);
  mret (result_bind r (fun item => cache_item_of_json (cache_item_json item))).

Definition completeWorkItem (a : CacheAgent) (sotServer itemID : string) : W (result unit) :=
  request_to sotServer
    (handleCompletePendingCacheUpdate (H:=envS sotServer) (CaSotDir a sotServer)
       (CaServerName a) itemID).

Definition cacheApplyOne (a : CacheAgent) (sotServer itemID : string) : W (result unit) :=
  r ← fetchWorkItem a sotServer itemID;
  match r with
  | Err e => mret (Err e)
  | Ok item =>
      r ← on_self (ApplyCache (H:=envR) (CaDataDir a) item);
      match r with
      | Err e => mret (Err e)
      | Ok _ => completeWorkItem a sotServer itemID
      end
  end.

Definition keep_first (first : option error) (e : error) : option error :=
  match first with Some f => Some f | None => Some e end.

(** The number of items applied and the first error. *)
Fixpoint cache_apply_all (a : CacheAgent) (sotServer : string) (ids : list string) (count : nat)
    (firstErr : option error) : W (nat * option error) :=
  match ids with
  | [] => mret (count, firstErr)
  | id :: ids' =>
      r ← cacheApplyOne a sotServer id;
      match r with
      | Err e => cache_apply_all a sotServer ids' count (keep_first firstErr e)
      | Ok _ => cache_apply_all a sotServer ids' (S count) firstErr
      end
  end.

Definition checkIn (a : CacheAgent) (cfg : Config) (sotServer : string)
    : W (nat * option error) :=
  if ServerBaseURL (Some cfg) sotServer =? "" then
    mret (0%nat, Some (errorf "no known baseURL"))
  else
    r ← listWorkItems a sotServer;
    match r with
    | Err e => mret (0%nat, Some e)
    | Ok (ids, _) => cache_apply_all a sotServer ids 0 None
    end.

Fixpoint check_in_all (a : CacheAgent) (cfg : Config) (sots : list string) (did : bool)
    (firstErr : option error) : W (bool * option error) :=
  match sots with
  | [] => mret (did, firstErr)
  | sot :: sots' =>
      if sot =? CaServerName a then check_in_all a cfg sots' did firstErr
      else
        r ← checkIn a cfg sot;
        check_in_all a cfg sots' (did || (0 <? fst r)%nat)
          (match snd r with Some e => keep_first firstErr e | None => firstErr end)
  end.

Definition CacheRunOnce (a : CacheAgent) : W (bool * option error) :=
  match CaCfg a with
  | None => mret (false, None)
  | Some cfg => check_in_all a cfg (AllSOTMembers (Some cfg)) false None
  end.
End pull.
