(* ===== verification/CacheSpec.v ===== *)
(** * Cached summaries: references, cache files, and the pull

    A reference is read back as it was written.  A pending cache update leaves its
    slot on the source only when the read member's cache file is up to date with
    it, whatever calls fail and whatever requests and replies are lost. *)

From S2P Require Import Prelude GoStrings World Shard Json Config Store Docjson Replication Cache.

(** ** References *)

(** A string that parses as a reference to document [id] of collection [c] is
    the encoding of that reference, and the encoding of a reference parses back
    when neither part is empty and the collection has no double underscore and
    does not end in one. *)
Theorem ref_roundtrip c id s :
  (ParseRef s = Some (c, id) -> s = EncodeRef c id) /\
  (c <> "" -> id <> "" -> Contains (c +:+ "_") "__" = false ->
   ParseRef (EncodeRef c id) = Some (c, id)).
Proof.
  split.
  - unfold ParseRef, EncodeRef. destruct (HasPrefix s RefPrefix) eqn:Hp; [|done]. simpl.
    apply HasPrefix_spec in Hp as [t ->]. simpl.
    destruct (Cut t "__") as [[a b]|] eqn:Ec; [|done]. apply Cut_Some in Ec as ->.
    destruct (_ || _); [done|]. by intros [= -> ->].
  - intros Hc Hi Hd. unfold ParseRef, EncodeRef. rewrite HasPrefix_app.
    change (str_drop 4 (RefPrefix +:+ c +:+ "__" +:+ id)) with (c +:+ "__" +:+ id). simpl negb. cbv iota.
    cbn [SplitN]. rewrite Cut_double by done.
    by rewrite (proj2 (String.eqb_neq _ _) Hc), (proj2 (String.eqb_neq _ _) Hi).
Qed.

Lemma ref_roundtrip_witness : ParseRef (EncodeRef "users" "u__1") = Some ("users", "u__1").
Proof. apply (ref_roundtrip "users" "u__1" ""); [discriminate|discriminate|reflexivity]. Defined.

(** ** Cache files *)

Section files.
Context `{E : Env} `{OJSON} `{GoJSON}.

(** The last component of a path that ends in a JSON file name. *)
Lemma json_path_base p s : exists t q, join1 p (s +:+ ".json") = (t +:+ ".json") :: q.
Proof.
  unfold join1. remember (String.length s) as n eqn:Hn. revert p s Hn.
  induction (lt_wf n) as [n _ IH]. intros p s ->. destruct (in_string "/" s) eqn:Hs.
  - apply first_char in Hs as (a & b & -> & Ha). rewrite str_app_assoc. cbn [String.append].
    rewrite Split_cons by done. cbn [foldl]. eapply IH; [|reflexivity].
    rewrite !str_length_app. simpl. lia.
  - exists s, p. rewrite Split_no_sep by (by rewrite in_string_app, Hs). cbn [foldl]. unfold push.
    assert (forall t, (String.length t < 5)%nat -> (s +:+ ".json" =? t) = false) as Hlong.
    { intros t Ht. apply String.eqb_neq. intros <-. rewrite str_length_app in Ht. simpl in Ht. lia. }
    by rewrite !Hlong by (simpl; lia).
Qed.

Lemma CachePath_not_temp D c id : is_temp (CachePath D c id) = false.
Proof.
  unfold CachePath, join. cbn [foldl]. destruct (json_path_base (CacheDir D c) id) as (t & q & ->).
  simpl. destruct t; [done|]. by apply json_name_not_temp.
Qed.

(** What a work item asks the cache file of its document to hold. *)
Definition wanted (item : WorkItem) : option fields :=
  if WCommand item =? "delete" then Some (stub (SourceDocumentID item)) else WPayload item.

(** The cache file of the item's document, in [f] before and in [f'] after: there
    is none, or it is at the item's version, or it now holds what is wanted. *)
Definition cache_applied (D : path) (item : WorkItem) (f f' : fs) : Prop :=
  let p := CachePath D (SourceCollection item) (SourceDocumentID item) in
  (content f p = None /\ content f' p = None) \/
  (exists d m, content f p = Some d /\ content f' p = Some d /\ ReadBytesNoSchema d = Ok (JObj m) /\
     as_string (aget m "#") = WAfterVersion item /\ WAfterVersion item <> "") \/
  (exists doc raw out, wanted item = Some doc /\ EncodeMap doc = Ok raw /\ PrettyBytes raw = Ok out /\
     content f' p = Some out).

Lemma LoadCacheFile_spec D c id s :
  wp (LoadCacheFile D c id) (fun r s' => st_fs s' = st_fs s /\
    match r with
    | Ok None => content (st_fs s) (CachePath D c id) = None
    | Ok (Some m) => exists d, content (st_fs s) (CachePath D c id) = Some d /\
                       ReadBytesNoSchema d = Ok (JObj m)
    | Err _ => True
    end) s.
Proof.
  unfold LoadCacheFile, ReadDocumentJSON, ReadDocumentValue. apply wp_bind, wp_rbind, wp_rbind.
  eapply wp_mono; [apply ReadFile_spec|]. intros r s1 [Hf Hr]. destruct r as [d|e]; cbv beta iota.
  - destruct Hr as [Hr|[? _]]; [|done].
    pose proof (fs_read_ok _ _ _ (eq_sym Hr)) as Hd.
    destruct (ReadBytesNoSchema d) as [[]|] eqn:Er; simpl; (split; [done|]); try done. eauto.
  - destruct (is_not_exist e) eqn:Ee; (split; [done|]); [|done].
    destruct Hr as [Hr|[[= ->] _]]; [|done]. by apply (content_read_missing _ _ e).
Qed.

Lemma write_cache_result D item doc s :
  let p := CachePath D (SourceCollection item) (SourceDocumentID item) in
  wanted item = Some doc ->
  wp (write_cache p doc) (fun r s' =>
    if is_ok r then cache_applied D item (st_fs s) (st_fs s') /\ keeps (written p) (st_fs s) (st_fs s')
    else keeps (temps_of p) (st_fs s) (st_fs s')) s.
Proof.
  intros p Hw. unfold write_cache, WriteDocumentJSON. destruct (EncodeMap doc) as [raw|] eqn:Er; [|done].
  destruct (PrettyBytes raw) as [out|] eqn:Eo; [|done]. apply wp_rbind.
  eapply wp_mono; [apply WriteFileAtomic_spec; apply CachePath_not_temp|].
  intros [u|e] s1 Hk; cbv beta in *; [|done]. destruct Hk as [Hc Hk]. apply wp_ret. simpl.
  split; [|done]. right. right. by exists doc, raw, out.
Qed.

(** Application of an item under any failures. *)
Lemma ApplyCache_result D item s :
  let p := CachePath D (SourceCollection item) (SourceDocumentID item) in
  wp (ApplyCache D item) (fun r s' =>
    if is_ok r then cache_applied D item (st_fs s) (st_fs s') /\ keeps (written p) (st_fs s) (st_fs s')
    else keeps (temps_of p) (st_fs s) (st_fs s')) s.
Proof.
  intros p. unfold ApplyCache. fold p. apply wp_rbind. eapply wp_mono; [apply LoadCacheFile_spec|].
  intros r s1 [Hf Hr]. cbv beta. destruct r as [[m|]|e]; [| |by rewrite Hf].
  2:{ apply wp_ret. simpl. rewrite Hf. split; [by left|apply keeps_refl]. }
  destruct Hr as (d & Hd & Hm). destruct (_ && _) eqn:Ev.
  { apply wp_ret. simpl. rewrite Hf. split; [|apply keeps_refl]. right. left. boolprop.
    exists d, m. by split_and!. }
  rewrite <-Hf. cbv zeta.
  pose proof (write_cache_result D item) as Hw. cbv zeta in Hw. fold p in Hw.
  unfold wanted in Hw. destruct (WCommand item =? "delete"); [by apply Hw|].
  destruct (_ || _); [|apply wp_ret; apply keeps_refl].
  destruct (WPayload item) as [m'|]; [by apply Hw|apply wp_ret; apply keeps_refl].
Qed.

(** ** The handlers of the source *)

Definition read_pending (f : fs) (p : path) : result WorkItem :=
  result_bind (fs_read f p) (fun data => result_bind (Unmarshal data) cache_item_of_json).

Fixpoint find_pending (f : fs) (D : path) (server id : string) (cols : list string)
    : result (string * WorkItem) :=
  match cols with
  | [] => Err ErrNotExist
  | c :: cs =>
      match read_pending f (PendingCacheUpdatePath D c server id) with
      | Ok it => Ok (c, it)
      | Err e => if negb (is_not_exist e) then Err e else find_pending f D server id cs
      end
  end.

Definition collections_of (f : fs) (D : path) : result (list string) :=
  match fs_read_dir f D with
  | Err e => if is_not_exist e then Ok [] else Err e
  | Ok entries =>
      Ok (map fst (List.filter (fun e => snd e && negb (HasPrefix (fst e) ".")) entries))
  end.

Definition find_item (f : fs) (D : path) (server id : string) : result (string * WorkItem) :=
  result_bind (collections_of f D) (find_pending f D server id).

(** A search either sees the files as they are or fails, and never takes a
    failure for absence. *)
Lemma find_work_item_spec D server id cols s :
  wp (find_work_item D server id cols) (fun r s' => st_fs s' = st_fs s /\
    (r = find_pending (st_fs s) D server id cols \/ exists e, r = Err e /\ is_not_exist e = false)) s.
Proof.
  revert s. induction cols as [|c cols IH]; intros s; simpl; [by split; [|left]|].
  unfold ReadWorkItem. apply wp_bind, wp_rbind. eapply wp_mono; [apply ReadFile_spec|].
  intros r s1 [Hf Hr]. unfold read_pending. destruct r as [data|e]; cbv beta iota.
  - destruct Hr as [<-|[? _]]; [|done]. apply wp_ret. simpl.
    destruct (result_bind (Unmarshal data) cache_item_of_json) as [it|e].
    + apply wp_ret. by split; [|left].
    + destruct (negb (is_not_exist e)); [apply wp_ret; by split; [|left]|].
      eapply wp_mono; [apply IH|]. intros r s2 [Hf2 Hr2]. by rewrite Hf2, <-Hf.
  - destruct Hr as [<-|[[= ->] _]]; simpl; [|split; [done|]; right; by eexists].
    destruct (negb (is_not_exist e)); [apply wp_ret; by split; [|left]|].
    eapply wp_mono; [apply IH|]. intros r s2 [Hf2 Hr2]. by rewrite Hf2, <-Hf.
Qed.

Lemma FindWorkItem_spec D server id s :
  wp (FindWorkItem D server id) (fun r s' => st_fs s' = st_fs s /\
    (r = find_item (st_fs s) D server id \/ exists e, r = Err e /\ is_not_exist e = false)) s.
Proof.
  unfold FindWorkItem, ListCollections, find_item, collections_of. apply wp_rbind, wp_bind.
  eapply wp_mono; [apply ReadDir_spec|]. intros r s1 [Hf Hr]. cbv beta.
  destruct Hr as [->|[-> _]]; [|split; [done|]; right; by eexists].
  destruct (fs_read_dir (st_fs s) D) as [entries|e]; simpl.
  - apply wp_ret. eapply wp_mono; [apply find_work_item_spec|]. intros r s2 [Hf2 Hr2]. by rewrite Hf2, <-Hf.
  - destruct (is_not_exist e) eqn:Ee; [|apply wp_ret; by split; [|left]].
    apply wp_ret. by split; [|left].
Qed.

Lemma handleFetch_spec D server itemID s :
  wp (handleFetchPendingCacheUpdate D server itemID) (fun r s' => st_fs s' = st_fs s /\
    forall item, r = Ok item -> exists id c, DocIDFromWorkItemID itemID server = Some id /\
      find_item (st_fs s) D server id = Ok (c, item)) s.
Proof.
  unfold handleFetchPendingCacheUpdate. destruct (DocIDFromWorkItemID itemID server) as [id|]; [|done].
  apply wp_bind. eapply wp_mono; [apply FindWorkItem_spec|]. intros r s1 [Hf Hr]. cbv beta.
  destruct r as [[c item]|e]; apply wp_ret; (split; [done|]); [|done].
  intros item' [= <-]. exists id, c. split; [done|]. by destruct Hr as [->|(e & ? & _)].
Qed.

Lemma handleComplete_spec D server itemID s :
  wp (handleCompletePendingCacheUpdate D server itemID) (fun r s' =>
    st_fs s' = st_fs s \/
    exists id c item, DocIDFromWorkItemID itemID server = Some id /\
      find_item (st_fs s) D server id = Ok (c, item) /\
      st_fs s' = delete (PendingCacheUpdatePath D c server id) (st_fs s)) s.
Proof.
  unfold handleCompletePendingCacheUpdate.
  destruct (DocIDFromWorkItemID itemID server) as [id|]; [|by left].
  apply wp_bind. eapply wp_mono; [apply FindWorkItem_spec|]. intros r s1 [Hf Hr]. cbv beta.
  destruct r as [[c item]|e]; [|destruct (is_not_exist e); by left].
  assert (find_item (st_fs s) D server id = Ok (c, item)) as Hfind
    by (by destruct Hr as [->|(e & ? & _)]).
  unfold DeleteWorkItem. apply wp_bind, wp_bind. eapply wp_mono; [apply Stat_spec|].
  intros r2 s2 [Hf2 _]. cbv beta. destruct r2 as [n|e].
  - apply wp_rbind. eapply wp_mono; [apply Remove_spec|]. intros [u|e] s3 Hf3; cbv beta.
    + apply wp_ret. right. exists id, c, item. by rewrite Hf3, Hf2, Hf.
    + left. by rewrite Hf3, Hf2, Hf.
  - destruct (is_not_exist e); left; by rewrite Hf2, Hf.
Qed.

(** The file the item comes from. *)
Lemma find_item_read f D server id c item :
  find_item f D server id = Ok (c, item) ->
  exists data, fs_read f (PendingCacheUpdatePath D c server id) = Ok data /\
    result_bind (Unmarshal data) cache_item_of_json = Ok item.
Proof.
  unfold find_item. destruct (collections_of f D) as [cols|]; [|done]. simpl.
  induction cols as [|c' cols IH]; simpl; [done|]. unfold read_pending.
  destruct (fs_read f (PendingCacheUpdatePath D c' server id)) as [data|e] eqn:Er; simpl.
  - destruct (result_bind (Unmarshal data) cache_item_of_json) as [it|e] eqn:Ei.
    + intros [= -> ->]. eauto.
    + by destruct (negb _).
  - by destruct (negb _).
Qed.
End files.

(** ** The pull *)

Section pull.
Context (envS : string -> Env) (envR : Env) `{Link} `{OJSON} `{GoJSON}.

(** One request: the source's world is as before or as the handler leaves it, and
    a reply is the handler's. *)
Lemma request_to_cases {A} server (m : M (result A)) w s :
  aget (pw_sots w) server = Some s ->
  let '(r, w') := request_to server m w in
  pw_self w' = pw_self w /\
  ((r = no_reply /\ aget (pw_sots w') server = Some s) \/
   ((r = no_reply \/ r = fst (m s)) /\ aget (pw_sots w') server = Some (snd (m s)))).
Proof.
  intros Hs. unfold request_to. rewrite Hs. destruct (m s) as [r s'] eqn:Em. simpl.
  destruct (link (pw_exchanges w)); simpl; (split; [done|]).
  - right. split; [by right|]. apply aget_aset_eq.
  - by left.
  - right. split; [by left|]. apply aget_aset_eq.
Qed.

(** The source keeps its file [p], or has dropped it after [item], decoded from
    it, was applied here. *)
Definition kept_or_applied (a : CacheAgent) (server : string) (p : path) (data : string)
    (w w' : pull_world) : Prop :=
  exists s', aget (pw_sots w') server = Some s' /\
  (content (st_fs s') p = Some data \/
   (content (st_fs s') p = None /\
    exists stored item, result_bind (Unmarshal data) cache_item_of_json = Ok stored /\
      cache_item_of_json (cache_item_json stored) = Ok item /\
      cache_applied (CaDataDir a) item (st_fs (pw_self w)) (st_fs (pw_self w')))).

Lemma fetchWorkItem_spec a server itemID w s :
  aget (pw_sots w) server = Some s ->
  let '(r, w') := fetchWorkItem envS a server itemID w in
  pw_self w' = pw_self w /\
  (exists s', aget (pw_sots w') server = Some s' /\ st_fs s' = st_fs s) /\
  forall item, r = Ok item -> exists id c stored,
    DocIDFromWorkItemID itemID (CaServerName a) = Some id /\
    find_item (st_fs s) (CaSotDir a server) (CaServerName a) id = Ok (c, stored) /\
    cache_item_of_json (cache_item_json stored) = Ok item.
Proof.
  intros Hs. unfold fetchWorkItem, mbind, W_bind, mret, W_ret.
  set (m := handleFetchPendingCacheUpdate _ _ _).
  pose proof (request_to_cases server m w s Hs) as Hc.
  pose proof (handleFetch_spec (E:=envS server) (CaSotDir a server) (CaServerName a) itemID s) as Hm.
  fold m in Hm. unfold wp in Hm. destruct (request_to server m w) as [r w'], (m s) as [r0 s0].
  simpl in Hc. destruct Hm as [Hf Hitem], Hc as [Hself Hc]. split; [done|]. split.
  - destruct Hc as [[_ Hs']|[_ Hs']]; [by exists s|by exists s0].
  - intros item Hr. destruct r as [stored|e]; [|done]. simpl in Hr.
    destruct Hc as [[? _]|[[?|[= <-]] _]]; [done..|].
    destruct (Hitem stored eq_refl) as (id & c & Hid & Hfind). by exists id, c, stored.
Qed.

(** C25: a read member's attempt at one pending cache update, whatever system calls
    fail on either side and whatever requests and replies are lost.  Every file
    of the source is as before, except that the pending update may be gone; it is
    gone only when the cache file it is for is up to date: there is none, or it
    already is at the version of the update, or it now holds the document the
    update carries (a stub without a version after a delete). *)
Theorem pull_until_applied a server itemID w s p data :
  aget (pw_sots w) server = Some s -> content (st_fs s) p = Some data ->
  let '(r, w') := cacheApplyOne envS envR a server itemID w in
  kept_or_applied a server p data w w'.
Proof.
  intros Hs Hd. unfold cacheApplyOne, mbind, W_bind, mret, W_ret.
  pose proof (fetchWorkItem_spec a server itemID w s Hs) as Hfetch.
  destruct (fetchWorkItem envS a server itemID w) as [r w1].
  destruct Hfetch as (Hself & (s1 & Hs1 & Hf1) & Hitem).
  destruct r as [item|e]; [|exists s1; rewrite Hf1; by split; [|left]].
  destruct (Hitem item eq_refl) as (id & c & stored & Hid & Hfind & Hdec).
  unfold on_self. pose proof (ApplyCache_result (E:=envR) (CaDataDir a) item (pw_self w1)) as Ha.
  unfold wp in Ha. destruct (ApplyCache (CaDataDir a) item (pw_self w1)) as [r2 self2].
  set (w2 := mkPull self2 (pw_sots w1) (pw_exchanges w1)).
  assert (aget (pw_sots w2) server = Some s1) as Hs2 by done.
  destruct r2 as [ok|e]; [|exists s1; rewrite Hf1; by split; [|left]].
  simpl in Ha. destruct Ha as [Happ _]. rewrite Hself in Happ. unfold completeWorkItem.
  set (m := handleCompletePendingCacheUpdate _ _ _).
  pose proof (request_to_cases server m w2 s1 Hs2) as Hc.
  pose proof (handleComplete_spec (E:=envS server) (CaSotDir a server) (CaServerName a) itemID s1) as Hm.
  fold m in Hm. unfold wp in Hm. destruct (request_to server m w2) as [r3 w3], (m s1) as [r4 s4].
  destruct Hc as [Hself3 Hc]. simpl in Hc.
  assert (aget (pw_sots w3) server = Some s1 \/ aget (pw_sots w3) server = Some s4) as [Hs3|Hs3]
    by naive_solver; [exists s1; rewrite Hf1; by split; [|left]|].
  exists s4. split; [done|]. destruct Hm as [Hf4|(id' & c' & item' & Hid' & Hfind' & Hf4)];
    [left; by rewrite Hf4, Hf1|].
  rewrite Hid in Hid'. injection Hid' as <-. rewrite Hf1, Hfind in Hfind'. injection Hfind' as <- <-.
  destruct (decide (p = PendingCacheUpdatePath (CaSotDir a server) c (CaServerName a) id)) as [->|Hne].
  - right. split; [rewrite Hf4; unfold content; by rewrite lookup_delete_eq|].
    exists stored, item. apply find_item_read in Hfind as (data' & Hread & Hst).
    assert (data' = data) as -> by (apply fs_read_ok in Hread; congruence).
    rewrite Hself3. by split_and!.
  - left. rewrite Hf4, Hf1. unfold content. by rewrite lookup_delete_ne.
Qed.
End pull.
