(* ===== verification/Search.v ===== *)
(** * Package search: precompiled searches

    [internal/search]: definitions and their validation ([definition.go]), field
    paths and the encoding of bucket paths ([path.go]), evaluation of a document
    ([evaluate.go]), resolution of a live query ([query.go]), sort values
    ([sort.go]) and the stored result files ([store.go]).

    A Go value of type [any] is a value of [any] below.  Its numbers come in two
    kinds, which the code tells apart: a document read through OJSON has the
    literal ([json.Number]), and a value decoded by encoding/json has a float64.
    The other numeric types of Go do not come out of a decoder. *)

From S2P Require Import Prelude GoStrings World Shard Json Config Store Replication.

(** ** Numbers *)

(** float64 and its texts: [strconv.ParseFloat], [strconv.FormatFloat] with the
    shortest ['g'] form, the form encoding/json prints, and the comparisons. *)
Class GoFloat := {
  float64 : Type;
  ParseFloat : string -> option float64;
  FormatFloat : float64 -> string;
  float_json : float64 -> string;
  float_ltb : float64 -> float64 -> bool;
  float_eqb : float64 -> float64 -> bool;
  float_zero : float64;
}.

(** What is used of them, for the numbers a JSON text can hold: the order is
    total, the shortest form determines the number and has no slash in it, and a
    printed number is a literal that reads back as the same number. *)
Class GoFloatLaws `{GoFloat} `{OJSON} := {
  finite : float64 -> Prop;
  parse_finite : forall l f, number_ok l = true -> ParseFloat l = Some f -> finite f;
  float_lt_irrefl : forall a, finite a -> float_ltb a a = false;
  float_lt_trans : forall a b c, finite a -> finite b -> finite c ->
    float_ltb a b = true -> float_ltb b c = true -> float_ltb a c = true;
  float_total : forall a b, finite a -> finite b ->
    float_ltb a b = false -> float_ltb b a = false -> float_eqb a b = true;
  float_eq_lt : forall a b c, finite a -> finite b -> finite c -> float_eqb a b = true ->
    float_ltb a c = float_ltb b c /\ float_ltb c a = float_ltb c b;
  float_eq_refl : forall a, finite a -> float_eqb a a = true;
  format_eq : forall a b, finite a -> finite b -> FormatFloat a = FormatFloat b ->
    float_eqb a b = true;
  format_named : forall a, plain_collection (FormatFloat a) = true;
  json_number : forall a, finite a -> number_ok (float_json a) = true;
  json_parse : forall a, finite a -> ParseFloat (float_json a) = Some a;
}.

Section result_map.
Context {A B : Type} (f : A -> result B).

Fixpoint result_map (l : list A) : result (list B) :=
  match l with
  | [] => Ok []
  | x :: l' => result_bind (f x) (fun b => result_bind (result_map l') (fun r => Ok (b :: r)))
  end.
End result_map.

Section search.
Context `{GoFloat}.

(** ** Values *)

Inductive any :=
| ANil
| ABool (b : bool)
| AStr (s : string)
| ANumber (l : string)          (* json.Number *)
| AFloat (f : float64)
| AArr (l : list any)
| AMap (m : list (string * any)).

(** [jsonToNative] of OJSON: the values [ReadDocumentJSON] and [DetailMap] give. *)
Fixpoint native (v : json) : any :=
  match v with
  | JNull => ANil
  | JBool b => ABool b
  | JNum l => ANumber l
  | JStr s => AStr s
  | JArr l => AArr (map native l)
  | JObj m => AMap (map (fun kv => (fst kv, native (snd kv))) m)
  end.

(** encoding/json into [any]; a number out of the range of float64 is an error. *)
Fixpoint go_decode (v : json) : result any :=
  match v with
  | JNull => Ok ANil
  | JBool b => Ok (ABool b)
  | JNum l => match ParseFloat l with
              | Some f => Ok (AFloat f)
              | None => Err (errorf "number out of range")
              end
  | JStr s => Ok (AStr s)
  | JArr l => result_bind (result_map go_decode l) (fun r => Ok (AArr r))
  | JObj m =>
      result_bind
        (result_map (fun kv => result_bind (go_decode (snd kv)) (fun a => Ok (fst kv, a))) m)
        (fun r => Ok (AMap r))
  end.

(** The value encoding/json prints for an [any]. *)
Fixpoint go_encode (a : any) : json :=
  match a with
  | ANil => JNull
  | ABool b => JBool b
  | AStr s => JStr s
  | ANumber l => JNum l
  | AFloat f => JNum (float_json f)
  | AArr l => JArr (map go_encode l)
  | AMap m => JObj (map (fun kv => (fst kv, go_encode (snd kv))) m)
  end.

(** [reflect.DeepEqual]. *)
Fixpoint deep_equal (a b : any) {struct a} : bool :=
  match a, b with
  | ANil, ANil => true
  | ABool x, ABool y => Bool.eqb x y
  | AStr x, AStr y => x =? y
  | ANumber x, ANumber y => x =? y
  | AFloat x, AFloat y => float_eqb x y
  | AArr l, AArr l' =>
      (fix go l l' := match l, l' with
                      | [], [] => true
                      | x :: l, y :: l' => deep_equal x y && go l l'
                      | _, _ => false
                      end) l l'
  | AMap m, AMap m' =>
      (length m =? length m')%nat &&
      (fix go m := match m with
                   | [] => true
                   | (k, x) :: m =>
                       match aget m' k with Some y => deep_equal x y | None => false end && go m
                   end) m
  | _, _ => false
  end.

(** ** Field paths *)

Definition looksLikeIndex (seg : string) : bool :=
  if seg =? "" then false else forallb (fun r => in_range 48 r 57) (runes seg).

Definition splitFieldPath (p : string) : list string :=
  let trimmed := TrimPrefix p "/" in
  if trimmed =? "" then [] else Split trimmed "/".

(** A node that is not valid is [None]. *)
Fixpoint resolve_schema (node : option schemaEntry) (segments : list string)
    : option schemaEntry :=
  match segments with
  | [] => node
  | seg :: segs =>
      match node with
      | None => None
      | Some e =>
          if bool_decide (entry_kind e = KindArray) && looksLikeIndex seg
          then resolve_schema (entry_items e) segs
          else resolve_schema (entry_child e seg) segs
      end
  end.

Definition ResolveFieldSchema (root : option schemaEntry) (p : string) : option schemaEntry :=
  resolve_schema root (splitFieldPath p).

Fixpoint pointer_walk (cur : any) (segments : list string) : option any :=
  match segments with
  | [] => Some cur
  | seg :: segs =>
      match cur with
      | AMap m => match aget m seg with Some v => pointer_walk v segs | None => None end
      | AArr l =>
          match Atoi seg with
          | Some idx =>
              if (idx <? 0)%Z || (Z.of_nat (length l) <=? idx)%Z then None
              else match l !! Z.to_nat idx with
                   | Some v => pointer_walk v segs
                   | None => None
                   end
          | None => None
          end
      | _ => None
      end
  end.

Definition PointerGet (doc : list (string * any)) (p : string) : option any :=
  pointer_walk (AMap doc) (splitFieldPath p).

(** ** Encoding of bucket paths *)

Fixpoint hex_bytes (s : string) : string :=
  match s with
  | "" => ""
  | String c s' => hex2 (byte_of c) +:+ hex_bytes s'
  end.

Definition EncodeStringValue (s : string) : string :=
  if s =? "" then "empty" else hex_bytes s.

Definition EncodeTruth (b : bool) : string := if b then "true" else "false".

Definition EncodeNull : string := "null".

Definition asFloat64 (v : any) : option float64 :=
  match v with
  | AFloat f => Some f
  | ANumber l => ParseFloat l
  | AStr s => ParseFloat s
  | _ => None
  end.

Definition isJSONNumber (v : any) : bool :=
  match asFloat64 v with Some _ => true | None => false end.

Definition EncodeScalarNumber (v : any) : result string :=
  match asFloat64 v with
  | Some f => Ok (FormatFloat f)
  | None => Err (errorf "not a number")
  end.

Definition EncodeScalarByKind (kind : JSONKind) (v : any) : result string :=
  match kind with
  | KindString =>
      match v with AStr s => Ok (EncodeStringValue s) | _ => Err (errorf "expected string value") end
  | KindBoolean =>
      match v with ABool b => Ok (EncodeTruth b) | _ => Err (errorf "expected boolean value") end
  | KindNull =>
      match v with ANil => Ok EncodeNull | _ => Err (errorf "expected null value") end
  | KindNumber => EncodeScalarNumber v
  | _ => Err (errorf "unsupported scalar kind")
  end.

Definition ScalarsEqual (kind : JSONKind) (a b : any) : bool :=
  match kind with
  | KindString => match a, b with AStr x, AStr y => x =? y | _, _ => false end
  | KindBoolean => match a, b with ABool x, ABool y => Bool.eqb x y | _, _ => false end
  | KindNull => match a, b with ANil, ANil => true | _, _ => false end
  | KindNumber =>
      match asFloat64 a, asFloat64 b with
      | Some x, Some y => float_eqb x y
      | _, _ => false
      end
  | _ => false
  end.

Definition ShardInput (segments : list string) : string := Join segments "/".

Definition ShardSlot (segments : list string) : Z := RawSlot (ShardInput segments).

(** [inferScalarKind], [None] for a value that is not a scalar. *)
Definition inferScalarKind (v : any) : option JSONKind :=
  match v with
  | AStr _ => Some KindString
  | ABool _ => Some KindBoolean
  | ANil => Some KindNull
  | _ => if isJSONNumber v then Some KindNumber else None
  end.

Definition normalizeKey (kind : JSONKind) (v : any) : any :=
  match kind with
  | KindNumber => match asFloat64 v with Some f => AFloat f | None => v end
  | _ => v
  end.

(** ** Definitions *)

(** An operation is its name. *)
Record Clause := mkClause {
  ClField : string;
  ClOp : string;
  ClValue : any;
  ClTruth : string;
  ClSelect : string;
  ClHideNulls : bool;
}.

Record SortSpec := mkSortSpec { SoField : string; SoDir : string }.

Record SearchDef := mkDefinition {
  DfSchema : string;
  DfCollection : string;
  DfName : string;
  DfVersion : Z;
  DfClauses : list Clause;
  DfSort : list SortSpec;
}.

Definition mvpImplementedOps : list string := ["equals"; "in"; "exists"; "contains"].

Definition knownV1Ops : list string :=
  ["equals"; "scalarEquals"; "preciselyEquals"; "hashEquals";
   "in"; "scalarIn"; "preciselyIn"; "exists"; "missing";
   "contains"; "endsWith"; "greaterThan"; "lessThan";
   "greaterThanOrEqual"; "lessThanOrEqual"; "between";
   "startsWith"; "containsText"].

(** [name, ok := IsVariable(v)]. *)
Definition IsVariable (v : any) : option string :=
  match v with
  | AStr s => if negb (HasPrefix s "$") || (String.length s <? 2)%nat then None else Some s
  | _ => None
  end.

(** ** Decoding a stored definition *)

Context `{GJ : GoJSON}.

Definition any_field (v : json) (k : string) : result any :=
  match Get v k with None => Ok ANil | Some x => go_decode x end.

Definition bool_field (v : json) (k : string) : result bool :=
  match Get v k with
  | None | Some JNull => Ok false
  | Some (JBool b) => Ok b
  | Some _ => Err (errorf "not a bool")
  end.

(** [v.(string)] with the zero value on failure. *)
Definition any_string (a : any) : string := match a with AStr s => s | _ => "" end.

(** One element of an array of structs; [null] leaves the zero value. *)
Definition object_or_null (v : json) : result json :=
  match v with
  | JObj _ => Ok v
  | JNull => Ok (JObj [])
  | _ => Err (errorf "not an object")
  end.

Definition clause_of_json (v : json) : result Clause :=
  result_bind (object_or_null v) (fun v =>
  result_bind (string_field v "field") (fun field =>
  result_bind (string_field v "op") (fun op =>
  result_bind (any_field v "value") (fun value =>
  result_bind (any_field v "truth") (fun truth =>
  result_bind (any_field v "select") (fun sel =>
  result_bind (bool_field v "hideNulls") (fun hide =>
  Ok (mkClause field op value (any_string truth) (any_string sel) hide)))))))).

Definition sort_of_json (v : json) : result SortSpec :=
  result_bind (object_or_null v) (fun v =>
  result_bind (string_field v "field") (fun field =>
  result_bind (string_field v "dir") (fun dir => Ok (mkSortSpec field dir)))).

Definition ParseDefinition (raw : string) : result SearchDef :=
  result_bind (Unmarshal raw) (fun doc =>
  result_bind (object_or_null doc) (fun doc =>
  result_bind (string_field doc "$") (fun schema =>
  result_bind (string_field doc "collection") (fun collection =>
  result_bind (string_field doc "name") (fun name =>
  result_bind (int_field doc "version") (fun version =>
  result_bind (object_or_null (default JNull (Get doc "v1"))) (fun v1 =>
  result_bind (array_field v1 "clauses") (fun cs =>
  result_bind (result_map clause_of_json cs) (fun clauses =>
  result_bind (array_field v1 "sort") (fun ss =>
  result_bind (result_map sort_of_json ss) (fun sorts =>
  Ok (mkDefinition schema collection name version clauses sorts)))))))))))).

(** ** Validation *)

Definition def_error (p msg : string) : EError :=
  mkEError "invalidSearchDefinition" p msg None None.

Definition def_error_at (p msg actual : string) : EError :=
  mkEError "invalidSearchDefinition" p msg None (Some (JStr actual)).

Definition mvp_error (p msg : string) : EError := mkEError "unsupportedInMVP" p msg None None.

Definition scalarArrayItemKind (kind : JSONKind) : bool :=
  match kind with
  | KindString | KindNumber | KindBoolean | KindNull => true
  | _ => false
  end.

Definition containsConstantMatchesItems (value : any) (itemKind : JSONKind) : result unit :=
  match itemKind with
  | KindString =>
      match value with
      | AStr _ => Ok tt
      | _ => Err (errorf "string array contains constant requires a string value")
      end
  | KindBoolean =>
      match value with
      | ABool _ => Ok tt
      | _ => Err (errorf "boolean array contains constant requires a boolean value")
      end
  | KindNull =>
      match value with
      | ANil => Ok tt
      | _ => Err (errorf "null array contains constant requires a null value")
      end
  | KindNumber =>
      if isJSONNumber value then Ok tt
      else Err (errorf "number array contains constant requires a number value")
  | _ => Ok tt
  end.

Definition validateEquals (p : string) (c : Clause) (fieldSchema : option schemaEntry)
    : list EError :=
  match IsVariable (ClValue c) with
  | Some varName =>
      (if HasPrefix varName "$" then []
       else [def_error (p +:+ "/value") "variable must start with $"]) ++
      (if ClTruth c <>? "" then
         [def_error (p +:+ "/truth") "equals with a variable value must not also declare truth"]
       else [])
  | None =>
      match ClValue c with
      | ANil =>
          if ClTruth c =? "" then
            [def_error (p +:+ "/truth") "equals value:null requires a truth variable"]
          else []
      | value =>
          match fieldSchema with
          | None => []
          | Some e =>
              match value with
              | AStr _ =>
                  if bool_decide (entry_kind e = KindString) then []
                  else [def_error (p +:+ "/value") "string equals value requires a string field"]
              | ABool _ =>
                  if bool_decide (entry_kind e = KindBoolean) then []
                  else [def_error (p +:+ "/value") "boolean equals value requires a boolean field"]
              | _ =>
                  [mvp_error (p +:+ "/value")
                     "the narrow MVP evaluator only supports string/boolean/null equals constants"]
              end
          end
      end
  end.

Definition check_in_value (p : string) (fieldSchema : option schemaEntry) (v : any)
    : list EError :=
  match v with
  | AStr _ =>
      match fieldSchema with
      | Some e =>
          if bool_decide (entry_kind e = KindString) then []
          else [def_error (p +:+ "/value") "string in value requires a string field"]
      | None => []
      end
  | _ => [mvp_error (p +:+ "/value") "the narrow MVP in evaluator only supports string constants"]
  end.

Definition validateIn (p : string) (c : Clause) (fieldSchema : option schemaEntry)
    : list EError :=
  (if ClSelect c =? "" then
     [def_error (p +:+ "/select") "constant multi-value in requires a live select variable"]
   else if HasPrefix (ClSelect c) "$" then []
   else [def_error (p +:+ "/select") "select must be a variable starting with $"]) ++
  (if ClTruth c <>? "" then
     [mvp_error (p +:+ "/truth") "the narrow MVP in evaluator only supports the select form"]
   else []) ++
  match ClValue c with
  | AArr (v :: vs) => flat_map (check_in_value p fieldSchema) (v :: vs)
  | _ => [def_error (p +:+ "/value") "in requires a non-empty array of constant values"]
  end.

Definition validateExists (p : string) (c : Clause) : list EError :=
  match IsVariable (ClValue c) with
  | None => [def_error (p +:+ "/value") "exists requires value to be a truth variable"]
  | Some varName =>
      if HasPrefix varName "$" then []
      else [def_error (p +:+ "/value") "truth variable must start with $"]
  end.

(** The item schema of an array field that [contains] accepts, or the error. *)
Definition contains_items (p : string) (fieldSchema : option schemaEntry)
    : sum (list EError) (option schemaEntry) :=
  match fieldSchema with
  | None => inr None
  | Some e =>
      if bool_decide (entry_kind e = KindArray) then
        match entry_items e with
        | Some it =>
            if scalarArrayItemKind (entry_kind it) then inr (Some it)
            else inl [def_error (p +:+ "/field")
                        "contains requires array items of kind string, number, boolean, or null"]
        | None => inl [def_error (p +:+ "/field")
                         "contains requires array items of kind string, number, boolean, or null"]
        end
      else inl [def_error (p +:+ "/field") "contains requires an array field"]
  end.

Definition validateContains (p : string) (c : Clause) (fieldSchema : option schemaEntry)
    : list EError :=
  (if ClHideNulls c then
     [def_error (p +:+ "/hideNulls") "hideNulls is not supported on contains clauses"]
   else []) ++
  match contains_items p fieldSchema with
  | inl errs => errs
  | inr items =>
      match IsVariable (ClValue c) with
      | Some varName =>
          (if HasPrefix varName "$" then []
           else [def_error (p +:+ "/value") "variable must start with $"]) ++
          (if ClTruth c <>? "" then
             [def_error (p +:+ "/truth")
                "contains with a variable value must not also declare truth"]
           else [])
      | None =>
          (if ClTruth c =? "" then
             [def_error (p +:+ "/truth")
                "contains with a constant value requires a truth variable"]
           else if HasPrefix (ClTruth c) "$" then []
           else [def_error (p +:+ "/truth") "truth variable must start with $"]) ++
          match items with
          | None => []
          | Some it =>
              match containsConstantMatchesItems (ClValue c) (entry_kind it) with
              | Ok _ => []
              | Err err => [def_error (p +:+ "/value") (err_msg err)]
              end
          end
      end
  end.

(** The schema of the clause's field, [None] without a root or when the path does
    not resolve, which is an error of its own. *)
Definition clause_field (root : option schemaEntry) (c : Clause) : option schemaEntry :=
  if ClField c =? "" then None
  else match root with None => None | Some _ => ResolveFieldSchema root (ClField c) end.

Definition clause_path (i : nat) : string := "/v1/clauses/" +:+ Itoa (Z.of_nat i).

Definition validateClause (i : nat) (c : Clause) (root : option schemaEntry) : list EError :=
  let p := clause_path i in
  let fieldSchema := clause_field root c in
  (if ClField c =? "" then [def_error (p +:+ "/field") "field is required"] else []) ++
  (if (ClField c <>? "") && bool_decide (is_Some root) && bool_decide (fieldSchema = None) then
     [def_error_at (p +:+ "/field") "field does not resolve to a schema-defined field" (ClField c)]
   else []) ++
  if ClOp c =? "" then [def_error (p +:+ "/op") "op is required"]
  else if negb (containsString knownV1Ops (ClOp c)) then
    [def_error_at (p +:+ "/op") "unsupported search operation" (ClOp c)]
  else if negb (containsString mvpImplementedOps (ClOp c)) then
    [mkEError "unsupportedInMVP" (p +:+ "/op")
       "this V1 operation is specified but not implemented by the MVP search evaluator" None
       (Some (JStr (ClOp c)))]
  else
    (if ClHideNulls c && (ClOp c <>? "exists") then
       [def_error (p +:+ "/hideNulls") "hideNulls is only supported on exists clauses"]
     else []) ++
    (if ClOp c =? "equals" then validateEquals p c fieldSchema
     else if ClOp c =? "in" then validateIn p c fieldSchema
     else if ClOp c =? "exists" then validateExists p c
     else if ClOp c =? "contains" then validateContains p c fieldSchema
     else []).

Definition check_sort (root : option schemaEntry) (i : nat) (s : SortSpec) : list EError :=
  let p := "/v1/sort/" +:+ Itoa (Z.of_nat i) in
  (if SoField s <>? "/!" then
     match root with
     | None => [def_error_at (p +:+ "/field")
                  "sort field does not resolve to a schema-defined field" (SoField s)]
     | Some _ =>
         match ResolveFieldSchema root (SoField s) with
         | Some _ => []
         | None => [def_error_at (p +:+ "/field")
                      "sort field does not resolve to a schema-defined field" (SoField s)]
         end
     end
   else []) ++
  (if (SoDir s <>? "asc") && (SoDir s <>? "desc") then
     [def_error_at (p +:+ "/dir") "dir must be asc or desc" (SoDir s)]
   else []).

Definition Validate (def : SearchDef) (root : option schemaEntry)
    (existingCollections : list (string * string)) : list EError :=
  (if DfSchema def <>? "SearchDefinition:v1" then
     [def_error_at "/$" "$ must be SearchDefinition:v1" (DfSchema def)]
   else []) ++
  (if ahas existingCollections (DfCollection def) then []
   else [mkEError "collectionNotFound" "/collection" "search collection does not exist" None
           (Some (JStr (DfCollection def)))]) ++
  (if (DfVersion def <=? 0)%Z then
     [mkEError "invalidSearchDefinition" "/version" "version must be a positive integer" None
        (Some (JNum (Itoa (DfVersion def))))]
   else []) ++
  (if (length (DfClauses def) =? 0)%nat then
     [def_error "/v1/clauses" "clauses must be a non-empty array"]
   else []) ++
  concat (imap (fun i c => validateClause i c root) (DfClauses def)) ++
  concat (imap (check_sort root) (DfSort def)).

(** ** Evaluation of a document *)

Record EvalResult := mkEval { Segments : list string; Key : list any }.

Record clauseOutcome := mkOutcomeC {
  included : bool;
  contributes : bool;
  options : list (string * any);
}.

Definition excluded : clauseOutcome := mkOutcomeC false false [].

Definition singleSegment (seg : string) (key : any) (contributes included : bool)
    : clauseOutcome :=
  mkOutcomeC included contributes (if contributes && included then [(seg, key)] else []).

(** A truth-valued clause. *)
Definition truth_segment (b : bool) : clauseOutcome :=
  singleSegment (EncodeTruth b) (ABool b) true true.

Definition is_nil (v : option any) : bool := match v with Some ANil => true | _ => false end.

Definition max_value_runes : nat := 63.

Definition evaluateEquals (c : Clause) (doc : list (string * any)) : result clauseOutcome :=
  match IsVariable (ClValue c) with
  | Some _ =>
      match PointerGet doc (ClField c) with
      | None => Ok excluded
      | Some (AStr v) =>
          if (max_value_runes <? RuneCountInString v)%nat then Ok excluded
          else Ok (singleSegment (EncodeStringValue v) (AStr v) true true)
      | Some (ABool v) => Ok (singleSegment (EncodeTruth v) (ABool v) true true)
      | Some ANil => Ok excluded
      | Some _ => Err (errorf "equals variable clause requires a string or boolean field value")
      end
  | None =>
      let val := PointerGet doc (ClField c) in
      let finish matches :=
        if ClTruth c <>? "" then Ok (truth_segment matches)
        else Ok (singleSegment "" ANil false matches) in
      match ClValue c with
      | ANil => Ok (truth_segment (is_nil val))
      | AStr cv => finish (match val with Some (AStr s) => s =? cv | _ => false end)
      | ABool cv => finish (match val with Some (ABool b) => Bool.eqb b cv | _ => false end)
      | _ => Err (errorf "unsupported equals constant kind")
      end
  end.

Definition is_string (s : string) (v : any) : bool :=
  match v with AStr vs => vs =? s | _ => false end.

Definition evaluateIn (c : Clause) (doc : list (string * any)) : result clauseOutcome :=
  match ClValue c with
  | AArr values =>
      match PointerGet doc (ClField c) with
      | Some (AStr s) =>
          if existsb (is_string s) values
          then Ok (singleSegment (EncodeStringValue s) (AStr s) true true)
          else Ok excluded
      | _ => Ok excluded
      end
  | _ => Err (errorf "in clause requires a constant value array")
  end.

Definition evaluateExists (c : Clause) (doc : list (string * any)) : result clauseOutcome :=
  let val := PointerGet doc (ClField c) in
  let present := bool_decide (is_Some val) in
  Ok (truth_segment (if ClHideNulls c && is_nil val then false else present)).

(** The segment an array item gives, if any. *)
Definition item_option (item : any) : option (string * any) :=
  match inferScalarKind item with
  | None => None
  | Some kind =>
      if bool_decide (kind = KindString) &&
         match item with
         | AStr s => (max_value_runes <? RuneCountInString s)%nat
         | _ => false
         end
      then None
      else match EncodeScalarByKind kind item with
           | Ok seg => Some (seg, normalizeKey kind item)
           | Err _ => None
           end
  end.

(** The options of the items, one per segment, the first item winning. *)
Fixpoint contains_options (seen : list string) (items : list any) : list (string * any) :=
  match items with
  | [] => []
  | item :: items' =>
      match item_option item with
      | None => contains_options seen items'
      | Some (seg, key) =>
          if containsString seen seg then contains_options seen items'
          else (seg, key) :: contains_options (seg :: seen) items'
      end
  end.

Definition evaluateContains (c : Clause) (doc : list (string * any)) : result clauseOutcome :=
  match PointerGet doc (ClField c) with
  | Some (AArr arr) =>
      match IsVariable (ClValue c) with
      | Some _ =>
          match contains_options [] arr with
          | [] => Ok excluded
          | opts => Ok (mkOutcomeC true true opts)
          end
      | None =>
          match inferScalarKind (ClValue c) with
          | None => Err (errorf "unsupported contains constant kind")
          | Some kind =>
              if ClTruth c =? "" then Err (errorf "contains constant clause requires truth")
              else Ok (truth_segment (existsb (fun item => ScalarsEqual kind item (ClValue c)) arr))
          end
      end
  | _ => Ok excluded
  end.

Definition evaluateClause (c : Clause) (doc : list (string * any)) : result clauseOutcome :=
  if ClOp c =? "equals" then evaluateEquals c doc
  else if ClOp c =? "in" then evaluateIn c doc
  else if ClOp c =? "exists" then evaluateExists c doc
  else if ClOp c =? "contains" then evaluateContains c doc
  else Err (errorf "unsupported op").

(** One round of [expandBuckets]: every prefix with every option. *)
Definition extend_prefixes (cur : list EvalResult) (opts : list (string * any))
    : list EvalResult :=
  flat_map (fun p => map (fun o => mkEval (Segments p ++ [fst o]) (Key p ++ [snd o])) opts) cur.

Fixpoint expand_from (cur : list EvalResult) (outcomes : list clauseOutcome)
    : list EvalResult :=
  match outcomes with
  | [] => cur
  | out :: outcomes' =>
      if negb (contributes out) then expand_from cur outcomes'
      else match options out with
           | [] => []
           | opts => expand_from (extend_prefixes cur opts) outcomes'
           end
  end.

Definition expandBuckets (outcomes : list clauseOutcome) : list EvalResult :=
  expand_from [mkEval [] []] outcomes.

(** The outcomes of the clauses; [Ok None] when one of them excludes the document. *)
Fixpoint evaluate_clauses (cs : list Clause) (doc : list (string * any))
    : result (option (list clauseOutcome)) :=
  match cs with
  | [] => Ok (Some [])
  | c :: cs' =>
      result_bind (evaluateClause c doc) (fun out =>
      if negb (included out) then Ok None
      else result_bind (evaluate_clauses cs' doc) (fun r =>
           Ok (match r with Some outs => Some (out :: outs) | None => None end)))
  end.

(** A nil document belongs to no bucket. *)
Definition EvaluateDocument (def : SearchDef) (doc : option (list (string * any)))
    : result (list EvalResult) :=
  match doc with
  | None => Ok []
  | Some doc =>
      result_bind (evaluate_clauses (DfClauses def) doc) (fun r =>
      Ok (match r with Some outs => expandBuckets outs | None => [] end))
  end.

(** ** Resolution of a query *)

Definition lookupVar (vars : list (string * any)) (name : string) : option any :=
  aget vars (TrimPrefix name "$").

Definition lookupBoolVar (vars : list (string * any)) (name : string) : result bool :=
  match lookupVar vars name with
  | None => Err (errorf "missing required variable")
  | Some (ABool b) => Ok b
  | Some _ => Err (errorf "variable must be a boolean")
  end.

Definition truth_query (vars : list (string * any)) (name : string) : result (option string) :=
  result_bind (lookupBoolVar vars name) (fun b => Ok (Some (EncodeTruth b))).

Definition resolveEqualsQuery (c : Clause) (vars : list (string * any))
    : result (option string) :=
  match IsVariable (ClValue c) with
  | Some varName =>
      match lookupVar vars varName with
      | None => Err (errorf "missing required variable")
      | Some (AStr tv) =>
          if (max_value_runes <? RuneCountInString tv)%nat
          then Err (errorf "variable exceeds the 63-rune limit for equals")
          else Ok (Some (EncodeStringValue tv))
      | Some (ABool tv) => Ok (Some (EncodeTruth tv))
      | Some _ => Err (errorf "variable must be a string or boolean")
      end
  | None =>
      match ClValue c with
      | ANil =>
          if ClTruth c =? "" then Err (errorf "equals value:null requires a truth variable")
          else truth_query vars (ClTruth c)
      | _ => if ClTruth c =? "" then Ok None else truth_query vars (ClTruth c)
      end
  end.

Definition resolveInQuery (c : Clause) (vars : list (string * any)) : result (option string) :=
  if ClSelect c =? "" then Err (errorf "in clause requires a select variable")
  else match lookupVar vars (ClSelect c) with
       | None => Err (errorf "missing required variable")
       | Some (AStr s) =>
           let values := match ClValue c with AArr l => l | _ => [] end in
           if existsb (is_string s) values then Ok (Some (EncodeStringValue s))
           else Err (errorf "variable value is not one of the allowed constants")
       | Some _ => Err (errorf "variable must be a string")
       end.

Definition resolveExistsQuery (c : Clause) (vars : list (string * any))
    : result (option string) :=
  match IsVariable (ClValue c) with
  | None => Err (errorf "exists clause requires a truth variable")
  | Some varName => truth_query vars varName
  end.

Definition resolveContainsQuery (c : Clause) (vars : list (string * any))
    : result (option string) :=
  match IsVariable (ClValue c) with
  | Some varName =>
      match lookupVar vars varName with
      | None => Err (errorf "missing required variable")
      | Some v =>
          match inferScalarKind v with
          | None => Err (errorf "variable must be a string, number, boolean, or null")
          | Some kind =>
              if bool_decide (kind = KindString) &&
                 match v with
                 | AStr s => (max_value_runes <? RuneCountInString s)%nat
                 | _ => false
                 end
              then Err (errorf "variable exceeds the 63-rune limit for contains")
              else result_bind (EncodeScalarByKind kind v) (fun seg => Ok (Some seg))
          end
      end
  | None =>
      if ClTruth c =? "" then Err (errorf "contains constant clause requires a truth variable")
      else truth_query vars (ClTruth c)
  end.

Definition resolveClauseQuery (c : Clause) (vars : list (string * any))
    : result (option string) :=
  if ClOp c =? "equals" then resolveEqualsQuery c vars
  else if ClOp c =? "in" then resolveInQuery c vars
  else if ClOp c =? "exists" then resolveExistsQuery c vars
  else if ClOp c =? "contains" then resolveContainsQuery c vars
  else Err (errorf "unsupported op").

Fixpoint resolve_clauses (cs : list Clause) (vars : list (string * any))
    : result (list string) :=
  match cs with
  | [] => Ok []
  | c :: cs' =>
      result_bind (resolveClauseQuery c vars) (fun seg =>
      result_bind (resolve_clauses cs' vars) (fun segs =>
      Ok (match seg with Some s => s :: segs | None => segs end)))
  end.

Definition ResolveQueryPath (def : SearchDef) (vars : list (string * any))
    : result (list string) := resolve_clauses (DfClauses def) vars.

(** ** Sort values *)

Record SortValue := mkSortValue { Present : bool; Null : bool; SValue : any }.

Definition missing_value : SortValue := mkSortValue false false ANil.
Definition null_value : SortValue := mkSortValue true true ANil.
Definition known_value (v : any) : SortValue := mkSortValue true false v.

Definition rank (v : SortValue) : Z :=
  if negb (Present v) then 2 else if Null v then 1 else 0.

Definition sort_value (doc : list (string * any)) (s : SortSpec) : SortValue :=
  if SoField s =? "/!" then
    known_value (AStr (match aget doc "!" with Some (AStr id) => id | _ => "" end))
  else match PointerGet doc (SoField s) with
       | None => missing_value
       | Some ANil => null_value
       | Some v => known_value v
       end.

Definition ComputeSortValues (def : SearchDef) (doc : list (string * any)) : list SortValue :=
  map (sort_value doc) (DfSort def).

Definition SortValuesToJSON (vals : list SortValue) : list any :=
  map (fun v => if negb (Present v) || Null v then ANil else SValue v) vals.

Definition SortValuesFromJSON (raw : list any) : list SortValue :=
  map (fun v => match v with ANil => null_value | _ => known_value v end) raw.

(** [strings.Compare]. *)
Definition str_compare (a b : string) : Z :=
  if a =? b then 0 else if str_ltb a b then -1 else 1.

Definition toFloat64 (v : any) : float64 := match v with AFloat f => f | _ => float_zero end.

Definition compareKnown (a b : any) : Z :=
  match a with
  | AStr av => str_compare av (any_string b)
  | ABool av =>
      let bv := match b with ABool b => b | _ => false end in
      if Bool.eqb av bv then 0 else if negb av then -1 else 1
  | AFloat av =>
      let bv := toFloat64 b in
      if float_ltb av bv then -1 else if float_ltb bv av then 1 else 0
  | _ => 0
  end.

Definition compareOne (cand : SortValue) (storedRaw : any) (dir : string) : Z :=
  let candRank := rank cand in
  let storedRank := match storedRaw with ANil => 1%Z | _ => 0%Z end in
  if (candRank =? storedRank)%Z then
    if (candRank =? 0)%Z then
      let cmp := compareKnown (SValue cand) storedRaw in
      if dir =? "desc" then (- cmp)%Z else cmp
    else 0
  else (candRank - storedRank)%Z.

(** The loop of [CompareStoredSort] over the common positions; [None] is the
    panic of [dirs[i]] past the end. *)
Fixpoint compare_stored (candidate : list SortValue) (stored : list any) (dirs : list string)
    : option Z :=
  match candidate, stored with
  | c :: candidate', s :: stored' =>
      match dirs with
      | [] => None
      | d :: dirs' =>
          let r := compareOne c s d in
          if (r =? 0)%Z then compare_stored candidate' stored' dirs' else Some r
      end
  | _, _ => Some (Z.of_nat (length candidate) - Z.of_nat (length stored))%Z
  end.

Definition CompareStoredSort := compare_stored.

(** ** Result files *)

(** A nil [Sort] is [None]: it differs from an empty one for [DeepEqual]. *)
Record Item := mkItemS { ItSort : option (list any); ItID : string }.

Record ResultFile := mkResultFile {
  RfVersion : string;
  RfSchema : string;
  RfSearch : string;
  RfCollection : string;
  RfKey : list any;
  RfItems : list Item;
}.

Definition empty_file : ResultFile := mkResultFile "" "" "" "" [] [].

Definition item_to_json (it : Item) : json :=
  JObj [("sort", match ItSort it with Some l => JArr (map go_encode l) | None => JNull end);
        ("id", JStr (ItID it))].

(** A key with no values is the nil slice, printed as [null]. *)
Definition file_to_json (rf : ResultFile) : json :=
  JObj [("#", JStr (RfVersion rf)); ("$", JStr (RfSchema rf)); ("search", JStr (RfSearch rf));
        ("collection", JStr (RfCollection rf));
        ("key", match RfKey rf with [] => JNull | l => JArr (map go_encode l) end);
        ("items", JArr (map item_to_json (RfItems rf)))].

Definition anys_field (v : json) (k : string) : result (option (list any)) :=
  match Get v k with
  | None | Some JNull => Ok None
  | Some (JArr l) => result_bind (result_map go_decode l) (fun r => Ok (Some r))
  | Some _ => Err (errorf "not an array")
  end.

Definition result_item (v : json) : result Item :=
  result_bind (object_or_null v) (fun v =>
  result_bind (anys_field v "sort") (fun sort =>
  result_bind (string_field v "id") (fun id => Ok (mkItemS sort id)))).

Definition file_of_json (v : json) : result ResultFile :=
  result_bind (object_or_null v) (fun v =>
  result_bind (string_field v "#") (fun version =>
  result_bind (string_field v "$") (fun schema =>
  result_bind (string_field v "search") (fun search =>
  result_bind (string_field v "collection") (fun collection =>
  result_bind (anys_field v "key") (fun key =>
  result_bind (array_field v "items") (fun its =>
  result_bind (result_map result_item its) (fun items =>
  Ok (mkResultFile version schema search collection (default [] key) items))))))))).

(** [IndexOf], [None] for -1. *)
Fixpoint index_from (i : nat) (items : list Item) (id : string) : option nat :=
  match items with
  | [] => None
  | it :: items' => if ItID it =? id then Some i else index_from (S i) items' id
  end.

Definition IndexOf (rf : ResultFile) (id : string) : option nat := index_from 0 (RfItems rf) id.

Definition set_items (rf : ResultFile) (items : list Item) : ResultFile :=
  mkResultFile (RfVersion rf) (RfSchema rf) (RfSearch rf) (RfCollection rf) (RfKey rf) items.

(** [append(l[:i], l[i+1:]...)]. *)
Definition cut_at {A} (i : nat) (l : list A) : list A := take i l ++ drop (S i) l.

Definition RemoveID (rf : ResultFile) (id : string) : ResultFile * bool :=
  match IndexOf rf id with
  | None => (rf, false)
  | Some idx => (set_items rf (cut_at idx (RfItems rf)), true)
  end.

(** The position of the first stored item the candidate sorts before. *)
Fixpoint insert_position (sortVals : list SortValue) (dirs : list string) (items : list Item)
    : option nat :=
  match items with
  | [] => Some 0%nat
  | it :: items' =>
      match CompareStoredSort sortVals (default [] (ItSort it)) dirs with
      | None => None
      | Some c => if (c <? 0)%Z then Some 0%nat
                  else S <$> insert_position sortVals dirs items'
      end
  end.

(** [None] is the panic of [CompareStoredSort], which the callers make a failure:
    the program recovers from it further up, in the scheduler and in net/http.  Sort
    values that [ComputeSortValues] made never get there
    ([SearchStore.Upsert_computed]). *)
Definition Upsert (rf : ResultFile) (def : SearchDef) (id : string) (sortVals : list SortValue)
    : option (ResultFile * bool) :=
  let dirs := map SoDir (DfSort def) in
  let newSortJSON := SortValuesToJSON sortVals in
  let place items :=
    match insert_position sortVals dirs items with
    | None => None
    | Some insertAt =>
        Some (set_items rf (take insertAt items ++
                            mkItemS (Some newSortJSON) id :: drop insertAt items), true)
    end in
  match IndexOf rf id with
  | None => place (RfItems rf)
  | Some idx =>
      match RfItems rf !! idx with
      | Some it =>
          if match ItSort it with
             | Some l => deep_equal (AArr l) (AArr newSortJSON)
             | None => false
             end
          then Some (rf, false)
          else place (cut_at idx (RfItems rf))
      | None => place (cut_at idx (RfItems rf))
      end
  end.

Context `{Env} `{OJSON}.

Definition LoadResultFile (p : path) : M (result (ResultFile * bool)) :=
  r ← ReadFile p;
  match r with
  | Err e => if is_not_exist e then mret (Ok (empty_file, false)) else mret (Err e)
  | Ok data =>
      match result_bind (Unmarshal data) file_of_json with
      | Err _ => mret (Err (errorf "invalid search result JSON"))
      | Ok rf => mret (Ok (rf, true))
      end
  end.

Definition WriteResultFile (p : path) (rf : ResultFile) : M (result unit) :=
  WriteFileAtomic p (MarshalIndent (file_to_json rf) +:+ newline).

Definition set_version (rf : ResultFile) (v : string) : ResultFile :=
  mkResultFile v (RfSchema rf) (RfSearch rf) (RfCollection rf) (RfKey rf) (RfItems rf).

Definition with_schema (rf : ResultFile) : ResultFile :=
  if RfSchema rf =? "" then
    mkResultFile (RfVersion rf) "SearchResult:v1" (RfSearch rf) (RfCollection rf) (RfKey rf)
      (RfItems rf)
  else rf.

(** The attempts of [ApplyMutation]: [mutate] sees the file and whether it
    existed, and gives the new file and whether it changed.  The pause between
    attempts has no effect on the state. *)
Fixpoint apply_attempts (attempts : nat) (p : path)
    (mutate : ResultFile -> bool -> result (ResultFile * bool)) : M (result (bool * string)) :=
  match attempts with
  | O => mret (Err (errorf "search result apply retries exhausted"))
  | S attempts' =>
      loaded <-? LoadResultFile p;
      let '(rf, existed) := loaded in
      match mutate (with_schema rf) existed with
      | Err e => mret (Err e)
      | Ok (rf', false) => mret (Ok (false, RfVersion rf'))
      | Ok (rf', true) =>
          newVer <-? NewID;
          WriteResultFile p (set_version rf' newVer) ;?
          check ← LoadResultFile p;
          match check with
          | Ok (rf'', _) =>
              if RfVersion rf'' =? newVer then mret (Ok (true, newVer))
              else apply_attempts attempts' p mutate
          | Err _ => apply_attempts attempts' p mutate
          end
      end
  end.

Definition ApplyMutation (p : path)
    (mutate : ResultFile -> bool -> result (ResultFile * bool)) : M (result (bool * string)) :=
  apply_attempts 10 p mutate.
End search.
