(* ===== verification/AccessLang.v ===== *)
(** * Package accesslang: command lines and pseudo-JSON

    [internal/accesslang]: a command line is split into words and a detail, and
    the detail, JSON with optional quotes, is rewritten to strict JSON in one pass
    over its bytes. *)

From S2P Require Import Prelude GoStrings Json Search.

Record AccessCommand := mkAccessCommand {
  AcWord : string;
  AcTarget : string;
  AcParm : string;
  AcDetail : string;
}.

(** [unicode.IsSpace(rune(b))] of one byte. *)
Definition space_byte (c : ascii) : bool := IsSpace (byte_of c).

(** The bytes up to the first that satisfies the test, and the rest. *)
Fixpoint span_until (stop : ascii -> bool) (s : string) : string * string :=
  match s with
  | EmptyString => (EmptyString, EmptyString)
  | String c s' =>
      if stop c then (EmptyString, s)
      else let '(a, b) := span_until stop s' in (String c a, b)
  end.

Definition splitWord (s : string) : option (string * string) :=
  let s := TrimLeftSpace s in
  if s =? "" then None
  else let '(word, rest) := span_until space_byte s in Some (word, TrimLeftSpace rest).

Definition Parse (line : string) : result AccessCommand :=
  let line := TrimSpace line in
  if line =? "" then Err (errorf "empty command")
  else
  match splitWord line with
  | None => Err (errorf "missing command word")
  | Some (word, rest) =>
  match splitWord rest with
  | None => Err (errorf "missing command target")
  | Some (target, rest) =>
  match splitWord rest with
  | None => Err (errorf "missing command parm")
  | Some (parm, rest) =>
  let detail := TrimSpace rest in
  if detail =? "" then Err (errorf "missing command detail")
  else if negb (HasPrefix detail "{") then Err (errorf "detail must be a pseudo-JSON object")
  else Ok (mkAccessCommand word target parm detail)
  end end end.

(** ** Pseudo-JSON *)

(** From after the opening quote: the text and what follows the closing quote. *)
Fixpoint readQuoted (quote : ascii) (s : string) : result (string * string) :=
  match s with
  | EmptyString => Err (errorf "unterminated string")
  | String c s' =>
      if Ascii.eqb c "\" then
        match s' with
        | String d s'' => result_bind (readQuoted quote s'') (fun p => Ok (String d (fst p), snd p))
        | EmptyString =>
            if Ascii.eqb c quote then Ok (EmptyString, s') else Err (errorf "unterminated string")
        end
      else if Ascii.eqb c quote then Ok (EmptyString, s')
      else result_bind (readQuoted quote s') (fun p => Ok (String c (fst p), snd p))
  end.

Definition token_end (allowColon : bool) (c : ascii) : bool :=
  space_byte c || Ascii.eqb c "," || Ascii.eqb c "}" || Ascii.eqb c "]" ||
  (Ascii.eqb c ":" && negb allowColon).

Definition readToken (s : string) (allowColon : bool) : string * string :=
  span_until (token_end allowColon) s.

Record scan := mkScan {
  expectKey : bool;
  expectValue : bool;
  stack : list ascii;
}.

Section pseudo.
Context `{GoJSON} `{GoFloat}.

Definition looksLikeNumber (token : string) : bool :=
  if token =? "" then false else match ParseFloat token with Some _ => true | None => false end.

Definition encodeToken (token : string) : string :=
  if (token =? "true") || (token =? "false") || (token =? "null") then token
  else if looksLikeNumber token then token
  else Marshal (JStr token).

(** One round of the loop on an input that starts with something else than space:
    the text written, the new state and the rest of the input. *)
Definition scan_one (st : scan) (c : ascii) (s : string) : result (string * scan * string) :=
  let out := String c EmptyString in
  if Ascii.eqb c "{" || Ascii.eqb c "[" then
    Ok (out, mkScan (Ascii.eqb c "{") (Ascii.eqb c "[") (c :: stack st), s)
  else if Ascii.eqb c "}" || Ascii.eqb c "]" then
    Ok (out, mkScan false false (tail (stack st)), s)
  else if Ascii.eqb c "," then
    match stack st with
    | top :: _ => if Ascii.eqb top "{" then Ok (out, mkScan true false (stack st), s)
                  else Ok (out, mkScan false true (stack st), s)
    | [] => Ok (out, mkScan false true (stack st), s)
    end
  else if Ascii.eqb c ":" then Ok (out, mkScan false true (stack st), s)
  else if Ascii.eqb c "034" || Ascii.eqb c "'" then
    result_bind (readQuoted c s) (fun p => Ok (Marshal (JStr (fst p)), mkScan false false (stack st), snd p))
  else
    let '(token, rest) := readToken (String c s) (expectValue st) in
    if expectKey st then Ok (Marshal (JStr token), mkScan false (expectValue st) (stack st), rest)
    else Ok (encodeToken token, mkScan (expectKey st) false (stack st), rest).

(** The loop, [None] when the fuel is used up; [b] is the text written so far. *)
Fixpoint pseudo_loop (fuel : nat) (st : scan) (s b : string) : option (result string) :=
  match fuel with
  | O => None
  | S f =>
      let '(spaces, s) := span_until (fun c => negb (space_byte c)) s in
      let b := b +:+ spaces in
      match s with
      | EmptyString => Some (Ok b)
      | String c s' =>
          match scan_one st c s' with
          | Err e => Some (Err e)
          | Ok (out, st', rest) => pseudo_loop f st' rest (b +:+ out)
          end
      end
  end.

Definition pseudoToStrictJSON (input : string) : option (result string) :=
  pseudo_loop (S (String.length input)) (mkScan false false []) input "".

Definition ParseDetailStrictJSON (detail : string) : option (result string) :=
  pseudoToStrictJSON (TrimSpace detail).

Definition ParseDetailValue `{OJSON} (detail : string) : option (result json) :=
  option_map (fun r => result_bind r (fun strict =>
    match ReadBytesNoSchema strict with
    | Ok v => Ok v
    | Err e => Err (errorf ("invalid detail object: " +:+ err_msg e))
    end)) (ParseDetailStrictJSON detail).

(** Into a map, numbers kept as text; [null] leaves the map nil. *)
Definition ParseDetail (detail : string) : option (result fields) :=
  option_map (fun r => result_bind r (fun strict =>
    match Decode strict with
    | Ok (JObj m) => Ok m
    | Ok JNull => Ok []
    | _ => Err (errorf "invalid detail object")
    end)) (ParseDetailStrictJSON detail).
End pseudo.

(** ** The pass ends *)

Lemma span_until_app stop s : fst (span_until stop s) +:+ snd (span_until stop s) = s.
Proof.
  induction s as [|c s IH]; [done|]. cbn [span_until]. destruct (stop c); [done|].
  destruct (span_until stop s) as [a b]. simpl in *. by rewrite IH.
Qed.

Lemma span_until_head stop s c t : snd (span_until stop s) = String c t -> stop c = true.
Proof.
  induction s as [|x s IH]; cbn [span_until]; [done|]. destruct (stop x) eqn:E.
  - simpl. by intros [= <- _].
  - destruct (span_until stop s) as [a b]. exact IH.
Qed.

Lemma span_until_length stop s : (String.length (snd (span_until stop s)) <= String.length s)%nat.
Proof. rewrite <-(span_until_app stop s) at 2. rewrite str_length_app. lia. Qed.

Lemma readQuoted_length quote s p :
  readQuoted quote s = Ok p -> (String.length (snd p) <= String.length s)%nat.
Proof.
  assert (forall n s p, (String.length s <= n)%nat -> readQuoted quote s = Ok p ->
            (String.length (snd p) <= String.length s)%nat) as Hn; [|by eapply Hn].
  clear s p. induction n as [|n IH]; intros [|c s] p Hl; cbn [readQuoted]; try done; simpl in Hl; [lia|].
  destruct (Ascii.eqb c "\"), s as [|d s]; simpl in Hl.
  - destruct (Ascii.eqb c quote); [|done]. intros [= <-]. simpl. lia.
  - destruct (readQuoted quote s) as [q|e] eqn:Eq; [|done]. intros [= <-].
    apply IH in Eq; [|lia]. simpl. lia.
  - destruct (Ascii.eqb c quote); [intros [= <-]; simpl; lia|]. done.
  - destruct (Ascii.eqb c quote); [intros [= <-]; simpl; lia|].
    destruct (readQuoted quote (String d s)) as [q|e] eqn:Eq; [|done]. intros [= <-].
    apply IH in Eq; [|simpl; lia]. simpl in *. lia.
Qed.

Section ends.
Context `{GoJSON} `{GoFloat}.

(** Every round takes at least one byte. *)
Lemma scan_one_progress st c s out st' rest :
  space_byte c = false -> scan_one st c s = Ok (out, st', rest) ->
  (String.length rest <= String.length s)%nat.
Proof.
  intros Hc. unfold scan_one. cbv zeta.
  destruct (Ascii.eqb c "{" || Ascii.eqb c "["); [intros [= _ _ <-]; done|].
  destruct (Ascii.eqb c "}" || Ascii.eqb c "]") eqn:E2; [intros [= _ _ <-]; done|].
  destruct (Ascii.eqb c ",") eqn:E3.
  { destruct (stack st) as [|top l]; [|destruct (Ascii.eqb top "{")]; intros [= _ _ <-]; done. }
  destruct (Ascii.eqb c ":") eqn:E4; [intros [= _ _ <-]; done|].
  destruct (Ascii.eqb c "034" || Ascii.eqb c "'").
  { destruct (readQuoted c s) as [p|] eqn:Ep; [|done]. cbn [result_bind]. intros Heq. assert (rest = snd p) as -> by congruence. by eapply readQuoted_length. }
  unfold readToken. cbn [span_until]. apply orb_false_iff in E2 as [E5 E6].
  assert (token_end (expectValue st) c = false) as ->.
  { unfold token_end. by rewrite Hc, E3, E4, E5, E6. }
  pose proof (span_until_length (token_end (expectValue st)) s) as Hl.
  destruct (span_until _ s) as [a b]. simpl in Hl. destruct (expectKey st); by intros [= _ _ <-].
Qed.

Lemma pseudo_loop_ends fuel st s b :
  (String.length s < fuel)%nat -> is_Some (pseudo_loop fuel st s b).
Proof.
  revert st s b. induction fuel as [|f IH]; intros st s b Hf; [lia|]. cbn [pseudo_loop].
  pose proof (span_until_length (fun c => negb (space_byte c)) s) as Hl.
  destruct (span_until _ s) as [spaces t] eqn:Es. simpl in Hl.
  destruct t as [|c t]; [by eexists|].
  assert (negb (space_byte c) = true) as Hc%negb_true_iff.
  { apply (span_until_head (fun c => negb (space_byte c)) s c t). by rewrite Es. }
  destruct (scan_one st c t) as [[[out st'] rest]|e] eqn:Eo; [|by eexists].
  apply scan_one_progress in Eo; [|done]. apply IH. simpl in Hl. lia.
Qed.

(** C36: the rewriting of pseudo-JSON ends on every input, well-formed or not: each
    round of its loop takes at least one byte, so as many rounds as there are bytes,
    and one, are enough; more make no difference. *)
Theorem pseudoToStrictJSON_ends input k :
  exists r, pseudoToStrictJSON input = Some r /\
    pseudo_loop (S (String.length input) + k) (mkScan false false []) input "" = Some r.
Proof.
  unfold pseudoToStrictJSON.
  assert (forall fuel st s b r, pseudo_loop fuel st s b = Some r -> pseudo_loop (fuel + k) st s b = Some r) as Hmore.
  { induction fuel as [|f IH]; intros st s b r Hr; [done|]. cbn [pseudo_loop Nat.add] in *.
    destruct (span_until _ s) as [spaces t]. destruct t as [|c t]; [done|].
    destruct (scan_one st c t) as [[[out st'] rest]|e]; [|done]. by apply IH. }
  destruct (pseudo_loop_ends (S (String.length input)) (mkScan false false []) input "") as [r Hr]; [lia|].
  exists r. split; [done|]. by apply Hmore.
Qed.

(** The backslash of an escape is dropped and the letter behind it is kept: in
    strict JSON a line feed is lost. *)
Lemma escape_lost :
  pseudoToStrictJSON "{a: 'x\ny'}" = Some (Ok ("{" +:+ Marshal (JStr "a") +:+ ": " +:+ Marshal (JStr "xny") +:+ "}")).
Proof. lazy -[String.append Marshal]. by rewrite ?str_app_nil_r, ?str_app_assoc. Qed.
End ends.

(** A word with the letter U+00E0, whose second byte is 160, is cut in two. *)
Definition voila : string := "voil" +:+ String (of_byte 195) (String (of_byte 160) "").

Example latin_letter_splits_word :
  ValidString voila = true /\
  splitWord (voila +:+ " rest") =
    Some ("voil" +:+ String (of_byte 195) "", String (of_byte 160) " rest").
Proof. vm_compute. done. Qed.
