(* ===== verification/Migrate.v ===== *)
(** * Packages schemapatch and agents/upgrade: migration of documents

    [internal/schemapatch]: the update list of a schema version ([spec.go], and
    the ordered decoding of [ordered.go]) and its application to one document
    ([document.go]).  [internal/agents/upgrade]: the versions a document has to be
    taken through ([migrate.go]), the rewrite of the stored document ([apply.go])
    and the background agent ([agent.go]).

    A document is the map [ReadDocumentJSON] gives, with numbers as literals
    ([ANumber]); the values of an update list have float64 numbers ([AFloat]).
    [cloneValue] of the source is the identity on values without sharing, and an
    update list is decoded afresh for every document, so no value is shared
    between documents. *)

From S2P Require Import Prelude GoStrings World Shard Json Config Store Docjson Replication Search.

(** ** Ordered decoding *)

(** [omap.Set] of every member in turn: a repeated member keeps its first place
    and its last value. *)
Fixpoint ordered (v : json) : json :=
  match v with
  | JArr l => JArr (map ordered l)
  | JObj m => JObj (aset_all [] (map (fun kv => (fst kv, ordered (snd kv))) m))
  | _ => v
  end.

Definition decodeOrdered `{GoJSON} (data : string) : result json :=
  result_bind (Unmarshal data) (fun v => Ok (ordered v)).

Definition getString (m : fields) (key : string) : option string :=
  match aget m key with Some (JStr s) => Some s | _ => None end.

Definition getInt (m : fields) (key : string) : result (option Z) :=
  match aget m key with
  | None => Ok None
  | Some (JNum l) =>
      match Atoi l with Some z => Ok (Some z) | None => Err (errorf "must be an integer") end
  | Some _ => Err (errorf "must be a number")
  end.

Definition getArray (m : fields) (key : string) : option (list json) :=
  match aget m key with Some (JArr l) => Some l | _ => None end.

Definition getObject (m : fields) (key : string) : option fields :=
  match aget m key with Some (JObj o) => Some o | _ => None end.

Definition schemaBool (schema : option fields) (key : string) : bool :=
  match schema with
  | None => false
  | Some m => match aget m key with Some (JBool b) => b | _ => false end
  end.

(** ** Paths *)

Definition splitPath (p : string) : list string :=
  let trimmed := TrimPrefix p "/" in if trimmed =? "" then [] else Split trimmed "/".

Definition isAllDigits (s : string) : bool :=
  negb (s =? "") && forallb (fun r => in_range 48 r 57) (runes s).

Definition validatePathTarget (p : string) : result unit :=
  if negb (HasPrefix p "/") then Err (errorf "path must start with /")
  else match splitPath p with
       | [] => Err (errorf "path must not be the document root")
       | segments =>
           foldl (fun acc seg =>
             result_bind acc (fun _ =>
             if (seg =? "!") || (seg =? "$") || (seg =? "#")
             then Err (errorf "path must not target database-owned metadata field")
             else if isAllDigits seg
                  then Err (errorf "path segment looks like an array index")
                  else Ok tt)) (Ok tt) segments
       end.

Section migrate.
Context `{GoFloat}.

(** ** Update lists *)

Fixpoint toPlainValue (v : json) : any :=
  match v with
  | JNull => ANil
  | JBool b => ABool b
  | JStr s => AStr s
  | JNum l => AFloat (default float_zero (ParseFloat l))
  | JArr l => AArr (map toPlainValue l)
  | JObj m => AMap (map (fun kv => (fst kv, toPlainValue (snd kv))) m)
  end.

(** [UoValue] is [None] when [HasValue] is false. *)
Record UpdateOp := mkUpdateOp {
  UoOp : string;
  UoPath : string;
  UoFrom : string;
  UoSchema : option fields;
  UoValue : option any;
  UoFailover : any;
}.

Record UpdateSpec := mkUpdateSpec {
  UsFrom : Z;
  UsTo : option Z;
  UsNewVerID : string;
  UsUpdates : list UpdateOp;
}.

Definition supportedOps : list string :=
  ["add"; "import"; "remove"; "abandon"; "replace"; "move"; "copy"; "convert"].

Definition update_op (v : json) : result UpdateOp :=
  match v with
  | JObj m =>
      Ok (mkUpdateOp (default "" (getString m "op")) (default "" (getString m "path"))
            (default "" (getString m "from")) (getObject m "schema")
            (toPlainValue <$> aget m "value") (default ANil (toPlainValue <$> aget m "failover")))
  | _ => Err (errorf "updates must be objects")
  end.

Definition ParseUpdateSpec `{GoJSON} (raw : string) : result UpdateSpec :=
  result_bind (decodeOrdered raw) (fun decoded =>
  match decoded with
  | JObj root =>
      result_bind (getInt root "from") (fun from =>
      match from with
      | None => Err (errorf "from is required")
      | Some from =>
          result_bind (getInt root "to") (fun to =>
          match getString root "new_ver_id" with
          | None => Err (errorf "new_ver_id is required")
          | Some newVerID =>
              if newVerID =? "" then Err (errorf "new_ver_id is required")
              else match getArray root "updates" with
                   | None => Err (errorf "updates is required and must be an array")
                   | Some l =>
                       result_bind (result_map update_op l) (fun updates =>
                       Ok (mkUpdateSpec from to newVerID updates))
                   end
          end)
      end)
  | _ => Err (errorf "upgrade request must be a JSON object")
  end).

Definition upgrade_error (p msg : string) (actual : option json) : EError :=
  mkEError "invalidSchemaUpgrade" p msg None actual.

Definition check_target (p target missing : string) : list EError :=
  if target =? "" then [upgrade_error p missing None]
  else match validatePathTarget target with
       | Err e => [upgrade_error p (err_msg e) None]
       | Ok _ => []
       end.

Definition check_update (i : nat) (op : UpdateOp) : list EError :=
  let p := "/updates/" +:+ Itoa (Z.of_nat i) in
  if negb (containsString supportedOps (UoOp op)) then
    [upgrade_error (p +:+ "/op") "unsupported update operation" (Some (JStr (UoOp op)))]
  else
    (if (UoOp op =? "move") || (UoOp op =? "copy")
     then check_target (p +:+ "/from") (UoFrom op) "from is required for move/copy" else []) ++
    check_target (p +:+ "/path") (UoPath op) "path is required" ++
    (if ((UoOp op =? "add") || (UoOp op =? "import") || (UoOp op =? "convert")) &&
        bool_decide (UoSchema op = None)
     then [upgrade_error (p +:+ "/schema") ("schema object is required for " +:+ UoOp op) None]
     else []).

Fixpoint check_updates (i : nat) (ops : list UpdateOp) : list EError :=
  match ops with
  | [] => []
  | op :: ops' => check_update i op ++ check_updates (S i) ops'
  end.

(** [ulid_ok] is [ulid.ParseStrict] of the ULID library. *)
Definition ValidateSpec (ulid_ok : string -> bool) (s : UpdateSpec) (currentVersion : Z)
    : list EError :=
  (if (UsFrom s =? currentVersion)%Z then []
   else [mkEError "staleSchemaVersion" "/from"
           "Collection schema version is older or newer than the current database version."
           (Some (JNum (Itoa currentVersion))) (Some (JNum (Itoa (UsFrom s))))]) ++
  (match UsTo s with
   | Some to =>
       if (to =? UsFrom s + 1)%Z then []
       else [mkEError "invalidSchemaUpgrade" "/to"
               "Schema upgrades always advance by exactly one version."
               (Some (JNum (Itoa (UsFrom s + 1)))) (Some (JNum (Itoa to)))]
   | None => []
   end) ++
  (if ulid_ok (UsNewVerID s) then []
   else [upgrade_error "/new_ver_id" "new_ver_id must be a valid ULID-like ID string"
           (Some (JStr (UsNewVerID s)))]) ++
  (match UsUpdates s with
   | [] => [upgrade_error "/updates" "updates must be a non-empty array" None]
   | _ => []
   end) ++
  check_updates 0 (UsUpdates s).

(** ** Document pointers *)

Notation doc := (list (string * any)).

Fixpoint get_in (cur : any) (segments : list string) : option any :=
  match segments with
  | [] => Some cur
  | seg :: segs =>
      match cur with
      | AMap m => match aget m seg with Some v => get_in v segs | None => None end
      | _ => None
      end
  end.

Definition docPointerGet (d : doc) (p : string) : option any := get_in (AMap d) (splitPath p).

(** What is on the way and not an object is replaced by one. *)
Fixpoint set_in (m : doc) (segments : list string) (value : any) : doc :=
  match segments with
  | [] => m
  | [seg] => aset m seg value
  | seg :: segs =>
      let next := match aget m seg with Some (AMap next) => next | _ => [] end in
      aset m seg (AMap (set_in next segs value))
  end.

Definition docPointerSet (d : doc) (p : string) (value : any) : doc :=
  set_in d (splitPath p) value.

Fixpoint remove_in (m : doc) (segments : list string) : doc :=
  match segments with
  | [] => m
  | [seg] => adel m seg
  | seg :: segs =>
      match aget m seg with
      | Some (AMap next) => aset m seg (AMap (remove_in next segs))
      | _ => m
      end
  end.

Definition docPointerRemove (d : doc) (p : string) : doc := remove_in d (splitPath p).

(** ** Values *)

Definition float_of_nat (n : nat) : float64 :=
  default float_zero (ParseFloat (Itoa (Z.of_nat n))).

Definition isEmptyOrNilValue (v : any) : bool :=
  match v with
  | ANil => true
  | ABool b => negb b
  | AStr s => s =? ""
  | AFloat f => float_eqb f float_zero
  | AArr l => (length l =? 0)%nat
  | AMap m => (length m =? 0)%nat
  | ANumber _ => false
  end.

Definition stringifyValue `{GoJSON} (v : any) : string :=
  match v with
  | ANil => "null"
  | AStr s => s
  | ABool true => "true"
  | ABool false => "false"
  | AFloat f => FormatFloat f
  | _ => Marshal (map_order (go_encode v))
  end.

Fixpoint span_digits (s : string) : string * string :=
  match s with
  | String c s' =>
      if is_digit c then let '(d, r) := span_digits s' in (String c d, r) else ("", s)
  | EmptyString => ("", s)
  end.

Definition parseLeadingNumber (s : string) : float64 :=
  let '(sign, s1) :=
    match s with
    | String c s' => if Ascii.eqb c "+" || Ascii.eqb c "-" then (String c "", s') else ("", s)
    | EmptyString => ("", s)
    end in
  let '(whole, s2) := span_digits s1 in
  let '(point, frac) :=
    match s2 with
    | String c s' => if Ascii.eqb c "." then (".", fst (span_digits s')) else ("", "")
    | EmptyString => ("", "")
    end in
  if (whole =? "") && (frac =? "") then float_zero
  else default float_zero (ParseFloat (sign +:+ whole +:+ point +:+ frac)).

Definition convertKind `{GoJSON} (v : any) (newKind : string) : any :=
  if newKind =? "boolean" then ABool (negb (isEmptyOrNilValue v))
  else if newKind =? "string" then AStr (stringifyValue v)
  else if newKind =? "number" then
    AFloat (match v with
            | ABool true => float_of_nat 1
            | ABool false => float_zero
            | AStr s => parseLeadingNumber s
            | AArr l => float_of_nat (length l)
            | AMap m => float_of_nat (length m)
            | AFloat f => f
            | _ => float_zero
            end)
  else if newKind =? "array" then match v with AArr _ => v | _ => AArr [v] end
  else if newKind =? "object" then match v with AMap _ => v | _ => AMap [] end
  else v.

Definition emptyValueForKind (kind : string) : any :=
  if kind =? "string" then AStr ""
  else if kind =? "number" then AFloat float_zero
  else if kind =? "boolean" then ABool false
  else if kind =? "array" then AArr []
  else if kind =? "object" then AMap []
  else ANil.

Definition schema_kind (schema : option fields) : option string :=
  match schema with Some m => getString m "kind" | None => None end.

Definition schemaKindMatches (schema : option fields) (value : any) : bool :=
  match schema_kind schema with
  | None => true
  | Some kind =>
      if kind =? "string" then match value with AStr _ => true | _ => false end
      else if kind =? "number" then match value with AFloat _ => true | _ => false end
      else if kind =? "boolean" then match value with ABool _ => true | _ => false end
      else if kind =? "array" then match value with AArr _ => true | _ => false end
      else if kind =? "object" then match value with AMap _ => true | _ => false end
      else true
  end.

(** ** Operations on a document *)

Definition selectFillValue (op : UpdateOp) : option any :=
  match UoValue op with
  | Some v => Some v
  | None =>
      match UoSchema op with
      | None => None
      | Some schema =>
          match aget schema "default" with
          | Some v => Some (toPlainValue v)
          | None =>
              match UoFailover op with
              | ANil =>
                  if negb (schemaBool (Some schema) "required") then None
                  else if schemaBool (Some schema) "nullable" then Some ANil
                  else Some (emptyValueForKind (default "" (getString schema "kind")))
              | failover => Some failover
              end
          end
      end
  end.

Definition fill (d : doc) (op : UpdateOp) : doc :=
  match selectFillValue op with
  | None => docPointerRemove d (UoPath op)
  | Some v => docPointerSet d (UoPath op) v
  end.

Definition applyDocAdd (d : doc) (op : UpdateOp) : doc :=
  if UoOp op =? "import" then
    match docPointerGet d (UoPath op) with
    | Some existing =>
        if schemaKindMatches (UoSchema op) existing then d
        else fill (docPointerRemove d (UoPath op)) op
    | None => fill d op
    end
  else fill d op.

Definition applyDocReplace (d : doc) (op : UpdateOp) : result doc :=
  match UoValue op with
  | None => Err (errorf "replace requires a value")
  | Some v => Ok (docPointerSet d (UoPath op) v)
  end.

Definition applyDocMove (d : doc) (op : UpdateOp) : doc :=
  match docPointerGet d (UoFrom op) with
  | None => d
  | Some v => docPointerSet (docPointerRemove d (UoFrom op)) (UoPath op) v
  end.

Definition applyDocCopy (d : doc) (op : UpdateOp) : doc :=
  match docPointerGet d (UoFrom op) with
  | None => d
  | Some v => docPointerSet d (UoPath op) v
  end.

Definition applyDocConvert `{GoJSON} (d : doc) (op : UpdateOp) : doc :=
  match UoValue op with
  | Some v => docPointerSet d (UoPath op) v
  | None =>
      match docPointerGet d (UoPath op) with
      | None =>
          match selectFillValue op with
          | Some v => docPointerSet d (UoPath op) v
          | None => d
          end
      | Some current =>
          docPointerSet d (UoPath op)
            (convertKind current (default "" (schema_kind (UoSchema op))))
      end
  end.

Definition applyDocOp `{GoJSON} (d : doc) (op : UpdateOp) : result doc :=
  if (UoOp op =? "add") || (UoOp op =? "import") then Ok (applyDocAdd d op)
  else if UoOp op =? "remove" then Ok (docPointerRemove d (UoPath op))
  else if UoOp op =? "abandon" then Ok d
  else if UoOp op =? "replace" then applyDocReplace d op
  else if UoOp op =? "move" then Ok (applyDocMove d op)
  else if UoOp op =? "copy" then Ok (applyDocCopy d op)
  else if UoOp op =? "convert" then Ok (applyDocConvert d op)
  else Err (errorf "unsupported op").

Fixpoint apply_updates `{GoJSON} (d : doc) (ops : list UpdateOp) : result doc :=
  match ops with
  | [] => Ok d
  | op :: ops' => result_bind (applyDocOp d op) (fun d' => apply_updates d' ops')
  end.

Definition ApplyToDocument `{GoJSON} (d : doc) (spec : UpdateSpec) : result doc :=
  apply_updates d (UsUpdates spec).

(** ** Versions *)

(** The text after the last colon, when there is one and it is not empty. *)
Definition DocVersion (d : doc) : option Z :=
  let marker := match aget d "$" with Some (AStr s) => s | _ => "" end in
  match last (Split marker ":") with
  | Some v => if negb (Contains marker ":") || (v =? "") then None else Atoi v
  | None => None
  end.

Definition NeedsMigration (cfg : option Config) (collection : string) (d : option doc) : bool :=
  match cfg, d with
  | Some c, Some d =>
      match DocVersion d with
      | None => false
      | Some current => (current <? SchemaVersion (Some c) collection)%Z
      end
  | _, _ => false
  end.

(** The update lists of the versions [v], [v + 1], ..., [steps] of them. *)
Fixpoint migrate_steps `{GoJSON} (history : list (Z * string)) (v : Z) (steps : nat) (d : doc)
    : result doc :=
  match steps with
  | O => Ok d
  | S n =>
      match zget history v with
      | None => Err (errorf "missing persisted update list")
      | Some rawSpec =>
          result_bind (ParseUpdateSpec rawSpec) (fun spec =>
          result_bind (ApplyToDocument d spec) (fun d' => migrate_steps history (v + 1) n d'))
      end
  end.

(** [Ok None] when the document is current. *)
Definition MigrateDocument `{GoJSON} (cfg : Config) (collection : string) (d : doc)
    (targetVersion : Z) : result (option doc) :=
  match DocVersion d with
  | None => Err (errorf "document has no valid $ schema marker to migrate from")
  | Some current =>
      if (targetVersion <=? current)%Z then Ok None
      else
        let history := default [] (aget (SchemaUpdateHistory cfg) collection) in
        result_bind (migrate_steps history (current + 1) (Z.to_nat (targetVersion - current)) d)
          (fun d' => Ok (Some (aset d' "$" (AStr (collection +:+ ":" +:+ Itoa targetVersion)))))
  end.
End migrate.

Notation doc := (list (string * any)).

(** ** The stored document *)

Section stored.
Context `{Env} `{OJSON} `{GoJSON} `{GoFloat}.

Definition as_doc (m : fields) : doc := map (fun kv => (fst kv, native (snd kv))) m.
Definition as_fields (d : doc) : fields := map (fun kv => (fst kv, go_encode (snd kv))) d.

Definition ApplyToStoredDocument (dataDir : path) (cfg : Config) (collection id : string)
    : M (result bool) :=
  let p := DocumentPath dataDir collection id in
  r ← ReadDocumentJSON p;
  match r with
  | Err e => if is_not_exist e then mret (Ok false) else mret (Err e)
  | Ok m =>
      if negb (NeedsMigration (Some cfg) collection (Some (as_doc m))) then mret (Ok false)
      else
        match MigrateDocument cfg collection (as_doc m) (SchemaVersion (Some cfg) collection) with
        | Err e => mret (Err e)
        | Ok migrated =>
            version <-? NewID;
            let d := aset (default (as_doc m) migrated) "#" (AStr version) in
            match (match aget (Schemas cfg) collection with
                   | Some schemaRaw => CanonicalizeMap schemaRaw (as_fields d)
                   | None => EncodeMap (as_fields d)
                   end) with
            | Err e => mret (Err e)
            | Ok docBytes =>
                PreservePreviousIfAbsent dataDir collection id ;?
                WriteDocumentJSONVerified p docBytes ;?
                EnqueueChange dataDir collection id "patch" ;?
                mret (Ok true)
            end
        end
  end.

(** ** The background agent *)

Definition document_name (e : dir_entry) : option string :=
  let '(name, is_dir) := e in
  if is_dir || HasPrefix name "." || negb (HasSuffix name ".json") then None
  else Some (TrimSuffix name ".json").

Fixpoint stale_among (dataDir : path) (collection : string) (cfg : Config) (ids : list string)
    : M (list string) :=
  match ids with
  | [] => mret []
  | id :: ids' =>
      r ← ReadDocumentJSON (DocumentPath dataDir collection id);
      rest ← stale_among dataDir collection cfg ids';
      match r with
      | Err _ => mret rest
      | Ok m => mret (if NeedsMigration (Some cfg) collection (Some (as_doc m))
                      then id :: rest else rest)
      end
  end.

Definition staleDocumentIDs (dataDir : path) (collection : string) (cfg : Config)
    : M (result (list string)) :=
  r ← ReadDir (CollectionDir dataDir collection);
  match r with
  | Err e => if is_not_exist e then mret (Ok []) else mret (Err e)
  | Ok entries =>
      ids ← stale_among dataDir collection cfg (omap document_name entries);
      mret (Ok ids)
  end.

(** The first document that is migrated or fails ends the run. *)
Fixpoint upgrade_ids (dataDir : path) (cfg : Config) (busy : string -> bool)
    (collection : string) (ids : list string) : M (option (option error)) :=
  match ids with
  | [] => mret None
  | id :: ids' =>
      if busy (collection +:+ "/" +:+ id) then upgrade_ids dataDir cfg busy collection ids'
      else
        r ← ApplyToStoredDocument dataDir cfg collection id;
        match r with
        | Err e => mret (Some (Some e))
        | Ok true => mret (Some None)
        | Ok false => upgrade_ids dataDir cfg busy collection ids'
        end
  end.

Fixpoint upgrade_collections (dataDir : path) (cfg : Config) (busy : string -> bool)
    (collections : list string) : M (option (option error)) :=
  match collections with
  | [] => mret None
  | collection :: cs =>
      if (SchemaVersion (Some cfg) collection =? 0)%Z
      then upgrade_collections dataDir cfg busy cs
      else
        r ← staleDocumentIDs dataDir collection cfg;
        match r with
        | Err _ => upgrade_collections dataDir cfg busy cs
        | Ok ids =>
            r ← upgrade_ids dataDir cfg busy collection ids;
            match r with
            | Some e => mret (Some e)
            | None => upgrade_collections dataDir cfg busy cs
            end
        end
  end.

Definition UpgradeRunOnce (dataDir : path) (cfg : option Config) (busy : string -> bool)
    : M (bool * option error) :=
  match cfg with
  | None => mret (false, None)
  | Some cfg =>
      r ← ListCollections dataDir;
      match r with
      | Err e => mret (false, Some e)
      | Ok collections =>
          r ← upgrade_collections dataDir cfg busy collections;
          match r with
          | Some e => mret (true, e)
          | None => mret (false, None)
          end
      end
  end.
End stored.
