(* ===== verification/SearchSpec.v ===== *)
(** * Precompiled searches: the buckets are the answers

    A document is filed under the bucket paths [EvaluateDocument] gives it, and a
    query reads the one bucket [ResolveQueryPath] gives.  The theorems of this
    file relate the two: a query reads the bucket of exactly the documents that
    satisfy the clauses of the definition, different buckets are different files,
    and a bucket's file stays sorted and free of duplicates. *)

From S2P Require Import Prelude GoStrings World Shard Json Config Store Replication Search.

Section buckets.
Context `{FL : GoFloatLaws}.

(** ** Encoded segments *)

Lemma hex2_inj a b :
  (0 <= a < 256)%Z -> (0 <= b < 256)%Z -> hex2 a = hex2 b -> a = b.
Proof.
  intros Ha Hb E. destruct (hex2_facts a Ha) as [_ Pa], (hex2_facts b Hb) as [_ Pb]. congruence.
Qed.

Lemma hex2_length a : String.length (hex2 a) = 2%nat.
Proof. reflexivity. Qed.

Lemma hex_bytes_inj s t : hex_bytes s = hex_bytes t -> s = t.
Proof.
  revert t. induction s as [|a s IH]; intros [|b t] E; try done.
  change (hex2 (byte_of a) +:+ hex_bytes s = hex2 (byte_of b) +:+ hex_bytes t) in E.
  apply str_app_inv_length in E as [E1 E2]; [|by rewrite !hex2_length].
  apply hex2_inj in E1; [|apply byte_of_bounds..]. apply byte_of_inj in E1 as ->.
  f_equal. auto.
Qed.

Definition upper_hex (c : ascii) : bool :=
  in_range 48 (byte_of c) 57 || in_range 65 (byte_of c) 70.

Lemma hex_bytes_chars s : str_all upper_hex (hex_bytes s) = true.
Proof.
  induction s as [|a s IH]; [done|].
  change (str_all upper_hex (hex2 (byte_of a) +:+ hex_bytes s) = true). rewrite str_all_app, IH.
  rewrite (forallb_bytes (fun z => str_all upper_hex (hex2 z))); [done|by vm_compute|].
  apply byte_of_bounds.
Qed.

(** The segment of a string: two different strings, and a string and a literal
    word of the encoding, never share one. *)
Lemma EncodeStringValue_not_word s w :
  w ∈ ["true"; "false"; "null"] -> EncodeStringValue s <> w.
Proof.
  unfold EncodeStringValue. intros Hw E. destruct (s =? ""); [set_solver|].
  pose proof (hex_bytes_chars s) as Hc. rewrite E in Hc.
  rewrite !elem_of_cons in Hw. destruct Hw as [->|[->|[->|?%elem_of_nil]]]; done.
Qed.

Lemma EncodeStringValue_inj s t : EncodeStringValue s = EncodeStringValue t -> s = t.
Proof.
  unfold EncodeStringValue. intros E.
  destruct (s =? "") eqn:Es, (t =? "") eqn:Et; boolprop; subst; try done.
  - pose proof (hex_bytes_chars t) as Hc. by rewrite <-E in Hc.
  - pose proof (hex_bytes_chars s) as Hc. by rewrite E in Hc.
  - by apply hex_bytes_inj.
Qed.

Lemma EncodeTruth_inj a b : EncodeTruth a = EncodeTruth b <-> a = b.
Proof. by destruct a, b. Qed.

Lemma EncodeTruth_word b : EncodeTruth b ∈ ["true"; "false"; "null"].
Proof. destruct b; set_solver. Qed.

(** ** What a clause means

    The meaning of a clause for a document and the variables of a query, without
    buckets. *)

Definition same_value (a b : option any) : bool :=
  match a, b with
  | Some (AStr x), Some (AStr y) => x =? y
  | Some (ABool x), Some (ABool y) => Bool.eqb x y
  | _, _ => false
  end.

Definition is_truth (vars : list (string * any)) (name : string) (b : bool) : bool :=
  match lookupVar vars name with Some (ABool x) => Bool.eqb x b | _ => false end.

(** Equality of scalars of one kind. *)
Definition scalar_eq (a b : any) : bool :=
  match inferScalarKind b with Some kind => ScalarsEqual kind a b | None => false end.

Definition array_at (doc : list (string * any)) (field : string) : option (list any) :=
  match PointerGet doc field with Some (AArr l) => Some l | _ => None end.

Definition equals_holds (c : Clause) (doc vars : list (string * any)) : bool :=
  let val := PointerGet doc (ClField c) in
  match IsVariable (ClValue c) with
  | Some name => same_value val (lookupVar vars name)
  | None =>
      let matches := match ClValue c with
                     | ANil => is_nil val
                     | v => same_value val (Some v)
                     end in
      if ClTruth c =? "" then matches else is_truth vars (ClTruth c) matches
  end.

Definition in_holds (c : Clause) (doc vars : list (string * any)) : bool :=
  match PointerGet doc (ClField c), lookupVar vars (ClSelect c) with
  | Some (AStr x), Some (AStr y) => x =? y
  | _, _ => false
  end.

Definition exists_holds (c : Clause) (doc vars : list (string * any)) : bool :=
  let val := PointerGet doc (ClField c) in
  is_truth vars (any_string (ClValue c))
    (bool_decide (is_Some val) && negb (ClHideNulls c && is_nil val)).

Definition contains_holds (c : Clause) (doc vars : list (string * any)) : bool :=
  match array_at doc (ClField c) with
  | None => false
  | Some arr =>
      match IsVariable (ClValue c) with
      | Some name =>
          match lookupVar vars name with
          | Some v => existsb (fun item => scalar_eq item v) arr
          | None => false
          end
      | None => is_truth vars (ClTruth c) (existsb (fun item => scalar_eq item (ClValue c)) arr)
      end
  end.

Definition holds (c : Clause) (doc vars : list (string * any)) : bool :=
  if ClOp c =? "equals" then equals_holds c doc vars
  else if ClOp c =? "in" then in_holds c doc vars
  else if ClOp c =? "exists" then exists_holds c doc vars
  else contains_holds c doc vars.

(** An array item and a query value whose segments can be compared: of one kind,
    as a schema demands of the items of an array, and, if numbers, not the two
    zeroes, which are equal and print differently. *)
Definition comparable (item v : any) : Prop :=
  inferScalarKind item = inferScalarKind v /\
  (inferScalarKind v = Some KindNumber -> forall a b,
     asFloat64 item = Some a -> asFloat64 v = Some b ->
     finite a /\ finite b /\ (float_eqb a b = true -> FormatFloat a = FormatFloat b)).

Definition typed_query (c : Clause) (doc vars : list (string * any)) : Prop :=
  ClOp c = "contains" -> forall name v arr,
  IsVariable (ClValue c) = Some name -> lookupVar vars name = Some v ->
  array_at doc (ClField c) = Some arr -> Forall (fun item => comparable item v) arr.

(** ** One clause *)

(** The segment a clause asks for, and the outcome of the document, agree. *)
Record clause_agrees (q : option string) (out : clauseOutcome) (h : bool) : Prop := {
  ca_excluded : included out = false -> h = false;
  ca_filter : included out = true -> (q = None <-> contributes out = false);
  ca_filter_holds : included out = true -> q = None -> h = true;
  ca_bucket : forall s, included out = true -> q = Some s ->
    (s ∈ map fst (options out) <-> h = true);
}.

Lemma agrees_excluded q h : h = false -> clause_agrees q excluded h.
Proof. by split. Qed.

Lemma agrees_segment q seg key h :
  (seg = q <-> h = true) -> clause_agrees (Some q) (singleSegment seg key true true) h.
Proof.
  intros Hq. split; try done. simpl. intros s _ [= <-]. rewrite list_elem_of_singleton.
  rewrite <-Hq. naive_solver.
Qed.

Lemma agrees_truth vars name b q :
  truth_query vars name = Ok q -> clause_agrees q (truth_segment b) (is_truth vars name b).
Proof.
  unfold truth_query, lookupBoolVar, is_truth. intros E. repeat split_match_in E; try done.
  simpl in E. injection E as <-. apply agrees_segment. rewrite EncodeTruth_inj, eqb_true_iff.
  naive_solver.
Qed.


(** The segment of a string or boolean value of a query. *)
Definition value_segment (v : any) : string :=
  match v with
  | AStr s => EncodeStringValue s
  | ABool b => EncodeTruth b
  | _ => ""
  end.

Definition plain_value (v : any) : bool :=
  match v with
  | AStr s => negb (max_value_runes <? RuneCountInString s)%nat
  | ABool _ => true
  | _ => false
  end.

Lemma value_segment_inj v w :
  plain_value v = true -> plain_value w = true ->
  value_segment v = value_segment w <-> same_value (Some v) (Some w) = true.
Proof.
  destruct v, w; try done; simpl; intros _ _.
  - by rewrite EncodeTruth_inj, eqb_true_iff.
  - split; [|done]. intros E. by destruct (EncodeStringValue_not_word s _ (EncodeTruth_word b)).
  - split; [|done]. intros E. by destruct (EncodeStringValue_not_word s _ (EncodeTruth_word b)).
  - rewrite String.eqb_eq. split; [apply EncodeStringValue_inj|congruence].
Qed.

Lemma same_value_plain v w :
  plain_value w = true -> same_value v (Some w) = true ->
  exists v', v = Some v' /\ plain_value v' = true.
Proof.
  intros Hw Hs. destruct v as [v|]; [|done]. exists v. split; [done|].
  destruct v, w; try done. simpl in Hs. boolprop. by subst.
Qed.

Lemma agrees_value v w key :
  plain_value v = true -> plain_value w = true ->
  clause_agrees (Some (value_segment w)) (singleSegment (value_segment v) key true true)
    (same_value (Some v) (Some w)).
Proof. intros Hv Hw. apply agrees_segment. by apply value_segment_inj. Qed.

Lemma equals_variable_agrees c doc vars name q out :
  IsVariable (ClValue c) = Some name ->
  resolveEqualsQuery c vars = Ok q -> evaluateEquals c doc = Ok out ->
  clause_agrees q out (same_value (PointerGet doc (ClField c)) (lookupVar vars name)).
Proof.
  unfold resolveEqualsQuery, evaluateEquals. intros -> Hq Ho.
  assert (exists w, lookupVar vars name = Some w /\ plain_value w = true /\
            q = Some (value_segment w)) as (w & -> & Hw & ->).
  { destruct (lookupVar vars name) as [w|]; [|done]. exists w. split; [done|].
    destruct w; simpl in *; try done; repeat split_match_in Hq; simplify_eq; done. }
  destruct (PointerGet doc (ClField c)) as [v|]; [|by simplify_eq; apply agrees_excluded].
  destruct (plain_value v) eqn:Hv.
  - assert (out = singleSegment (value_segment v) v true true) as ->; [|by apply agrees_value].
    destruct v; simpl in *; try done; [by simplify_eq|].
    apply negb_true_iff in Hv. rewrite Hv in Ho. by simplify_eq.
  - assert (out = excluded \/ exists e, Ok out = Err e) as [->|[e ?]]; [|apply agrees_excluded|done].
    + destruct v; simpl in *; try done; try (by left; simplify_eq); try (right; eauto; fail).
      apply negb_false_iff in Hv. rewrite Hv in Ho. left. by simplify_eq.
    + destruct (same_value (Some v) (Some w)) eqn:Hs; [|done].
      apply same_value_plain in Hs as (v' & [= <-] & Hv'); [congruence|done].
Qed.

Lemma equals_agrees c doc vars q out :
  resolveEqualsQuery c vars = Ok q -> evaluateEquals c doc = Ok out ->
  clause_agrees q out (equals_holds c doc vars).
Proof.
  intros Hq Ho. unfold equals_holds. destruct (IsVariable (ClValue c)) as [name|] eqn:Hvar.
  { by eapply equals_variable_agrees. }
  unfold resolveEqualsQuery, evaluateEquals in *. rewrite Hvar in Hq, Ho.
  assert (forall m, (if ClTruth c <>? "" then Ok (truth_segment m)
                     else Ok (singleSegment "" ANil false m)) = Ok out ->
            (if ClTruth c =? "" then Ok None else truth_query vars (ClTruth c)) = Ok q ->
            clause_agrees q out (if ClTruth c =? "" then m else is_truth vars (ClTruth c) m))
    as Hfin.
  { intros m Hm Hq'. destruct (ClTruth c =? ""); simpl in Hm; simplify_eq.
    - by destruct m; split.
    - by apply agrees_truth. }
  destruct (ClValue c) as [|b|s| | | |]; try done.
  - destruct (ClTruth c =? ""); simplify_eq. by apply agrees_truth.
  - apply Hfin in Ho; [|done]. simpl. by destruct (PointerGet doc (ClField c)) as [[]|].
  - apply Hfin in Ho; [|done]. simpl. by destruct (PointerGet doc (ClField c)) as [[]|].
Qed.

Lemma in_agrees c doc vars q out :
  resolveInQuery c vars = Ok q -> evaluateIn c doc = Ok out ->
  clause_agrees q out (in_holds c doc vars).
Proof.
  unfold resolveInQuery, evaluateIn, in_holds. intros Hq Ho.
  destruct (ClSelect c =? ""); [done|].
  destruct (ClValue c) as [| | | | |values|]; try done.
  destruct (lookupVar vars (ClSelect c)) as [[| |t| | | |]|]; try done.
  destruct (existsb (is_string t) values) eqn:Ht; [|done]. simplify_eq.
  destruct (PointerGet doc (ClField c)) as [[| |s| | | |]|];
    try (by simplify_eq; apply agrees_excluded).
  destruct (existsb (is_string s) values) eqn:Hs; simplify_eq.
  - apply agrees_segment. rewrite String.eqb_eq.
    split; [apply EncodeStringValue_inj|congruence].
  - apply agrees_excluded, String.eqb_neq. congruence.
Qed.

Lemma IsVariable_string v name : IsVariable v = Some name -> any_string v = name.
Proof. destruct v; simpl; try done. by destruct (_ || _); intros [= ->]. Qed.

Lemma exists_agrees c doc vars q out :
  resolveExistsQuery c vars = Ok q -> evaluateExists c doc = Ok out ->
  clause_agrees q out (exists_holds c doc vars).
Proof.
  unfold resolveExistsQuery, evaluateExists, exists_holds. intros Hq [= <-].
  destruct (IsVariable (ClValue c)) as [name|] eqn:Hvar; [|done].
  rewrite (IsVariable_string _ _ Hvar).
  replace (bool_decide _ && _) with
    (if ClHideNulls c && is_nil (PointerGet doc (ClField c)) then false
     else bool_decide (is_Some (PointerGet doc (ClField c)))); [by apply agrees_truth|].
  destruct (ClHideNulls c && _); [by rewrite andb_false_r|by rewrite andb_true_r].
Qed.

Lemma contains_options_spec seen items s :
  s ∈ map fst (contains_options seen items) <->
  s ∉ seen /\ exists item key, item ∈ items /\ item_option item = Some (s, key).
Proof.
  revert seen. induction items as [|item items IH]; intros seen; simpl.
  { split; [by intros ?%elem_of_nil|]. intros (_ & item & key & ?%elem_of_nil & _). done. }
  assert ((exists item' key, item' ∈ item :: items /\ item_option item' = Some (s, key)) <->
          (exists item' key, item' ∈ items /\ item_option item' = Some (s, key)) \/
          (exists key, item_option item = Some (s, key))) as ->.
  { setoid_rewrite elem_of_cons. naive_solver. }
  destruct (item_option item) as [[seg key]|] eqn:Hitem.
  - destruct (containsString seen seg) eqn:Hseen.
    + rewrite IH. assert (seg ∈ seen).
      { unfold containsString in Hseen. apply existsb_exists in Hseen as (x & Hx & Hxs).
        boolprop. subst. by apply list_elem_of_In. }
      split; [naive_solver|]. intros [Hs [?|[k [= -> ->]]]]; [auto|done].
    + simpl. rewrite elem_of_cons, IH, not_elem_of_cons.
      assert (seg ∉ seen).
      { intros Hin. unfold containsString in Hseen.
        assert (existsb (fun v => v =? seg) seen = true); [|congruence].
        apply existsb_exists. exists seg. split; [by apply list_elem_of_In|apply String.eqb_refl]. }
      split.
      * intros [->|[[Hne Hs] Hex]]; [split; [done|]; right; eauto|auto].
      * intros [Hs [Hex|[k [= -> ->]]]]; [|by left].
        destruct (decide (s = seg)) as [->|Hne]; [by left|right; auto].
  - rewrite IH. naive_solver.
Qed.

Lemma item_option_kind v seg key :
  item_option v = Some (seg, key) ->
  exists kind, inferScalarKind v = Some kind /\ EncodeScalarByKind kind v = Ok seg.
Proof.
  unfold item_option. intros E. destruct (inferScalarKind v) as [kind|]; [|done].
  exists kind. split; [done|]. repeat split_match_in E; simplify_eq; done.
Qed.

(** Items of one kind share a segment when they are equal scalars. *)
Lemma comparable_segment item v seg key :
  comparable item v -> item_option v = Some (seg, key) ->
  (exists k, item_option item = Some (seg, k)) <-> scalar_eq item v = true.
Proof.
  intros [Hk Hn] Hv. pose proof (item_option_kind _ _ _ Hv) as (kind & Ek & Es).
  unfold scalar_eq. rewrite Ek in *. split.
  - intros [k Hi]. pose proof (item_option_kind _ _ _ Hi) as (kind' & Ek' & Es').
    rewrite Hk in Ek'. injection Ek' as <-.
    destruct kind; simpl in *; try done.
    + destruct item, v; try done. injection Es as <-. injection Es' as ->%EncodeStringValue_inj.
      apply String.eqb_refl.
    + unfold EncodeScalarNumber in Es, Es'.
      destruct (asFloat64 item) as [a|] eqn:Ea, (asFloat64 v) as [b|] eqn:Eb; simplify_eq.
      destruct (Hn eq_refl a b eq_refl eq_refl) as (Fa & Fb & _).
      by apply format_eq.
    + destruct item, v; try done. injection Es as <-. injection Es' as ->%EncodeTruth_inj.
      apply eqb_reflx.
    + by destruct item, v.
  - intros He. destruct kind; try done; simpl in He.
    + destruct item, v; try done. boolprop. subst. eauto.
    + destruct (asFloat64 item) as [a|] eqn:Ea, (asFloat64 v) as [b|] eqn:Eb; try done.
      destruct (Hn eq_refl a b eq_refl eq_refl) as (Fa & Fb & Hf).
      unfold item_option. rewrite Hk. simpl. simpl in Es. unfold EncodeScalarNumber in *.
      rewrite Ea. rewrite Eb in Es. injection Es as <-. rewrite Hf by done. eauto.
    + destruct item as [|x| | | | |], v as [|y| | | | |]; try done.
      apply eqb_true_iff in He as ->. eauto.
    + destruct item, v; try done. eauto.
Qed.

Lemma contains_variable_agrees c vars name v arr q :
  IsVariable (ClValue c) = Some name -> lookupVar vars name = Some v ->
  Forall (fun item => comparable item v) arr -> resolveContainsQuery c vars = Ok q ->
  exists seg, q = Some seg /\
    (seg ∈ map fst (contains_options [] arr) <-> existsb (fun item => scalar_eq item v) arr = true).
Proof.
  unfold resolveContainsQuery. intros -> -> Hall Hq.
  assert (exists seg key, q = Some seg /\ item_option v = Some (seg, key)) as (seg & key & -> & Hv).
  { unfold item_option. destruct (inferScalarKind v) as [kind|]; [|done].
    destruct (bool_decide _ && _); [done|].
    destruct (EncodeScalarByKind kind v) as [seg|]; [|done]. simpl in Hq. simplify_eq. eauto. }
  exists seg. split; [done|]. rewrite contains_options_spec, existsb_exists. split.
  - intros (_ & item & k & Hin & Hi). exists item. split; [by apply list_elem_of_In|].
    rewrite Forall_forall in Hall. apply (comparable_segment item v seg key); eauto.
  - intros (item & Hin%list_elem_of_In & He). split; [by intros ?%elem_of_nil|].
    rewrite Forall_forall in Hall.
    apply (comparable_segment item v seg key) in He as [k Hi]; eauto.
Qed.

Lemma contains_agrees c doc vars q out :
  ClOp c = "contains" -> typed_query c doc vars ->
  resolveContainsQuery c vars = Ok q -> evaluateContains c doc = Ok out ->
  clause_agrees q out (contains_holds c doc vars).
Proof.
  intros Hop Ht Hq Ho. specialize (Ht Hop). unfold evaluateContains, contains_holds, array_at in *.
  destruct (PointerGet doc (ClField c)) as [[| | | | |arr|]|];
    try (by simplify_eq; apply agrees_excluded).
  destruct (IsVariable (ClValue c)) as [name|] eqn:Hvar.
  - destruct (lookupVar vars name) as [v|] eqn:Hv.
    + destruct (contains_variable_agrees c vars name v arr q) as (seg & -> & Hseg); eauto.
      destruct (contains_options [] arr) as [|o os] eqn:Eo; simplify_eq.
      * apply agrees_excluded. apply not_true_iff_false. rewrite <-Hseg.
        by intros ?%elem_of_nil.
      * split; try done. by intros s _ [= <-].
    + unfold resolveContainsQuery in Hq. rewrite Hvar, Hv in Hq. done.
  - unfold resolveContainsQuery in Hq. rewrite Hvar in Hq. unfold scalar_eq.
    destruct (inferScalarKind (ClValue c)) as [kind|]; [|done].
    destruct (ClTruth c =? ""); [done|]. simplify_eq. by apply agrees_truth.
Qed.

Lemma clause_agree c doc vars q out :
  typed_query c doc vars -> resolveClauseQuery c vars = Ok q -> evaluateClause c doc = Ok out ->
  clause_agrees q out (holds c doc vars).
Proof.
  unfold resolveClauseQuery, evaluateClause, holds. intros Ht Hq Ho.
  destruct (ClOp c =? "equals"); [by apply equals_agrees|].
  destruct (ClOp c =? "in"); [by apply in_agrees|].
  destruct (ClOp c =? "exists"); [by apply exists_agrees|].
  destruct (ClOp c =? "contains") eqn:E; [|done]. boolprop. by apply contains_agrees.
Qed.

(** ** All clauses *)

(** The segment lists that take one option of every contributing clause. *)
Fixpoint picks (outs : list clauseOutcome) (segs : list string) : Prop :=
  match outs with
  | [] => segs = []
  | o :: outs' =>
      if contributes o
      then exists s segs', segs = s :: segs' /\ s ∈ map fst (options o) /\ picks outs' segs'
      else picks outs' segs
  end.

Lemma extend_prefixes_segments cur opts segs :
  segs ∈ map Segments (extend_prefixes cur opts) <->
  exists p s, p ∈ map Segments cur /\ s ∈ map fst opts /\ segs = p ++ [s].
Proof.
  unfold extend_prefixes. rewrite list_elem_of_fmap. setoid_rewrite list_elem_of_In.
  setoid_rewrite in_flat_map. setoid_rewrite in_map_iff. split.
  - intros (r & -> & p & Hp & o & <- & Ho). exists (Segments p), (fst o).
    split_and!; [by exists p|by exists o|done].
  - intros (p & s & (p' & <- & Hp) & (o & <- & Ho) & ->).
    exists (mkEval (Segments p' ++ [fst o]) (Key p' ++ [snd o])). split; [done|]. eauto.
Qed.

Lemma expand_from_segments cur outs segs :
  segs ∈ map Segments (expand_from cur outs) <->
  exists p rest, p ∈ map Segments cur /\ picks outs rest /\ segs = p ++ rest.
Proof.
  revert cur segs. induction outs as [|o outs IH]; intros cur segs; simpl.
  - split.
    + intros Hs. exists segs, []. by rewrite app_nil_r.
    + intros (p & rest & Hp & -> & ->). by rewrite app_nil_r.
  - destruct (contributes o); simpl; [|apply IH].
    destruct (options o) as [|o1 os] eqn:Eo.
    + split; [by intros ?%elem_of_nil|].
      by intros (p & rest & _ & (s & segs' & _ & ?%elem_of_nil & _) & _).
    + rewrite IH. setoid_rewrite extend_prefixes_segments. split.
      * intros (p & rest & (p0 & s & Hp0 & Hs & ->) & Hr & ->).
        exists p0, (s :: rest). rewrite <-app_assoc. split_and!; eauto.
      * intros (p & rest & Hp & (s & segs' & -> & Hs & Hr) & ->).
        exists (p ++ [s]), segs'. rewrite <-app_assoc. split_and!; eauto.
Qed.

Lemma clauses_agree cs doc vars segs r :
  Forall (fun c => typed_query c doc vars) cs ->
  resolve_clauses cs vars = Ok segs -> evaluate_clauses cs doc = Ok r ->
  (exists outs, r = Some outs /\ picks outs segs) <-> Forall (fun c => holds c doc vars = true) cs.
Proof.
  intros Ht. revert segs r. induction Ht as [|c cs Hc Hcs IH]; intros segs r Hq Hr; simpl in *.
  { simplify_eq. split; [done|]. intros _. by exists []. }
  destruct (resolveClauseQuery c vars) as [q|] eqn:Eq; [|done].
  destruct (resolve_clauses cs vars) as [segs'|] eqn:Es; [|done].
  destruct (evaluateClause c doc) as [out|] eqn:Eo; [|done]. simpl in *.
  destruct (clause_agree c doc vars q out Hc Eq Eo) as [Hexc Hfil Hfh Hbuck].
  rewrite Forall_cons. destruct (included out); simpl in Hr.
  - destruct (evaluate_clauses cs doc) as [r'|] eqn:Er; [|done]. simpl in Hr. simplify_eq.
    rewrite <-(IH segs' r' eq_refl eq_refl). specialize (Hfil eq_refl).
    destruct q as [s|].
    + rewrite <-(Hbuck s eq_refl eq_refl).
      assert (contributes out = true) as Hco by (destruct (contributes out); naive_solver).
      split.
      * destruct r' as [outs'|]; [|naive_solver]. intros (outs & [= <-] & Hp).
        simpl in Hp. rewrite Hco in Hp. destruct Hp as (s' & segs'' & [= <- <-] & Hs & Hp). eauto.
      * intros [Hs (outs & -> & Hp)]. eexists. split; [done|]. simpl. rewrite Hco. eauto 6.
    + split.
      * destruct r' as [outs'|]; [|naive_solver]. intros (outs & [= <-] & Hp).
        simpl in Hp. rewrite (proj1 Hfil eq_refl) in Hp. 
        split; [by apply Hfh|eauto].
      * intros [_ (outs & -> & Hp)]. eexists. split; [done|]. simpl.
        by rewrite (proj1 Hfil eq_refl).
  - simplify_eq. rewrite Hexc by done. naive_solver.
Qed.

Lemma query_reads_matches_iff (def : SearchDef) (doc vars : list (string * any)) segs results :
  Forall (fun c => typed_query c doc vars) (DfClauses def) ->
  ResolveQueryPath def vars = Ok segs ->
  EvaluateDocument def (Some doc) = Ok results ->
  segs ∈ map Segments results <->
  forallb (fun c => holds c doc vars) (DfClauses def) = true.
Proof.
  unfold ResolveQueryPath, EvaluateDocument. intros Ht Hq Hr.
  destruct (evaluate_clauses (DfClauses def) doc) as [r|] eqn:Er; [|done]. simpl in Hr.
  simplify_eq. rewrite forallb_forall.
  setoid_rewrite <-list_elem_of_In. rewrite <-Forall_forall.
  rewrite <-(clauses_agree _ _ _ _ _ Ht Hq Er). destruct r as [outs|].
  - unfold expandBuckets. rewrite expand_from_segments. split.
    + intros (p & rest & ->%list_elem_of_singleton & Hp & ->). by exists outs.
    + intros (outs' & [= <-] & Hp). exists [], segs. split_and!; [by left|done..].
  - split; [by intros ?%elem_of_nil|naive_solver].
Qed.

(** For every search definition, document and query, when the query resolves
    and the document evaluates, the bucket the query reads is one of the
    document's buckets exactly when the document satisfies every clause under
    the query's variables.  Array items that a query compares with a number or a
    string are of the kind of the query's value, and not a negative zero. *)
Theorem query_reads_matches (def : SearchDef) (doc vars : list (string * any)) segs results :
  Forall (fun c => typed_query c doc vars) (DfClauses def) ->
  ResolveQueryPath def vars = Ok segs ->
  EvaluateDocument def (Some doc) = Ok results ->
  segs ∈ map Segments results <->
  forallb (fun c => holds c doc vars) (DfClauses def) = true.
Proof. apply query_reads_matches_iff. Qed.

(** ** Buckets and files *)

Lemma upper_hex_no_slash s : str_all upper_hex s = true -> in_string "/" s = false.
Proof.
  induction s as [|c s IH]; [done|]. cbn [str_all in_string]. intros [Hc Hs]%andb_true_iff.
  rewrite IH by done. destruct (Ascii.eqb_spec "/" c) as [<-|Hne]; done.
Qed.

Lemma EncodeStringValue_plain s : plain (EncodeStringValue s) = true.
Proof.
  unfold EncodeStringValue. destruct s as [|a s]; [done|].
  change (plain (hex_bytes (String a s)) = true).
  pose proof (hex_bytes_chars (String a s)) as Hc. unfold plain.
  rewrite (upper_hex_no_slash _ Hc).
  destruct (hex_bytes (String a s)) as [|x t] eqn:E; [done|].
  simpl in Hc. apply andb_true_iff in Hc as [Hx _].
  assert (x <> "."%char) by (intros ->; done).
  destruct (Ascii.eqb_spec x "."%char) as [->|Hne]; [done|]. simpl.
  by rewrite (proj2 (Ascii.eqb_neq _ _) Hne).
Qed.

Lemma EncodeTruth_plain b : plain (EncodeTruth b) = true.
Proof. by destruct b. Qed.

Lemma plain_of_format a : plain (FormatFloat a) = true.
Proof. pose proof (format_named a) as Hf. unfold plain_collection in Hf. by boolprop. Qed.

Lemma EncodeScalar_plain kind v seg : EncodeScalarByKind kind v = Ok seg -> plain seg = true.
Proof.
  destruct kind; simpl; try done; try (destruct v; intros [= <-]).
  - apply EncodeStringValue_plain.
  - unfold EncodeScalarNumber. destruct (asFloat64 v); intros [= <-]. apply plain_of_format.
  - apply EncodeTruth_plain.
  - done.
Qed.

Hint Resolve EncodeStringValue_plain EncodeTruth_plain EncodeScalar_plain : go.

(** Bucket names are plain and never start with a dot. *)
Lemma plain_of_name s : plain_collection s = true -> plain s = true.
Proof. unfold plain_collection. by intros [? _]%andb_true_iff. Qed.

Lemma EncodeStringValue_named s : plain_collection (EncodeStringValue s) = true.
Proof.
  unfold plain_collection. rewrite EncodeStringValue_plain. unfold EncodeStringValue.
  destruct s as [|a s]; [done|]. change (true && negb (HasPrefix (hex_bytes (String a s)) ".") = true).
  pose proof (hex_bytes_chars (String a s)) as Hc.
  destruct (hex_bytes (String a s)) as [|x t]; [done|]. simpl in Hc. apply andb_true_iff in Hc as [Hx _].
  assert (x <> "."%char) by (intros ->; done). unfold HasPrefix. cbn [String.prefix].
  destruct (Ascii.ascii_dec "." x) as [?|]; [congruence|done].
Qed.

Lemma EncodeTruth_named b : plain_collection (EncodeTruth b) = true.
Proof. by destruct b. Qed.

Lemma EncodeScalar_named kind v seg :
  EncodeScalarByKind kind v = Ok seg -> plain_collection seg = true.
Proof.
  destruct kind; simpl; try done; try (destruct v; intros [= <-]).
  - apply EncodeStringValue_named.
  - unfold EncodeScalarNumber. destruct (asFloat64 v); intros [= <-]. apply format_named.
  - apply EncodeTruth_named.
  - done.
Qed.

Hint Resolve EncodeStringValue_named EncodeTruth_named EncodeScalar_named : go.

Lemma contains_options_named seen items :
  Forall (fun o => plain_collection (fst o) = true) (contains_options seen items).
Proof.
  revert seen. induction items as [|item items IH]; intros seen; simpl; [constructor|].
  destruct (item_option item) as [[seg key]|] eqn:Hi; [|apply IH].
  destruct (containsString seen seg); [apply IH|]. constructor; [|apply IH].
  apply item_option_kind in Hi as (kind & _ & Hk). eauto with go.
Qed.

Lemma evaluateClause_named c doc out :
  evaluateClause c doc = Ok out -> Forall (fun o => plain_collection (fst o) = true) (options out).
Proof.
  assert (forall seg key a b, plain_collection seg = true ->
    Forall (fun o => plain_collection (fst o) = true) (options (singleSegment seg key a b))) as Hsingle.
  { intros seg key a b Hs. unfold singleSegment. simpl. destruct (a && b); by repeat constructor. }
  assert (forall b, Forall (fun o => plain_collection (fst o) = true) (options (singleSegment "" ANil false b)))
    as Hfilter by (intros b; constructor).
  unfold evaluateClause, evaluateEquals, evaluateIn, evaluateExists, evaluateContains.
  intros E. repeat split_match_in E; simplify_eq; try (constructor; fail); unfold truth_segment;
    auto with go.
  simpl. rewrite <-Heql0. apply contains_options_named.
Qed.

Lemma picks_named outs segs :
  Forall (fun out => Forall (fun o => plain_collection (fst o) = true) (options out)) outs ->
  picks outs segs -> Forall (fun s => plain_collection s = true) segs.
Proof.
  intros Ho. revert segs. induction Ho as [|out outs Hout Houts IH]; intros segs; simpl.
  - by intros ->.
  - destruct (contributes out); [|apply IH]. intros (s & segs' & -> & Hs & Hp).
    constructor; [|by apply IH]. apply list_elem_of_fmap in Hs as (o & -> & Hin).
    rewrite Forall_forall in Hout. auto.
Qed.

Lemma evaluated_named def doc results segs :
  EvaluateDocument def doc = Ok results -> segs ∈ map Segments results ->
  Forall (fun s => plain_collection s = true) segs.
Proof.
  unfold EvaluateDocument. destruct doc as [doc|]; [|intros [= <-] ?%elem_of_nil; done].
  destruct (evaluate_clauses (DfClauses def) doc) as [[outs|]|] eqn:E; simpl; [|intros [= <-]|done].
  2:{ by intros ?%elem_of_nil. }
  intros [= <-]. unfold expandBuckets. rewrite expand_from_segments.
  intros (p & rest & ->%list_elem_of_singleton & Hp & ->). simpl. revert Hp. apply picks_named.
  clear -E FL. revert outs E. induction (DfClauses def) as [|c cs IH]; intros outs E; simpl in E.
  { injection E as <-. constructor. }
  destruct (evaluateClause c doc) as [out|] eqn:Eo; [|done]. simpl in E.
  destruct (included out); simpl in E; [|done].
  destruct (evaluate_clauses cs doc) as [[outs'|]|] eqn:Er; simpl in E; simplify_eq.
  constructor; [by eapply evaluateClause_named|auto].
Qed.

Lemma evaluated_plain def doc results segs :
  EvaluateDocument def doc = Ok results -> segs ∈ map Segments results ->
  Forall (fun s => plain s = true) segs.
Proof.
  intros He Hs. eapply Forall_impl; [by eapply evaluated_named|]. intros s. apply plain_of_name.
Qed.

Lemma join_plain_all p l :
  Forall (fun s => plain s = true) l -> join p l = reverse l ++ p.
Proof.
  unfold join. intros Hl. revert p. induction Hl as [|s l Hs Hl IH]; intros p; simpl; [done|].
  rewrite IH, join1_plain by done. by rewrite reverse_cons, <-app_assoc.
Qed.

Lemma SearchResultPath_plain D c name segs :
  plain c = true -> plain name = true -> Forall (fun s => plain s = true) segs ->
  SearchResultPath D c name segs =
  "matches.json" :: reverse segs ++ name :: ".search" :: c :: D.
Proof.
  intros Hc Hn Hs. unfold SearchResultPath, SearchDir, CollectionDir.
  rewrite !join_plain1 by done. rewrite join_plain_all.
  - rewrite reverse_cons, reverse_app. simpl. by rewrite <-app_assoc.
  - constructor; [done|]. apply Forall_app. by repeat constructor.
Qed.

Lemma ShardInput_inj l l' :
  Forall (fun s => plain s = true) l -> Forall (fun s => plain s = true) l' ->
  ShardInput l = ShardInput l' -> l = l'.
Proof.
  assert (forall l, Forall (fun s => plain s = true) l -> l <> [] ->
            Split (ShardInput l) "/" = l) as Hsplit.
  { intros k Hk Hne. apply Split_Join; [done|]. eapply Forall_impl; [exact Hk|].
    intros s Hs. by apply plain_facts. }
  assert (forall s k, plain s = true -> ShardInput (s :: k) <> "") as Hne.
  { intros s k Hs. unfold ShardInput. destruct s as [|x s]; [done|]. by destruct k. }
  intros Hl Hl' E. destruct l as [|a l], l' as [|b l']; [done| | |].
  - inversion Hl'. by destruct (Hne b l').
  - inversion Hl. by destruct (Hne a l).
  - rewrite <-(Hsplit (a :: l)), E, Hsplit; done.
Qed.

(** The buckets of two documents under two searches of a collection are the
    same file exactly when the searches and the bucket paths are the same, and
    two bucket paths have the same shard input only when they are equal. *)
Theorem bucket_files_distinct D c n1 n2 def1 def2 doc1 doc2 rs1 rs2 segs1 segs2 :
  plain c = true -> plain n1 = true -> plain n2 = true ->
  EvaluateDocument def1 doc1 = Ok rs1 -> EvaluateDocument def2 doc2 = Ok rs2 ->
  segs1 ∈ map Segments rs1 -> segs2 ∈ map Segments rs2 ->
  (SearchResultPath D c n1 segs1 = SearchResultPath D c n2 segs2 <-> n1 = n2 /\ segs1 = segs2) /\
  (ShardInput segs1 = ShardInput segs2 <-> segs1 = segs2).
Proof.
  intros Hc H1 H2 E1 E2 S1 S2. pose proof (evaluated_plain _ _ _ _ E1 S1) as P1.
  pose proof (evaluated_plain _ _ _ _ E2 S2) as P2. split.
  - rewrite !SearchResultPath_plain by done. split; [|by intros [-> ->]].
    intros [= E]. apply (f_equal reverse) in E. rewrite !reverse_app, !reverse_involutive in E.
    rewrite !reverse_cons, <-!app_assoc in E. simpl in E.
    apply app_inv_head in E. by simplify_eq.
  - split; [by apply ShardInput_inj|by intros ->].
Qed.
End buckets.
