(* ===== verification/SearchStore.v ===== *)
(** * Search result files: order, invariant and mutation

    The sort order of [sort.go] on the values a result file stores, the invariant
    of a result file (rows of the sort's kinds, identifiers without duplicates,
    items in order) and that [Upsert] and [Remove] of [store.go] keep it. *)

From Stdlib Require Import Sorted.
From S2P Require Import Prelude GoStrings World Shard Json Config Store Replication Search.

Section order.
Context `{FL : GoFloatLaws}.

(** ** Stored values *)

(** The kinds of field a sort can order. *)
Inductive sort_kind := SortString | SortBool | SortNumber.

Definition of_kind (k : sort_kind) (v : any) : Prop :=
  match k, v with
  | SortString, AStr _ => True
  | SortBool, ABool _ => True
  | SortNumber, AFloat f => finite f
  | _, _ => False
  end.

Definition stored_ok (k : sort_kind) (v : any) : Prop := v = ANil \/ of_kind k v.

Definition row_ok (kinds : list sort_kind) (l : list any) : Prop := Forall2 stored_ok kinds l.

(** A stored value as a candidate. *)
Definition from_stored (v : any) : SortValue :=
  match v with ANil => null_value | _ => known_value v end.

Definition cmp1 (dir : string) (a b : any) : Z := compareOne (from_stored a) b dir.

Lemma str_compare_antisym a b : str_compare b a = (- str_compare a b)%Z.
Proof.
  unfold str_compare. rewrite (String.eqb_sym b a). destruct (String.eqb_spec a b) as [->|Hne]; [done|].
  rewrite (str_ltb_total a b Hne). by destruct (str_ltb b a).
Qed.

Lemma str_compare_trans a b c :
  (str_compare a b <= 0 -> str_compare b c <= 0 -> str_compare a c <= 0)%Z.
Proof.
  unfold str_compare. destruct (String.eqb_spec a b) as [->|Hab]; [done|].
  destruct (String.eqb_spec b c) as [->|Hbc].
  - by rewrite (proj2 (String.eqb_neq _ _) Hab).
  - destruct (String.eqb_spec a c) as [->|Hac]; [done|].
    destruct (str_ltb a b) eqn:E1, (str_ltb b c) eqn:E2; try (intros; lia).
    by rewrite (str_ltb_trans _ _ _ E1 E2).
Qed.

Definition float_compare (a b : float64) : Z :=
  if float_ltb a b then -1 else if float_ltb b a then 1 else 0.

Lemma float_asym a b : finite a -> finite b -> float_ltb a b = true -> float_ltb b a = false.
Proof.
  intros Ha Hb H1. apply not_true_iff_false. intros H2.
  pose proof (float_lt_trans a b a Ha Hb Ha H1 H2). by rewrite float_lt_irrefl in *.
Qed.

Lemma float_compare_antisym a b :
  finite a -> finite b -> float_compare b a = (- float_compare a b)%Z.
Proof.
  intros Ha Hb. unfold float_compare. destruct (float_ltb a b) eqn:E1.
  - by rewrite (float_asym a b).
  - by destruct (float_ltb b a).
Qed.

Lemma float_compare_le a b :
  finite a -> finite b -> (float_compare a b <= 0)%Z <-> float_ltb b a = false.
Proof.
  intros Ha Hb. unfold float_compare. destruct (float_ltb a b) eqn:E1.
  - rewrite (float_asym a b) by done. split; [done|lia].
  - destruct (float_ltb b a); split; done || lia.
Qed.

Lemma float_compare_trans a b c :
  finite a -> finite b -> finite c ->
  (float_compare a b <= 0 -> float_compare b c <= 0 -> float_compare a c <= 0)%Z.
Proof.
  intros Ha Hb Hc. rewrite !float_compare_le by done. intros Hba Hcb.
  apply not_true_iff_false. intros Hca. destruct (float_ltb a b) eqn:Hab.
  - by rewrite (float_lt_trans c a b) in Hcb.
  - destruct (float_eq_lt a b c Ha Hb Hc) as [_ E]; [by apply float_total|]. congruence.
Qed.

(** ** One position *)

(** The values a kind allows. *)
Ltac shapes :=
  repeat match goal with Hx : of_kind _ ?x |- _ => is_var x; destruct x; try done end.

Lemma cmp1_antisym k dir a b :
  stored_ok k a -> stored_ok k b -> cmp1 dir b a = (- cmp1 dir a b)%Z.
Proof.
  assert (forall x y : Z, y = Z.opp x -> (if dir =? "desc" then Z.opp y else y) =
            Z.opp (if dir =? "desc" then Z.opp x else x)) as Hdir.
  { intros x y ->. by destruct (dir =? "desc"). }
  intros [->|Ha] [->|Hb]; destruct k; shapes; unfold cmp1, compareOne, rank; simpl; try lia.
  - apply Hdir, str_compare_antisym.
  - apply Hdir. by destruct b, b0.
  - by apply Hdir, float_compare_antisym.
Qed.

Lemma str_compare_trans_ge a b c :
  (0 <= str_compare a b -> 0 <= str_compare b c -> 0 <= str_compare a c)%Z.
Proof.
  intros H1 H2. rewrite str_compare_antisym. pose proof (str_compare_antisym a b).
  pose proof (str_compare_antisym b c). pose proof (str_compare_trans c b a). lia.
Qed.

Lemma float_compare_trans_ge a b c :
  finite a -> finite b -> finite c ->
  (0 <= float_compare a b -> 0 <= float_compare b c -> 0 <= float_compare a c)%Z.
Proof.
  intros Ha Hb Hc H1 H2. rewrite float_compare_antisym by done.
  pose proof (float_compare_antisym a b Ha Hb). pose proof (float_compare_antisym b c Hb Hc).
  pose proof (float_compare_trans c b a Hc Hb Ha). lia.
Qed.

Lemma cmp1_trans k dir a b c :
  stored_ok k a -> stored_ok k b -> stored_ok k c ->
  (cmp1 dir a b <= 0 -> cmp1 dir b c <= 0 -> cmp1 dir a c <= 0)%Z.
Proof.
  intros [->|Ha] [->|Hb] [->|Hc]; destruct k; shapes; unfold cmp1, compareOne, rank; simpl; try lia;
    destruct (dir =? "desc").
  - pose proof (str_compare_trans_ge s1 s0 s). lia.
  - apply str_compare_trans.
  - destruct b, b0, b1; simpl; lia.
  - destruct b, b0, b1; simpl; lia.
  - pose proof (float_compare_trans_ge f1 f0 f Ha Hb Hc) as Ht.
    change (- float_compare f1 f0 <= 0 -> - float_compare f0 f <= 0 -> - float_compare f1 f <= 0)%Z.
    lia.
  - by apply float_compare_trans.
Qed.

(** ** Rows *)

Definition cmp (dirs : list string) (a b : list any) : option Z :=
  CompareStoredSort (SortValuesFromJSON a) b dirs.

Lemma cmp_cons d dirs x a y b :
  cmp (d :: dirs) (x :: a) (y :: b) =
  if (cmp1 d x y =? 0)%Z then cmp dirs a b else Some (cmp1 d x y).
Proof. reflexivity. Qed.

Lemma cmp_nil dirs : cmp dirs [] [] = Some 0%Z.
Proof. by destruct dirs. Qed.

(** Rows of the kinds of the sort always compare. *)
Lemma cmp_defined kinds dirs a b :
  length dirs = length kinds -> row_ok kinds a -> row_ok kinds b ->
  exists z, cmp dirs a b = Some z /\ cmp dirs b a = Some (- z)%Z.
Proof.
  intros Hlen Ha. revert dirs b Hlen. induction Ha as [|k x kinds a Hx Ha IH];
    intros dirs b Hlen Hb; inversion Hb as [|? y ? b' Hy Hb']; subst.
  - exists 0%Z. by rewrite !cmp_nil.
  - destruct dirs as [|d dirs]; [done|]. rewrite !cmp_cons, (cmp1_antisym k d x y) by done.
    destruct (IH dirs b') as (z & H1 & H2); [simpl in Hlen; lia|done|].
    destruct (cmp1 d x y =? 0)%Z eqn:E; boolprop.
    + rewrite E. simpl. eauto.
    + assert ((- cmp1 d x y =? 0)%Z = false) as -> by lia. eauto.
Qed.

Definition row_le (dirs : list string) (a b : list any) : Prop :=
  exists z, cmp dirs a b = Some z /\ (z <= 0)%Z.

Lemma row_le_trans kinds dirs a b c :
  length dirs = length kinds -> row_ok kinds a -> row_ok kinds b -> row_ok kinds c ->
  row_le dirs a b -> row_le dirs b c -> row_le dirs a c.
Proof.
  intros Hlen Ha. revert dirs b c Hlen. induction Ha as [|k x kinds a Hx Ha IH];
    intros dirs b c Hlen Hb Hc; inversion Hb as [|? y ? b' Hy Hb']; subst;
    inversion Hc as [|? z ? c' Hz Hc']; subst.
  { intros _ _. exists 0%Z. by rewrite cmp_nil. }
  destruct dirs as [|d dirs]; [done|]. unfold row_le. rewrite !cmp_cons.
  pose proof (cmp1_antisym k d x y Hx Hy) as A1. pose proof (cmp1_antisym k d y z Hy Hz) as A2.
  pose proof (cmp1_antisym k d x z Hx Hz) as A3.
  pose proof (cmp1_trans k d x y z Hx Hy Hz) as T1. pose proof (cmp1_trans k d z x y Hz Hx Hy) as T2.
  pose proof (cmp1_trans k d y z x Hy Hz Hx) as T3.
  intros (u & Hu & Hu0) (v & Hv & Hv0).
  destruct (cmp1 d x y =? 0)%Z eqn:E1, (cmp1 d y z =? 0)%Z eqn:E2, (cmp1 d x z =? 0)%Z eqn:E3;
    boolprop; simplify_eq; try lia; try (eexists; split; [done|lia]).
  apply (IH dirs b' c'); try done; by eexists.
Qed.

(** ** Candidates *)

(** A sort value of its kind, or null. *)
Definition candidate_ok (k : sort_kind) (v : SortValue) : Prop :=
  v = null_value \/ exists x, v = known_value x /\ of_kind k x.

(** What a stored document has in a sort field for the order to be kept: its
    identifier, null, or a string or boolean; a field that is missing and a number,
    which a document carries as its literal, are not of these. *)
Definition sortable (doc : list (string * any)) (k : sort_kind) (s : SortSpec) : Prop :=
  if SoField s =? "/!" then k = SortString
  else match PointerGet doc (SoField s), k with
       | Some ANil, _ => True
       | Some (AStr _), SortString => True
       | Some (ABool _), SortBool => True
       | _, _ => False
       end.

(** Where the sort values of [Upsert] come from: the change agent computes them from
    the stored document, for a bucket of its own server, and another server receives
    them as JSON, where a number is a float. *)
Inductive sort_input (kinds : list sort_kind) (def : SearchDef) : list SortValue -> Prop :=
| from_document doc : Forall2 (sortable doc) kinds (DfSort def) -> sort_input kinds def (ComputeSortValues def doc)
| from_wire raw : row_ok kinds raw -> sort_input kinds def (SortValuesFromJSON raw).

Lemma sort_input_candidates kinds def vals : sort_input kinds def vals -> Forall2 candidate_ok kinds vals.
Proof.
  intros [doc Hs|raw Hr].
  - unfold ComputeSortValues. induction Hs as [|k s ks ss Hk Hs IH]; simpl; constructor; [|exact IH].
    unfold sortable in Hk. unfold sort_value. destruct (SoField s =? "/!").
    + subst k. right. by eexists.
    + destruct (PointerGet doc (SoField s)) as [[]|], k; try done; (by left) || (right; by eexists).
  - unfold SortValuesFromJSON. induction Hr as [|k v ks l Hk Hr IH]; simpl; constructor; [|exact IH].
    destruct Hk as [->|Hk]; [by left|]. right. exists v. by destruct k, v.
Qed.

Lemma candidate_stored kinds vals :
  Forall2 candidate_ok kinds vals ->
  row_ok kinds (SortValuesToJSON vals) /\ SortValuesFromJSON (SortValuesToJSON vals) = vals.
Proof.
  induction 1 as [|k v kinds vals Hv Hvals [IH1 IH2]]; [by split; [constructor|]|].
  destruct Hv as [->|(x & -> & Hx)]; simpl.
  - split; [by constructor; [left|]|by f_equal].
  - split; [by constructor; [right|]|]. f_equal; [|done]. by destruct k, x.
Qed.

(** ** The invariant *)

Definition row (it : Item) : list any := default [] (ItSort it).

Definition item_ok (kinds : list sort_kind) (it : Item) : Prop :=
  is_Some (ItSort it) /\ row_ok kinds (row it).

Definition item_le (dirs : list string) (a b : Item) : Prop := row_le dirs (row a) (row b).

Record items_ok (kinds : list sort_kind) (dirs : list string) (items : list Item) : Prop := {
  io_rows : Forall (item_ok kinds) items;
  io_ids : NoDup (map ItID items);
  io_sorted : StronglySorted (item_le dirs) items;
}.

Lemma items_ok_remove kinds dirs l1 it l2 :
  items_ok kinds dirs (l1 ++ it :: l2) -> items_ok kinds dirs (l1 ++ l2).
Proof.
  intros [H1 H2 H3]. split.
  - apply Forall_app in H1 as [? [? ?]%Forall_cons]. by apply Forall_app.
  - rewrite map_app in *. simpl in H2. apply NoDup_app in H2 as (N1 & N2 & N3).
    apply NoDup_cons in N3 as [N3 N4]. apply NoDup_app. split_and!; [done| |done].
    intros x Hx Hx'. eapply N2; [done|]. by right.
  - apply StronglySorted_app in H3 as (S1 & S2 & S3).
    apply StronglySorted_inv in S3 as [S3 S4].
    apply StronglySorted_app. split_and!; [|done|done].
    intros x y Hx Hy. apply S1; [done|]. by right.
Qed.

(** Where a candidate goes: after everything it does not sort before. *)
Lemma insert_position_spec kinds dirs vals items :
  length dirs = length kinds -> Forall2 candidate_ok kinds vals -> Forall (item_ok kinds) items ->
  exists l1 l2, items = l1 ++ l2 /\ insert_position vals dirs items = Some (length l1) /\
    Forall (fun it => row_le dirs (row it) (SortValuesToJSON vals)) l1 /\
    match l2 with
    | [] => True
    | it :: _ => row_le dirs (SortValuesToJSON vals) (row it)
    end.
Proof.
  intros Hlen Hvals. destruct (candidate_stored kinds vals Hvals) as [Hrow Hback].
  induction 1 as [|it items [_ Hit] Hitems (l1 & l2 & -> & E & H1 & H2)]; [by exists [], []|].
  destruct (cmp_defined kinds dirs (SortValuesToJSON vals) (row it)) as (z & Hz & Hz'); try done.
  simpl. unfold cmp in Hz. rewrite Hback in Hz. fold (row it). rewrite Hz, E. simpl.
  destruct (z <? 0)%Z eqn:Ez; boolprop.
  - exists [], (it :: l1 ++ l2). split_and!; try done. exists z. split; [|lia].
    unfold cmp. by rewrite Hback.
  - exists (it :: l1), l2. split_and!; try done. constructor; [|done].
    exists (- z)%Z. split; [done|lia].
Qed.

Lemma items_ok_insert kinds dirs id vals l1 l2 :
  length dirs = length kinds -> Forall2 candidate_ok kinds vals -> items_ok kinds dirs (l1 ++ l2) ->
  id ∉ map ItID (l1 ++ l2) ->
  Forall (fun it => row_le dirs (row it) (SortValuesToJSON vals)) l1 ->
  match l2 with [] => True | it :: _ => row_le dirs (SortValuesToJSON vals) (row it) end ->
  items_ok kinds dirs (l1 ++ mkItemS (Some (SortValuesToJSON vals)) id :: l2).
Proof.
  intros Hlen Hvals [Hrows Hids Hs] Hid Hl1 Hl2.
  destruct (candidate_stored kinds vals Hvals) as [Hrow _].
  apply Forall_app in Hrows as [R1 R2]. split.
  - apply Forall_app. split; [done|]. constructor; [|done]. by split.
  - rewrite map_app in *. simpl. apply NoDup_app in Hids as (N1 & N2 & N3).
    apply NoDup_app. split_and!; [done| |].
    + intros x Hx [->|Hx']%elem_of_cons; [apply Hid, elem_of_app; by left|by eapply N2].
    + constructor; [|done]. intros Hx. apply Hid, elem_of_app. by right.
  - apply StronglySorted_app in Hs as (S1 & S2 & S3). rewrite Forall_forall in Hl1.
    apply StronglySorted_app. split_and!; [|done|].
    + intros x y Hx [->|Hy]%elem_of_cons; [by apply Hl1|by apply S1].
    + constructor; [done|]. destruct l2 as [|it l2]; [constructor|].
      apply StronglySorted_inv in S3 as [S3 S4]. constructor; [done|].
      apply Forall_cons in R2 as [[_ Rit] R2].
      rewrite Forall_forall in S4, R2 |- *. intros y Hy. destruct (R2 y Hy) as [_ Ry].
      apply (row_le_trans kinds _ _ (row it)); try done. by apply S4.
Qed.

(** ** Upsert and Remove *)

Lemma index_from_spec i items id :
  match index_from i items id with
  | Some n => exists l1 it l2, items = l1 ++ it :: l2 /\ n = (i + length l1)%nat /\ ItID it = id /\
                id ∉ map ItID l1
  | None => id ∉ map ItID items
  end.
Proof.
  revert i. induction items as [|it items IH]; intros i; simpl; [by intros ?%elem_of_nil|].
  destruct (ItID it =? id) eqn:E; boolprop.
  - exists [], it, items. split_and!; [done|simpl; lia|done|by intros ?%elem_of_nil].
  - specialize (IH (S i)). destruct (index_from (S i) items id) as [n|].
    + destruct IH as (l1 & it' & l2 & -> & -> & Hid & Hn).
      exists (it :: l1), it', l2. split_and!; [done|simpl; lia|done|].
      simpl. rewrite not_elem_of_cons. split; [congruence|done].
    + rewrite not_elem_of_cons. split; [congruence|done].
Qed.

Lemma index_from_app i l1 it l2 id :
  id ∉ map ItID l1 -> ItID it = id -> index_from i (l1 ++ it :: l2) id = Some (i + length l1)%nat.
Proof.
  intros Hn Hid. revert i Hn. induction l1 as [|x l1 IH]; intros i Hn; simpl in *.
  - rewrite Hid, String.eqb_refl. f_equal. lia.
  - rewrite not_elem_of_cons in Hn. destruct Hn as [Hx Hn].
    rewrite (proj2 (String.eqb_neq _ _)) by congruence. rewrite IH by done. f_equal. lia.
Qed.

Lemma cut_at_app {A} (l1 : list A) x l2 : cut_at (length l1) (l1 ++ x :: l2) = l1 ++ l2.
Proof.
  unfold cut_at. rewrite take_app_length. f_equal.
  rewrite <-(Nat.add_1_r (length l1)), drop_app_add. done.
Qed.

Definition others (id : string) (items : list Item) : list Item :=
  List.filter (fun it => ItID it <>? id) items.

Lemma others_app id l1 l2 : others id (l1 ++ l2) = others id l1 ++ others id l2.
Proof. apply List.filter_app. Qed.

Lemma others_cons_eq id it l : ItID it = id -> others id (it :: l) = others id l.
Proof. intros <-. unfold others. simpl. by rewrite String.eqb_refl. Qed.

Lemma others_absent id l : id ∉ map ItID l -> others id l = l.
Proof.
  unfold others. induction l as [|it l IH]; [done|]. simpl. rewrite not_elem_of_cons.
  intros [Hne Hl]. rewrite (proj2 (String.eqb_neq _ _)) by congruence. simpl. by rewrite IH.
Qed.

Lemma deep_equal_row kinds l : row_ok kinds l -> deep_equal (AArr l) (AArr l) = true.
Proof.
  unfold row_ok. intros Hl. simpl. induction Hl as [|k x kinds l Hx Hl IH]; [done|].
  apply andb_true_iff. split; [|done]. destruct Hx as [->|Hx]; [done|].
  destruct k, x; try done; simpl.
  - apply String.eqb_refl.
  - apply eqb_reflx.
  - by apply float_eq_refl.
Qed.

(** The file with the row of [id] taken out and a new one put in its place. *)
Definition placed (rf : ResultFile) (id : string) (vals : list SortValue) (l1 l2 : list Item)
    : ResultFile := set_items rf (l1 ++ mkItemS (Some (SortValuesToJSON vals)) id :: l2).

Lemma Upsert_present rf def id vals l1 it l2 l :
  RfItems rf = l1 ++ it :: l2 -> ItID it = id -> id ∉ map ItID l1 -> ItSort it = Some l ->
  deep_equal (AArr l) (AArr (SortValuesToJSON vals)) = true -> Upsert rf def id vals = Some (rf, false).
Proof.
  intros E Hid Hn Hl Heq. unfold Upsert, IndexOf. rewrite E, index_from_app by done.
  rewrite Nat.add_0_l, list_lookup_middle by done. by rewrite Hl, Heq.
Qed.

Lemma Upsert_cases kinds rf def id vals :
  length (DfSort def) = length kinds -> items_ok kinds (map SoDir (DfSort def)) (RfItems rf) ->
  Forall2 candidate_ok kinds vals ->
  (exists l1 it l2 l, RfItems rf = l1 ++ it :: l2 /\ ItID it = id /\ id ∉ map ItID l1 /\
     ItSort it = Some l /\ deep_equal (AArr l) (AArr (SortValuesToJSON vals)) = true) \/
  (exists l1 l2, Upsert rf def id vals = Some (placed rf id vals l1 l2, true) /\
     items_ok kinds (map SoDir (DfSort def)) (RfItems (placed rf id vals l1 l2)) /\
     l1 ++ l2 = others id (RfItems rf) /\ id ∉ map ItID (l1 ++ l2)).
Proof.
  intros Hlen Hok Hvals. set (dirs := map SoDir (DfSort def)) in *.
  assert (length dirs = length kinds) as Hdirs by (by unfold dirs; rewrite length_map).
  assert (forall items, items_ok kinds dirs items -> id ∉ map ItID items ->
    exists l1 l2, insert_position vals dirs items = Some (length l1) /\ items = l1 ++ l2 /\
      items_ok kinds dirs (RfItems (placed rf id vals l1 l2))) as Hins.
  { intros items Hi Hid. destruct (insert_position_spec kinds dirs vals items) as
      (l1 & l2 & -> & E & H1 & H2); [done|done|apply Hi|].
    exists l1, l2. split_and!; [done|done|]. by apply items_ok_insert. }
  pose proof (index_from_spec 0 (RfItems rf) id) as Hi. unfold Upsert, IndexOf. fold dirs.
  destruct (index_from 0 (RfItems rf) id) as [n|].
  - destruct Hi as (l1 & it & l2 & E & -> & Hid & Hn). rewrite Nat.add_0_l.
    rewrite E in *. rewrite list_lookup_middle by done.
    assert (exists l, ItSort it = Some l) as [l Hl].
    { pose proof (io_rows _ _ _ Hok) as Hr. apply Forall_app in Hr as [_ [[Hs _] _]%Forall_cons]. done. }
    rewrite Hl. destruct (deep_equal (AArr l) _) eqn:Heq; [left; by exists l1, it, l2, l|right].
    rewrite cut_at_app.
    assert (id ∉ map ItID (l1 ++ l2)) as Hnot.
    { pose proof (io_ids _ _ _ Hok) as Hnd. rewrite map_app in *. simpl in Hnd.
      apply NoDup_app in Hnd as (_ & _ & [Hnd _]%NoDup_cons). rewrite Hid in Hnd.
      by rewrite not_elem_of_app. }
    destruct (Hins (l1 ++ l2)) as (k1 & k2 & -> & Ek & Hk); [by eapply items_ok_remove|done|].
    exists k1, k2. rewrite <-Ek. rewrite Ek at 1 2. rewrite take_app_length, drop_app_length.
    split_and!; [done|done| |done].
    rewrite others_app, others_cons_eq by done. rewrite <-others_app. by rewrite others_absent.
  - right. destruct (Hins (RfItems rf)) as (k1 & k2 & -> & Ek & Hk); [done|done|].
    exists k1, k2. rewrite <-Ek. rewrite Ek at 1 2. rewrite take_app_length, drop_app_length.
    split_and!; [done|done| |done]. by rewrite others_absent.
Qed.

Lemma items_ok_placed_present rf id vals l1 l2 :
  id ∉ map ItID (l1 ++ l2) -> others id (RfItems (placed rf id vals l1 l2)) = l1 ++ l2.
Proof.
  intros Hn. unfold placed. simpl. rewrite others_app, others_cons_eq by done.
  rewrite <-others_app. by apply others_absent.
Qed.

Lemma Upsert_ok kinds rf def id vals :
  length (DfSort def) = length kinds -> items_ok kinds (map SoDir (DfSort def)) (RfItems rf) ->
  Forall2 candidate_ok kinds vals ->
  exists rf' changed,
    Upsert rf def id vals = Some (rf', changed) /\
    items_ok kinds (map SoDir (DfSort def)) (RfItems rf') /\
    others id (RfItems rf') = others id (RfItems rf) /\
    (exists it, it ∈ RfItems rf' /\ ItID it = id /\
       deep_equal (AArr (row it)) (AArr (SortValuesToJSON vals)) = true) /\
    Upsert rf' def id vals = Some (rf', false).
Proof.
  intros Hlen Hok Hvals. destruct (Upsert_cases kinds rf def id vals Hlen Hok Hvals)
    as [(l1 & it & l2 & l & E & Hid & Hn & Hl & Heq)|(l1 & l2 & Hu & Hok' & Hoth & Hn)].
  - pose proof (Upsert_present rf def id vals l1 it l2 l E Hid Hn Hl Heq) as Hu.
    exists rf, false. split_and!; try done. exists it. unfold row. rewrite E, Hl.
    split_and!; [by apply elem_of_app; right; left|done|done].
  - exists (placed rf id vals l1 l2), true. destruct (candidate_stored kinds vals Hvals) as [Hr _].
    pose proof (deep_equal_row _ _ Hr) as Heq. split_and!; try done.
    + by rewrite items_ok_placed_present.
    + exists (mkItemS (Some (SortValuesToJSON vals)) id).
      split_and!; [by apply elem_of_app; right; left|done|done].
    + rewrite map_app, not_elem_of_app in Hn. by eapply Upsert_present; [done|done|apply Hn|done|].
Qed.

(** C34: [Upsert] keeps a result file in order.  The items have distinct
    identifiers and are in order, with rows of the kinds of the sort (strings,
    booleans, finite numbers, or null); the sort values are those the program
    computes from a stored document whose sort fields are its identifier, strings,
    booleans or null, or those another server sent, where numbers are floats.
    Then [Upsert] does not panic, puts the document in and keeps all three: every
    other item stays where it was relative to the rest, the document's row is the
    new one, and a second [Upsert] changes nothing.  Not covered, because the order
    is then lost: a missing sort field, and a number field of a stored document,
    which comes as its literal and is not compared
    ([numbers_sort_by_arrival]). *)
Theorem Upsert_keeps_order kinds rf def id vals :
  length (DfSort def) = length kinds -> items_ok kinds (map SoDir (DfSort def)) (RfItems rf) ->
  sort_input kinds def vals ->
  exists rf' changed,
    Upsert rf def id vals = Some (rf', changed) /\
    items_ok kinds (map SoDir (DfSort def)) (RfItems rf') /\
    others id (RfItems rf') = others id (RfItems rf) /\
    (exists it, it ∈ RfItems rf' /\ ItID it = id /\
       deep_equal (AArr (row it)) (AArr (SortValuesToJSON vals)) = true) /\
    Upsert rf' def id vals = Some (rf', false).
Proof. intros Hlen Hok Hin%sort_input_candidates. by apply Upsert_ok. Qed.

Lemma RemoveID_items rf id :
  NoDup (map ItID (RfItems rf)) ->
  RfItems (fst (RemoveID rf id)) = others id (RfItems rf) /\
  (snd (RemoveID rf id) = true <-> id ∈ map ItID (RfItems rf)).
Proof.
  intros Hnd. unfold RemoveID, IndexOf. pose proof (index_from_spec 0 (RfItems rf) id) as Hi.
  destruct (index_from 0 (RfItems rf) id) as [n|]; simpl.
  - destruct Hi as (l1 & it & l2 & E & -> & Hid & Hn). rewrite Nat.add_0_l, E, cut_at_app.
    rewrite E, map_app in Hnd. simpl in Hnd. apply NoDup_app in Hnd as (_ & _ & [Hni _]%NoDup_cons).
    rewrite Hid in Hni. rewrite others_app, others_cons_eq, !others_absent by done.
    split; [done|]. split; [|done]. intros _. rewrite map_app, <-Hid. apply elem_of_app. right. by left.
  - rewrite others_absent by done. done.
Qed.

Lemma items_ok_others kinds dirs id items : items_ok kinds dirs items -> items_ok kinds dirs (others id items).
Proof.
  induction items as [|it items IH]; intros Hok; [done|]. unfold others. simpl.
  destruct (ItID it <>? id) eqn:E; [|exact (IH (items_ok_remove kinds dirs [] it items Hok))].
  fold (others id items). destruct (IH (items_ok_remove kinds dirs [] it items Hok)) as [R1 R2 R3].
  destruct Hok as [H1 H2 H3]. apply Forall_cons in H1 as [Hit _]. simpl in H2.
  apply NoDup_cons in H2 as [Hni _]. apply StronglySorted_inv in H3 as [_ Hle].
  assert (forall x, x ∈ others id items -> x ∈ items) as Hsub.
  { intros x Hx. by apply elem_of_lfilter in Hx as [? _]. }
  split.
  - by constructor.
  - simpl. constructor; [|done]. intros Hin. apply Hni.
    apply list_elem_of_fmap in Hin as (x & -> & Hx). apply list_elem_of_fmap. eauto.
  - constructor; [done|]. rewrite Forall_forall in Hle |- *. auto.
Qed.

(** ** No panic *)

Lemma compare_stored_total vals stored dirs :
  (length vals <= length dirs)%nat -> is_Some (compare_stored vals stored dirs).
Proof.
  revert stored dirs. induction vals as [|v vals IH]; intros [|x stored] [|d dirs] Hl; simpl in *; eauto; [lia|].
  destruct (_ =? 0)%Z; [apply IH; lia|by eexists].
Qed.

Lemma insert_position_total vals dirs items :
  (length vals <= length dirs)%nat -> is_Some (insert_position vals dirs items).
Proof.
  intros Hl. induction items as [|it items [n IH]]; simpl; [by eexists|].
  destruct (compare_stored_total vals (default [] (ItSort it)) dirs Hl) as [c Hc].
  unfold CompareStoredSort. rewrite Hc. destruct (c <? 0)%Z; [by eexists|]. rewrite IH. by eexists.
Qed.

(** Sort values computed from a document never run past the directions of the
    definition, whatever the file holds. *)
Lemma Upsert_computed rf def id doc : is_Some (Upsert rf def id (ComputeSortValues def doc)).
Proof.
  assert (forall items, is_Some (insert_position (ComputeSortValues def doc) (map SoDir (DfSort def)) items)) as Hp.
  { intros items. apply insert_position_total. unfold ComputeSortValues. by rewrite !length_map. }
  unfold Upsert. destruct (IndexOf rf id) as [n|].
  - destruct (RfItems rf !! n) as [it|]; [destruct (match ItSort it with Some _ => _ | None => _ end); [by eexists|]|];
      destruct (Hp (cut_at n (RfItems rf))) as [k ->]; by eexists.
  - destruct (Hp (RfItems rf)) as [k ->]. by eexists.
Qed.

(** ** Numbers and missing values *)

(** A document read from the store carries its numbers as literals, which
    the comparison does not look at: whatever the stored numbers and the
    direction, a document with a number in its only sort field goes to the end
    of the numbers of the file, so a search sorted by a number field is kept in
    order of insertion. *)
Theorem numbers_sort_by_arrival rf def field dir id l items :
  DfSort def = [mkSortSpec field dir] -> RfItems rf = items -> id ∉ map ItID items ->
  Forall (fun it => exists f, ItSort it = Some [AFloat f]) items ->
  Upsert rf def id [known_value (ANumber l)] =
  Some (set_items rf (items ++ [mkItemS (Some [ANumber l]) id]), true).
Proof.
  intros Hs Hrf Hid Hall. unfold Upsert. rewrite Hs, Hrf. simpl.
  assert (insert_position [known_value (ANumber l)] [dir] items = Some (length items)) as Hpos.
  { clear Hid Hrf. induction Hall as [|it items [f Hf] Hall IH]; [done|]. simpl. rewrite Hf. simpl.
    unfold compareOne, rank. simpl. by destruct (dir =? "desc"); rewrite IH. }
  unfold IndexOf. rewrite Hrf. pose proof (index_from_spec 0 items id) as Hi.
  destruct (index_from 0 items id) as [n|].
  - destruct Hi as (l1 & it & l2 & -> & _ & Hit & _). destruct Hid. rewrite map_app, <-Hit.
    apply elem_of_app. right. by left.
  - by rewrite Hpos, take_ge, drop_ge.
Qed.
End order.

(** ** Files on disk *)

Section files.
Context `{OL : OJSONLaws} `{GJ : GoJSON} `{!GoJSONLaws} `{GoFloat} `{FL : !GoFloatLaws}.

Lemma result_map_Forall2 {A B} (f : A -> result B) l l' :
  result_map f l = Ok l' <-> Forall2 (fun x y => f x = Ok y) l l'.
Proof.
  revert l'. induction l as [|x l IH]; intros l'; simpl.
  - split; [by intros [= <-]|]. by inversion 1.
  - destruct (f x) as [y|] eqn:E; simpl.
    + destruct (result_map f l) as [r|] eqn:Er; simpl.
      * split; [intros [= <-]; constructor; [done|by apply IH]|].
        inversion 1 as [|? ? ? ? Hy Hl]; simplify_eq. apply IH in Hl. congruence.
      * split; [done|]. inversion 1 as [|? ? ? ? Hy Hl]; simplify_eq. apply IH in Hl. congruence.
    + split; [done|]. inversion 1; simplify_eq. congruence.
Qed.

(** Values stay well formed through a file. *)
Lemma decode_well_formed v a :
  well_formed v = true -> go_decode v = Ok a -> well_formed (go_encode a) = true.
Proof.
  revert a. induction v as [|b|l|s|l IH|m IH] using json_nested_ind; intros a Hwf Hd; simpl in *;
    simplify_eq; try done.
  - destruct (ParseFloat l) as [f|] eqn:E; simplify_eq. simpl.
    apply json_number. by eapply parse_finite.
  - destruct (result_map go_decode l) as [r|] eqn:E; simpl in Hd; simplify_eq. simpl.
    apply result_map_Forall2 in E. induction E as [|x y l r Hxy Hl IHl]; [done|].
    simpl in *. boolprop. apply Forall_cons in IH as [Hx IH]. by rewrite (Hx y), IHl.
  - destruct (result_map _ m) as [r|] eqn:E; simpl in Hd; simplify_eq. simpl.
    apply andb_true_iff in Hwf as [Hnd Hwf].
    assert (map fst (map (fun kv => (fst kv, go_encode (snd kv))) r) = map fst m) as Hkeys.
    { apply result_map_Forall2 in E. clear -E. induction E as [|[k x] [k' y] m r Hxy Hm IHm]; [done|].
      simpl in *. destruct (go_decode x); simpl in Hxy; simplify_eq. by rewrite IHm. }
    apply andb_true_iff. split.
    { unfold nodup_keys, akeys in *. by rewrite Hkeys. }
    apply result_map_Forall2 in E. clear Hnd Hkeys.
    induction E as [|[k x] [k' y] m r Hxy Hm IHm]; [done|]. simpl in *.
    destruct (go_decode x) as [a|] eqn:Ea; simpl in Hxy; simplify_eq. boolprop.
    apply Forall_cons in IH as [Hx IH]. apply andb_true_iff. split; [|by apply IHm].
    apply andb_true_iff. split; [done|by apply Hx].
Qed.

Definition file_wf (rf : ResultFile) : bool := well_formed (file_to_json rf).

Definition file_text (rf : ResultFile) : string := MarshalIndent (file_to_json rf) +:+ newline.

(** What a stored file is read as: its numbers have become float64s. *)
Definition loads (rf rf' : ResultFile) : Prop := file_of_json (file_to_json rf) = Ok rf'.

Lemma load_text rf : file_wf rf = true -> Unmarshal (file_text rf) = Ok (file_to_json rf).
Proof. intros Hwf. apply unmarshal_read. unfold file_text. rewrite read_newline. by apply read_indent. Qed.

Lemma map_encode_wf l r :
  forallb well_formed (map go_encode l) = true -> result_map go_decode (map go_encode l) = Ok r ->
  forallb well_formed (map go_encode r) = true.
Proof.
  intros Hwf E. apply result_map_Forall2 in E. revert Hwf. remember (map go_encode l) as vs eqn:Ev.
  clear Ev. induction E as [|v a vs r Hva Hvs IH]; [done|]. simpl. intros [Hv Hl]%andb_true_iff.
  rewrite (decode_well_formed v a) by done. by apply IH.
Qed.

(** The values of a list after a trip through a file. *)
Definition through (l r : list any) : Prop := result_map go_decode (map go_encode l) = Ok r.

Definition item_through (it it' : Item) : Prop :=
  ItID it' = ItID it /\
  match ItSort it with
  | None => ItSort it' = None
  | Some l => exists r, through l r /\ ItSort it' = Some r
  end.

Record file_through (rf rf' : ResultFile) : Prop := {
  ft_version : RfVersion rf' = RfVersion rf;
  ft_schema : RfSchema rf' = RfSchema rf;
  ft_search : RfSearch rf' = RfSearch rf;
  ft_collection : RfCollection rf' = RfCollection rf;
  ft_key : through (RfKey rf) (RfKey rf');
  ft_items : Forall2 item_through (RfItems rf) (RfItems rf');
}.

Lemma result_item_through it it' :
  result_item (item_to_json it) = Ok it' -> item_through it it'.
Proof.
  unfold result_item, item_to_json, anys_field, item_through, through. simpl.
  destruct (ItSort it) as [l|]; simpl.
  - destruct (result_map _ _) as [r|]; simpl; intros [= <-]. simpl. eauto.
  - intros [= <-]. done.
Qed.

Lemma file_of_to_json rf :
  file_of_json (file_to_json rf) =
  result_bind (result_map go_decode (map go_encode (RfKey rf))) (fun key =>
  result_bind (result_map result_item (map item_to_json (RfItems rf))) (fun items =>
  Ok (mkResultFile (RfVersion rf) (RfSchema rf) (RfSearch rf) (RfCollection rf) key items))).
Proof.
  unfold file_of_json. set (v := file_to_json rf).
  change (object_or_null v) with (Ok v). cbn [result_bind].
  change (string_field v "#") with (Ok (RfVersion rf)).
  change (string_field v "$") with (Ok (RfSchema rf)).
  change (string_field v "search") with (Ok (RfSearch rf)).
  change (string_field v "collection") with (Ok (RfCollection rf)).
  change (array_field v "items") with (Ok (map item_to_json (RfItems rf))). cbn [result_bind].
  assert (anys_field v "key" = match RfKey rf with
                               | [] => Ok None
                               | l => result_bind (result_map go_decode (map go_encode l))
                                        (fun r => Ok (Some r))
                               end) as -> by (subst v; unfold anys_field; simpl; by destruct (RfKey rf)).
  destruct (RfKey rf) as [|a l]; [done|].
  by destruct (result_map go_decode (map go_encode (a :: l))).
Qed.

Lemma loads_through rf rf' : loads rf rf' -> file_through rf rf'.
Proof.
  unfold loads. rewrite file_of_to_json. unfold through.
  destruct (result_map go_decode _) as [key|] eqn:Ek; simpl; [|done].
  destruct (result_map result_item _) as [items|] eqn:Ei; simpl; [|done].
  intros [= <-]. split; try done. simpl. apply result_map_Forall2 in Ei.
  rewrite Forall2_fmap_l in Ei. eapply Forall2_impl; [exact Ei|].
  intros it it' Hit. by apply result_item_through.
Qed.

Lemma through_ids rf rf' : file_through rf rf' -> map ItID (RfItems rf') = map ItID (RfItems rf).
Proof.
  intros [_ _ _ _ _ Hi]. induction Hi as [|it it' l l' [Hid _] Hl IH]; [done|]. simpl. by rewrite Hid, IH.
Qed.

Definition anys_wf (l : list any) : bool := forallb well_formed (map go_encode l).

Definition item_wf (it : Item) : bool :=
  ValidString (ItID it) && match ItSort it with Some l => anys_wf l | None => true end.

Lemma file_wf_eq rf :
  file_wf rf = ValidString (RfVersion rf) && ValidString (RfSchema rf) && ValidString (RfSearch rf) &&
    ValidString (RfCollection rf) && anys_wf (RfKey rf) && forallb item_wf (RfItems rf).
Proof.
  assert (forallb well_formed (map item_to_json (RfItems rf)) = forallb item_wf (RfItems rf)) as E.
  { induction (RfItems rf) as [|it l IH]; [done|]. simpl map. cbn [forallb]. rewrite IH. f_equal.
    unfold item_to_json, item_wf, anys_wf. destruct (ItSort it) as [l'|]; simpl;
      rewrite ?andb_true_r; [apply andb_comm|done]. }
  unfold file_wf, file_to_json.
  set (k := match RfKey rf with [] => JNull | l => JArr (map go_encode l) end).
  assert (well_formed k = anys_wf (RfKey rf)) as <- by (subst k; by destruct (RfKey rf)).
  clearbody k. rewrite <-E. set (items := map item_to_json (RfItems rf)). clearbody items.
  cbn [well_formed forallb fst snd]. rewrite andb_true_r, <-!andb_assoc. done.
Qed.

Lemma through_wf rf rf' : file_through rf rf' -> file_wf rf = true -> file_wf rf' = true.
Proof.
  rewrite !file_wf_eq. intros [-> -> -> -> Hk Hi] Hwf. boolprop.
  assert (anys_wf (RfKey rf') = true) as -> by (by eapply map_encode_wf).
  assert (forallb item_wf (RfItems rf') = true) as ->.
  { match goal with H : forallb item_wf _ = true |- _ => revert H end. clear -Hi FL OL.
    induction Hi as [|it it' l l' [Hid Hs] Hl IH]; [done|]. simpl. intros [Hw1 Hw2]%andb_true_iff.
    apply andb_true_iff. split; [|by apply IH]. unfold item_wf in *. rewrite Hid.
    apply andb_true_iff in Hw1 as [-> Hv]. destruct (ItSort it) as [v|]; [|by rewrite Hs].
    destruct Hs as (r & Hr & ->). by eapply map_encode_wf. }
  repeat match goal with H : _ = true |- _ => rewrite H; clear H end. done.
Qed.

(** ** Reading, and read-modify-write, under any failures *)

Context `{E : Env}.

(** The tree holds the file [x] at [p], one this package wrote, or none. *)
Definition bucket_is (f : fs) (p : path) (x : option ResultFile) : Prop :=
  content f p = file_text <$> x /\ forall rf, x = Some rf -> file_wf rf = true.

Definition read_as (x : option ResultFile) (rf : ResultFile) (existed : bool) : Prop :=
  match x with
  | None => rf = empty_file /\ existed = false
  | Some rf0 => loads rf0 rf /\ existed = true
  end.

Lemma read_as_wf x rf existed :
  (forall rf, x = Some rf -> file_wf rf = true) -> read_as x rf existed -> file_wf rf = true.
Proof.
  intros Hwf. destruct x as [rf0|]; [intros [Hl _]|by intros [-> _]].
  eapply through_wf; [by apply loads_through|by apply Hwf].
Qed.

Lemma LoadResultFile_spec p x s :
  bucket_is (st_fs s) p x ->
  wp (LoadResultFile p) (fun r s' => st_fs s' = st_fs s /\
    match r with Ok (rf, existed) => read_as x rf existed | Err _ => True end) s.
Proof.
  intros [Hc Hwf]. unfold LoadResultFile. wp_step ReadFile_spec. intros r s1 [Hf Hr].
  destruct r as [data|e].
  - destruct Hr as [Hr|[? _]]; [|done]. pose proof (fs_read_ok _ _ _ (eq_sym Hr)) as Hd.
    rewrite Hc in Hd. destruct x as [rf0|]; [|done]. simpl in Hd. injection Hd as <-.
    rewrite load_text by auto. simpl.
    destruct (file_of_json (file_to_json rf0)) as [rf|] eqn:El; by apply wp_ret.
  - destruct (is_not_exist e) eqn:Ee; apply wp_ret; (split; [done|]); [|done].
    destruct Hr as [Hr|[[= ->] _]]; [|done].
    rewrite (content_read_missing _ _ _ (eq_sym Hr) Ee) in Hc. by destruct x.
Qed.

(** What a mutation must do for its read-modify-write: [inv] holds of the file
    throughout and [goal] of the file it ends in. *)
Record mutation_ok (mutate : ResultFile -> bool -> result (ResultFile * bool))
    (inv goal : option ResultFile -> Prop) : Prop := {
  mo_goal : forall x, goal x -> inv x;
  mo_keep : forall x rf existed rf', inv x -> read_as x rf existed ->
    mutate (with_schema rf) existed = Ok (rf', false) -> goal x;
  mo_write : forall x rf existed rf' v, inv x -> (forall rf, x = Some rf -> file_wf rf = true) ->
    read_as x rf existed -> mutate (with_schema rf) existed = Ok (rf', true) ->
    ValidString v = true ->
    file_wf (set_version rf' v) = true /\ goal (Some (set_version rf' v));
}.

Definition valid_ids : Prop := forall n v, newid n = Ok v -> ValidString v = true.

Lemma apply_attempts_spec n p mutate inv goal x s :
  valid_ids -> is_temp p = false -> mutation_ok mutate inv goal ->
  bucket_is (st_fs s) p x -> inv x ->
  wp (apply_attempts n p mutate) (fun r s' =>
    keeps (written p) (st_fs s) (st_fs s') /\
    exists x', bucket_is (st_fs s') p x' /\ if is_ok r then goal x' else inv x') s.
Proof.
  intros Hids Ht Hm. revert x s. induction n as [|n IH]; intros x s Hx Hinv; simpl.
  { apply wp_ret. split; [done|]. by exists x. }
  wp_step LoadResultFile_spec; [exact Hx|]. intros r s1 [Hf1 Hr].
  destruct r as [[rf existed]|e]; [|split; [by rewrite Hf1|]; exists x; by rewrite Hf1].
  assert (bucket_is (st_fs s1) p x) as Hx1 by (by rewrite Hf1).
  destruct (mutate (with_schema rf) existed) as [[rf' []]|e] eqn:Em; cycle 1.
  { apply wp_ret. split; [by rewrite Hf1|]. exists x. split; [done|]. by eapply mo_keep. }
  { apply wp_ret. split; [by rewrite Hf1|]. by exists x. }
  apply wp_rbind. unfold wp at 1, NewID. destruct (newid (st_ids s1)) as [v|e] eqn:Ev; cycle 1.
  { split; [simpl; by rewrite Hf1|]. by exists x. }
  set (s2 := mkSt _ _ _). destruct (mo_write _ _ _ Hm x rf existed rf' v) as [Hwf Hgoal]; try done.
  { apply Hx. }
  { by eapply Hids. }
  assert (st_fs s2 = st_fs s) as Hf2 by (by simpl).
  apply wp_rbind. unfold WriteResultFile. eapply wp_mono; [by apply WriteFileAtomic_spec|].
  intros [u|e] s3 Hf3; cbv beta in Hf3; cycle 1.
  { rewrite Hf2 in Hf3. split; [eapply keeps_mono; [exact Hf3|]; intros q Hq; by right|].
    exists x. split; [|done]. destruct Hx as [Hx Hx']. split; [|done]. rewrite Hf3; [done|].
    intros [Hq _]. congruence. }
  destruct Hf3 as [Hc K3]. rewrite Hf2 in K3.
  assert (bucket_is (st_fs s3) p (Some (set_version rf' v))) as Hx3.
  { split; [exact Hc|]. by intros rf0 [= <-]. }
  apply wp_bind. eapply wp_mono; [by apply LoadResultFile_spec|].
  intros r4 s4 [Hf4 Hr4]. cbv beta.
  assert (wp (apply_attempts n p mutate) (fun r s' =>
    keeps (written p) (st_fs s) (st_fs s') /\
    exists x', bucket_is (st_fs s') p x' /\ if is_ok r then goal x' else inv x') s4) as Hagain.
  { eapply wp_mono; [apply (IH (Some (set_version rf' v)))|].
    - by rewrite Hf4.
    - by eapply mo_goal.
    - intros r' s' [K' Hx']. split; [|done]. rewrite Hf4 in K'. by eapply keeps_trans. }
  destruct r4 as [[rf4 ex4]|e4]; [|done]. destruct (RfVersion rf4 =? v); [|done].
  apply wp_ret. rewrite Hf4. split; [done|]. eauto.
Qed.
End files.
