(* ===== verification/ChangeAgent.v ===== *)
(** * Package agents/change: distribution of document changes

    [internal/agents/change]: the search mutations of [agent_search.go], the
    schema scan of [schema_scan.go] and the agent of [agent.go], which takes an
    entry of the change queue, files the document under the buckets of every
    search of its collection, stages cache updates for the read members, and
    only then removes the previous document and the queue entry. *)

From S2P Require Import Prelude GoStrings World Shard Json Config Store Docjson Replication.
From S2P Require Import Cache Search.

(** ** Cached references of a schema *)

(** The fields of [schemaNode] decode: a field of the wrong type makes
    [json.Unmarshal] fail. *)
Fixpoint node_decodes (v : json) : bool :=
  match v with
  | JNull => true
  | JObj m =>
      forallb (fun kv =>
        if (fst kv =? "kind") || (fst kv =? "format") then
          match snd kv with JStr _ | JNull => true | _ => false end
        else if fst kv =? "children" then
          match snd kv with JArr l => forallb node_decodes l | JNull => true | _ => false end
        else if fst kv =? "items" then node_decodes (snd kv)
        else true) m
  | _ => false
  end.

(** The [collections] of a [custom] object, nothing when it does not decode. *)
Definition custom_collections (custom : option json) : list string :=
  match custom with
  | Some (JObj m) =>
      match aget m "collections" with
      | Some (JArr l) =>
          if forallb (fun x => match x with JStr _ | JNull => true | _ => false end) l
          then map (fun x => as_string (Some x)) l else []
      | _ => []
      end
  | _ => []
  end.

Fixpoint nodeReferencesCollection (v : json) (target : string) : bool :=
  match v with
  | JObj m =>
      ((as_string (aget m "format") =? "DatoriumCachedRef") &&
       containsString (custom_collections (aget m "custom")) target) ||
      existsb (fun kv =>
        if fst kv =? "children" then
          match snd kv with
          | JArr l => existsb (fun x => nodeReferencesCollection x target) l
          | _ => false
          end
        else if fst kv =? "items" then nodeReferencesCollection (snd kv) target
        else false) m
  | _ => false
  end.

Definition schemaReferencesCollection `{GoJSON} (raw target : string) : bool :=
  match Unmarshal raw with
  | Err _ => false
  | Ok v => if node_decodes v then nodeReferencesCollection v target else false
  end.

Definition anySchemaReferencesCollection `{GoJSON} (cfg : Config) (collection : string) : bool :=
  existsb (fun kv => schemaReferencesCollection (snd kv) collection) (Schemas cfg).

(** ** Delivery to other servers *)

Record searchWriteItem := mkSearchWrite {
  SwCollection : string;
  SwSearch : string;
  SwSegments : list string;
  SwOperation : string;
  SwID : string;
  SwSort : list json;
}.

(** The other servers: what they reply to a search write and to a cache push,
    and the order in which concurrent deliveries finish. *)
Class Peers := {
  send_search : string -> searchWriteItem -> result unit;
  push_cache : string -> WorkItem -> result unit;
  send_order : list string -> list string;
  send_order_perm : forall l, send_order l ≡ₚ l;
}.

Section change.
Context `{Env} `{OJSON} `{GoJSON} `{GoFloat} `{Peers}.

(** ** Local search mutations *)

Definition panic {A} : result A := Err (errorf "panic: index out of range").

Definition upsert_mutation (collection searchName : string) (def : SearchDef) (key : list any)
    (id : string) (sortVals : list SortValue) (rf : ResultFile) (existed : bool)
    : result (ResultFile * bool) :=
  let key' := if negb existed || (length (RfKey rf) =? 0)%nat then key else RfKey rf in
  let rf := mkResultFile (RfVersion rf) (RfSchema rf) searchName collection key' (RfItems rf) in
  match Upsert rf def id sortVals with Some r => Ok r | None => panic end.

Definition remove_mutation (id : string) (rf : ResultFile) (existed : bool)
    : result (ResultFile * bool) :=
  if negb existed then Ok (rf, false) else Ok (RemoveID rf id).

Definition LocalUpsert (dataDir : path) (collection searchName : string) (segments : list string)
    (def : SearchDef) (key : list any) (id : string) (sortVals : list SortValue)
    : M (result unit) :=
  _ <-? ApplyMutation (SearchResultPath dataDir collection searchName segments)
          (upsert_mutation collection searchName def key id sortVals);
  mret (Ok tt).

Definition LocalRemove (dataDir : path) (collection searchName : string)
    (segments : list string) (id : string) : M (result unit) :=
  _ <-? ApplyMutation (SearchResultPath dataDir collection searchName segments)
          (remove_mutation id);
  mret (Ok tt).

(** [handleApplySearchResultWrite] once the request is decoded, authenticated and
    found to be for this server. *)
Definition remote_upsert_mutation (item : searchWriteItem) (def : SearchDef)
    (sortVals : list SortValue) (rf : ResultFile) (existed : bool)
    : result (ResultFile * bool) :=
  let rf := mkResultFile (RfVersion rf) (RfSchema rf) (SwSearch item) (SwCollection item)
              (RfKey rf) (RfItems rf) in
  match Upsert rf def (SwID item) sortVals with Some r => Ok r | None => panic end.

Definition handleApplySearchResultWrite (dataDir : path) (cfg : Config) (item : searchWriteItem)
    : M (result unit) :=
  match aget (Searches cfg) (SwCollection item) with
  | None => mret (Err (errorf "collectionNotFound"))
  | Some defs =>
      match aget defs (SwSearch item) with
      | None => mret (Err (errorf "searchNotFound"))
      | Some raw =>
          match ParseDefinition raw with
          | Err _ => mret (Err (errorf "invalidSearchDefinition"))
          | Ok def =>
              let p := SearchResultPath dataDir (SwCollection item) (SwSearch item)
                         (SwSegments item) in
              if SwOperation item =? "upsert" then
                match result_map go_decode (SwSort item) with
                | Err _ => mret (Err (errorf "invalidRequest"))
                | Ok sort =>
                    _ <-? ApplyMutation p
                            (remote_upsert_mutation item def (SortValuesFromJSON sort));
                    mret (Ok tt)
                end
              else if SwOperation item =? "remove" then
                _ <-? ApplyMutation p (remove_mutation (SwID item)); mret (Ok tt)
              else mret (Err (errorf "unknown operation"))
          end
      end
  end.

(** ** Routing of search mutations *)

Fixpoint dedup (seen : list string) (names : list string) : list string :=
  match names with
  | [] => []
  | n :: ns =>
      if (n =? "") || containsString seen n then dedup seen ns else n :: dedup (n :: seen) ns
  end.

Definition dedupOrdered (first : string) (groups : list (list string)) : list string :=
  dedup [] (first :: concat groups).

Definition searchShardTargets (owner : string) (a : ShardAssignment) : list string :=
  dedupOrdered owner [ShardReadMember a; ProxyReadMember a].

(** The first failure of the deliveries, in the order they finish. *)
Definition send_all (item : searchWriteItem) (targets : list string) : result unit :=
  foldl (fun acc t => match acc with
                      | Err e => Err e
                      | Ok _ => match send_search t item with
                                | Ok _ => Ok tt
                                | Err _ => Err (errorf ("replicate search to " +:+ t))
                                end
                      end) (Ok tt) (send_order targets).

Record ChangeAgent := mkChangeAgent {
  ChDataDir : path;
  ChServerName : string;
  ChCfg : option Config;
  ChRemote : bool;        (* the shard router has a remote applier *)
  ChCachePush : bool;     (* the agent has a cache pusher *)
}.

Definition deliver (a : ChangeAgent) (cfg : Config) (item : searchWriteItem)
    (localApply : M (result unit)) : M (result unit) :=
  let slot := ShardSlot (SwSegments item) in
  let owner := SOTForSlot (Some cfg) slot in
  match SlotAssignment (Some cfg) slot with
  | None =>
      if (owner =? "") || (owner =? ChServerName a) then localApply
      else if negb (ChRemote a) then mret (Err (errorf "cross-server search delivery is not configured"))
      else mret (send_search owner item)
  | Some assignment =>
      let targets := searchShardTargets owner assignment in
      let others := List.filter (fun t => t <>? ChServerName a) targets in
      r ← (if containsString targets (ChServerName a) then localApply else mret (Ok tt));
      match r with
      | Err e => mret (Err e)
      | Ok _ =>
          match others with
          | [] => mret (Ok tt)
          | _ =>
              if negb (ChRemote a)
              then mret (Err (errorf "cross-server search delivery is not configured"))
              else mret (send_all item others)
          end
      end
  end.

Definition RouterUpsert (a : ChangeAgent) (cfg : Config) (collection searchName : string)
    (segments : list string) (def : SearchDef) (key : list any) (id : string)
    (sortVals : list SortValue) : M (result unit) :=
  deliver a cfg
    (mkSearchWrite collection searchName segments "upsert" id
       (map go_encode (SortValuesToJSON sortVals)))
    (LocalUpsert (ChDataDir a) collection searchName segments def key id sortVals).

Definition RouterRemove (a : ChangeAgent) (cfg : Config) (collection searchName : string)
    (segments : list string) (id : string) : M (result unit) :=
  deliver a cfg (mkSearchWrite collection searchName segments "remove" id [])
    (LocalRemove (ChDataDir a) collection searchName segments id).

(** ** Search distribution *)

(** Buckets by shard input; a later bucket replaces an earlier one. *)
Definition bucketIndex (buckets : list EvalResult) : list (string * EvalResult) :=
  foldl (fun out b => aset out (ShardInput (Segments b)) b) [] buckets.

Fixpoint remove_buckets (a : ChangeAgent) (cfg : Config) (collection name id : string)
    (old new : list (string * EvalResult)) : M (result unit) :=
  match old with
  | [] => mret (Ok tt)
  | (key, res) :: old' =>
      if ahas new key then remove_buckets a cfg collection name id old' new
      else RouterRemove a cfg collection name (Segments res) id ;?
           remove_buckets a cfg collection name id old' new
  end.

Fixpoint upsert_buckets (a : ChangeAgent) (cfg : Config) (collection name id : string)
    (def : SearchDef) (sortVals : list SortValue) (new : list (string * EvalResult))
    : M (result unit) :=
  match new with
  | [] => mret (Ok tt)
  | (_, res) :: new' =>
      RouterUpsert a cfg collection name (Segments res) def (Key res) id sortVals ;?
      upsert_buckets a cfg collection name id def sortVals new'
  end.

Definition distribute_search_one (a : ChangeAgent) (cfg : Config) (collection id : string)
    (prevDoc currentDoc : option (list (string * any))) (e : string * string)
    : M (result unit) :=
  let '(name, raw) := e in
  match ParseDefinition raw with
  | Err err => mret (Err err)
  | Ok def =>
      match EvaluateDocument def prevDoc with
      | Err err => mret (Err err)
      | Ok oldBuckets =>
          match EvaluateDocument def currentDoc with
          | Err err => mret (Err err)
          | Ok newBuckets =>
              let oldByKey := bucketIndex oldBuckets in
              let newByKey := bucketIndex newBuckets in
              remove_buckets a cfg collection name id oldByKey newByKey ;?
              match newBuckets with
              | [] => mret (Ok tt)
              | _ =>
                  upsert_buckets a cfg collection name id def
                    (ComputeSortValues def (default [] currentDoc)) newByKey
              end
          end
      end
  end.

Fixpoint distribute_searches (a : ChangeAgent) (cfg : Config) (collection id : string)
    (prevDoc currentDoc : option (list (string * any))) (defs : list (string * string))
    : M (result unit) :=
  match defs with
  | [] => mret (Ok tt)
  | d :: defs' =>
      distribute_search_one a cfg collection id prevDoc currentDoc d ;?
      distribute_searches a cfg collection id prevDoc currentDoc defs'
  end.

Definition distributeSearch (a : ChangeAgent) (cfg : Config) (collection id : string)
    (prevDoc currentDoc : option (list (string * any))) : M (result unit) :=
  distribute_searches a cfg collection id prevDoc currentDoc
    (default [] (aget (Searches cfg) collection)).

(** ** Cache distribution *)

(** The work item of a change; [None] when there is nothing to distribute. *)
Definition cache_item (collection id change op : string) (currentDoc prevDoc : option fields)
    : option WorkItem :=
  let version doc := match doc with Some m => as_string (aget m "#") | None => "" end in
  if change =? "delete" then
    Some (mkWorkItem collection id (version prevDoc) "" op change (Some (stub id)))
  else match currentDoc with
       | None => None
       | Some m =>
           Some (mkWorkItem collection id (version prevDoc) (version currentDoc) op change (Some m))
       end.

(** One target: [Ok complete], or the failure to store the work item. *)
Definition distribute_cache_to (a : ChangeAgent) (item : WorkItem) (server : string)
    : M (result bool) :=
  let forget :=
    r ← DeleteWorkItem (ChDataDir a) (SourceCollection item) server (SourceDocumentID item);
    mret (Ok (is_ok r)) in
  r ← WriteWorkItem (ChDataDir a) server item;
  match r with
  | Err _ => mret (Err (errorf "write pending cache update"))
  | Ok _ =>
      if server =? ChServerName a then
        r ← ApplyCache (ChDataDir a) item;
        match r with
        | Err _ => mret (Ok false)
        | Ok _ => forget
        end
      else if negb (ChCachePush a) then mret (Ok false)
      else match push_cache server item with
           | Err _ => mret (Ok false)
           | Ok _ => forget
           end
  end.

Fixpoint distribute_cache_all (a : ChangeAgent) (item : WorkItem) (complete : bool)
    (targets : list string) : M (result bool) :=
  match targets with
  | [] => mret (Ok complete)
  | server :: targets' =>
      ok <-? distribute_cache_to a item server;
      distribute_cache_all a item (complete && ok) targets'
  end.

Definition distributeCache (a : ChangeAgent) (cfg : Config) (collection id change : string)
    (currentDoc prevDoc : option fields) : M (result bool) :=
  if negb (anySchemaReferencesCollection cfg collection) then mret (Ok true)
  else
    match AllReadMembers (Some cfg) with
    | [] => mret (Ok true)
    | targets =>
        op <-? NewID;
        match cache_item collection id change op currentDoc prevDoc with
        | None => mret (Ok true)
        | Some item => distribute_cache_all a item true targets
        end
    end.

(** ** One queue entry *)

Definition readOptionalDoc (p : path) : M (result (option fields)) :=
  r ← ReadDocumentJSON p;
  match r with
  | Ok doc => mret (Ok (Some doc))
  | Err e => if is_not_exist e then mret (Ok None) else mret (Err e)
  end.

(** A document map as the search package sees it. *)
Definition native_doc (m : fields) : list (string * any) :=
  map (fun kv => (fst kv, native (snd kv))) m.

Definition process (a : ChangeAgent) (cfg : Config) (change collection id : string)
    : M (result bool) :=
  currentDoc <-? readOptionalDoc (DocumentPath (ChDataDir a) collection id);
  prevDoc <-? readOptionalDoc (PreviousDocumentPath (ChDataDir a) collection id);
  cacheComplete <-? distributeCache a cfg collection id change currentDoc prevDoc;
  distributeSearch a cfg collection id (native_doc <$> prevDoc) (native_doc <$> currentDoc) ;?
  mret (Ok cacheComplete).

(** The result of [runEntryResult]: complete, claimed, and the error. *)
Record entry_result := mkEntryResult {
  er_complete : bool;
  er_claimed : bool;
  er_err : option error;
}.

(** Processing and cleanup of an entry that is ours. *)
Definition finish_entry (a : ChangeAgent) (cfg : Config) (change collection id : string)
    : M entry_result :=
  r ← process a cfg change collection id;
  match r with
  | Err e => mret (mkEntryResult false true (Some e))
  | Ok complete =>
      r ← remove_if_present (PreviousDocumentPath (ChDataDir a) collection id);
      match r with
      | Err _ => mret (mkEntryResult false true (Some (errorf "remove previous dotfile")))
      | Ok _ =>
          r ← remove_if_present (TakenQueuePath (ChDataDir a) collection change id);
          match r with
          | Err _ => mret (mkEntryResult false true (Some (errorf "remove taken marker")))
          | Ok _ => mret (mkEntryResult complete true None)
          end
      end
  end.

Definition runEntryResult (a : ChangeAgent) (cfg : Config)
    (change collection id filename ext : string) : M entry_result :=
  if ext =? "queue" then
    r ← Rename (QueueEntryPath (ChDataDir a) collection filename)
               (TakenQueuePath (ChDataDir a) collection change id);
    match r with
    | Err e =>
        if is_not_exist e then mret (mkEntryResult false false None)
        else mret (mkEntryResult false false (Some (errorf "claim")))
    | Ok _ => finish_entry a cfg change collection id
    end
  else finish_entry a cfg change collection id.

(** [busy] says which keys another worker holds in the exclusion set; the set is
    as before when the entry is done. *)
Definition ProcessNow (a : ChangeAgent) (busy : string -> bool) (change collection id : string)
    : M (bool * option error) :=
  match ChCfg a with
  | None => mret (false, None)
  | Some cfg =>
      if busy (collection +:+ "/" +:+ id) then mret (false, None)
      else
        let filename := queue_name change collection id ".queue" in
        let run ext :=
          r ← runEntryResult a cfg change collection id filename ext;
          mret (er_complete r, er_err r) in
        r ← Stat (TakenQueuePath (ChDataDir a) collection change id);
        match r with
        | Ok _ => run "taken"
        | Err _ =>
            r ← Stat (QueueEntryPath (ChDataDir a) collection filename);
            match r with
            | Ok _ => run "queue"
            | Err e => mret (false, if is_not_exist e then None else Some e)
            end
        end
  end.

(** [distributorAdapter.ProcessNow] of [cmd/datoriumdb/main.go]: what the engine
    asks of the agent after a commit; the engine reads [Complete] only. *)
Definition distributorAdapter (a : ChangeAgent) (busy : string -> bool)
    (change collection id : string) : M bool :=
  r ← ProcessNow a busy change collection id; mret (fst r).

(** The entries of one collection: the first one that is claimed ends the scan. *)
Fixpoint run_entries (a : ChangeAgent) (cfg : Config) (busy : string -> bool)
    (names : list string) : M (option (option error)) :=
  match names with
  | [] => mret None
  | name :: names' =>
      match ParseQueueFilename name with
      | None => run_entries a cfg busy names'
      | Some (change, col, id, ext) =>
          if busy (col +:+ "/" +:+ id) then run_entries a cfg busy names'
          else
            r ← runEntryResult a cfg change col id name ext;
            if er_claimed r then mret (Some (er_err r)) else run_entries a cfg busy names'
      end
  end.

Fixpoint run_collections (a : ChangeAgent) (cfg : Config) (busy : string -> bool)
    (collections : list string) : M (option (option error)) :=
  match collections with
  | [] => mret None
  | collection :: cs =>
      r ← ListQueueEntries (ChDataDir a) collection;
      match r with
      | Err _ => run_collections a cfg busy cs
      | Ok entries =>
          r ← run_entries a cfg busy entries;
          match r with
          | Some e => mret (Some e)
          | None => run_collections a cfg busy cs
          end
      end
  end.

(** [didWork] and the error. *)
Definition RunOnce (a : ChangeAgent) (busy : string -> bool) : M (bool * option error) :=
  match ChCfg a with
  | None => mret (false, None)
  | Some cfg =>
      r ← ListCollections (ChDataDir a);
      match r with
      | Err e => mret (false, Some e)
      | Ok collections =>
          r ← run_collections a cfg busy collections;
          match r with
          | Some e => mret (true, e)
          | None => mret (false, None)
          end
      end
  end.
End change.
