(* ===== verification/ChangeSpec.v ===== *)
(** * The change agent keeps the search index

    What a search reads is what the change agent has filed: when [distributeSearch]
    reports success, whatever system calls failed on the way, the document is
    listed in exactly the buckets its current contents give it, and the other
    documents are listed as before. *)

From S2P Require Import Prelude GoStrings World Shard Json Config Store Docjson Replication.
From S2P Require Import Cache Search SearchSpec SearchStore ChangeAgent.

(** ** Values of documents *)

Section values.
Context `{OL : OJSONLaws} `{GoFloat} `{FL : !GoFloatLaws}.

Lemma encode_native v : go_encode (native v) = v.
Proof.
  induction v as [|b|l|s|l IH|m IH] using json_nested_ind; try done; simpl; f_equal.
  - rewrite map_map. induction IH as [|x l Hx Hl IHl]; [done|]. simpl. by rewrite Hx, IHl.
  - rewrite map_map. induction IH as [|[k x] m Hx Hm IHm]; [done|]. simpl in *. by rewrite Hx, IHm.
Qed.

(** A value whose encoding is well formed. *)
Definition any_wf (a : any) : bool := well_formed (go_encode a).

Lemma aget_native m k :
  aget (native_doc m) k = native <$> aget m k.
Proof.
  induction m as [|[k' v] m IH]; [done|]. simpl. by destruct (k =? k').
Qed.

Lemma pointer_walk_native v segs a :
  well_formed v = true -> pointer_walk (native v) segs = Some a ->
  exists w, a = native w /\ well_formed w = true.
Proof.
  revert v. induction segs as [|seg segs IH]; intros v Hwf E; simpl in E.
  { injection E as <-. eauto. }
  destruct v as [| | | |l|m]; try done; simpl in E, Hwf.
  - destruct (Atoi seg) as [i|]; [|done]. destruct (_ || _); [done|].
    change (list any) with (list any) in E.
    rewrite list_lookup_fmap in E. destruct (l !! Z.to_nat i) as [w|] eqn:El; [|done]. simpl in E.
    apply (IH w); [|done]. rewrite forallb_forall in Hwf. apply Hwf.
    apply list_elem_of_In. by eapply list_elem_of_lookup_2.
  - change (map (fun kv => (fst kv, native (snd kv))) m) with (native_doc m) in E.
    rewrite aget_native in E. destruct (aget m seg) as [w|] eqn:Ew; [|done]. simpl in E.
    apply (IH w); [|done]. apply andb_true_iff in Hwf as [_ Hwf].
    rewrite forallb_forall in Hwf. apply aget_Some_in, list_elem_of_In, Hwf in Ew.
    simpl in Ew. by boolprop.
Qed.

Lemma PointerGet_native m p a :
  well_formed (JObj m) = true -> PointerGet (native_doc m) p = Some a ->
  exists w, a = native w /\ well_formed w = true.
Proof. intros Hwf E. by apply (pointer_walk_native (JObj m) (splitFieldPath p)). Qed.

Lemma PointerGet_wf m p a :
  well_formed (JObj m) = true -> PointerGet (native_doc m) p = Some a -> any_wf a = true.
Proof.
  intros Hwf E. destruct (PointerGet_native m p a Hwf E) as (w & -> & Hw).
  unfold any_wf. by rewrite encode_native.
Qed.

Lemma ComputeSortValues_wf def m :
  well_formed (JObj m) = true ->
  anys_wf (SortValuesToJSON (ComputeSortValues def (native_doc m))) = true.
Proof.
  intros Hwf. unfold anys_wf, SortValuesToJSON, ComputeSortValues. rewrite !map_map.
  apply forallb_forall. intros v (s & <- & Hs)%in_map_iff. unfold sort_value.
  destruct (SoField s =? "/!").
  - simpl. rewrite aget_native. destruct (aget m "!") as [w|] eqn:E; [|done]. simpl.
    destruct w; try done. apply aget_Some_in, list_elem_of_In in E. simpl in Hwf.
    apply andb_true_iff in Hwf as [_ Hwf]. rewrite forallb_forall in Hwf. apply Hwf in E.
    simpl in E. by boolprop.
  - destruct (PointerGet (native_doc m) (SoField s)) as [a|] eqn:E; [|done].
    apply PointerGet_wf in E; [|done]. by destruct a.
Qed.

(** Keys of buckets. *)
Lemma item_option_wf item seg key :
  any_wf item = true -> item_option item = Some (seg, key) -> any_wf key = true.
Proof.
  unfold item_option. intros Hwf E. destruct (inferScalarKind item) as [kind|] eqn:Ek; [|done].
  destruct (_ && _); [done|]. destruct (EncodeScalarByKind kind item); [|done].
  injection E as <- <-. unfold normalizeKey. destruct kind; try done.
  destruct (asFloat64 item) as [f|] eqn:Ef; [|done]. unfold any_wf in *. simpl.
  destruct item; simpl in *; try done.
  - apply json_number. by eapply parse_finite.
  - by simplify_eq.
Qed.

Lemma contains_options_wf seen items :
  Forall (fun a => any_wf a = true) items ->
  Forall (fun o => any_wf (snd o) = true) (contains_options seen items).
Proof.
  intros Hi. revert seen. induction Hi as [|item items Hit Hitems IH]; intros seen; simpl; [constructor|].
  destruct (item_option item) as [[seg key]|] eqn:E; [|apply IH].
  destruct (containsString seen seg); [apply IH|]. constructor; [|apply IH].
  by eapply item_option_wf.
Qed.

Lemma evaluateClause_wf c m out :
  well_formed (JObj m) = true -> evaluateClause c (native_doc m) = Ok out ->
  Forall (fun o => any_wf (snd o) = true) (options out).
Proof.
  intros Hwf.
  assert (forall seg key a b, any_wf key = true ->
    Forall (fun o => any_wf (snd o) = true) (options (singleSegment seg key a b))) as Hsingle.
  { intros seg key a b Hk. unfold singleSegment. simpl. destruct (a && b); by repeat constructor. }
  assert (forall b, Forall (fun o => any_wf (snd o) = true) (options (truth_segment b))) as Htruth
    by (intros b; by apply Hsingle).
  pose proof (PointerGet_wf m (ClField c)) as Hget.
  unfold evaluateClause, evaluateEquals, evaluateIn, evaluateExists, evaluateContains.
  intros E. repeat split_match_in E; simplify_eq; try (constructor; fail); auto.
  simpl. rewrite <-Heql0. apply contains_options_wf.
  specialize (Hget _ Hwf eq_refl). unfold any_wf in Hget. simpl in Hget.
  rewrite Forall_forall. intros a Ha. rewrite forallb_forall in Hget. apply Hget, in_map_iff.
  exists a. split; [done|]. by apply list_elem_of_In.
Qed.

Lemma expand_from_keys cur outs :
  Forall (fun r => anys_wf (Key r) = true) cur ->
  Forall (fun out => Forall (fun o => any_wf (snd o) = true) (options out)) outs ->
  Forall (fun r => anys_wf (Key r) = true) (expand_from cur outs).
Proof.
  intros Hcur Houts. revert cur Hcur. induction Houts as [|out outs Ho Houts IH]; intros cur Hcur;
    simpl; [done|].
  destruct (contributes out); simpl; [|by apply IH]. destruct (options out) as [|o os] eqn:Eo; [constructor|].
  apply IH. unfold extend_prefixes. rewrite Forall_forall. intros r Hr.
  apply list_elem_of_In, in_flat_map in Hr as (p & Hp & (o' & <- & Ho')%in_map_iff). simpl.
  unfold anys_wf in *. rewrite map_app, forallb_app. simpl. rewrite andb_true_r.
  rewrite Forall_forall in Hcur. rewrite Forall_forall in Ho. apply andb_true_iff. split.
  - apply Hcur. by apply list_elem_of_In.
  - apply Ho. by apply list_elem_of_In.
Qed.

Lemma evaluated_keys_wf def m results r :
  well_formed (JObj m) = true -> EvaluateDocument def (Some (native_doc m)) = Ok results ->
  r ∈ results -> anys_wf (Key r) = true.
Proof.
  unfold EvaluateDocument. intros Hwf.
  destruct (evaluate_clauses (DfClauses def) (native_doc m)) as [[outs|]|] eqn:E; simpl;
    intros [= <-] Hr; [|by apply elem_of_nil in Hr].
  assert (Forall (fun out => Forall (fun o => any_wf (snd o) = true) (options out)) outs) as Ho.
  { clear Hr. revert outs E. induction (DfClauses def) as [|c cs IH]; intros outs E; simpl in E.
    { injection E as <-. constructor. }
    destruct (evaluateClause c _) as [out|] eqn:Eo; [|done]. simpl in E.
    destruct (included out); simpl in E; [|done].
    destruct (evaluate_clauses cs _) as [[outs'|]|] eqn:Er; simpl in E; simplify_eq.
    constructor; [by eapply evaluateClause_wf|by apply IH]. }
  pose proof (expand_from_keys [mkEval [] []] outs ltac:(by repeat constructor) Ho) as Hk.
  rewrite Forall_forall in Hk. by apply Hk.
Qed.
End values.

(** ** Mutations of one bucket *)

Section buckets.
Context `{OL : OJSONLaws} `{GJ : GoJSON} `{!GoJSONLaws} `{GoFloat} `{FL : !GoFloatLaws} `{E : Env}.

Definition ids_of (x : option ResultFile) : list string :=
  match x with Some rf => map ItID (RfItems rf) | None => [] end.

Definition without (id : string) (ids : list string) : list string :=
  List.filter (fun i => i <>? id) ids.

Lemma others_ids id items : map ItID (others id items) = without id (map ItID items).
Proof.
  unfold others, without. induction items as [|it items IH]; [done|]. simpl.
  destruct (ItID it <>? id); simpl; by rewrite IH.
Qed.

Lemma without_app id l1 l2 : without id (l1 ++ l2) = without id l1 ++ without id l2.
Proof. apply List.filter_app. Qed.

Lemma without_same id l : without id (id :: l) = without id l.
Proof. unfold without. simpl. by rewrite String.eqb_refl. Qed.

Lemma without_absent id l : id ∉ l -> without id l = l.
Proof.
  unfold without. induction l as [|x l IH]; [done|]. simpl. rewrite not_elem_of_cons. intros [Hx Hl].
  rewrite (proj2 (String.eqb_neq _ _)) by congruence. simpl. by rewrite IH.
Qed.

(** What a bucket lists besides [id]. *)
Definition bucket_inv (id : string) (rest : list string) (x : option ResultFile) : Prop :=
  NoDup (ids_of x) /\ without id (ids_of x) = rest.

Definition listed (id : string) (rest : list string) (x : option ResultFile) : Prop :=
  bucket_inv id rest x /\ id ∈ ids_of x.

Definition unlisted (id : string) (rest : list string) (x : option ResultFile) : Prop :=
  bucket_inv id rest x /\ id ∉ ids_of x.

(** [Upsert] without any assumption on the order of the rows. *)
Lemma Upsert_shape rf def id vals rf' changed :
  NoDup (map ItID (RfItems rf)) -> Upsert rf def id vals = Some (rf', changed) ->
  (changed = false /\ rf' = rf /\ id ∈ map ItID (RfItems rf)) \/
  (changed = true /\ exists l1 l2, rf' = placed rf id vals l1 l2 /\
     l1 ++ l2 = others id (RfItems rf) /\ id ∉ map ItID (l1 ++ l2)).
Proof.
  intros Hnd. unfold Upsert, IndexOf. pose proof (index_from_spec 0 (RfItems rf) id) as Hi.
  destruct (index_from 0 (RfItems rf) id) as [n|].
  - destruct Hi as (l1 & it & l2 & El & -> & Hid & Hn). rewrite Nat.add_0_l, El.
    rewrite list_lookup_middle by done. rewrite cut_at_app.
    assert (id ∉ map ItID (l1 ++ l2) /\ l1 ++ l2 = others id (l1 ++ it :: l2)) as [Hni Hoth].
    { rewrite El, map_app in Hnd. simpl in Hnd. apply NoDup_app in Hnd as (_ & _ & [Hni _]%NoDup_cons).
      rewrite Hid in Hni. split; [by rewrite map_app, not_elem_of_app|].
      by rewrite others_app, others_cons_eq, !others_absent. }
    destruct (match ItSort it with Some l => _ | None => false end).
    { intros [= <- <-]. left. split_and!; [done|done|]. rewrite map_app, <-Hid.
      apply elem_of_app. right. by left. }
    destruct (insert_position _ _ _) as [k|]; [|done]. intros [= <- <-]. right. split; [done|].
    exists (take k (l1 ++ l2)), (drop k (l1 ++ l2)). by rewrite take_drop.
  - destruct (insert_position _ _ _) as [k|]; [|done]. intros [= <- <-]. right. split; [done|].
    exists (take k (RfItems rf)), (drop k (RfItems rf)). rewrite take_drop.
    by rewrite others_absent.
Qed.

Lemma read_as_ids x rf existed : read_as x rf existed -> map ItID (RfItems rf) = ids_of x.
Proof.
  destruct x as [rf0|]; [intros [Hl _]|by intros [-> _]]. by apply through_ids, loads_through.
Qed.

Lemma with_schema_items rf : RfItems (with_schema rf) = RfItems rf.
Proof. unfold with_schema. by destruct (_ =? ""). Qed.

Lemma with_schema_wf rf : file_wf rf = true -> file_wf (with_schema rf) = true.
Proof.
  rewrite !file_wf_eq. unfold with_schema. destruct (RfSchema rf =? ""); [|done]. simpl.
  intros Hw. boolprop. repeat match goal with Hx : _ = true |- _ => rewrite Hx; clear Hx end. done.
Qed.

Lemma forallb_sub {A} (P : A -> bool) l l' :
  (forall x, x ∈ l' -> x ∈ l) -> forallb P l = true -> forallb P l' = true.
Proof.
  intros Hs Hl. apply forallb_forall. intros x Hx. rewrite forallb_forall in Hl.
  apply Hl. apply list_elem_of_In, Hs. by apply list_elem_of_In.
Qed.

Lemma upsert_mutation_ok c n def key id vals rest :
  ValidString c = true -> ValidString n = true -> ValidString id = true ->
  anys_wf key = true -> anys_wf (SortValuesToJSON vals) = true ->
  mutation_ok (upsert_mutation c n def key id vals) (bucket_inv id rest) (listed id rest).
Proof.
  intros Hc Hn Hid Hkey Hvals. unfold upsert_mutation. split.
  - by intros x [? _].
  - intros x rf existed rf' [Hnd Hrest] Hread Hm. set (rf0 := mkResultFile _ _ _ _ _ _) in Hm.
    destruct (Upsert rf0 def id vals) as [[rf1 ch]|] eqn:Eu; [|done]. injection Hm as -> ->.
    assert (map ItID (RfItems rf0) = ids_of x) as Hids.
    { simpl. rewrite with_schema_items. by eapply read_as_ids. }
    apply Upsert_shape in Eu; [|by rewrite Hids].
    destruct Eu as [(_ & _ & Hin)|[? _]]; [|done]. rewrite Hids in Hin. done.
  - intros x rf existed rf' v [Hnd Hrest] Hwfx Hread Hm Hv. set (rf0 := mkResultFile _ _ _ _ _ _) in Hm.
    destruct (Upsert rf0 def id vals) as [[rf1 ch]|] eqn:Eu; [|done]. injection Hm as -> ->.
    assert (map ItID (RfItems rf0) = ids_of x) as Hids.
    { simpl. rewrite with_schema_items. by eapply read_as_ids. }
    apply Upsert_shape in Eu; [|by rewrite Hids].
    destruct Eu as [[? _]|(_ & l1 & l2 & -> & Hoth & Hni)]; [done|].
    pose proof (with_schema_wf _ (read_as_wf _ _ _ Hwfx Hread)) as Hwf. rewrite file_wf_eq in Hwf.
    assert (ids_of (Some (set_version (placed rf0 id vals l1 l2) v)) =
            map ItID l1 ++ id :: map ItID l2) as Hids'.
    { simpl. by rewrite map_app. }
    assert (map ItID l1 ++ map ItID l2 = without id (ids_of x)) as Hw.
    { by rewrite <-map_app, Hoth, others_ids, Hids. }
    split.
    + rewrite file_wf_eq. simpl. rewrite Hv, Hc, Hn. boolprop.
      assert (anys_wf (if negb existed || (length (RfKey (with_schema rf)) =? 0)%nat
                       then key else RfKey (with_schema rf)) = true) as -> by (by destruct (_ || _)).
      rewrite forallb_app. simpl. unfold item_wf at 2. simpl. rewrite Hid, Hvals.
      assert (forallb item_wf (l1 ++ l2) = true) as Hl.
      { rewrite Hoth. eapply forallb_sub; [|eassumption]. simpl. intros it Hit.
        by apply elem_of_lfilter in Hit as [? _]. }
      rewrite forallb_app in Hl. apply andb_true_iff in Hl as [-> ->].
      match goal with Hx : ValidString (RfSchema _) = true |- _ => by rewrite Hx end.
    + rewrite map_app in Hni. unfold listed, bucket_inv. rewrite Hids'. split_and!.
      * apply NoDup_app. rewrite not_elem_of_app in Hni. destruct Hni as [N1 N2].
        assert (NoDup (map ItID l1 ++ map ItID l2)) as Hnd'.
        { rewrite Hw. by apply NoDup_lfilter. }
        apply NoDup_app in Hnd' as (M1 & M2 & M3). split_and!; [done| |by constructor].
        intros i Hi [->|Hi']%elem_of_cons; [done|by eapply M2].
      * rewrite without_app, without_same, <-without_app, Hw, <-Hrest.
        apply without_absent. rewrite <-Hw. done.
      * apply elem_of_app. right. by left.
Qed.

Lemma remove_mutation_ok id rest :
  mutation_ok (remove_mutation id) (bucket_inv id rest) (unlisted id rest).
Proof.
  unfold remove_mutation. split.
  - by intros x [? _].
  - intros x rf existed rf' [Hnd Hrest] Hread Hm. destruct existed; simpl in Hm.
    + pose proof (read_as_ids _ _ _ Hread) as Hids.
      destruct (RemoveID_items (with_schema rf) id) as [_ Hch].
      { by rewrite with_schema_items, Hids. }
      injection Hm as Hm. rewrite Hm in Hch. simpl in Hch. rewrite with_schema_items, Hids in Hch.
      split; [done|]. intros Hin. by apply Hch in Hin.
    + destruct x as [rf0|]; [by destruct Hread|]. split; [done|]. apply not_elem_of_nil.
  - intros x rf existed rf' v [Hnd Hrest] Hwfx Hread Hm Hv. destruct existed; simpl in Hm; [|done].
    pose proof (read_as_ids _ _ _ Hread) as Hids.
    destruct (RemoveID_items (with_schema rf) id) as [Hitems _].
    { by rewrite with_schema_items, Hids. }
    injection Hm as Hm. rewrite Hm in Hitems. simpl in Hitems. rewrite with_schema_items in Hitems.
    pose proof (with_schema_wf _ (read_as_wf _ _ _ Hwfx Hread)) as Hwf.
    assert (rf' = set_items (with_schema rf) (RfItems rf')) as Hrf.
    { unfold RemoveID in Hm. by destruct (IndexOf _ _); injection Hm as <-. }
    assert (ids_of (Some (set_version rf' v)) = rest) as Hids'.
    { simpl. by rewrite Hitems, others_ids, Hids. }
    split.
    + rewrite file_wf_eq in Hwf. rewrite file_wf_eq, Hrf. simpl. rewrite Hv. boolprop.
      assert (forallb item_wf (RfItems rf') = true) as ->.
      { rewrite Hitems. eapply forallb_sub; [|eassumption]. intros it Hit.
        rewrite with_schema_items. by apply elem_of_lfilter in Hit as [? _]. }
      repeat match goal with Hx : _ = true |- _ => rewrite Hx; clear Hx end. done.
    + unfold unlisted, bucket_inv. rewrite Hids', <-Hrest. split_and!.
      * by apply NoDup_lfilter.
      * apply without_absent. unfold without. rewrite elem_of_lfilter.
        intros [_ Hne]. by rewrite String.eqb_refl in Hne.
      * unfold without. rewrite elem_of_lfilter. intros [_ Hne]. by rewrite String.eqb_refl in Hne.
Qed.
End buckets.

(** The buckets of the index are buckets of the document. *)
Lemma bucketIndex_in `{GoFloat} (buckets : list EvalResult) (e : string * EvalResult) :
  e ∈ bucketIndex buckets -> snd e ∈ buckets.
Proof.
  unfold bucketIndex.
  assert (forall out, e ∈ foldl (fun out b => aset out (ShardInput (Segments b)) b) out buckets ->
    e ∈ out \/ snd e ∈ buckets) as Hgen.
  { induction buckets as [|b buckets IH]; intros out Hin; simpl in *; [auto|].
    destruct (IH _ Hin) as [Ha|?]; [|set_solver].
    clear Hin. induction out as [|[k v] out IHo]; simpl in Ha; [set_solver|].
    destruct (_ =? k); set_solver. }
  intros [[]%elem_of_nil|?]%Hgen. done.
Qed.

(** ** The index of one search *)

Section index.
Context `{OL : OJSONLaws} `{GJ : GoJSON} `{!GoJSONLaws} `{GoFloat} `{FL : !GoFloatLaws} `{E : Env}.
Context `{Peers} (a : ChangeAgent) (cfg : Config) (c id : string).
Notation D := (ChDataDir a).

Definition plain_segs (segs : list string) : Prop := Forall (fun s => plain s = true) segs.

(** Under search [n], [id] is listed in the buckets [member], and every bucket
    lists [rest] of it besides. *)
Definition index_at (f : fs) (n : string) (member : list string -> Prop)
    (rest : list string -> list string) : Prop :=
  forall segs, plain_segs segs ->
  exists x, bucket_is f (SearchResultPath D c n segs) x /\
    bucket_inv id (rest segs) x /\ (id ∈ ids_of x <-> member segs).

Lemma index_at_ext f n m1 m2 rest :
  (forall segs, plain_segs segs -> m1 segs <-> m2 segs) -> index_at f n m1 rest -> index_at f n m2 rest.
Proof.
  intros Hm Hi segs Hs. destruct (Hi segs Hs) as (x & Hb & Hinv & Hin). exists x.
  by rewrite <-Hm.
Qed.

Context (Hc : plain c = true).

Lemma bucket_not_temp n segs :
  plain n = true -> plain_segs segs -> is_temp (SearchResultPath D c n segs) = false.
Proof. intros Hn Hs. by rewrite SearchResultPath_plain. Qed.

Lemma bucket_path_inj n n' segs segs' :
  plain n = true -> plain n' = true -> plain_segs segs -> plain_segs segs' ->
  SearchResultPath D c n segs = SearchResultPath D c n' segs' -> n = n' /\ segs = segs'.
Proof.
  intros Hn Hn' Hs Hs'. rewrite !SearchResultPath_plain by done. intros [= Eq].
  apply (f_equal reverse) in Eq. rewrite !reverse_app, !reverse_involutive in Eq.
  rewrite !reverse_cons, <-!app_assoc in Eq. simpl in Eq. apply app_inv_head in Eq. by simplify_eq.
Qed.

(** A write of one bucket leaves the others. *)
Lemma bucket_is_kept f f' n n' segs segs' x :
  plain n = true -> plain n' = true -> plain_segs segs -> plain_segs segs' ->
  ~ (n = n' /\ segs = segs') ->
  keeps (written (SearchResultPath D c n segs)) f f' ->
  bucket_is f (SearchResultPath D c n' segs') x -> bucket_is f' (SearchResultPath D c n' segs') x.
Proof.
  intros Hn Hn' Hs Hs' Hne Hk [Hb Hwf]. split; [|done]. rewrite Hk; [done|].
  intros [Eq|[Ht _]].
  - apply bucket_path_inj in Eq; [|done..]. naive_solver.
  - by rewrite bucket_not_temp in Ht.
Qed.

Definition touched (n : string) (q : path) : Prop :=
  exists segs, plain_segs segs /\ written (SearchResultPath D c n segs) q.

Lemma index_at_kept f f' n n' member rest :
  plain n = true -> plain n' = true -> n <> n' -> keeps (touched n) f f' ->
  index_at f n' member rest -> index_at f' n' member rest.
Proof.
  intros Hn Hn' Hne Hk Hi segs Hs. destruct (Hi segs Hs) as (x & [Hb Hwf] & Hrest).
  exists x. split; [|done]. split; [|done]. rewrite Hk; [done|].
  intros (segs' & Hs' & [Eq|[Ht _]]).
  - apply bucket_path_inj in Eq; [|done..]. naive_solver.
  - by rewrite bucket_not_temp in Ht.
Qed.

(** One read-modify-write of a bucket, seen from the index. *)
Lemma mutate_index n segs0 mutate (goal : list string -> option ResultFile -> Prop)
    (after : Prop) member rest s :
  valid_ids -> plain n = true -> plain_segs segs0 ->
  (forall r, mutation_ok mutate (bucket_inv id r) (goal r)) ->
  (forall r x, goal r x -> id ∈ ids_of x <-> after) ->
  index_at (st_fs s) n member rest ->
  wp (_ <-? ApplyMutation (SearchResultPath D c n segs0) mutate; mret (Ok tt)) (fun r s' =>
    keeps (touched n) (st_fs s) (st_fs s') /\
    exists member', index_at (st_fs s') n member' rest /\
      (forall segs, segs <> segs0 -> member' segs <-> member segs) /\
      (is_ok r = true -> member' segs0 <-> after)) s.
Proof.
  intros Hv Hn Hs0 Hm Hafter Hi. destruct (Hi segs0 Hs0) as (x & Hb & Hinv & _).
  apply wp_rbind. unfold ApplyMutation.
  eapply wp_mono; [eapply (apply_attempts_spec _ _ _ (bucket_inv id (rest segs0)) (goal (rest segs0)) x);
    [done|by apply bucket_not_temp|done|done|done]|].
  intros r s1 (K & x' & Hb' & Hx'). cbv beta.
  assert (keeps (touched n) (st_fs s) (st_fs s1)) as K'.
  { eapply keeps_mono; [exact K|]. intros q Hq. by exists segs0. }
  assert (bucket_inv id (rest segs0) x') as Hinv'.
  { destruct (is_ok r); [|done]. eapply mo_goal; [apply Hm|done]. }
  assert (exists member', index_at (st_fs s1) n member' rest /\
            (forall segs, segs <> segs0 -> member' segs <-> member segs) /\
            (is_ok r = true -> member' segs0 <-> after)) as Hres.
  { exists (fun segs => if decide (segs = segs0) then id ∈ ids_of x' else member segs).
    split_and!.
    - intros segs Hs. destruct (decide (segs = segs0)) as [->|Hne]; [by exists x'|].
      destruct (Hi segs Hs) as (y & Hy & Hyr). exists y. split; [|done].
      eapply bucket_is_kept; [exact Hn|exact Hn|exact Hs0|exact Hs| |exact K|done]. naive_solver.
    - intros segs Hne. by rewrite decide_False.
    - intros Hr. rewrite decide_True by done. rewrite Hr in Hx'. by apply (Hafter (rest segs0)). }
  destruct r; [apply wp_ret|]; done.
Qed.

Context (Hids : valid_ids) (Hcv : ValidString c = true) (Hidv : ValidString id = true).

Lemma LocalUpsert_index n segs0 def key vals member rest s :
  plain n = true -> ValidString n = true -> plain_segs segs0 ->
  anys_wf key = true -> anys_wf (SortValuesToJSON vals) = true ->
  index_at (st_fs s) n member rest ->
  wp (LocalUpsert D c n segs0 def key id vals) (fun r s' =>
    keeps (touched n) (st_fs s) (st_fs s') /\
    exists member', index_at (st_fs s') n member' rest /\
      (forall segs, segs <> segs0 -> member' segs <-> member segs) /\
      (is_ok r = true -> member' segs0 <-> True)) s.
Proof.
  intros Hn Hnv Hs0 Hkey Hvals. apply (mutate_index n segs0 _ (listed id)); [done|done|done| |].
  - intros r. by apply upsert_mutation_ok.
  - intros r x [_ Hx]. done.
Qed.

Lemma LocalRemove_index n segs0 member rest s :
  plain n = true -> plain_segs segs0 -> index_at (st_fs s) n member rest ->
  wp (LocalRemove D c n segs0 id) (fun r s' =>
    keeps (touched n) (st_fs s) (st_fs s') /\
    exists member', index_at (st_fs s') n member' rest /\
      (forall segs, segs <> segs0 -> member' segs <-> member segs) /\
      (is_ok r = true -> member' segs0 <-> False)) s.
Proof.
  intros Hn Hs0. apply (mutate_index n segs0 _ (unlisted id)); [done|done|done| |].
  - intros r. apply remove_mutation_ok.
  - intros r x [_ Hx]. done.
Qed.

(** ** Routed mutations *)

(** This server is one of those that keep the bucket. *)
Definition held (segs : list string) : bool :=
  let owner := SOTForSlot (Some cfg) (ShardSlot segs) in
  match SlotAssignment (Some cfg) (ShardSlot segs) with
  | None => (owner =? "") || (owner =? ChServerName a)
  | Some asg => containsString (searchShardTargets owner asg) (ChServerName a)
  end.

(** What one mutation of bucket [segs0] does to the index of [n]. *)
Definition index_step (n : string) (segs0 : list string) (after : Prop) (member : list string -> Prop)
    (rest : list string -> list string) (s : st) (r : result unit) (s' : st) : Prop :=
  keeps (touched n) (st_fs s) (st_fs s') /\
  exists member', index_at (st_fs s') n member' rest /\
    (forall segs, segs <> segs0 -> member' segs <-> member segs) /\
    (is_ok r = true -> held segs0 = true -> member' segs0 <-> after).

Lemma index_step_idle n segs0 after member rest s r :
  held segs0 = false -> index_at (st_fs s) n member rest ->
  index_step n segs0 after member rest s r s.
Proof.
  intros Hh Hi. split; [apply keeps_refl|]. exists member. split_and!; [done..|]. by rewrite Hh.
Qed.

Lemma deliver_index item n after member rest local s :
  index_at (st_fs s) n member rest ->
  wp local (index_step n (SwSegments item) after member rest s) s ->
  wp (deliver a cfg item local) (index_step n (SwSegments item) after member rest s) s.
Proof.
  intros Hi Hl. unfold deliver. cbv zeta.
  assert (forall r, held (SwSegments item) = false -> wp (mret r) (index_step n (SwSegments item) after member rest s) s)
    as Hidle by (intros r Hh; apply wp_ret; by apply index_step_idle).
  destruct (SlotAssignment (Some cfg) (ShardSlot (SwSegments item))) as [asg|] eqn:Ea.
  - set (targets := searchShardTargets _ _).
    assert (held (SwSegments item) = containsString targets (ChServerName a)) as Hh
      by (unfold held; by rewrite Ea).
    apply wp_bind. eapply (wp_mono _ (index_step n (SwSegments item) after member rest s)).
    { destruct (containsString targets _) eqn:Et; [exact Hl|by apply Hidle]. }
    intros [[]|e] s1 R1; [|by apply wp_ret].
    assert (forall r, index_step n (SwSegments item) after member rest s r s1) as Hany.
    { intros r. destruct R1 as (K & m' & Hm & Hne & Hok). split; [done|]. exists m'. auto. }
    destruct (List.filter _ _); [by apply wp_ret|]. destruct (negb _); by apply wp_ret.
  - destruct (_ || _) eqn:Eo; [exact Hl|].
    assert (held (SwSegments item) = false) as Hh by (unfold held; by rewrite Ea).
    destruct (negb _); by apply Hidle.
Qed.

Lemma RouterUpsert_index n segs0 def key vals member rest s :
  plain n = true -> ValidString n = true -> plain_segs segs0 ->
  anys_wf key = true -> anys_wf (SortValuesToJSON vals) = true ->
  index_at (st_fs s) n member rest ->
  wp (RouterUpsert a cfg c n segs0 def key id vals) (index_step n segs0 True member rest s) s.
Proof.
  intros Hn Hnv Hs0 Hkey Hvals Hi. apply deliver_index; [done|].
  eapply wp_mono; [by apply LocalUpsert_index|]. intros r s' (K & m' & Hm & Hne & Hok).
  split; [done|]. exists m'. auto.
Qed.

Lemma RouterRemove_index n segs0 member rest s :
  plain n = true -> plain_segs segs0 -> index_at (st_fs s) n member rest ->
  wp (RouterRemove a cfg c n segs0 id) (index_step n segs0 False member rest s) s.
Proof.
  intros Hn Hs0 Hi. apply deliver_index; [done|].
  eapply wp_mono; [by apply LocalRemove_index|]. intros r s' (K & m' & Hm & Hne & Hok).
  split; [done|]. exists m'. auto.
Qed.

(** ** The buckets of a document *)

Definition bucket_entry (e : string * EvalResult) : Prop :=
  fst e = ShardInput (Segments (snd e)) /\ plain_segs (Segments (snd e)).

Definition entry_segs (l : list (string * EvalResult)) : list (list string) :=
  map (fun e => Segments (snd e)) l.

Lemma aset_entry out b segs :
  Forall bucket_entry out -> plain_segs (Segments b) ->
  Forall bucket_entry (aset out (ShardInput (Segments b)) b) /\
  (segs ∈ entry_segs (aset out (ShardInput (Segments b)) b) <-> segs ∈ entry_segs out \/ segs = Segments b).
Proof.
  intros Ho Hb. induction Ho as [|[k e] out [Hk He] Ho [IH1 IH2]]; simpl in *.
  - split; [by repeat constructor|]. set_solver.
  - destruct (ShardInput (Segments b) =? k) eqn:Q; boolprop; simpl.
    + split; [constructor; [done|done]|].
      rewrite Hk in Q. apply ShardInput_inj in Q; [|done..]. rewrite Q. set_solver.
    + split; [by constructor|]. rewrite !elem_of_cons, IH2. naive_solver.
Qed.

Lemma bucketIndex_entries buckets :
  Forall (fun b => plain_segs (Segments b)) buckets ->
  Forall bucket_entry (bucketIndex buckets) /\
  forall segs, segs ∈ entry_segs (bucketIndex buckets) <-> segs ∈ map Segments buckets.
Proof.
  unfold bucketIndex. intros Hb.
  assert (forall out, Forall bucket_entry out ->
    Forall bucket_entry (foldl (fun out b => aset out (ShardInput (Segments b)) b) out buckets) /\
    forall segs, segs ∈ entry_segs (foldl (fun out b => aset out (ShardInput (Segments b)) b) out buckets)
      <-> segs ∈ entry_segs out \/ segs ∈ map Segments buckets) as Hgen.
  { induction Hb as [|b buckets Hb Hbs IH]; intros out Ho; simpl; [set_solver|].
    destruct (IH (aset out (ShardInput (Segments b)) b)) as [R1 R2]; [by apply (aset_entry _ _ [])|].
    split; [done|]. intros segs. rewrite R2, (proj2 (aset_entry out b segs Ho Hb)). set_solver. }
  destruct (Hgen [] (Forall_nil_2 _)) as [R1 R2]. split; [done|]. intros segs. rewrite R2. set_solver.
Qed.

Lemma ahas_entry new key segs :
  Forall bucket_entry new -> key = ShardInput segs -> plain_segs segs ->
  ahas new key = true <-> segs ∈ entry_segs new.
Proof.
  intros Hn -> Hs. unfold ahas. induction Hn as [|[k e] new [Hk He] Hn IH]; simpl in *; [set_solver|].
  rewrite elem_of_cons. destruct (ShardInput segs =? k) eqn:Q; boolprop.
  - rewrite Hk in Q. apply ShardInput_inj in Q; [|done..]. naive_solver.
  - rewrite IH. split; [naive_solver|]. intros [->|?]; [by rewrite Hk in Q|done].
Qed.

(** ** One search *)

(** A run of mutations that only concern the buckets [scope]; on success those
    this server keeps list [id] or not as [after] says. *)
Definition index_run (n : string) (scope : list string -> Prop) (after : Prop)
    (member : list string -> Prop) (rest : list string -> list string)
    (s : st) (r : result unit) (s' : st) : Prop :=
  keeps (touched n) (st_fs s) (st_fs s') /\
  exists member', index_at (st_fs s') n member' rest /\
    (forall segs, ~ scope segs -> member' segs <-> member segs) /\
    (is_ok r = true -> forall segs, scope segs -> held segs = true -> member' segs <-> after).

Lemma index_run_idle n (scope : list string -> Prop) after member rest s r :
  (forall segs, ~ scope segs) -> index_at (st_fs s) n member rest ->
  index_run n scope after member rest s r s.
Proof.
  intros Hno Hi. split; [apply keeps_refl|]. exists member. split_and!; [done..|].
  intros _ segs Hs. by destruct (Hno segs).
Qed.

(** A mutation, then the rest of the run. *)
Lemma index_run_step n segs0 (scope : list string -> Prop) (after : Prop) member rest m k s :
  (forall segs, scope segs \/ ~ scope segs) ->
  wp m (index_step n segs0 after member rest s) s ->
  (forall member' s1, index_at (st_fs s1) n member' rest ->
     wp k (index_run n scope after member' rest s1) s1) ->
  wp (m ;? k) (index_run n (fun segs => segs = segs0 \/ scope segs) after member rest s) s.
Proof.
  intros Hdec Hm Hk. apply wp_rbind. eapply wp_mono; [exact Hm|].
  intros r s1 (K1 & m1 & Hi1 & Hne1 & Hok1). destruct r as [[]|e].
  - eapply wp_mono; [by apply (Hk m1)|]. intros r2 s2 (K2 & m2 & Hi2 & Hne2 & Hok2).
    split; [by eapply keeps_trans|]. exists m2. split; [done|]. split.
    + intros segs Hs. rewrite Hne2 by tauto. apply Hne1. naive_solver.
    + intros Hr segs Hs Hh. destruct (Hdec segs) as [Hsc|Hsc]; [by apply Hok2|].
      rewrite Hne2 by done. destruct Hs as [->|?]; [|done]. by apply Hok1.
  - split; [done|]. exists m1. split; [done|]. split; [|done]. intros segs Hs. apply Hne1. naive_solver.
Qed.

Definition gone (old new : list (string * EvalResult)) (segs : list string) : Prop :=
  segs ∈ entry_segs old /\ segs ∉ entry_segs new.

Lemma index_run_ext n (scope scope' : list string -> Prop) after member rest s r s' :
  (forall segs, scope segs <-> scope' segs) ->
  index_run n scope after member rest s r s' -> index_run n scope' after member rest s r s'.
Proof.
  intros Hsc (K & m & Hi & Hne & Hok). split; [done|]. exists m. split; [done|]. split.
  - intros segs Hs. apply Hne. by rewrite Hsc.
  - intros Hr segs Hs. apply Hok; [done|]. by rewrite Hsc.
Qed.

Lemma remove_buckets_index n old new member rest s :
  plain n = true -> Forall bucket_entry old -> Forall bucket_entry new ->
  index_at (st_fs s) n member rest ->
  wp (remove_buckets a cfg c n id old new) (index_run n (gone old new) False member rest s) s.
Proof.
  intros Hn Hold Hnew. revert member s. induction Hold as [|[k res] old [Hk Hp] Hold IH];
    intros member s Hi; simpl in *.
  { apply wp_ret, index_run_idle; [|done]. intros segs [[]%elem_of_nil _]. }
  pose proof (ahas_entry new k (Segments res) Hnew Hk Hp) as Hhas. destruct (ahas new k).
  - eapply wp_mono; [by apply IH|]. intros r s' Hr. eapply index_run_ext; [|exact Hr].
    intros segs. unfold gone. simpl. rewrite elem_of_cons. split; [naive_solver|].
    intros [[->|?] Hni]; [|done]. by destruct Hni; apply Hhas.
  - eapply wp_mono; [apply (index_run_step n (Segments res) (gone old new));
      [|by apply RouterRemove_index|by intros; apply IH]|].
    + intros segs. unfold gone. destruct (decide (segs ∈ entry_segs old)),
        (decide (segs ∈ entry_segs new)); naive_solver.
    + intros r s' Hr. eapply index_run_ext; [|exact Hr].
      intros segs. unfold gone. simpl. rewrite elem_of_cons. split; [|tauto].
      intros [->|?]; [|tauto]. split; [tauto|]. intros Hin. by apply Hhas in Hin.
Qed.

Lemma upsert_buckets_index n def vals new member rest s :
  plain n = true -> ValidString n = true -> Forall bucket_entry new ->
  Forall (fun e => anys_wf (Key (snd e)) = true) new -> anys_wf (SortValuesToJSON vals) = true ->
  index_at (st_fs s) n member rest ->
  wp (upsert_buckets a cfg c n id def vals new)
     (index_run n (fun segs => segs ∈ entry_segs new) True member rest s) s.
Proof.
  intros Hn Hnv Hnew Hkeys Hvals. revert member s.
  induction Hnew as [|[k res] new [Hk Hp] Hnew IH]; intros member s Hi; simpl in *.
  { apply wp_ret, index_run_idle; [|done]. intros segs []%elem_of_nil. }
  inversion Hkeys as [|? ? Hkey Hkeys']; subst. simpl in Hkey.
  eapply wp_mono; [apply (index_run_step n (Segments res) (fun segs => segs ∈ entry_segs new));
    [|by apply RouterUpsert_index|by intros; apply IH]|].
  - intros segs. destruct (decide (segs ∈ entry_segs new)); auto.
  - intros r s' Hr. eapply index_run_ext; [|exact Hr]. intros segs. simpl. by rewrite elem_of_cons.
Qed.

(** ** All searches *)

(** The definition [raw] files [doc] under the bucket [segs]. *)
Definition filed (raw : string) (doc : option (list (string * any))) (segs : list string) : Prop :=
  exists def results, ParseDefinition raw = Ok def /\ EvaluateDocument def doc = Ok results /\
    segs ∈ map Segments results.

(** Among the buckets of search [n] that this server keeps, those that list [id]
    satisfy [P]. *)
Definition listed_within (f : fs) (n : string) (P : list string -> Prop)
    (rest : list string -> list string) : Prop :=
  exists member, index_at f n member rest /\
    forall segs, plain_segs segs -> held segs = true -> member segs -> P segs.

(** They are the buckets that satisfy [P]. *)
Definition listed_exactly (f : fs) (n : string) (P : list string -> Prop)
    (rest : list string -> list string) : Prop :=
  exists member, index_at f n member rest /\
    forall segs, plain_segs segs -> held segs = true -> member segs <-> P segs.

Definition search_synced (prev cur : option (list (string * any))) (n raw : string)
    (rest : list string -> list string) (ok : bool) (f : fs) : Prop :=
  listed_within f n (fun segs => filed raw prev segs \/ filed raw cur segs) rest /\
  (ok = true -> listed_exactly f n (filed raw cur) rest).

Lemma evaluated_all_plain def doc results :
  EvaluateDocument def doc = Ok results -> Forall (fun b => plain_segs (Segments b)) results.
Proof.
  intros Ev. apply Forall_forall. intros b Hb. eapply evaluated_plain; [exact Ev|].
  by apply (list_elem_of_fmap_2 Segments).
Qed.

Lemma filed_eq raw def doc results segs :
  ParseDefinition raw = Ok def -> EvaluateDocument def doc = Ok results ->
  filed raw doc segs <-> segs ∈ map Segments results.
Proof.
  intros Ed Er. unfold filed. rewrite Ed. split; [|naive_solver].
  intros (d & rs & [= <-] & Er' & Hin). rewrite Er in Er'. by injection Er' as <-.
Qed.

Lemma upsert_new_index m n def news member rest s :
  well_formed (JObj (default [] m)) = true -> plain n = true -> ValidString n = true ->
  EvaluateDocument def (native_doc <$> m) = Ok news -> index_at (st_fs s) n member rest ->
  wp (match news with
      | [] => mret (Ok tt)
      | _ => upsert_buckets a cfg c n id def
               (ComputeSortValues def (default [] (native_doc <$> m))) (bucketIndex news)
      end)
     (index_run n (fun segs => segs ∈ map Segments news) True member rest s) s.
Proof.
  intros Hwf Hn Hnv En Hi.
  destruct (bucketIndex_entries news (evaluated_all_plain _ _ _ En)) as [Ne Ns].
  destruct (decide (news = [])) as [->|Hnn]; [apply wp_ret, index_run_idle; [set_solver|done]|].
  assert (wp (upsert_buckets a cfg c n id def (ComputeSortValues def (default [] (native_doc <$> m)))
                (bucketIndex news))
    (index_run n (fun segs => segs ∈ map Segments news) True member rest s) s) as Hup;
    [|by destruct news].
  eapply wp_mono; [apply upsert_buckets_index; [done..| | |done]|].
  - apply Forall_forall. intros e He. destruct m as [m|]; [|by injection En as <-].
    eapply evaluated_keys_wf; [exact Hwf|exact En|]. by apply bucketIndex_in.
  - destruct m as [m|]; simpl; [by apply ComputeSortValues_wf|]. by apply (ComputeSortValues_wf def []).
  - intros r s' Hr. by eapply index_run_ext; [|exact Hr].
Qed.

Lemma distribute_search_one_index prev m n raw rest s :
  well_formed (JObj (default [] m)) = true -> plain n = true -> ValidString n = true ->
  listed_within (st_fs s) n (fun segs => filed raw prev segs \/ filed raw (native_doc <$> m) segs) rest ->
  wp (distribute_search_one a cfg c id prev (native_doc <$> m) (n, raw)) (fun r s' =>
    keeps (touched n) (st_fs s) (st_fs s') /\
    search_synced prev (native_doc <$> m) n raw rest (is_ok r) (st_fs s')) s.
Proof.
  intros Hwf Hn Hnv Hw. set (cur := native_doc <$> m) in *. unfold distribute_search_one.
  assert (forall e : error, wp (mret (Err e : result unit)) (fun r s' =>
    keeps (touched n) (st_fs s) (st_fs s') /\ search_synced prev cur n raw rest (is_ok r) (st_fs s')) s) as Hidle.
  { intros e. apply wp_ret. split; [apply keeps_refl|]. by split. }
  destruct (ParseDefinition raw) as [def|] eqn:Ed; [|apply Hidle].
  destruct (EvaluateDocument def prev) as [olds|] eqn:Eo; [|apply Hidle].
  destruct (EvaluateDocument def cur) as [news|] eqn:En; [|apply Hidle].
  clear Hidle. cbv zeta.
  pose proof (fun segs => filed_eq raw def prev olds segs Ed Eo) as Fold.
  pose proof (fun segs => filed_eq raw def cur news segs Ed En) as Fnew.
  destruct (bucketIndex_entries olds (evaluated_all_plain _ _ _ Eo)) as [Oe Os].
  destruct (bucketIndex_entries news (evaluated_all_plain _ _ _ En)) as [Ne Ns].
  destruct Hw as (member & Hi & Hsub).
  apply wp_rbind. eapply wp_mono; [by apply (remove_buckets_index n _ (bucketIndex news) member rest)|].
  intros r1 s1 (K1 & m1 & Hi1 & Hne1 & Hok1).
  assert (forall segs, plain_segs segs -> held segs = true -> m1 segs ->
            filed raw prev segs \/ filed raw cur segs) as Hsub1.
  { intros segs Hp Hh Hm. destruct (decide (segs ∈ map Segments olds)) as [Hin|Hin].
    - left. by apply Fold.
    - apply Hsub; [done..|]. apply Hne1; [|done]. unfold gone. rewrite Os. naive_solver. }
  destruct r1 as [[]|e]; [|split; [done|]; split; [by exists m1|done]].
  eapply wp_mono; [by apply upsert_new_index|]. intros r2 s2 (K2 & m2 & Hi2 & Hne2 & Hok2).
  split; [by eapply keeps_trans|]. split; [|intros Hr2]; exists m2; (split; [done|]).
  - intros segs Hp Hh Hm. destruct (decide (segs ∈ map Segments news)) as [Hin|Hin]; [right; by apply Fnew|].
    apply Hsub1; [done..|]. by apply Hne2.
  - intros segs Hp Hh. rewrite Fnew. destruct (decide (segs ∈ map Segments news)) as [Hin|Hin].
    { assert (m2 segs) by (by apply Hok2). tauto. }
    rewrite Hne2 by done. split; [|done]. intros Hm.
    destruct (Hsub1 segs Hp Hh Hm) as [Ho%Fold|?%Fnew]; [|done].
    destruct (Hok1 eq_refl segs) as [Hf _]; [unfold gone; by rewrite Os, Ns|done|]. by destruct Hf.
Qed.

Lemma listed_within_kept f f' n n' P rest :
  plain n = true -> plain n' = true -> n <> n' -> keeps (touched n) f f' ->
  listed_within f n' P rest -> listed_within f' n' P rest.
Proof. intros Hn Hn' Hne K (m & Hi & Hm). exists m. split; [|done]. by apply (index_at_kept f f' n). Qed.

Lemma search_synced_kept prev cur f f' n n' raw rest ok :
  plain n = true -> plain n' = true -> n <> n' -> keeps (touched n) f f' ->
  search_synced prev cur n' raw rest ok f -> search_synced prev cur n' raw rest ok f'.
Proof.
  intros Hn Hn' Hne K [Hw Hx]. split; [by apply (listed_within_kept f f' n)|]. intros Hok.
  destruct (Hx Hok) as (m & Hi & Hm). exists m. split; [|done]. by apply (index_at_kept f f' n).
Qed.

(** The files of the searches of the collection. *)
Definition search_area (q : path) : Prop := exists n, plain n = true /\ touched n q.

Lemma touched_area n f f' : plain n = true -> keeps (touched n) f f' -> keeps search_area f f'.
Proof. intros Hn K. eapply keeps_mono; [exact K|]. intros q Hq. by exists n. Qed.

Definition names_ok (defs : list (string * string)) : Prop :=
  NoDup (akeys defs) /\ Forall (fun n => plain n = true /\ ValidString n = true) (akeys defs).

Lemma distribute_searches_index prev m rest defs s :
  well_formed (JObj (default [] m)) = true -> names_ok defs ->
  (forall n raw, (n, raw) ∈ defs -> listed_within (st_fs s) n
     (fun segs => filed raw prev segs \/ filed raw (native_doc <$> m) segs) (rest n)) ->
  wp (distribute_searches a cfg c id prev (native_doc <$> m) defs) (fun r s' =>
    keeps search_area (st_fs s) (st_fs s') /\
    (forall n, plain n = true -> n ∉ akeys defs -> forall P rest,
       listed_within (st_fs s) n P rest -> listed_within (st_fs s') n P rest) /\
    (forall n raw ok, plain n = true -> n ∉ akeys defs ->
       search_synced prev (native_doc <$> m) n raw (rest n) ok (st_fs s) ->
       search_synced prev (native_doc <$> m) n raw (rest n) ok (st_fs s')) /\
    (forall n raw, (n, raw) ∈ defs ->
       search_synced prev (native_doc <$> m) n raw (rest n) (is_ok r) (st_fs s'))) s.
Proof.
  intros Hwf. revert s. induction defs as [|[n raw] defs IH]; intros s [Hnd Hnames] Hpre.
  { apply wp_ret. split_and!; [done|done|done|]. intros ? ? []%elem_of_nil. }
  simpl in *. apply NoDup_cons in Hnd as [Hni Hnd]. inversion Hnames as [|? ? [Hp Hv] Hnames']; subst.
  assert (forall n' raw', (n', raw') ∈ defs -> plain n' = true /\ n <> n') as Hdefs.
  { intros n' raw' Hin. apply (list_elem_of_fmap_2 fst) in Hin. simpl in Hin.
    rewrite Forall_forall in Hnames'. split; [by apply Hnames'|]. intros ->. done. }
  apply wp_rbind. eapply wp_mono; [apply distribute_search_one_index; [done..|apply Hpre; by left]|].
  intros r1 s1 [K1 S1]. destruct r1 as [[]|e].
  - eapply wp_mono; [apply IH; [by split|]|].
    + intros n' raw' Hin. destruct (Hdefs _ _ Hin) as [Hp' Hne]. eapply (listed_within_kept (st_fs s) _ n); [done..|].
      apply Hpre. by right.
    + intros r2 s2 (K2 & A2 & B2 & C2). split_and!.
      * eapply keeps_trans; [by eapply touched_area|done].
      * intros n' Hp' Hn' P rst Hl. apply not_elem_of_cons in Hn' as [Hne Hn'].
        apply A2; [done..|]. by apply (listed_within_kept (st_fs s) _ n).
      * intros n' raw' ok Hp' Hn' Hs. apply not_elem_of_cons in Hn' as [Hne Hn'].
        apply B2; [done..|]. by apply (search_synced_kept _ _ (st_fs s) _ n).
      * intros n' raw' [[= -> ->]|Hin]%elem_of_cons; [|by apply C2].
        destruct (B2 n raw true Hp Hni S1) as [Sa Sb]. split; [done|]. intros _. by apply Sb.
  - split_and!.
    + by eapply touched_area.
    + intros n' Hp' Hn' P rst Hl. apply not_elem_of_cons in Hn' as [Hne Hn'].
      by apply (listed_within_kept (st_fs s) _ n).
    + intros n' raw' ok Hp' Hn' Hs. apply not_elem_of_cons in Hn' as [Hne Hn'].
      by apply (search_synced_kept _ _ (st_fs s) _ n).
    + intros n' raw' [[= -> ->]|Hin]%elem_of_cons; [done|].
      destruct (Hdefs _ _ Hin) as [Hp' Hne]. split; [|done].
      eapply (listed_within_kept (st_fs s) _ n); [done..|]. apply Hpre. by right.
Qed.

(** C21: distribution of a change to the search index, whatever system calls and
    deliveries fail.  Suppose that among the buckets this server keeps the
    document is listed at most where its previous or its current contents put it
    (so after a completed distribution of the previous contents, or after any
    number of failed attempts at this one).  Then this holds again afterwards; if
    [distributeSearch] reports success, the document is listed in exactly the
    buckets of its current contents, under every search of the collection, and
    in no bucket when it is deleted; and in every bucket the other documents are
    listed as before, in the same order. *)
Theorem distributeSearch_index prev (m : option fields) rest s :
  well_formed (JObj (default [] m)) = true ->
  names_ok (default [] (aget (Searches cfg) c)) ->
  (forall n raw, (n, raw) ∈ default [] (aget (Searches cfg) c) -> listed_within (st_fs s) n
     (fun segs => filed raw prev segs \/ filed raw (native_doc <$> m) segs) (rest n)) ->
  wp (distributeSearch a cfg c id prev (native_doc <$> m)) (fun r s' =>
    forall n raw, (n, raw) ∈ default [] (aget (Searches cfg) c) ->
      listed_within (st_fs s') n
        (fun segs => filed raw prev segs \/ filed raw (native_doc <$> m) segs) (rest n) /\
      (is_ok r = true -> listed_exactly (st_fs s') n (filed raw (native_doc <$> m)) (rest n))) s.
Proof.
  intros Hwf Hnames Hpre. unfold distributeSearch.
  eapply wp_mono; [by apply distribute_searches_index|]. intros r s' (_ & _ & _ & Hs). exact Hs.
Qed.
End index.
