(* ===== verification/ChangeQueue.v ===== *)
(** * The change queue: every change reaches the index

    One run of the change agent over a queue entry ([runEntryResult]), whatever
    system calls and deliveries fail: the entry is removed only when the search
    index agrees with the live document, and until then the marker, the previous
    document and the index stay in a state from which another run can go on. *)

From S2P Require Import Prelude GoStrings World Shard Json Config Store Docjson Replication.
From S2P Require Import Cache Search SearchSpec SearchStore ChangeAgent ChangeSpec.

(** ** Where the agent writes *)

Section areas.
Context `{E : Env} `{OL : OJSONLaws} `{GJ : GoJSON} `{Peers}.
Context (a : ChangeAgent) (cfg : Config) (c id : string).
Context (Hc : plain_collection c = true) (Hid : SafeID id = true).
Notation D := (ChDataDir a).

Definition cache_area (q : path) : Prop :=
  exists n, q = n :: ".pendingCacheUpdates" :: c :: D \/ q = n :: c :: ".cache" :: D.

Lemma written_child p n d q : p = n :: d -> written p q -> exists n', q = n' :: d.
Proof.
  intros -> [->|[Ht Hd]]; [eauto|]. destruct q as [|n' q]; [done|]. simpl in Hd. subst. eauto.
Qed.

Lemma CachePath_eq : CachePath D c id = (id +:+ ".json") :: c :: ".cache" :: D.
Proof.
  unfold CachePath, CacheDir. unfold plain_collection in Hc. boolprop.
  rewrite join_plain2 by done. apply join_plain1. by apply plain_doc_name; [|simpl; lia|].
Qed.

Lemma PendingCacheUpdatePath_eq server :
  plain_collection server = true ->
  PendingCacheUpdatePath D c server id =
  (server +:+ "." +:+ id +:+ ".json") :: ".pendingCacheUpdates" :: c :: D.
Proof.
  intros Hs. unfold PendingCacheUpdatePath, PendingCacheUpdatesDir. rewrite CollectionDir_eq by done.
  rewrite (join_plain1 _ ".pendingCacheUpdates") by done. apply join_plain1. unfold plain_collection, plain in Hs. boolprop.
  apply plain_intro; [rewrite !str_length_app; simpl; lia|].
  rewrite !in_string_app, (SafeID_no_slash _ Hid). simpl.
  by match goal with Hx : in_string _ server = false |- _ => rewrite Hx end.
Qed.

Lemma pending_not_temp server :
  plain_collection server = true -> is_temp (PendingCacheUpdatePath D c server id) = false.
Proof.
  intros Hs. rewrite PendingCacheUpdatePath_eq by done. simpl. apply no_dot_not_temp.
  unfold plain_collection in Hs. apply andb_true_iff in Hs as [Hp Hd%negb_true_iff].
  destruct server as [|x server]; [done|]. revert Hd. unfold HasPrefix.
  cbn [String.prefix String.append]. destruct (Ascii.ascii_dec "." x); [by destruct server|done].
Qed.

Lemma written_pending server q :
  plain_collection server = true -> written (PendingCacheUpdatePath D c server id) q -> cache_area q.
Proof.
  intros Hs Hw. apply (written_child _ _ _ _ (PendingCacheUpdatePath_eq server Hs)) in Hw as [n ->].
  exists n. by left.
Qed.

Lemma write_pending_spec server data s :
  plain_collection server = true ->
  wp (WriteFileAtomic (PendingCacheUpdatePath D c server id) data)
     (fun _ s' => keeps cache_area (st_fs s) (st_fs s')) s.
Proof.
  intros Hs. eapply wp_mono; [apply WriteFileAtomic_spec; by apply pending_not_temp|].
  intros [u|e] s' Hk; [destruct Hk as [_ Hk]|]; (eapply keeps_mono; [exact Hk|]);
    intros q Hq; eapply written_pending; try done. by right.
Qed.

Lemma write_cache_spec doc s :
  wp (write_cache (CachePath D c id) doc) (fun _ s' => keeps cache_area (st_fs s) (st_fs s')) s.
Proof.
  unfold write_cache, WriteDocumentJSON. destruct (EncodeMap doc); [|done].
  destruct (PrettyBytes _); [|done]. apply wp_rbind. eapply wp_mono; [apply WriteFileAtomic_spec|].
  - rewrite CachePath_eq. simpl. apply SafeID_not_temp; done.
  - assert (forall q, written (CachePath D c id) q -> cache_area q) as Hw.
    { intros q Hq. apply (written_child _ _ _ _ CachePath_eq) in Hq as [n ->]. exists n. by right. }
    intros [u|e] s' Hk; cbv beta in *; [destruct Hk as [_ Hk]; apply wp_ret|];
      (eapply keeps_mono; [exact Hk|]); intros q Hq; apply Hw; [done|by right].
Qed.

Lemma LoadCacheFile_same s : wp (LoadCacheFile D c id) (fun _ s' => st_fs s' = st_fs s) s.
Proof.
  unfold LoadCacheFile. wp_step ReadDocumentJSON_spec. intros [m|e] s1 [Hf _]; [done|].
  by destruct (is_not_exist e).
Qed.

Lemma ApplyCache_spec item s :
  SourceCollection item = c -> SourceDocumentID item = id ->
  wp (ApplyCache D item) (fun _ s' => keeps cache_area (st_fs s) (st_fs s')) s.
Proof.
  intros Hsc Hsd. unfold ApplyCache. rewrite Hsc, Hsd. apply wp_rbind. eapply wp_mono; [apply LoadCacheFile_same|].
  assert (forall doc s1, st_fs s1 = st_fs s ->
    wp (write_cache (CachePath D c id) doc) (fun _ s' => keeps cache_area (st_fs s) (st_fs s')) s1) as Hw.
  { intros doc s1 Hf. rewrite <-Hf. apply write_cache_spec. }
  intros [[doc|]|e] s1 Hf; cbv beta; [|apply wp_ret; by rewrite Hf|by rewrite Hf].
  destruct (_ && _); [apply wp_ret; by rewrite Hf|]. cbv zeta.
  destruct (WCommand item =? "delete"); [by apply Hw|].
  destruct (_ || _); [|apply wp_ret; by rewrite Hf].
  destruct (WPayload item); [by apply Hw|apply wp_ret; by rewrite Hf].
Qed.

Lemma DeleteWorkItem_spec server s :
  plain_collection server = true ->
  wp (DeleteWorkItem D c server id) (fun _ s' => keeps cache_area (st_fs s) (st_fs s')) s.
Proof.
  intros Hs. unfold DeleteWorkItem. wp_step Stat_spec. intros [n|e] s1 [Hf _].
  - wp_step Remove_spec. intros [u|e] s2 Hf2; [apply wp_ret|]; rewrite Hf2, Hf; [|done].
    apply keeps_delete, (written_pending server); [done|by left].
  - destruct (is_not_exist e); apply wp_ret; by rewrite Hf.
Qed.

Lemma distribute_cache_to_spec item server s :
  plain_collection server = true -> SourceCollection item = c -> SourceDocumentID item = id ->
  wp (distribute_cache_to a item server) (fun _ s' => keeps cache_area (st_fs s) (st_fs s')) s.
Proof.
  intros Hs Hsc Hsd. unfold distribute_cache_to, WriteWorkItem. rewrite Hsc, Hsd. cbv zeta.
  apply wp_bind. eapply wp_mono; [by apply write_pending_spec|].
  intros r s1 K1. cbv beta. destruct r as [u|e]; [|done].
  assert (forall s2, keeps cache_area (st_fs s) (st_fs s2) ->
    wp (r ← DeleteWorkItem D c server id; mret (Ok (is_ok r)))
       (fun _ s' => keeps cache_area (st_fs s) (st_fs s')) s2) as Hforget.
  { intros s2 K2. apply wp_bind. eapply wp_mono; [by apply DeleteWorkItem_spec|].
    intros r2 s3 K3. apply wp_ret. by eapply keeps_trans. }
  destruct (server =? ChServerName a).
  - apply wp_bind. eapply wp_mono; [by apply ApplyCache_spec|]. intros r2 s2 K2. cbv beta.
    assert (keeps cache_area (st_fs s) (st_fs s2)) by (by eapply keeps_trans).
    destruct r2; [by apply Hforget|done].
  - destruct (negb _); [done|]. destruct (push_cache server item); [by apply Hforget|done].
Qed.

Lemma distribute_cache_all_spec item complete targets s :
  Forall (fun t => plain_collection t = true) targets ->
  SourceCollection item = c -> SourceDocumentID item = id ->
  wp (distribute_cache_all a item complete targets)
     (fun _ s' => keeps cache_area (st_fs s) (st_fs s')) s.
Proof.
  intros Ht Hsc Hsd. revert complete s. induction Ht as [|t targets Ht _ IH]; intros complete s; simpl; [done|].
  apply wp_rbind. eapply wp_mono; [by apply distribute_cache_to_spec|]. intros [ok|e] s1 K1; cbv beta; [|done].
  eapply wp_mono; [apply IH|]. intros r s2 K2. by eapply keeps_trans.
Qed.

Lemma distributeCache_spec change cur prev s :
  Forall (fun t => plain_collection t = true) (AllReadMembers (Some cfg)) ->
  wp (distributeCache a cfg c id change cur prev)
     (fun _ s' => keeps cache_area (st_fs s) (st_fs s')) s.
Proof.
  intros Ht. unfold distributeCache. destruct (negb _); [done|].
  destruct (AllReadMembers (Some cfg)) as [|t ts]; [done|]. unfold rbind, NewID.
  apply wp_bind. unfold wp at 1. destruct (newid (st_ids s)) as [op|e]; [|done].
  destruct (cache_item c id change op cur prev) as [item|] eqn:Ei; [|done].
  eapply wp_mono; [apply distribute_cache_all_spec; [done|..]|by intros].
  - unfold cache_item in Ei. repeat split_match_in Ei; by simplify_eq.
  - unfold cache_item in Ei. repeat split_match_in Ei; by simplify_eq.
Qed.
End areas.

(** ** One entry *)

Section entry.
Context `{OL : OJSONLaws} `{GJ : GoJSON} `{GL : !GoJSONLaws} `{GF : GoFloat} `{FL : !GoFloatLaws} `{E : Env}.
Context `{PE : Peers} (a : ChangeAgent) (cfg : Config) (c id : string).
Notation D := (ChDataDir a).
Notation live := (DocumentPath D c id).
Notation prev := (PreviousDocumentPath D c id).

(** The document at a path; [None] also when it cannot be read. *)
Definition doc_at (f : fs) (p : path) : option fields :=
  match content f p with
  | Some d => match ReadBytesNoSchema d with Ok (JObj m) => Some m | _ => None end
  | None => None
  end.

Lemma doc_at_wf f p : well_formed (JObj (default [] (doc_at f p))) = true.
Proof.
  unfold doc_at. destruct (content f p) as [d|]; [|done].
  destruct (ReadBytesNoSchema d) as [[]|] eqn:Er; try done. by apply read_well_formed in Er.
Qed.

Lemma readOptionalDoc_spec p s :
  wp (readOptionalDoc p) (fun r s' => st_fs s' = st_fs s /\
    forall m, r = Ok m -> m = doc_at (st_fs s) p) s.
Proof.
  unfold readOptionalDoc, ReadDocumentJSON, ReadDocumentValue. apply wp_bind, wp_rbind, wp_rbind.
  eapply wp_mono; [apply ReadFile_spec|]. intros r s1 [Hf Hr]. unfold doc_at.
  destruct r as [d|e]; cbv beta iota.
  - destruct Hr as [Hr|[? _]]; [|done]. rewrite (fs_read_ok _ _ _ (eq_sym Hr)).
    destruct (ReadBytesNoSchema d) as [[]|]; simpl; (split; [done|]); try done. by intros m' [= <-].
  - destruct (is_not_exist e) eqn:Ee; (split; [done|]); [|done]. intros m [= <-].
    destruct Hr as [Hr|[[= ->] _]]; [|done]. by rewrite (content_read_missing _ _ _ (eq_sym Hr) Ee).
Qed.

Definition defs : list (string * string) := default [] (aget (Searches cfg) c).

(** What holds of the index whenever a change of the document is in the queue:
    the buckets that list it are among those of the previous and the live
    document. *)
Definition index_pending (rest : string -> list string -> list string) (f : fs) : Prop :=
  forall n raw, (n, raw) ∈ defs -> listed_within a cfg c id f n
    (fun segs => filed raw (native_doc <$> doc_at f prev) segs \/
                 filed raw (native_doc <$> doc_at f live) segs) (rest n).

(** The buckets that list it are those of the live document. *)
Definition index_current (rest : string -> list string -> list string) (f : fs) : Prop :=
  forall n raw, (n, raw) ∈ defs ->
    listed_exactly a cfg c id f n (filed raw (native_doc <$> doc_at f live)) (rest n).

Context (Hc : plain_collection c = true) (Hcv : ValidString c = true).
Context (Hid : SafeID id = true) (Hidv : ValidString id = true) (Hids : valid_ids).
Context (Hnames : names_ok defs).
Context (Hservers : Forall (fun t => plain_collection t = true) (AllReadMembers (Some cfg))).

Lemma Hcp : plain c = true.
Proof. unfold plain_collection in Hc. by apply andb_true_iff in Hc as [? _]. Qed.

(** Files outside [P] are those the index does not depend on. *)
Lemma listed_within_frame (P : path -> Prop) f f' n Q rest :
  (forall segs, plain_segs segs -> ~ P (SearchResultPath D c n segs)) -> keeps P f f' ->
  listed_within a cfg c id f n Q rest -> listed_within a cfg c id f' n Q rest.
Proof.
  intros HP K (m & Hi & Hm). exists m. split; [|done]. intros segs Hs.
  destruct (Hi segs Hs) as (x & [Hb Hwf] & Hx). exists x. split; [|done]. split; [|done].
  rewrite K; [done|auto].
Qed.

Lemma listed_exactly_frame (P : path -> Prop) f f' n Q rest :
  (forall segs, plain_segs segs -> ~ P (SearchResultPath D c n segs)) -> keeps P f f' ->
  listed_exactly a cfg c id f n Q rest -> listed_exactly a cfg c id f' n Q rest.
Proof.
  intros HP K (m & Hi & Hm). exists m. split; [|done]. intros segs Hs.
  destruct (Hi segs Hs) as (x & [Hb Hwf] & Hx). exists x. split; [|done]. split; [|done].
  rewrite K; [done|auto].
Qed.

Lemma bucket_depth n segs :
  plain n = true -> plain_segs segs -> (4 + length D <= length (SearchResultPath D c n segs))%nat.
Proof.
  intros Hn Hs. rewrite SearchResultPath_plain by (done || apply Hcp). simpl. rewrite length_app. simpl. lia.
Qed.

Lemma search_bucket_depth n raw segs :
  (n, raw) ∈ defs -> plain_segs segs -> (4 + length D <= length (SearchResultPath D c n segs))%nat.
Proof.
  intros Hin. destruct Hnames as [_ Hn]. rewrite Forall_forall in Hn.
  apply (list_elem_of_fmap_2 fst) in Hin. apply Hn in Hin as [Hp _]. by apply bucket_depth.
Qed.

Lemma search_area_depth q : search_area a c q -> (4 + length D <= length q)%nat.
Proof.
  intros (n & Hn & segs & Hs & Hw). pose proof (bucket_depth n segs Hn Hs) as Hd.
  destruct Hw as [->|[_ Hp]]; [done|]. unfold path_dir in Hp. apply (f_equal length) in Hp.
  destruct q, (SearchResultPath D c n segs); simpl in *; lia.
Qed.

Lemma cache_area_depth q : cache_area a c q -> length q = (3 + length D)%nat.
Proof. by intros (n & [->| ->]). Qed.

(** What the agent writes while it processes an entry. *)
Definition agent_area (q : path) : Prop := cache_area a c q \/ search_area a c q.

Lemma shallow_outside q : (length q <= 2 + length D)%nat -> ~ agent_area q.
Proof. intros Hl [Hq%cache_area_depth|Hq%search_area_depth]; lia. Qed.

Lemma queue_outside n : ~ agent_area (n :: ".changeQueue" :: c :: D).
Proof.
  intros [(n' & [Hq|Hq])|Hq%search_area_depth]; [by simplify_eq| |simpl in Hq; lia].
  injection Hq as _ Hq1 Hq2. by rewrite <-Hq1 in Hq2.
Qed.

Lemma live_eq : live = (id +:+ ".json") :: c :: D.
Proof. by apply DocumentPath_eq. Qed.

Lemma prev_eq : prev = String "." (id +:+ ".json") :: c :: D.
Proof. by apply PreviousDocumentPath_eq. Qed.

Lemma doc_at_ext f f' p : content f' p = content f p -> doc_at f' p = doc_at f p.
Proof. unfold doc_at. by intros ->. Qed.

Lemma agent_keeps_docs f f' :
  keeps agent_area f f' ->
  content f' live = content f live /\ content f' prev = content f prev /\
  forall n, content f' (n :: ".changeQueue" :: c :: D) = content f (n :: ".changeQueue" :: c :: D).
Proof.
  intros K. rewrite live_eq, prev_eq. split_and!; [| |intros n]; apply K;
    [apply shallow_outside; simpl; lia..|apply queue_outside].
Qed.

Lemma process_spec change rest s :
  index_pending rest (st_fs s) ->
  wp (process a cfg change c id) (fun r s' =>
    keeps agent_area (st_fs s) (st_fs s') /\
    if is_ok r then index_current rest (st_fs s') else index_pending rest (st_fs s')) s.
Proof.
  intros Hi. unfold process.
  apply wp_rbind. eapply wp_mono; [apply readOptionalDoc_spec|]. intros [cur|e] s1 [F1 R1]; cbv beta;
    [|rewrite F1; by split].
  apply wp_rbind. eapply wp_mono; [apply readOptionalDoc_spec|]. intros [old|e] s2 [F2 R2]; cbv beta;
    [|rewrite F2, F1; by split].
  rewrite F1 in R2. specialize (R1 _ eq_refl). specialize (R2 _ eq_refl). subst cur old.
  apply wp_rbind. eapply wp_mono; [by apply (distributeCache_spec a cfg c id)|]. intros r3 s3 K3. cbv beta.
  rewrite F2, F1 in K3.
  assert (keeps agent_area (st_fs s) (st_fs s3)) as K3'.
  { eapply keeps_mono; [exact K3|]. intros q Hq. by left. }
  destruct (agent_keeps_docs _ _ K3') as (L3 & P3 & _).
  assert (forall n raw, (n, raw) ∈ defs -> listed_within a cfg c id (st_fs s3) n
    (fun segs => filed raw (native_doc <$> doc_at (st_fs s) prev) segs \/
                 filed raw (native_doc <$> doc_at (st_fs s) live) segs) (rest n)) as Hi3.
  { intros n raw Hin. eapply listed_within_frame; [|exact K3|by apply Hi].
    intros segs Hs Hq%cache_area_depth. pose proof (search_bucket_depth n raw segs Hin Hs). lia. }
  destruct r3 as [complete|e].
  2:{ split; [done|]. unfold index_pending. by rewrite (doc_at_ext _ _ _ L3), (doc_at_ext _ _ _ P3). }
  apply wp_rbind. unfold distributeSearch. eapply wp_mono.
  { apply (distribute_searches_index a cfg c id Hcp Hids Hcv Hidv
             (native_doc <$> doc_at (st_fs s) prev) (doc_at (st_fs s) live) rest defs s3);
      [apply doc_at_wf|done|done]. }
  intros r4 s4 (K4 & _ & _ & Hs4). cbv beta.
  assert (keeps agent_area (st_fs s) (st_fs s4)) as K4'.
  { eapply keeps_trans; [exact K3'|]. eapply keeps_mono; [exact K4|]. intros q Hq. by right. }
  destruct (agent_keeps_docs _ _ K4') as (L4 & P4 & _).
  assert (keeps agent_area (st_fs s) (st_fs s4) /\
    if is_ok r4 then index_current rest (st_fs s4) else index_pending rest (st_fs s4)) as Hpost.
  { split; [done|]. unfold index_current, index_pending.
    rewrite (doc_at_ext _ _ _ L4), (doc_at_ext _ _ _ P4).
    destruct r4; simpl in *; intros n raw Hin; destruct (Hs4 n raw Hin) as [Hw Hx]; auto. }
  destruct r4; done.
Qed.

(** A removal changes neither the index nor the live document. *)
Lemma index_current_delete rest f p :
  (length p <= 3 + length D)%nat -> p <> live -> index_current rest f -> index_current rest (delete p f).
Proof.
  intros Hl Hne Hx n raw Hin.
  assert (keeps (fun q => q = p) f (delete p f)) as K by (by apply keeps_delete).
  rewrite (doc_at_ext f) by (apply K; congruence).
  eapply listed_exactly_frame; [|exact K|by apply Hx].
  intros segs Hs Hq. pose proof (search_bucket_depth n raw segs Hin Hs) as Hd. rewrite Hq in Hd. lia.
Qed.

Lemma index_current_pending rest f : index_current rest f -> index_pending rest f.
Proof.
  intros Hx n raw Hin. destruct (Hx n raw Hin) as (m & Hi & Hm). exists m. split; [done|].
  intros segs Hs Hh Hme. right. by apply Hm.
Qed.

Lemma remove_if_present_ok p s :
  wp (remove_if_present p) (fun r s' =>
    (st_fs s' = st_fs s \/ st_fs s' = delete p (st_fs s)) /\
    if is_ok r then content (st_fs s') p = None else st_fs s' = st_fs s) s.
Proof.
  unfold remove_if_present. apply wp_bind. unfold Remove. apply wp_sys.
  - intros r f' Hr. unfold fs_remove in Hr. destruct (st_fs s !! p) as [[d|]|] eqn:Ef.
    + injection Hr as <- <-. apply wp_ret. simpl. split; [by right|]. unfold content.
      by rewrite lookup_delete_eq.
    + destruct (existsb _ _); injection Hr as <- <-; apply wp_ret; simpl; [by split; [left|]|].
      split; [by right|]. unfold content. by rewrite lookup_delete_eq.
    + injection Hr as <- <-.
      assert (content (st_fs s) p = None) as Hn by (unfold content; by rewrite Ef).
      destruct (is_not_exist _); apply wp_ret; simpl; (split; [by left|done]).
  - intros k Hk. apply wp_ret. simpl. by split; [left|].
Qed.

Context (change : string) (Hch : in_string "/" change = false).
Notation taken := (TakenQueuePath D c change id).

Lemma taken_eq : taken = queue_name change c id ".taken" :: ".changeQueue" :: c :: D.
Proof. by apply queue_path_eq. Qed.

Lemma live_not_prev_path : live <> prev.
Proof.
  rewrite live_eq, prev_eq. intros [= Hq]. pose proof (SafeID_no_dot _ Hid) as Hd.
  destruct id as [|x t]; [done|]. injection Hq as -> _. unfold HasPrefix in Hd. by destruct t.
Qed.

Lemma taken_not_doc p : length p = (2 + length D)%nat -> taken <> p.
Proof. rewrite taken_eq. intros Hl Hq. apply (f_equal length) in Hq. simpl in Hq. lia. Qed.

(** A removal that does not touch the path [q]. *)
Lemma removed_keeps p f f' q : f' = f \/ f' = delete p f -> q <> p -> content f' q = content f q.
Proof. intros [->| ->] Hne; [done|]. unfold content. by rewrite lookup_delete_ne. Qed.

Definition entry_post (rest : string -> list string -> list string) (marker : option string)
    (f : fs) (r : entry_result) (s' : st) : Prop :=
  content (st_fs s') live = content f live /\
  match er_err r with
  | None => content (st_fs s') taken = None /\ content (st_fs s') prev = None /\
            index_current rest (st_fs s')
  | Some _ => content (st_fs s') taken = marker /\ index_pending rest (st_fs s')
  end.

Lemma finish_entry_spec rest s :
  index_pending rest (st_fs s) ->
  wp (finish_entry a cfg change c id) (fun r s' => er_claimed r = true /\
    entry_post rest (content (st_fs s) taken) (st_fs s) r s') s.
Proof.
  intros Hi. unfold finish_entry, entry_post. apply wp_bind.
  eapply wp_mono; [by apply process_spec|]. intros r1 s1 [K1 I1]. cbv beta.
  destruct (agent_keeps_docs _ _ K1) as (L1 & P1 & Q1). specialize (Q1 (queue_name change c id ".taken")).
  rewrite <-taken_eq in Q1. destruct r1 as [complete|e]; [|by apply wp_ret].
  apply wp_bind. eapply wp_mono; [apply remove_if_present_ok|]. intros r2 s2 [F2 N2]. cbv beta. simpl in I1.
  assert (content (st_fs s2) live = content (st_fs s) live) as L2.
  { rewrite (removed_keeps _ _ _ _ F2); [done|]. apply live_not_prev_path. }
  assert (content (st_fs s2) taken = content (st_fs s) taken) as T2.
  { rewrite (removed_keeps _ _ _ _ F2); [done|]. apply taken_not_doc. by rewrite prev_eq. }
  assert (index_current rest (st_fs s2)) as I2.
  { destruct F2 as [->| ->]; [done|]. apply index_current_delete; [|apply not_eq_sym, live_not_prev_path|done].
    rewrite prev_eq. simpl. lia. }
  destruct r2 as [u|e]; [|apply wp_ret; simpl; split_and!; [done..|by apply index_current_pending]].
  apply wp_bind. eapply wp_mono; [apply remove_if_present_ok|]. intros r3 s3 [F3 N3]. cbv beta.
  assert (content (st_fs s3) live = content (st_fs s) live) as L3.
  { rewrite (removed_keeps _ _ _ _ F3); [done|]. apply not_eq_sym, taken_not_doc. by rewrite live_eq. }
  assert (content (st_fs s3) prev = None) as P3.
  { rewrite (removed_keeps _ _ _ _ F3); [done|]. apply not_eq_sym, taken_not_doc. by rewrite prev_eq. }
  assert (index_current rest (st_fs s3)) as I3.
  { destruct F3 as [->| ->]; [done|]. apply index_current_delete; [by rewrite taken_eq| |done].
    apply taken_not_doc. by rewrite live_eq. }
  destruct r3 as [u'|e]; apply wp_ret; simpl in *; split_and!; try done; [by rewrite N3|].
  by apply index_current_pending.
Qed.

(** The entry, before it is claimed or after. *)
Definition entry_path (filename ext : string) : path :=
  if ext =? "queue" then QueueEntryPath D c filename else taken.

(** One run of an entry of the queue. *)
Lemma runEntryResult_index filename ext data rest s :
  plain filename = true -> index_pending rest (st_fs s) ->
  content (st_fs s) (entry_path filename ext) = Some data ->
  wp (runEntryResult a cfg change c id filename ext) (fun r s' =>
    content (st_fs s') live = content (st_fs s) live /\
    match er_claimed r, er_err r with
    | true, None => content (st_fs s') taken = None /\ content (st_fs s') prev = None /\
                    index_current rest (st_fs s')
    | true, Some _ => content (st_fs s') taken = Some data /\ index_pending rest (st_fs s')
    | false, _ => st_fs s' = st_fs s
    end) s.
Proof.
  intros Hfn Hi. unfold entry_path, runEntryResult.
  assert (QueueEntryPath D c filename = filename :: ".changeQueue" :: c :: D) as Eq.
  { unfold QueueEntryPath. rewrite ChangeQueueDir_eq by done. by apply join_plain1. }
  destruct (ext =? "queue"); intros Hd; cycle 1.
  { eapply wp_mono; [by apply finish_entry_spec|]. intros r s' [Hcl Hp]. rewrite Hcl.
    unfold entry_post in Hp. by rewrite Hd in Hp. }
  apply wp_bind. eapply wp_mono; [apply Rename_spec|]. intros [u|e] s1 F1; cbv beta.
  2:{ destruct (is_not_exist e); apply wp_ret; simpl; by rewrite F1. }
  destruct F1 as (d & Hl & F1). rewrite Eq in Hl, F1, Hd.
  assert (d = data) as -> by (unfold content in Hd; rewrite Hl in Hd; by simplify_eq).
  assert (keeps (fun q => exists n, q = n :: ".changeQueue" :: c :: D) (st_fs s) (st_fs s1)) as K1.
  { rewrite F1. eapply keeps_trans; [apply keeps_delete|apply keeps_insert]; rewrite ?taken_eq; eauto. }
  assert (forall p, length p = (2 + length D)%nat -> content (st_fs s1) p = content (st_fs s) p) as Hdoc.
  { intros p Hp. apply K1. intros [n ->]. simpl in Hp. lia. }
  assert (content (st_fs s1) taken = Some data) as T1.
  { rewrite F1. unfold content. by rewrite lookup_insert_eq. }
  eapply wp_mono; [apply (finish_entry_spec rest)|].
  - intros n raw Hin. rewrite (doc_at_ext (st_fs s) _ prev) by (apply Hdoc; by rewrite prev_eq).
    rewrite (doc_at_ext (st_fs s) _ live) by (apply Hdoc; by rewrite live_eq).
    eapply listed_within_frame; [|exact K1|by apply Hi].
    intros segs Hs [n' Hq]. pose proof (search_bucket_depth n raw segs Hin Hs) as Hdep. rewrite Hq in Hdep. simpl in Hdep. lia.
  - intros r s' [Hcl [Hlive Hp]]. rewrite Hcl, Hlive, T1 in *.
    split; [apply Hdoc; by rewrite live_eq|done].
Qed.

(** C20: a run over one entry of the change queue, whatever system calls and
    deliveries fail.  The buckets that list the document are, before and after,
    among those of its previous and its live contents.  The run reports success
    only when they are exactly those of the live contents, and only then are the
    marker and the previous document gone; otherwise the entry is still in the
    queue with its contents, claimed or not, and a later run finds the same
    situation.  The live document never changes. *)
Theorem entry_until_indexed filename ext data rest s :
  plain filename = true -> index_pending rest (st_fs s) ->
  content (st_fs s) (entry_path filename ext) = Some data ->
  wp (runEntryResult a cfg change c id filename ext) (fun r s' =>
    content (st_fs s') live = content (st_fs s) live /\
    match er_claimed r, er_err r with
    | true, None => content (st_fs s') taken = None /\ content (st_fs s') prev = None /\
                    index_current rest (st_fs s')
    | true, Some _ => content (st_fs s') taken = Some data /\ index_pending rest (st_fs s')
    | false, _ => st_fs s' = st_fs s
    end) s.
Proof. apply runEntryResult_index. Qed.
End entry.
