(* ===== verification/DistributorSpec.v ===== *)
(** * The distributor the server installs leaves the documents alone

    [cmd/datoriumdb/main.go] makes the change agent the distributor of the
    engine.  Whatever calls fail, a run of the agent for a committed change
    touches no live document, and without failures it keeps the layout of the
    data directory: what [EngineSpec] asks of a distributor. *)

From S2P Require Import Prelude GoStrings World Shard Json Config Store Docjson Replication.
From S2P Require Import Engine EngineSpec.
From S2P Require Import Cache Search SearchSpec SearchStore ChangeAgent ChangeSpec ChangeQueue.

(** ** Computations that respect a relation on trees *)

Definition respects (R : fs -> fs -> Prop) {A} (m : M A) : Prop :=
  forall s, wp m (fun _ s' => R (st_fs s) (st_fs s')) s.

Section respects.
Context (R : fs -> fs -> Prop) `{!PreOrder R}.

Lemma respects_ret {A} (a : A) : respects R (mret a).
Proof. intros s. by apply wp_ret. Qed.

Lemma respects_bind {A B} (m : M A) (k : A -> M B) :
  respects R m -> (forall a, respects R (k a)) -> respects R (m ≫= k).
Proof.
  intros Hm Hk s. apply wp_bind. eapply wp_mono; [apply Hm|]. intros a s1 H1.
  eapply wp_mono; [apply Hk|]. intros b s2 H2. cbv beta. by transitivity (st_fs s1).
Qed.

Lemma respects_rbind {A B} (m : M (result A)) (k : A -> M (result B)) :
  respects R m -> (forall a, respects R (k a)) -> respects R (rbind m k).
Proof.
  intros Hm Hk. apply respects_bind; [done|]. intros [a|e]; [apply Hk|apply respects_ret].
Qed.

(** A computation that only reads. *)
Lemma respects_quiet {A} (m : M A) :
  (forall s, wp m (fun _ s' => st_fs s' = st_fs s) s) -> respects R m.
Proof. intros Hm s. eapply wp_mono; [apply Hm|]. by intros _ s' ->. Qed.
End respects.

Ltac frames := repeat (cbv zeta; lazymatch goal with
  | |- respects _ (mret _) => apply respects_ret; assumption
  | |- respects _ (mbind _ _) => apply respects_bind; [assumption| |intros ?]
  | |- respects _ (rbind _ _) => apply respects_rbind; [assumption| |intros ?]
  | |- respects _ (match ?x with _ => _ end) => destruct x eqn:?
  end).

(** ** The change agent, call by call *)

Section agent.
Context `{E : Env} `{OL : OJSONLaws} `{GJ : GoJSON} `{GL : !GoJSONLaws} `{GF : GoFloat} `{FL : !GoFloatLaws}.
Context `{PE : Peers}.
Context (a : ChangeAgent) (cfg : Config) (c id : string).
Context (Hc : plain_collection c = true) (Hid : SafeID id = true).
Notation D := (ChDataDir a).

(** The names in the configuration that become names of files. *)
Record names_plain : Prop := {
  np_searches : Forall (fun n => plain_collection n = true)
                  (akeys (default [] (aget (Searches cfg) c)));
  np_servers : Forall (fun t => plain_collection t = true) (AllReadMembers (Some cfg));
}.
Context (Hnames : names_plain).

(** The files the agent writes: buckets of searches, cache updates in waiting,
    and the cached document. *)
Definition side_file (p : path) : Prop :=
  (exists n segs, plain_collection n = true /\
     Forall (fun s => plain_collection s = true) segs /\ p = SearchResultPath D c n segs) \/
  (exists server, plain_collection server = true /\ p = PendingCacheUpdatePath D c server id) \/
  p = CachePath D c id.

Context (change : string) (R : fs -> fs -> Prop) `{!PreOrder R}.
Notation filename := (queue_name change c id ".queue").
Notation taken := (TakenQueuePath D c change id).

(** The calls that change the tree. *)
Record agent_calls : Prop := {
  ac_write : forall p data, side_file p -> respects R (WriteFileAtomic p data);
  ac_remove : forall p, side_file p -> respects R (Remove p);
  ac_claim : respects R (Rename (QueueEntryPath D c filename) taken);
  ac_prev : respects R (remove_if_present (PreviousDocumentPath D c id));
  ac_taken : respects R (remove_if_present taken);
}.
Context (HR : agent_calls).

Lemma LoadResultFile_respects p : respects R (LoadResultFile p).
Proof.
  apply respects_quiet; [done|]. intros s. unfold LoadResultFile. wp_step ReadFile_spec.
  intros [d|e] s1 [Hf _]; [by destruct (result_bind _ _)|by destruct (is_not_exist e)].
Qed.

Lemma NewID_respects : respects R NewID.
Proof. by apply respects_quiet; [|intros s]. Qed.

Lemma ApplyMutation_respects p mutate : side_file p -> respects R (ApplyMutation p mutate).
Proof.
  intros Hp. unfold ApplyMutation. generalize 10%nat as n. induction n as [|n IH]; simpl; frames; try done;
    auto using LoadResultFile_respects, NewID_respects.
  by apply (ac_write HR).
Qed.

Definition bucket_named (e : string * EvalResult) : Prop :=
  Forall (fun s => plain_collection s = true) (Segments (snd e)).

Lemma deliver_respects item m : respects R m -> respects R (deliver a cfg item m).
Proof. intros Hm. unfold deliver. frames; done. Qed.

Lemma bucket_side n segs :
  plain_collection n = true -> Forall (fun s => plain_collection s = true) segs ->
  side_file (SearchResultPath D c n segs).
Proof. intros. left. eauto. Qed.

Lemma remove_buckets_respects n old new :
  plain_collection n = true -> Forall bucket_named old ->
  respects R (remove_buckets a cfg c n id old new).
Proof.
  intros Hn Ho. induction Ho as [|[key res] old Hb _ IH]; simpl; frames; try done.
  apply deliver_respects. unfold LocalRemove. frames. by apply ApplyMutation_respects, bucket_side.
Qed.

Lemma upsert_buckets_respects n def vals new :
  plain_collection n = true -> Forall bucket_named new ->
  respects R (upsert_buckets a cfg c n id def vals new).
Proof.
  intros Hn Ho. induction Ho as [|[key res] new Hb _ IH]; simpl; frames; try done.
  apply deliver_respects. unfold LocalUpsert. frames. by apply ApplyMutation_respects, bucket_side.
Qed.

Lemma bucketIndex_named def doc results :
  EvaluateDocument def doc = Ok results -> Forall bucket_named (bucketIndex results).
Proof.
  intros He. apply Forall_forall. intros e Hin. unfold bucket_named.
  eapply evaluated_named; [exact He|]. apply (list_elem_of_fmap_2 Segments).
  by apply bucketIndex_in.
Qed.

Lemma distributeSearch_respects old cur : respects R (distributeSearch a cfg c id old cur).
Proof.
  unfold distributeSearch. pose proof (np_searches Hnames) as Hs.
  induction (default [] (aget (Searches cfg) c)) as [|[n raw] defs IH]; simpl; [apply respects_ret; done|].
  inversion Hs as [|? ? Hn Hs']; subst. frames; auto.
  - apply remove_buckets_respects; [done|]. by eapply bucketIndex_named.
  - apply upsert_buckets_respects; [done|]. by eapply bucketIndex_named.
Qed.

Lemma pending_side server :
  plain_collection server = true -> side_file (PendingCacheUpdatePath D c server id).
Proof. intros. right. left. eauto. Qed.

Lemma cache_side : side_file (CachePath D c id).
Proof. by right; right. Qed.

Lemma Stat_respects p : respects R (Stat p).
Proof. apply respects_quiet; [done|]. intros s. wp_step Stat_spec. by intros r s' [? _]. Qed.

Lemma DeleteWorkItem_respects server :
  plain_collection server = true -> respects R (DeleteWorkItem D c server id).
Proof.
  intros Hs. unfold DeleteWorkItem. frames; auto using Stat_respects.
  by apply (ac_remove HR), pending_side.
Qed.

Lemma ApplyCache_respects item :
  SourceCollection item = c -> SourceDocumentID item = id -> respects R (ApplyCache D item).
Proof.
  intros Hsc Hsd. unfold ApplyCache, write_cache, WriteDocumentJSON. rewrite Hsc, Hsd.
  frames; try (by apply (ac_write HR), cache_side).
  apply respects_quiet; [done|]. intros s. apply LoadCacheFile_same.
Qed.

Lemma distribute_cache_respects item complete targets :
  Forall (fun t => plain_collection t = true) targets ->
  SourceCollection item = c -> SourceDocumentID item = id ->
  respects R (distribute_cache_all a item complete targets).
Proof.
  intros Ht Hsc Hsd. revert complete. induction Ht as [|t targets Ht _ IH]; intros complete; simpl;
    frames; try done.
  unfold distribute_cache_to, WriteWorkItem. rewrite Hsc, Hsd.
  frames; auto using DeleteWorkItem_respects, ApplyCache_respects.
  by apply (ac_write HR), pending_side.
Qed.

Lemma distributeCache_respects cur prev : respects R (distributeCache a cfg c id change cur prev).
Proof.
  unfold distributeCache. destruct (negb _); [by apply respects_ret|].
  pose proof (np_servers Hnames) as Hs.
  destruct (AllReadMembers (Some cfg)) as [|t ts]; [by apply respects_ret|].
  apply respects_rbind; [done|apply NewID_respects|]. intros op.
  destruct (cache_item c id change op cur prev) as [item|] eqn:Ei; [|by apply respects_ret].
  apply distribute_cache_respects; [done|..]; unfold cache_item in Ei;
    repeat split_match_in Ei; by simplify_eq.
Qed.

Lemma readOptionalDoc_respects p : respects R (readOptionalDoc p).
Proof.
  apply respects_quiet; [done|]. intros s. eapply wp_mono; [apply readOptionalDoc_spec|].
  by intros r s' [? _].
Qed.

Lemma finish_entry_respects : respects R (finish_entry a cfg change c id).
Proof.
  unfold finish_entry, process. frames;
    auto using readOptionalDoc_respects, distributeCache_respects, distributeSearch_respects;
    apply HR.
Qed.

Lemma ProcessNow_respects busy :
  ChCfg a = Some cfg -> respects R (ProcessNow a busy change c id).
Proof.
  intros Hcfg. unfold ProcessNow, runEntryResult. rewrite Hcfg. simpl.
  frames; auto using finish_entry_respects, Stat_respects. apply HR.
Qed.
End agent.

(** ** No live document is touched *)

Section documents.
Context `{E : Env} `{OL : OJSONLaws} `{GJ : GoJSON} `{GL : !GoJSONLaws} `{GF : GoFloat} `{FL : !GoFloatLaws}.
Context `{PE : Peers} (a : ChangeAgent) (c id : string).
Context (Hc : plain_collection c = true) (Hid : SafeID id = true).
Notation D := (ChDataDir a).

Lemma bucket_path n segs :
  plain_collection n = true -> Forall (fun s => plain_collection s = true) segs ->
  SearchResultPath D c n segs = "matches.json" :: reverse segs ++ n :: ".search" :: c :: D.
Proof.
  intros Hn Hs. apply SearchResultPath_plain; [by apply plain_of_name..|].
  eapply Forall_impl; [exact Hs|]. intros s. apply plain_of_name.
Qed.

Lemma side_file_shape p :
  side_file a c id p -> is_temp p = false /\ (3 + length D <= length p)%nat.
Proof.
  intros [(n & segs & Hn & Hs & ->)|[(server & Hs & ->)| ->]].
  - rewrite bucket_path by done. split; [done|]. simpl. rewrite length_app. simpl. lia.
  - split; [by apply pending_not_temp|]. rewrite PendingCacheUpdatePath_eq by done. simpl. lia.
  - rewrite CachePath_eq by done. split; [by apply SafeID_not_temp|]. simpl. lia.
Qed.

(** Documents lie two levels below the data directory. *)
Lemma deep_same P f f' :
  keeps P f f' -> (forall q, P q -> (3 + length D <= length q)%nat) -> same_documents D f f'.
Proof.
  intros K HP c' id' Hc' Hid'. apply K. intros Hq%HP. rewrite DocumentPath_eq in Hq by done.
  simpl in Hq. lia.
Qed.

Lemma side_written p q :
  side_file a c id p -> written p q -> (3 + length D <= length q)%nat.
Proof.
  intros Hp [->|[Ht Hd]]; [by apply side_file_shape|].
  apply side_file_shape in Hp as [_ Hl]. destruct q as [|x q]; [done|].
  destruct p as [|y p]; [simpl in Hl; lia|]. simpl in *. by rewrite Hd.
Qed.

Lemma same_keeps_files p f f' :
  (f' = f \/ f' = delete p f) ->
  (forall c' id', plain_collection c' = true -> SafeID id' = true -> DocumentPath D c' id' <> p) ->
  same_documents D f f'.
Proof.
  intros [->| ->] Hp; [done|]. intros c' id' Hc' Hid'. unfold content.
  rewrite lookup_delete_ne; [done|]. by apply not_eq_sym, Hp.
Qed.

Lemma deep_not_doc p c' id' :
  (3 + length D <= length p)%nat -> plain_collection c' = true -> SafeID id' = true ->
  DocumentPath D c' id' <> p.
Proof. intros Hl Hc' Hid' <-. rewrite DocumentPath_eq in Hl by done. simpl in Hl. lia. Qed.

Lemma agent_calls_documents change :
  in_string "/" change = false -> agent_calls a c id change (same_documents D).
Proof.
  intros Hch. split.
  - intros p data Hp s. eapply wp_mono; [apply WriteFileAtomic_spec; by apply side_file_shape|].
    intros [u|e] s' Hk; [destruct Hk as [_ Hk]|]; (eapply deep_same; [exact Hk|]);
      intros q Hw; eapply side_written; try done. by right.
  - intros p Hp s. eapply wp_mono; [apply Remove_spec|]. intros r s' Hr.
    apply (same_keeps_files p); [by destruct r; [right|left]|]. intros. apply deep_not_doc; [|done..].
    by apply side_file_shape.
  - intros s. eapply wp_mono; [apply Rename_spec|]. intros [u|e] s' Hr; cbv beta in Hr; [|by rewrite Hr].
    destruct Hr as (d & _ & ->). unfold QueueEntryPath. rewrite queue_path_eq, taken_eq by done.
    eapply (deep_same (fun q => exists n, q = n :: ".changeQueue" :: c :: D)).
    + eapply keeps_trans; [apply keeps_delete|apply keeps_insert]; eauto.
    + intros q [n ->]. done.
  - intros s. eapply wp_mono; [apply remove_if_present_ok|]. intros r s' [Hr _].
    eapply same_keeps_files; [exact Hr|]. intros c' id' Hc' Hid'.
    rewrite DocumentPath_eq, PreviousDocumentPath_eq by done. intros [= Hq' _].
    by eapply doc_name_not_prev.
  - intros s. eapply wp_mono; [apply remove_if_present_ok|]. intros r s' [Hr _].
    eapply same_keeps_files; [exact Hr|]. intros c' id' Hc' Hid'. apply deep_not_doc; [|done..].
    by rewrite taken_eq.
Qed.
End documents.

(** ** The layout is kept *)

Section calm_writes.
Context `{NoFault}.

(** Without failing calls a write leaves no temporary file, whether or not
    something stands in its way. *)
Lemma WriteFileAtomic_calm target data s :
  target <> [] -> is_temp target = false -> clean_path (path_dir target) -> no_temps (st_fs s) ->
  wp (WriteFileAtomic target data) (fun _ s' =>
    st_fs s' = st_fs s \/ st_fs s' = mkdirs (st_fs s) (path_dir target) \/
    st_fs s' = <[target := File data]> (mkdirs (st_fs s) (path_dir target))) s.
Proof.
  intros Hnil Ht Hc Hn.
  destruct (existsb (is_file (st_fs s)) (path_dir target :: ancestors (path_dir target))) eqn:Eb.
  { unfold WriteFileAtomic, wp, rbind, mbind, M_bind, mret, M_ret, MkdirAll. rewrite sys_eq.
    unfold fs_mkdir_all. rewrite Eb. by left. }
  assert (dir_ready (st_fs s) (path_dir target)) as Hd.
  { intros q Hq. destruct (content (st_fs s) q) as [d|] eqn:Eq; [|done].
    rewrite <-not_true_iff_false in Eb. destruct Eb. apply existsb_exists. exists q.
    split; [by apply list_elem_of_In|]. apply is_file_content. by eexists. }
  destruct (decide (st_fs s !! target = Some Directory)) as [Hdir|Hdir].
  2:{ destruct (WriteFileAtomic_eq target data s) as [t' Ht']; [done..|].
      unfold wp. rewrite Ht'. by right; right. }
  destruct target as [|x d]; [done|]. simpl in *.
  unfold WriteFileAtomic, wp, rbind, mbind, M_bind, mret, M_ret. simpl.
  rewrite MkdirAll_eq by done. simpl.
  set (s1 := setfs (ticked s) (mkdirs (st_fs s) d)).
  assert (no_temps (st_fs s1)) as Hn1 by (by apply no_temps_mkdirs).
  assert (is_dir (st_fs s1) d = true) as Hd1 by (by apply is_dir_mkdirs).
  destruct (CreateTemp_eq d s1 Hn1 Hd1) as [z Hz]. rewrite Hz. simpl.
  set (tmp := temp_name ".tmp-" z :: d).
  assert (st_fs s1 !! tmp = None) as Hf1 by (apply Hn1, temp_name_temp).
  assert (tmp <> x :: d) as Hne.
  { intros [= Heq]. rewrite <-Heq, temp_name_temp in Ht. done. }
  unfold fill_temp, rbind, mbind, M_bind, mret, M_ret.
  unfold WriteTo at 1. rewrite sys_eq. simpl. unfold append_file. simpl.
  rewrite lookup_insert_eq. simpl.
  unfold Sync at 1. rewrite sys_eq. simpl. unfold Close at 1. rewrite sys_eq. simpl.
  unfold Chmod at 1. rewrite sys_eq. simpl. rewrite lookup_insert_eq. simpl.
  unfold Rename. rewrite sys_eq. unfold fs_rename. simpl. rewrite lookup_insert_eq.
  rewrite !(lookup_insert_ne _ tmp (x :: d)) by done.
  rewrite (lookup_mkdirs _ _ _ _ Hdir). simpl.
  unfold Remove. rewrite sys_eq. unfold fs_remove. simpl. rewrite lookup_insert_eq. simpl.
  right. left. by rewrite insert_insert_eq, delete_insert_eq, delete_id.
Qed.
End calm_writes.

Section layout_kept.
Context (D : path).

(** A directory of derived data: below the [.search] or the
    [.pendingCacheUpdates] of a collection, or in [.cache]. *)
Definition side_dir (d : path) : Prop :=
  exists l x y, d = l ++ x :: y :: D /\ Forall (fun n => temp_component n = false) (l ++ [x; y]) /\
    (plain_collection y = true /\ x ∈ [".search"; ".pendingCacheUpdates"] \/ y = ".cache").

Lemma side_dir_clean d : clean_path D -> side_dir d -> clean_path d.
Proof.
  intros HD (l & x & y & -> & Hc & _). unfold clean_path. rewrite Forall_app in *.
  destruct Hc as [Hl Hxy]. split; [done|]. inversion Hxy as [|? ? Hx Hy]; subst.
  inversion Hy; subst. by repeat constructor.
Qed.

Lemma parent_ancestor n (q d : path) : n :: q = d \/ n :: q ∈ ancestors d -> q ∈ ancestors d.
Proof.
  intros [<-|Hq]; [by left|]. revert Hq. induction d as [|z d IH]; simpl; [by intros ?%elem_of_nil|].
  intros [<-|Hq]%elem_of_cons; right; [by left|by apply IH].
Qed.

(** The directories it needs that lie at the level of documents. *)
Lemma side_dir_level2 d n c :
  side_dir d -> plain_collection c = true ->
  n :: c :: D = d \/ n :: c :: D ∈ ancestors d -> n ∈ [".search"; ".pendingCacheUpdates"].
Proof.
  intros (l & x & y & -> & _ & Hxy) Hc Hq.
  assert (n :: c :: D `suffix_of` l ++ x :: y :: D) as [k Hk].
  { destruct Hq as [->|Hq]; [done|]. by apply ancestors_suffix in Hq as [? _]. }
  apply app_inj_2 in Hk as [_ Hk]; [|done]. injection Hk as -> ->.
  destruct Hxy as [[_ ?]| ->]; [done|]. by vm_compute in Hc.
Qed.

Lemma side_dir_level3 d n x c :
  side_dir d -> plain_collection c = true ->
  n :: x :: c :: D = d \/ n :: x :: c :: D ∈ ancestors d -> x ∈ [".search"; ".pendingCacheUpdates"].
Proof.
  intros Hd Hc Hq. apply (side_dir_level2 d x c Hd Hc). right. by apply (parent_ancestor n).
Qed.

Lemma no_json_name n id ext :
  n ∈ [".search"; ".pendingCacheUpdates"] -> ext ∈ [".json"; "__files.jsonl"] -> id +:+ ext <> n.
Proof.
  intros Hn He Heq. assert (HasSuffix n ext = true) as Hs by (rewrite <-Heq; apply HasSuffix_app).
  rewrite !elem_of_cons, elem_of_nil in Hn, He.
  destruct Hn as [->|[->|[]]], He as [->|[->|[]]]; done.
Qed.

Lemma store_ok_side_mkdirs f d : side_dir d -> store_ok D f -> store_ok D (mkdirs f d).
Proof.
  intros Hd [H1 H2 H3 H4 H5 H6 H7 H8 H9]. split; auto.
  - apply no_temps_mkdirs; [by apply side_dir_clean|done].
  - intros q Hq. rewrite content_mkdirs. auto.
  - intros c Hc. rewrite content_mkdirs. auto.
  - intros c x Hc Hx. rewrite content_mkdirs. auto.
  - intros c id ext Hc Hid Hext [Hq|Hq]%lookup_mkdirs_Directory; [by eapply H6|].
    apply (side_dir_level2 d) in Hq; [|done..]. exact (no_json_name _ id ext Hq Hext eq_refl).
  - intros c id Hc Hid [Hq|Hq]%lookup_mkdirs_Directory; [by eapply H7|].
    apply (side_dir_level2 d) in Hq; [|done..].
    refine (no_json_name _ (String "." id) ".json" Hq _ eq_refl). by left.
  - intros c x n Hc Hx [Hq|Hq]%lookup_mkdirs_Directory; [by eapply H8|].
    apply (side_dir_level3 d) in Hq; [|done..]. set_solver.
  - intros c n Hc Hx. destruct (mkdirs_new f d (n :: c :: D)) as [Hs|Hq]; [done| |].
    + apply lookup_mkdirs. by apply (H9 c n).
    + apply mkdirs_lookup_dir; [by apply H4| |done]. right. by apply (parent_ancestor n).
Qed.

Lemma store_ok_deep_insert f p data :
  (3 + length D <= length p)%nat -> is_temp p = false ->
  store_ok D f -> store_ok D (<[p := File data]> f).
Proof.
  intros Hl Ht [H1 H2 H3 H4 H5 H6 H7 H8 H9].
  assert (forall q, f !! q <> Some Directory -> <[p := File data]> f !! q <> Some Directory) as Hdir.
  { intros q Hne. destruct (decide (p = q)) as [->|]; [by rewrite lookup_insert_eq|].
    by rewrite lookup_insert_ne. }
  assert (forall q, (length q < length p)%nat -> content (<[p := File data]> f) q = content f q) as Hco.
  { intros q Hq. apply content_insert_ne. intros ->. lia. }
  split; auto.
  - intros q Hq. rewrite lookup_insert_ne; [auto|]. intros ->. congruence.
  - intros q Hq. rewrite Hco; [auto|]. apply elem_of_cons in Hq as [->|[_ ?]%ancestors_suffix]; lia.
  - intros c Hc. rewrite Hco; [auto|simpl; lia].
  - intros c x Hc Hx. rewrite Hco; [auto|simpl; lia].
  - intros c n Hc Hx. rewrite lookup_insert_ne by (intros ->; simpl in Hl; lia).
    rewrite lookup_insert_ne in Hx by (intros ->; simpl in Hl; lia). by apply (H9 c n).
Qed.
End layout_kept.

Section layout_agent.
Context `{NF : NoFault} `{OL : OJSONLaws} `{GJ : GoJSON} `{GL : !GoJSONLaws} `{GF : GoFloat} `{FL : !GoFloatLaws}.
Context `{PE : Peers} (a : ChangeAgent) (c id : string).
Context (Hc : plain_collection c = true) (Hid : SafeID id = true).
Notation D := (ChDataDir a).

Definition layout_kept (f f' : fs) : Prop := store_ok D f -> store_ok D f'.

#[local] Instance layout_kept_preorder : PreOrder layout_kept.
Proof. split; unfold layout_kept; [by intros f|]. intros f g h H1 H2 H3. auto. Qed.

Lemma layout_intro {A} (m : M A) :
  (forall s, store_ok D (st_fs s) -> wp m (fun _ s' => store_ok D (st_fs s')) s) ->
  respects layout_kept m.
Proof. intros Hm s. specialize (Hm s). revert Hm. unfold wp. by destruct (m s). Qed.

Lemma side_file_dir p : side_file a c id p -> side_dir D (path_dir p).
Proof.
  assert (forall n, plain_collection n = true -> temp_component n = false) as Hn
    by (intros n; apply plain_collection_clean).
  intros [(n & segs & Hp & Hs & ->)|[(server & Hs & ->)| ->]].
  - rewrite bucket_path by done. simpl. exists (reverse segs ++ [n]), ".search", c.
    split_and!; [by rewrite <-app_assoc| |left; split; [exact Hc|by left]].
    rewrite !Forall_app. split_and!; [|by repeat constructor; auto|by repeat constructor; auto].
    apply Forall_reverse. eapply Forall_impl; [exact Hs|]. auto.
  - rewrite PendingCacheUpdatePath_eq by done. simpl. exists [], ".pendingCacheUpdates", c.
    split_and!; [done|by repeat constructor; auto|left; split; [exact Hc|right; by left]].
  - rewrite CachePath_eq by done. simpl. exists [], c, ".cache".
    split_and!; [done|by repeat constructor; auto|by right].
Qed.

Lemma deleted_layout p f f' :
  f' = f \/ f' = delete p f -> (2 + length D <= length p)%nat -> layout_kept f f'.
Proof.
  intros [->| ->] Hl; [done|]. intros Hok. apply store_ok_delete; [lia|done].
Qed.

Lemma agent_calls_layout change :
  change ∈ ["create"; "patch"; "delete"] -> agent_calls a c id change layout_kept.
Proof.
  intros Hch. assert (in_string "/" change = false /\ HasPrefix change "." = false /\ change <> "")
    as (Hsl & Hdot & Hne).
  { rewrite !elem_of_cons, elem_of_nil in Hch. by destruct Hch as [->|[->|[->|[]]]]. }
  split.
  - intros p data Hp. apply layout_intro. intros s Hok.
    destruct (side_file_shape a c id Hc Hid p Hp) as [Ht Hl]. pose proof (side_file_dir p Hp) as Hd.
    pose proof (side_dir_clean D _ (so_clean _ _ Hok) Hd) as Hcl.
    eapply wp_mono; [apply WriteFileAtomic_calm; [|done|done|apply Hok]|].
    { intros ->. simpl in Hl. lia. }
    intros r s' [->|[->| ->]]; [done|by apply store_ok_side_mkdirs|].
    apply store_ok_deep_insert; [done|done|]. by apply store_ok_side_mkdirs.
  - intros p Hp s. eapply wp_mono; [apply Remove_spec|]. intros r s' Hr.
    apply (deleted_layout p); [by destruct r; [right|left]|].
    apply side_file_shape in Hp as [_ Hl]; [lia|done..].
  - intros s. eapply wp_mono; [apply Rename_spec|]. intros [u|e] s' Hr; cbv beta in Hr; [|by rewrite Hr].
    destruct Hr as (d & _ & ->). unfold QueueEntryPath. rewrite queue_path_eq, taken_eq by done.
    intros Hok. apply store_ok_deep_insert; [done| |apply store_ok_delete; [simpl; lia|done]].
    by apply queue_name_no_temp.
  - intros s. eapply wp_mono; [apply remove_if_present_ok|]. intros r s' [Hr _].
    eapply deleted_layout; [exact Hr|]. by rewrite PreviousDocumentPath_eq.
  - intros s. eapply wp_mono; [apply remove_if_present_ok|]. intros r s' [Hr _].
    eapply deleted_layout; [exact Hr|]. rewrite taken_eq by done. simpl. lia.
Qed.
End layout_agent.

(** ** The engine of the server *)

Section wiring.
Context `{E : Env} `{OL : OJSONLaws} `{GJ : GoJSON} `{GL : !GoJSONLaws} `{GF : GoFloat} `{FL : !GoFloatLaws}.
Context `{PE : Peers}.

(** The names the agent turns into names of files: searches, collections and
    servers have no slash and do not start with a dot. *)
Definition agent_names (a : ChangeAgent) : Prop :=
  forall cfg c, ChCfg a = Some cfg -> plain_collection c = true -> names_plain cfg c.

Lemma adapter_respects (a : ChangeAgent) busy change c id R `{!PreOrder R} :
  plain_collection c = true -> SafeID id = true -> agent_names a -> agent_calls a c id change R ->
  respects R (distributorAdapter a busy change c id).
Proof.
  intros Hc Hid Hn HR. unfold distributorAdapter. frames.
  destruct (ChCfg a) as [cfg|] eqn:Ec; [|unfold ProcessNow; rewrite Ec; by apply respects_ret].
  apply (ProcessNow_respects a cfg c id); auto.
Qed.

Lemma committed_change change c id :
  committed change c id ->
  in_string "/" change = false /\ plain_collection c = true /\ SafeID id = true.
Proof.
  intros (Hch & Hc & Hid). split_and!; [|done|done].
  rewrite !elem_of_cons, elem_of_nil in Hch. by destruct Hch as [->|[->|[->|[]]]].
Qed.

Lemma adapter_frame a busy change c id :
  agent_names a -> committed change c id ->
  DocFrame (ChDataDir a) (distributorAdapter a busy change c id).
Proof.
  intros Hn (Hch & Hc & Hid)%committed_change. constructor. apply adapter_respects; [apply _|done..|].
  by apply agent_calls_documents.
Qed.

(** An engine wired as [cmd/datoriumdb/main.go] does it. *)
Record server_wiring (e : Engine) (a : ChangeAgent) (busy : string -> bool) : Prop := {
  sw_distributor : EDistributor e = Some (distributorAdapter a busy);
  sw_agent : ChDataDir a = EDataDir e;
  sw_coordinator : forall co, EReplicator e = Some co -> CoDataDir co = EDataDir e;
  sw_members : forall slot, Forall (fun t => plain_server t = true)
    (ShardReadMember (AssignmentForSlot (Some (ECfg e)) slot) ++
     ProxyReadMember (AssignmentForSlot (Some (ECfg e)) slot));
  sw_names : agent_names a;
}.

(** The server's engine is one the theorems on the commands speak of. *)
Lemma server_engine_ok e a busy : server_wiring e a busy -> engine_ok e.
Proof.
  intros [Hd Ha Hco Hm Hn]. split; [done|done|]. intros d change c id Hd' Hcm.
  rewrite Hd in Hd'. injection Hd' as <-. rewrite <-Ha. by apply adapter_frame.
Qed.
End wiring.

Section wiring_layout.
Context `{NF : NoFault} `{OL : OJSONLaws} `{GJ : GoJSON} `{GL : !GoJSONLaws} `{GF : GoFloat} `{FL : !GoFloatLaws}.
Context `{PE : Peers}.

Lemma server_engine_layout e a busy : server_wiring e a busy -> engine_layout e.
Proof.
  intros [Hd Ha Hco Hm Hn] d change c id Hd' Hcm. rewrite Hd in Hd'. injection Hd' as <-.
  rewrite <-Ha. pose proof Hcm as (Hch & Hc & Hid). constructor. intros s Hok.
  assert (respects (layout_kept a) (distributorAdapter a busy change c id)) as Hr.
  { apply adapter_respects; [apply layout_kept_preorder|done..|]. by apply agent_calls_layout. }
  eapply wp_mono; [apply Hr|]. intros r s' Hs. by apply Hs.
Qed.
End wiring_layout.

(** ** The agent and the documents *)

Section property.
Context `{E : Env} `{OL : OJSONLaws} `{GJ : GoJSON} `{GL : !GoJSONLaws} `{GF : GoFloat} `{FL : !GoFloatLaws}.
Context `{PE : Peers}.

(** C39: the change agent the server installs as distributor of the engine,
    called for a committed change (create, patch or delete of a collection whose
    name has no slash and no leading dot, of a valid identifier), with search and
    server names of that kind too: whatever system calls and deliveries fail, and
    whichever documents other workers hold, the live text of every document is
    what it was, of the document changed as of all others. *)
Theorem distributor_keeps_documents a busy change c id s :
  agent_names a -> committed change c id ->
  wp (distributorAdapter a busy change c id) (fun _ s' =>
    forall c' id', plain_collection c' = true -> SafeID id' = true ->
      content (st_fs s') (DocumentPath (ChDataDir a) c' id') =
      content (st_fs s) (DocumentPath (ChDataDir a) c' id')) s.
Proof. intros Hn Hcm. apply (adapter_frame a busy change c id Hn Hcm). Qed.
End property.
