(* ===== verification/EngineRead.v ===== *)
(** * Package engine: the commands that read

    [read] of [internal/engine/engine.go] with the migration on access of
    [migrate.go] and the split of a document into schema fields and extra fields,
    and [search] of [search.go].  A document is the map [ReadDocumentJSON] gives. *)

From S2P Require Import Prelude GoStrings World Shard Json Config Store Docjson Replication.
From S2P Require Import Engine Search Cache Migrate.

Section read.
Context `{Env} `{OJSON} `{GoJSON} `{GoFloat}.

(** The names of the root children of a schema; none when the schema does not
    decode. *)
Definition schemaFieldNames (schemaRaw : string) : list string :=
  match (v ← match Unmarshal schemaRaw with Ok v => Some v | Err _ => None end;
         match object_or_null v with
         | Err _ => None
         | Ok root =>
             match array_field root "children" with
             | Err _ => None
             | Ok l =>
                 match result_map (fun c => result_bind (object_or_null c) (fun c => string_field c "name")) l with
                 | Ok names => Some names
                 | Err _ => None
                 end
             end
         end) with
  | Some names => List.filter (fun n => n <>? "") names
  | None => []
  end.

Definition schema_field (schemaRaw : option string) (k : string) : bool :=
  (k =? "!") || (k =? "$") || (k =? "#") ||
  match schemaRaw with
  | Some raw => containsString (schemaFieldNames raw) k
  | None => false
  end.

Definition splitSOTAndExtra (doc : fields) (schemaRaw : option string) : fields * fields :=
  (List.filter (fun kv => schema_field schemaRaw (fst kv)) doc,
   List.filter (fun kv => negb (schema_field schemaRaw (fst kv))) doc).

(** The document as it is to be served; an error ends the read. *)
Definition migrateOnAccess (e : Engine) (collection id : string) (doc : fields)
    : M (result fields) :=
  if negb (NeedsMigration (Some (ECfg e)) collection (Some (as_doc doc))) then mret (Ok doc)
  else
    _ <-? ApplyToStoredDocument (EDataDir e) (ECfg e) collection id;
    ReadDocumentJSON (DocumentPath (EDataDir e) collection id).

(** The summaries of a read as one JSON object: by collection, then by document. *)
Definition summaries_json (out : list (string * list (string * fields))) : json :=
  JObj (map (fun c => (fst c, JObj (map (fun d => (fst d, JObj (snd d))) (snd c)))) out).

Definition read (e : Engine) (req : Request) (detail : fields) : M Envelope :=
  let collection := ReqTarget req in
  let id := ReqParameter req in
  let failed code msg := mret (fail_doc "read" collection id code msg) in
  if negb (ValidDocumentID id) || negb (SafeID id) then
    failed "invalidDocumentId" "document id is invalid or unsafe for filesystem storage"
  else
  match checkRouting e id "read" collection with
  | Some wrong => mret wrong
  | None =>
  match checkStaleness e id "read" collection with
  | Some wrong => mret wrong
  | None =>
  r ← ReadDocumentJSON (DocumentPath (EDataDir e) collection id);
  match r with
  | Err _ => failed "documentNotFound" "document not found"
  | Ok doc =>
  r ← migrateOnAccess e collection id doc;
  match r with
  | Err err => failed "schemaMigrationFailed" (err_msg err)
  | Ok doc =>
  let schemaRaw := aget (Schemas (ECfg e)) collection in
  let '(sot, extra) := splitSOTAndExtra doc schemaRaw in
  let out := base_fields "read" collection id ++ [("sot", JObj sot)] in
  let out := if as_bool (aget detail "extraFields") then out ++ [("extraFields", JObj extra)] else out in
  if as_bool (aget detail "cacheSummaries") then
    summaries ← buildCacheSummaries (EDataDir e) doc schemaRaw;
    mret (OK (out ++ [("cacheSummaries", summaries_json summaries)]))
  else mret (OK out)
  end end end end.

(** ** Searches *)

Definition fail_search (collection searchName code message : string) : Envelope :=
  Fail [("command", JStr "search"); ("collection", JStr collection); ("search", JStr searchName)]
    [mk_err code message].

Definition checkSearchRouting (e : Engine) (slot : Z) (collection searchName : string)
    : option Envelope :=
  if EServerName e =? "" then None
  else
    let assignment := AssignmentForSlot (Some (ECfg e)) slot in
    if (ShardSOTMember assignment =? EServerName e) ||
       containsString (ShardReadMember assignment) (EServerName e) ||
       containsString (ProxyReadMember assignment) (EServerName e)
    then None
    else Some (Fail [("command", JStr "search"); ("collection", JStr collection);
                     ("search", JStr searchName);
                     ("configVersion", JNum (Itoa (Version (General (ECfg e)))))]
                [mk_err "wrongMachine"
                   "This server does not serve the search result shard for this query; refresh establishment config and retry."]).

Definition search (e : Engine) (req : Request) (detail : fields) : M Envelope :=
  let collection := ReqTarget req in
  let searchName := ReqParameter req in
  let failed code msg := mret (fail_search collection searchName code msg) in
  match aget (Searches (ECfg e)) collection with
  | None => failed "collectionNotFound" "collection does not exist"
  | Some defs =>
  match aget defs searchName with
  | None => failed "searchNotFound" "search definition does not exist"
  | Some raw =>
  match ParseDefinition raw with
  | Err err => failed "invalidSearchDefinition" (err_msg err)
  | Ok def =>
  match ResolveQueryPath def (as_doc detail) with
  | Err err => failed "invalidRequest" (err_msg err)
  | Ok segments =>
  match checkSearchRouting e (ShardSlot segments) collection searchName with
  | Some wrong => mret wrong
  | None =>
  r ← LoadResultFile (SearchResultPath (EDataDir e) collection searchName segments);
  match r with
  | Err err => failed "filesystemError" (err_msg err)
  | Ok (rf, _) =>
      mret (OK [("command", JStr "search"); ("collection", JStr collection);
                ("search", JStr searchName); ("matches", JArr (map (fun it => JStr (ItID it)) (RfItems rf)))])
  end end end end end end.
End read.
