(* ===== verification/MigrateSpec.v ===== *)
(** * Migration of documents

    What an accepted update list does to a document, what the rewrite of a stored
    document leaves under any failures, and what the code does to numbers and to
    update lists it should not have accepted. *)

From S2P Require Import Prelude GoStrings World Shard Json Config Store Docjson Replication.
From S2P Require Import Engine EngineSpec Search Migrate.

(** ** Update lists that were accepted *)

Section accepted.
Context `{GoFloat}.

Definition is_metadata (k : string) : bool := (k =? "!") || (k =? "$") || (k =? "#").

(** A path that leads to a field of the document and not to its metadata. *)
Definition field_path (p : string) : Prop :=
  exists seg segs, splitPath p = seg :: segs /\ is_metadata seg = false.

Lemma fold_result_ok {A} (f : A -> result unit) l acc :
  foldl (fun acc x => result_bind acc (fun _ => f x)) acc l = Ok tt ->
  acc = Ok tt /\ Forall (fun x => f x = Ok tt) l.
Proof.
  revert acc. induction l as [|x l IH]; intros acc Ha; simpl in Ha; [done|].
  apply IH in Ha as [Ha Hl]. destruct acc as [[]|]; [|done]. simpl in Ha. by split; [|constructor].
Qed.

Lemma validatePathTarget_field p : validatePathTarget p = Ok tt -> field_path p.
Proof.
  unfold validatePathTarget, field_path. destruct (negb _); [done|].
  destruct (splitPath p) as [|seg segs]; [done|]. intros Hf. exists seg, segs. split; [done|].
  apply (fold_result_ok (fun seg => if is_metadata seg then _ else if isAllDigits seg then _ else Ok tt)
           (seg :: segs)) in Hf as [_ Hf].
  apply Forall_cons in Hf as [Hf _]. by destruct (is_metadata seg).
Qed.

Lemma check_target_field p target missing : check_target p target missing = [] -> field_path target.
Proof.
  unfold check_target. destruct (target =? ""); [done|].
  destruct (validatePathTarget target) as [[]|] eqn:E; [|done]. intros _. by apply validatePathTarget_field.
Qed.

Record op_accepted (op : UpdateOp) : Prop := {
  oa_path : field_path (UoPath op);
  oa_from : UoOp op = "move" \/ UoOp op = "copy" -> field_path (UoFrom op);
  oa_known : UoOp op ∈ supportedOps;
}.

Lemma containsString_elem l x : containsString l x = true -> x ∈ l.
Proof.
  intros (y & Hy & Hx%String.eqb_eq)%existsb_exists. subst y. by apply list_elem_of_In.
Qed.

Lemma check_update_accepted i op : check_update i op = [] -> op_accepted op.
Proof.
  unfold check_update. destruct (negb _) eqn:Ek; [done|]. intros [Hfrom [Hpath _]%app_eq_nil]%app_eq_nil.
  split; [by eapply check_target_field| |by apply containsString_elem, negb_false_iff]. intros Hop.
  assert ((UoOp op =? "move") || (UoOp op =? "copy") = true) as Ho.
  { destruct Hop as [->| ->]; done. }
  rewrite Ho in Hfrom. by eapply check_target_field.
Qed.

Lemma check_updates_accepted i ops : check_updates i ops = [] -> Forall op_accepted ops.
Proof.
  revert i. induction ops as [|op ops IH]; intros i; simpl; [constructor|].
  intros [Hop Hops]%app_eq_nil. constructor; [by eapply check_update_accepted|by eapply IH].
Qed.

Lemma ValidateSpec_accepted ulid_ok spec v :
  ValidateSpec ulid_ok spec v = [] -> Forall op_accepted (UsUpdates spec).
Proof.
  unfold ValidateSpec. intros [_ [_ [_ [_ Hu]%app_eq_nil]%app_eq_nil]%app_eq_nil]%app_eq_nil.
  by eapply check_updates_accepted.
Qed.

(** ** One document *)

Lemma set_in_other m seg segs v k :
  k <> seg -> aget (set_in m (seg :: segs) v) k = aget m k.
Proof. intros Hk. destruct segs as [|s segs]; simpl; by rewrite aget_aset_ne by congruence. Qed.

Lemma remove_in_other m seg segs k :
  k <> seg -> aget (remove_in m (seg :: segs)) k = aget m k.
Proof.
  intros Hk. assert ((seg =? k) = false) as Hs by (apply String.eqb_neq; congruence).
  destruct segs as [|s segs]; simpl; [by rewrite aget_adel, Hs|].
  destruct (aget m seg) as [[]|]; try done. by rewrite aget_aset, Hs.
Qed.

(** *** What an operation does, path by path *)

(** The value at a path given by its segments. *)
Definition at_path (d : doc) (q : list string) : option any := get_in (AMap d) q.

(** Two paths neither of which leads through the other. *)
Definition apart (p q : list string) : Prop := ~ p `prefix_of` q /\ ~ q `prefix_of` p.

Lemma apart_cons seg p q : apart (seg :: p) (seg :: q) -> apart p q.
Proof. intros [H1 H2]. split; intros Hp; [apply H1|apply H2]; by apply prefix_cons. Qed.

Lemma apart_nonempty p q : apart p q -> p <> [] /\ q <> [].
Proof. intros [H1 H2]. split; intros ->; [apply H1|apply H2]; apply prefix_nil. Qed.

Lemma set_in_get m p v : p <> [] -> at_path (set_in m p v) p = Some v.
Proof.
  unfold at_path. revert m. induction p as [|seg p IH]; intros m Hp; [done|].
  destruct p as [|s p]; simpl; [by rewrite aget_aset_eq|]. rewrite aget_aset_eq. by apply IH.
Qed.

Lemma set_in_apart m p v q : apart p q -> at_path (set_in m p v) q = at_path m q.
Proof.
  unfold at_path. revert m q. induction p as [|seg p IH]; intros m q Hpq;
    destruct (apart_nonempty _ _ Hpq) as [Hp Hq]; [done|].
  destruct q as [|s q]; [done|]. destruct (decide (s = seg)) as [->|Hne].
  - apply apart_cons in Hpq. destruct (apart_nonempty _ _ Hpq) as [Hp' Hq'].
    destruct p as [|s p]; [done|].
    change (set_in m (seg :: s :: p) v) with (aset m seg (AMap (set_in
      (match aget m seg with Some (AMap next) => next | _ => [] end) (s :: p) v))).
    cbn [get_in]. rewrite aget_aset_eq, IH by done.
    destruct q as [|s' q]; [done|]. by destruct (aget m seg) as [[]|].
  - cbn [get_in]. by rewrite set_in_other.
Qed.

Lemma remove_in_gone m p : p <> [] -> at_path (remove_in m p) p = None.
Proof.
  unfold at_path. revert m. induction p as [|seg p IH]; intros m Hp; [done|].
  destruct p as [|s p]; cbn [remove_in get_in].
  - by rewrite aget_adel, String.eqb_refl.
  - destruct (aget m seg) as [[]|] eqn:E; cbn [get_in]; rewrite ?E; try done.
    rewrite aget_aset_eq. by apply IH.
Qed.

Lemma remove_in_apart m p q : apart p q -> at_path (remove_in m p) q = at_path m q.
Proof.
  unfold at_path. revert m q. induction p as [|seg p IH]; intros m q Hpq;
    destruct (apart_nonempty _ _ Hpq) as [Hp Hq]; [done|].
  destruct q as [|s q]; [done|]. destruct (decide (s = seg)) as [->|Hne].
  - apply apart_cons in Hpq. destruct (apart_nonempty _ _ Hpq) as [Hp' Hq'].
    destruct p as [|s p]; [done|].
    change (remove_in m (seg :: s :: p)) with (match aget m seg with
      | Some (AMap next) => aset m seg (AMap (remove_in next (s :: p))) | _ => m end).
    cbn [get_in]. destruct (aget m seg) as [[]|] eqn:Eg; rewrite ?Eg; try done.
    rewrite aget_aset_eq. by apply IH.
  - cbn [get_in]. by rewrite remove_in_other.
Qed.

(** What is at the path of an operation afterwards, from the document before. *)
Definition op_value `{GoJSON} (d : doc) (op : UpdateOp) : option any :=
  let here := docPointerGet d (UoPath op) in
  let there := docPointerGet d (UoFrom op) in
  if UoOp op =? "add" then selectFillValue op
  else if UoOp op =? "import" then
    match here with
    | Some v => if schemaKindMatches (UoSchema op) v then Some v else selectFillValue op
    | None => selectFillValue op
    end
  else if UoOp op =? "remove" then None
  else if UoOp op =? "abandon" then here
  else if UoOp op =? "replace" then UoValue op
  else if (UoOp op =? "move") || (UoOp op =? "copy") then
    match there with Some v => Some v | None => here end
  else
    match UoValue op, here with
    | Some v, _ => Some v
    | None, Some cur => Some (convertKind cur (default "" (schema_kind (UoSchema op))))
    | None, None => selectFillValue op
    end.

(** The value at its path is the one above, what is moved leaves its place, and
    every path apart from these is as it was. *)
Record op_effect `{GoJSON} (d : doc) (op : UpdateOp) (d' : doc) : Prop := {
  oe_value : docPointerGet d' (UoPath op) = op_value d op;
  oe_moved : UoOp op = "move" -> docPointerGet d (UoFrom op) <> None ->
    apart (splitPath (UoPath op)) (splitPath (UoFrom op)) -> docPointerGet d' (UoFrom op) = None;
  oe_frame : forall q, apart (splitPath (UoPath op)) q ->
    (UoOp op = "move" -> apart (splitPath (UoFrom op)) q) -> at_path d' q = at_path d q;
}.

Lemma field_path_nonempty p : field_path p -> splitPath p <> [].
Proof. by intros (seg & segs & -> & _). Qed.

Lemma fill_effect d op :
  splitPath (UoPath op) <> [] ->
  docPointerGet (fill d op) (UoPath op) = selectFillValue op /\
  forall q, apart (splitPath (UoPath op)) q -> at_path (fill d op) q = at_path d q.
Proof.
  intros Hp. unfold fill. destruct (selectFillValue op) as [v|]; split.
  - by apply set_in_get.
  - intros q. apply set_in_apart.
  - by apply remove_in_gone.
  - intros q. apply remove_in_apart.
Qed.

Lemma applyDocOp_effect `{GoJSON} d op d' :
  op_accepted op -> applyDocOp d op = Ok d' -> op_effect d op d'.
Proof.
  intros [Hp Hf Hk] Ha. pose proof (field_path_nonempty _ Hp) as Hn.
  destruct (fill_effect d op Hn) as [Fv Ff]. unfold applyDocOp in Ha.
  unfold supportedOps in Hk. rewrite !elem_of_cons, elem_of_nil in Hk.
  destruct Hk as [Ho|[Ho|[Ho|[Ho|[Ho|[Ho|[Ho|[Ho|[]]]]]]]]]; rewrite Ho in Ha; simpl in Ha.
  - injection Ha as <-. unfold applyDocAdd, op_value. split; unfold op_value; rewrite Ho; simpl; auto; done.
  - injection Ha as <-. unfold applyDocAdd. split; unfold op_value; rewrite Ho; simpl; [|done|].
    + destruct (docPointerGet d (UoPath op)) as [x|] eqn:Eg; [|done].
      destruct (schemaKindMatches _ _); [done|]. by apply fill_effect.
    + intros q Hq _. destruct (docPointerGet d (UoPath op)) as [x|]; [|by apply Ff].
      destruct (schemaKindMatches _ _); [done|]. rewrite (proj2 (fill_effect _ op Hn)) by done.
      by apply remove_in_apart.
  - injection Ha as <-. split; unfold op_value; rewrite Ho; simpl; [by apply remove_in_gone|done|].
    intros q Hq _. by apply remove_in_apart.
  - injection Ha as <-. by split; unfold op_value; rewrite Ho.
  - unfold applyDocReplace in Ha. destruct (UoValue op) as [v|] eqn:Ev; [|done]. injection Ha as <-.
    split; unfold op_value; rewrite Ho; simpl; [rewrite Ev; by apply set_in_get|done|].
    intros q Hq _. by apply set_in_apart.
  - injection Ha as <-. unfold applyDocMove. split; unfold op_value; rewrite Ho; simpl.
    + destruct (docPointerGet d (UoFrom op)); [by apply set_in_get|done].
    + intros _ Hs Hpq. destruct (docPointerGet d (UoFrom op)); [|done].
      unfold docPointerSet, docPointerGet. fold (at_path (set_in (docPointerRemove d (UoFrom op)) (splitPath (UoPath op)) a) (splitPath (UoFrom op))).
      rewrite set_in_apart by done. apply remove_in_gone. apply field_path_nonempty. auto.
    + intros q Hq Hq'. destruct (docPointerGet d (UoFrom op)); [|done].
      unfold docPointerSet. rewrite set_in_apart by done. by apply remove_in_apart, Hq'.
  - injection Ha as <-. unfold applyDocCopy. split; unfold op_value; rewrite Ho; simpl; [|done|].
    + destruct (docPointerGet d (UoFrom op)); [by apply set_in_get|done].
    + intros q Hq _. destruct (docPointerGet d (UoFrom op)); [by apply set_in_apart|done].
  - injection Ha as <-. unfold applyDocConvert. split; unfold op_value; rewrite Ho; simpl; [|done|].
    + destruct (UoValue op); [by apply set_in_get|].
      destruct (docPointerGet d (UoPath op)) eqn:Eg; [by apply set_in_get|].
      destruct (selectFillValue op); [by apply set_in_get|done].
    + intros q Hq _. destruct (UoValue op); [by apply set_in_apart|].
      destruct (docPointerGet d (UoPath op)); [by apply set_in_apart|].
      destruct (selectFillValue op); [by apply set_in_apart|done].
Qed.

(** One update list, operation by operation. *)
Inductive updated `{GoJSON} : doc -> list UpdateOp -> doc -> Prop :=
| updated_done d : updated d [] d
| updated_op d op d1 ops d' : op_effect d op d1 -> updated d1 ops d' -> updated d (op :: ops) d'.

Lemma apply_updates_updated `{GoJSON} d ops d' :
  Forall op_accepted ops -> apply_updates d ops = Ok d' -> updated d ops d'.
Proof.
  intros Ho. revert d. induction Ho as [|op ops Hop Ho IH]; intros d Ha; simpl in Ha.
  - injection Ha as <-. constructor.
  - destruct (applyDocOp d op) as [d1|] eqn:E; [|done]. simpl in Ha.
    econstructor; [by eapply applyDocOp_effect|by apply IH].
Qed.

(** The operations of the stored update list that leads to version [v]. *)
Definition listed_ops `{GoJSON} (history : list (Z * string)) (v : Z) : list UpdateOp :=
  match zget history v with
  | Some raw => match ParseUpdateSpec raw with Ok spec => UsUpdates spec | Err _ => [] end
  | None => []
  end.

(** The update lists of [n] versions from [v] on, one after the other. *)
Inductive migrated_by `{GoJSON} (history : list (Z * string)) : Z -> nat -> doc -> doc -> Prop :=
| migrated_done v d : migrated_by history v 0 d d
| migrated_step v n d d1 d' :
    updated d (listed_ops history v) d1 -> migrated_by history (v + 1) n d1 d' ->
    migrated_by history v (S n) d d'.

(** The operation names the top-level field [k]. *)
Definition names_field (op : UpdateOp) (k : string) : Prop :=
  head (splitPath (UoPath op)) = Some k \/
  UoOp op = "move" /\ head (splitPath (UoFrom op)) = Some k.

Lemma aget_at_path d k : aget d k = at_path d [k].
Proof. unfold at_path. simpl. by destruct (aget d k). Qed.

Lemma head_apart p k : p <> [] -> head p <> Some k -> apart p [k].
Proof.
  destruct p as [|seg p]; [done|]. intros _ Hk. simpl in Hk.
  split; intros [l Hl]; simpl in Hl; congruence.
Qed.

Lemma updated_unnamed `{GoJSON} d ops d' k :
  Forall op_accepted ops -> updated d ops d' -> Forall (fun op => ~ names_field op k) ops ->
  aget d' k = aget d k.
Proof.
  intros Ha Hu. induction Hu as [|d op d1 ops d' He Hu IH]; intros Hk; [done|].
  inversion Ha as [|? ? [Hp Hf _] Ha']; subst. inversion Hk as [|? ? Hn Hk']; subst.
  rewrite IH by done. rewrite !aget_at_path. apply (oe_frame _ _ _ He).
  - apply head_apart; [by apply field_path_nonempty|]. intros Hh. apply Hn. by left.
  - intros Hm. apply head_apart; [apply field_path_nonempty; auto|]. intros Hh. apply Hn. by right.
Qed.

(** An operation that can be carried out on any document. *)
Definition op_ready (op : UpdateOp) : Prop :=
  op_accepted op /\ (UoOp op = "replace" -> UoValue op <> None).

Lemma applyDocOp_ok `{GoJSON} d op : op_ready op -> exists d', applyDocOp d op = Ok d'.
Proof.
  intros [[_ _ Hk] Hv]. unfold supportedOps in Hk. unfold applyDocOp.
  repeat (apply elem_of_cons in Hk as [Hk|Hk]; [rewrite Hk; try by eexists|]); [|by apply elem_of_nil in Hk].
  cbn. unfold applyDocReplace. destruct (UoValue op); [by eexists|]. by specialize (Hv Hk).
Qed.

Lemma apply_updates_ready `{GoJSON} d ops :
  Forall op_ready ops -> exists d', apply_updates d ops = Ok d'.
Proof.
  intros Ho. revert d. induction Ho as [|op ops Hop Ho IH]; intros d; [by eexists|]. simpl.
  destruct (applyDocOp_ok d op Hop) as [d' ->]. apply IH.
Qed.

(** ** All versions *)

(** The stored update list that leads to version [v] was accepted when it was
    stored, and gives a value for every field it replaces. *)
Definition step_ready `{GoJSON} (history : list (Z * string)) (v : Z) : Prop :=
  exists raw spec, zget history v = Some raw /\ ParseUpdateSpec raw = Ok spec /\
    (exists ulid_ok, ValidateSpec ulid_ok spec (v - 1) = []) /\
    Forall (fun op => UoOp op = "replace" -> UoValue op <> None) (UsUpdates spec).

Lemma step_ready_ops `{GoJSON} history v :
  step_ready history v ->
  exists raw spec, zget history v = Some raw /\ ParseUpdateSpec raw = Ok spec /\
    Forall op_ready (UsUpdates spec).
Proof.
  intros (raw & spec & Hz & Hp & (ulid_ok & Hv) & Hr). exists raw, spec. split_and!; [done..|].
  apply ValidateSpec_accepted in Hv. by apply Forall_and.
Qed.

Lemma step_ready_listed `{GoJSON} history v :
  step_ready history v -> Forall op_ready (listed_ops history v).
Proof.
  intros (raw & spec & Hz & Hp & Ho)%step_ready_ops. unfold listed_ops. by rewrite Hz, Hp.
Qed.

Lemma migrate_steps_ready `{GoJSON} history v n d :
  (forall i, (i < n)%nat -> step_ready history (v + Z.of_nat i)) ->
  exists d', migrate_steps history v n d = Ok d' /\ migrated_by history v n d d'.
Proof.
  revert v d. induction n as [|n IH]; intros v d Hr; simpl; [exists d; by split; [|constructor]|].
  assert (step_ready history v) as Hv.
  { rewrite <-(Z.add_0_r v). apply (Hr 0%nat). lia. }
  destruct (step_ready_ops history v Hv) as (raw & spec & Hz & Hs & Hops). rewrite Hz, Hs.
  simpl. destruct (apply_updates_ready d (UsUpdates spec) Hops) as [d1 H1].
  unfold ApplyToDocument. rewrite H1. simpl.
  destruct (IH (v + 1)%Z d1) as (d' & Hd' & Hm).
  { intros i Hi. replace (v + 1 + Z.of_nat i)%Z with (v + Z.of_nat (S i))%Z by lia. apply Hr. lia. }
  exists d'. split; [done|]. econstructor; [|done]. unfold listed_ops. rewrite Hz, Hs.
  apply apply_updates_updated; [|done]. eapply Forall_impl; [exact Hops|]. by intros op [Ho _].
Qed.

Lemma migrated_unnamed `{GoJSON} history v n d d' k :
  (forall i, (i < n)%nat -> step_ready history (v + Z.of_nat i)) ->
  migrated_by history v n d d' ->
  (forall i, (i < n)%nat -> Forall (fun op => ~ names_field op k) (listed_ops history (v + Z.of_nat i))) ->
  aget d' k = aget d k.
Proof.
  intros Hr Hm. induction Hm as [|v n d d1 d' Hu Hm IH]; intros Hk; [done|].
  rewrite IH; cycle 1.
  { intros i Hi. replace (v + 1 + Z.of_nat i)%Z with (v + Z.of_nat (S i))%Z by lia. apply Hr. lia. }
  { intros i Hi. replace (v + 1 + Z.of_nat i)%Z with (v + Z.of_nat (S i))%Z by lia. apply Hk. lia. }
  specialize (Hr 0%nat ltac:(lia)). specialize (Hk 0%nat ltac:(lia)). rewrite Z.add_0_r in Hr, Hk.
  eapply updated_unnamed; [|exact Hu|done]. eapply Forall_impl; [by apply step_ready_listed|].
  by intros op [Ho _].
Qed.

(** Accepted operations name no metadata. *)
Lemma accepted_unnamed op k : op_accepted op -> is_metadata k = true -> ~ names_field op k.
Proof.
  intros [Hp Hf _] Hk [Hh|[Hm Hh]].
  - destruct Hp as (seg & segs & Es & Hs). rewrite Es in Hh. injection Hh as ->. congruence.
  - destruct Hf as (seg & segs & Es & Hs); [by left|]. rewrite Es in Hh. injection Hh as ->. congruence.
Qed.

Lemma Split_last_digits a s :
  str_all is_digit s = true -> last (Split (a +:+ ":" +:+ s) ":") = Some s.
Proof.
  intros Hs. change (":" +:+ s) with (String ":" s).
  pose proof (digits_no_char ":" s eq_refl Hs) as Hn.
  remember (String.length a) as n eqn:En. revert a En. induction (lt_wf n) as [n _ IH]. intros a ->.
  destruct (in_string ":" a) eqn:Ha.
  - apply first_char in Ha as (x & y & -> & Hx). rewrite str_app_assoc. cbn [String.append].
    rewrite Split_cons by done.
    specialize (IH (String.length y) ltac:(rewrite str_length_app; simpl; lia) y eq_refl).
    destruct (Split (y +:+ String ":" s) ":") as [|z l]; [done|]. by rewrite last_cons_cons.
  - rewrite Split_cons by done. by rewrite Split_no_sep.
Qed.

Lemma DocVersion_marker d collection target :
  (0 <= target < 2 ^ 63)%Z ->
  aget d "$" = Some (AStr (collection +:+ ":" +:+ Itoa target)) -> DocVersion d = Some target.
Proof.
  intros Ht Hd. unfold DocVersion. rewrite Hd. destruct (Itoa_nonneg target) as (Hdg & Hne & Hp); [lia|].
  rewrite Split_last_digits by done. rewrite (Contains_char ":"), in_string_app.
  change (in_string ":" (":" +:+ Itoa target)) with true. rewrite orb_true_r. simpl.
  rewrite (proj2 (String.eqb_neq _ _) Hne). by apply Atoi_digits.
Qed.

(** Everything a migration of the collection from version [current] needs. *)
Record updates_ready `{GoJSON} (cfg : Config) (collection : string) (current : Z) : Prop := {
  ur_steps : forall v, (current < v <= SchemaVersion (Some cfg) collection)%Z ->
    step_ready (default [] (aget (SchemaUpdateHistory cfg) collection)) v;
  ur_version : (0 <= SchemaVersion (Some cfg) collection < 2 ^ 63)%Z;
}.

Definition current_marker (cfg : Config) (collection : string) : string :=
  collection +:+ ":" +:+ Itoa (SchemaVersion (Some cfg) collection).

(** [d1] is [d] with the update lists between its version and the collection's
    applied in order. *)
Definition migration_of `{GoJSON} (cfg : Config) (collection : string) (d d1 : doc) : Prop :=
  exists current, DocVersion d = Some current /\
    migrated_by (default [] (aget (SchemaUpdateHistory cfg) collection)) (current + 1)
      (Z.to_nat (SchemaVersion (Some cfg) collection - current)) d d1.

(** No update list a migration from version [current] goes through names the
    top-level field [k]. *)
Definition field_unnamed `{GoJSON} (cfg : Config) (collection : string) (current : Z) (k : string) : Prop :=
  forall v op, (current < v <= SchemaVersion (Some cfg) collection)%Z ->
    op ∈ listed_ops (default [] (aget (SchemaUpdateHistory cfg) collection)) v -> ~ names_field op k.

Lemma metadata_unnamed `{GoJSON} cfg collection current k :
  updates_ready cfg collection current -> is_metadata k = true ->
  field_unnamed cfg collection current k.
Proof.
  intros [Hs _] Hk v op Hv Hop. apply Hs, step_ready_listed in Hv. rewrite Forall_forall in Hv.
  by apply accepted_unnamed; [apply Hv|].
Qed.

Lemma migration_runs `{GoJSON} cfg collection current d :
  DocVersion d = Some current -> (current < SchemaVersion (Some cfg) collection)%Z ->
  updates_ready cfg collection current ->
  exists d1,
    MigrateDocument cfg collection d (SchemaVersion (Some cfg) collection) =
      Ok (Some (aset d1 "$" (AStr (current_marker cfg collection)))) /\
    migration_of cfg collection d d1 /\
    forall k, field_unnamed cfg collection current k -> aget d1 k = aget d k.
Proof.
  intros Hc Hlt [Hsteps Ht]. unfold MigrateDocument. rewrite Hc, (proj2 (Z.leb_gt _ _) Hlt). cbv zeta.
  set (history := default [] (aget (SchemaUpdateHistory cfg) collection)).
  set (n := Z.to_nat (SchemaVersion (Some cfg) collection - current)).
  assert (forall i, (i < n)%nat -> (current < current + 1 + Z.of_nat i <=
            SchemaVersion (Some cfg) collection)%Z) as Hrange by (intros i; subst n; lia).
  assert (forall i, (i < n)%nat -> step_ready history (current + 1 + Z.of_nat i)) as Hr
    by (intros i Hi; apply Hsteps, Hrange, Hi).
  destruct (migrate_steps_ready history (current + 1) n d Hr) as (d1 & -> & Hm).
  exists d1. split_and!; [done|by exists current|]. intros k Hk.
  apply (migrated_unnamed history (current + 1) n); [done|done|]. intros i Hi.
  apply Forall_forall. intros op Hop. eapply Hk; [by apply Hrange, Hi|exact Hop].
Qed.

Lemma marker_current cfg collection d :
  (0 <= SchemaVersion (Some cfg) collection < 2 ^ 63)%Z ->
  aget d "$" = Some (AStr (current_marker cfg collection)) ->
  NeedsMigration (Some cfg) collection (Some d) = false.
Proof. intros Ht Hd. unfold NeedsMigration. erewrite DocVersion_marker by done. apply Z.ltb_irrefl. Qed.

End accepted.

(** ** What the code gets wrong *)

Section wrong.
Context `{GoFloat} `{GoJSON}.

(** An update list that replaces a field without giving a value is accepted,
    and then fails on every document: no document of the collection can be
    brought to that schema version, and every read of one that is behind it
    fails. *)
Theorem accepted_replace_fails ulid_ok verID v p d :
  ulid_ok verID = true -> validatePathTarget p = Ok tt -> p <> "" ->
  let spec := mkUpdateSpec v None verID [mkUpdateOp "replace" p "" None None ANil] in
  ValidateSpec ulid_ok spec v = [] /\ is_ok (ApplyToDocument d spec) = false.
Proof.
  intros Hid Hp Hne spec. split; [|done]. unfold ValidateSpec, spec. cbn [UsFrom UsTo UsNewVerID UsUpdates].
  rewrite Z.eqb_refl, Hid. cbn [check_updates]. unfold check_update, check_target.
  cbn [UoOp UoPath UoSchema UoFrom]. rewrite (proj2 (String.eqb_neq _ _) Hne), Hp. done.
Qed.

(** The number of a document is a literal, which the conversion rules do not
    know: converting a number field to a number field turns every value into
    zero, a number field with value zero becomes true, and an extra field with a
    number is not recognised as one by an import. *)
Theorem conversion_drops_numbers l schema :
  getString schema "kind" = Some "number" ->
  convertKind (ANumber l) "number" = AFloat float_zero /\
  convertKind (ANumber l) "boolean" = ABool true /\
  schemaKindMatches (Some schema) (ANumber l) = false.
Proof. intros Hk. split_and!; [done|done|]. unfold schemaKindMatches, schema_kind. by rewrite Hk. Qed.
End wrong.

(** ** Documents on the way to the disk *)

Section encode.
Context `{OJSON} `{!OJSONLaws} `{GoJSON} `{!GoJSONLaws}.

Lemma aget_perm (m m' : fields) k :
  NoDup (akeys m) -> Permutation m m' -> aget m k = aget m' k.
Proof.
  intros Hnd Hp. assert (NoDup (akeys m')) as Hnd' by (unfold akeys in *; by rewrite <-Hp).
  destruct (aget m k) as [v|] eqn:E.
  - symmetry. apply aget_in_NoDup; [done|]. rewrite <-Hp. by apply aget_Some_in.
  - destruct (aget m' k) as [v|] eqn:E'; [|done]. apply aget_Some_in in E'. rewrite <-Hp in E'.
    by rewrite (aget_in_NoDup _ _ _ Hnd E') in E.
Qed.

(** The fields of an object in the order of a printed Go map. *)
Lemma map_order_fields m :
  exists m', map_order (JObj m) = JObj m' /\
    Permutation (map (fun kv => (fst kv, map_order (snd kv))) m) m'.
Proof. eexists. split; [done|]. symmetry. apply merge_sort_Permutation. Qed.

Lemma map_order_well_formed v : well_formed v = true -> well_formed (map_order v) = true.
Proof.
  induction v as [| | | |l IH|m IH] using json_nested_ind; try done.
  - simpl. rewrite !forallb_forall. intros Hl x (y & <- & Hy)%in_map_iff.
    rewrite List.Forall_forall in IH. auto.
  - intros [Hnd Hall]%well_formed_obj. destruct (map_order_fields m) as (m' & -> & Hp).
    apply well_formed_obj. split.
    + unfold akeys in *. rewrite <-Hp, map_map. done.
    + rewrite <-Hp. apply Forall_fmap. rewrite Forall_forall in Hall, IH |- *. intros kv Hkv.
      destruct (Hall kv Hkv) as [H1' H2']. split; [done|]. by apply IH.
Qed.

Lemma map_order_jeqv v : well_formed v = true -> jeqv v (map_order v).
Proof.
  induction v as [| | | |l IH|m IH] using json_nested_ind; intros Hw; try (by constructor).
  - simpl in *. constructor. rewrite forallb_forall in Hw. induction IH as [|x l Hx Hl IHl]; constructor.
    + apply Hx, Hw. by left.
    + apply IHl. intros y Hy. apply Hw. by right.
  - apply well_formed_obj in Hw as [Hnd Hall]. destruct (map_order_fields m) as (m' & -> & Hp).
    assert (akeys (map (fun kv => (fst kv, map_order (snd kv))) m) = akeys m) as Hkeys
      by (unfold akeys; by rewrite map_map).
    constructor; [rewrite <-Hkeys; unfold akeys; by rewrite Hp|].
    intros k v v' Hv Hv'.
    rewrite <-(aget_perm (map (fun kv => (fst kv, map_order (snd kv))) m) m' k) in Hv';
      [|by rewrite Hkeys|done].
    assert (aget (map (fun kv => (fst kv, map_order (snd kv))) m) k = map_order <$> aget m k) as Hmap.
    { clear. induction m as [|[k0 v0] m IH]; [done|]. simpl. by destruct (k =? k0). }
    rewrite Hmap, Hv in Hv'. injection Hv' as <-. apply aget_Some_in in Hv.
    rewrite Forall_forall in Hall, IH. apply (IH (k, v) Hv), (Hall (k, v) Hv).
Qed.

Lemma jeqv_string m m' k s :
  jeqv (JObj m) (JObj m') -> aget m k = Some (JStr s) -> aget m' k = Some (JStr s).
Proof.
  inversion 1 as [| | | | |? ? Hp Hv]; subst. intros Hk.
  destruct (akeys_perm_get m m' k _ Hp Hk) as [v' Hk']. rewrite Hk'.
  pose proof (Hv _ _ _ Hk Hk') as Hs. by inversion Hs.
Qed.

(** The text of a document a Go map was encoded to: its fields with their values,
    up to the order of fields. *)
Lemma encoded_document (schema : option string) m out :
  well_formed (JObj m) = true ->
  match schema with Some raw => CanonicalizeMap raw m | None => EncodeMap m end = Ok out ->
  exists m', out = stored (JObj m') /\ ReadBytesNoSchema out = Ok (JObj m') /\
    jeqv (JObj m) (JObj m').
Proof.
  intros Hw Hout. pose proof (map_order_well_formed _ Hw) as Hw1.
  pose proof (map_order_jeqv _ Hw) as Hq. destruct (map_order_fields m) as (m1 & E & _).
  assert (ReadBytesNoSchema (Marshal (map_order (JObj m))) = Ok (JObj m1)) as Hr.
  { rewrite read_marshal by done. by rewrite E. }
  rewrite E in Hw1, Hq. destruct schema as [raw|].
  - unfold CanonicalizeMap, CanonicalizeBytes in Hout. rewrite Hr in Hout.
    apply Canonicalize_ok in Hout as (root & _ & -> & Hread & Hg); [|done].
    eexists. split_and!; [done|done|]. eapply jeqv_trans; [exact Hq|apply Hg].
  - unfold EncodeMap, PrettyBytes in Hout. rewrite Hr in Hout. injection Hout as <-.
    exists m1. split_and!; [done|by apply read_pretty_newline, Hw1|done].
Qed.
End encode.

(** ** The stored document, under any failures *)

Section stored_migration.
Context `{E : Env} `{OJSON} `{!OJSONLaws} `{GoJSON} `{!GoJSONLaws} `{GoFloat} `{Net}.
Context (D : path) (cfg : Config) (c id : string).

(** A server without shards on the same directory: the commit of its patches is
    the rewrite of the stored document. *)
Definition bare_engine : Engine :=
  mkEngine D "" (mkConfig (General cfg) [] None (Auth cfg) [] [] [] [] [] [] []) None None None.

Lemma bare_engine_ok : engine_ok bare_engine.
Proof. by split. Qed.

Notation live := (DocumentPath D c id).
Notation prev := (PreviousDocumentPath D c id).
Notation e := bare_engine.
Notation untouched := (others_kept e (mkRequest "patch" c id "")).
Notation target := (SchemaVersion (Some cfg) c).

Lemma go_encode_field (d : list (string * any)) k s :
  aget d k = Some (AStr s) -> aget (as_fields d) k = Some (JStr s).
Proof.
  induction d as [|[k0 v0] d IH]; [done|]. simpl. destruct (k =? k0); [by intros [= ->]|apply IH].
Qed.

Lemma as_fields_aset d k v : as_fields (aset d k v) = aset (as_fields d) k (go_encode v).
Proof.
  induction d as [|[k0 v0] d IH]; [done|]. simpl. destruct (k =? k0); simpl; [done|by rewrite IH].
Qed.

Lemma as_doc_field m k s : aget m k = Some (JStr s) -> aget (as_doc m) k = Some (AStr s).
Proof.
  induction m as [|[k0 v0] m IH]; [done|]. simpl. destruct (k =? k0); [by intros [= ->]|apply IH].
Qed.

Lemma NewID_fresh s : wp NewID (fun r s' => st_fs s' = st_fs s /\ exists n, newid n = r) s.
Proof. split; [done|by eexists]. Qed.

Lemma ReadDocumentJSON_present p d m s :
  content (st_fs s) p = Some d -> ReadBytesNoSchema d = Ok (JObj m) ->
  wp (ReadDocumentJSON p) (fun r s' => st_fs s' = st_fs s /\
    (r = Ok m \/ exists err, r = Err err /\ is_not_exist err = false)) s.
Proof.
  intros Hd Hm. unfold ReadDocumentJSON, ReadDocumentValue. apply wp_rbind, wp_rbind.
  eapply wp_mono; [apply ReadFile_spec|]. intros r s1 [Hf Hr]. destruct r as [d'|err]; cbv beta iota.
  - destruct Hr as [Hr|[? _]]; [|done]. pose proof (fs_read_ok _ _ _ (eq_sym Hr)) as Hc.
    rewrite Hd in Hc. injection Hc as <-. rewrite Hm. apply wp_ret. split; [done|by left].
  - split; [done|]. right. exists err. split; [done|]. destruct Hr as [Hr|[[= ->] _]]; [|done].
    destruct (is_not_exist err) eqn:Ee; [|done]. by rewrite (content_read_missing _ _ _ (eq_sym Hr) Ee) in Hd.
Qed.

(** The last three calls are the commit of a patch. *)
Lemma rewrite_is_commit docBytes (Q : option Envelope -> st -> Prop) s :
  wp (commit_patch e c id docBytes) Q s ->
  wp (PreservePreviousIfAbsent D c id ;?
      WriteDocumentJSONVerified live docBytes ;?
      EnqueueChange D c id "patch" ;?
      mret (Ok true)) (fun r s' => exists o, Q o s' /\ (r = Ok true /\ o = None \/ is_ok r = false /\ o <> None)) s.
Proof.
  unfold wp, commit_patch, rbind, mbind, M_bind, mret, M_ret, bare_engine. cbn [EDataDir].
  destruct (PreservePreviousIfAbsent D c id s) as [[u|?] s1]; [|intros HQ; eexists; split; [exact HQ|by right]].
  destruct (WriteDocumentJSONVerified _ _ s1) as [[u2|?] s2]; [|intros HQ; eexists; split; [exact HQ|by right]].
  destruct (EnqueueChange _ _ _ _ s2) as [[u3|?] s3]; intros HQ; eexists; (split; [exact HQ|]); [by left|by right].
Qed.

(** The document at [live] after the migration: the fields of the migrated
    document with their values, up to the order of fields, the marker of the
    collection's version and a fresh version string; the identifier is kept and
    nothing is left to migrate. *)
Definition migrated_from (m : fields) (f : fs) : Prop :=
  exists d1 m' version, content f live = Some (stored (JObj m')) /\
    ReadBytesNoSchema (stored (JObj m')) = Ok (JObj m') /\
    migration_of cfg c (as_doc m) d1 /\
    jeqv (JObj (as_fields (aset (aset d1 "$" (AStr (current_marker cfg c))) "#" (AStr version)))) (JObj m') /\
    (forall s, aget m "!" = Some (JStr s) -> aget m' "!" = Some (JStr s)) /\
    aget m' "#" = Some (JStr version) /\
    NeedsMigration (Some cfg) c (Some (as_doc m')) = false.

Lemma migrated_text (m : fields) (d1 : doc) (version docBytes : string) :
  let d' := aset (aset d1 "$" (AStr (current_marker cfg c))) "#" (AStr version) in
  (0 <= target < 2 ^ 63)%Z -> well_formed (JObj (as_fields d')) = true ->
  migration_of cfg c (as_doc m) d1 -> aget d1 "!" = aget (as_doc m) "!" ->
  match aget (Schemas cfg) c with
  | Some raw => CanonicalizeMap raw (as_fields d')
  | None => EncodeMap (as_fields d')
  end = Ok docBytes ->
  exists v, ReadBytesNoSchema docBytes = Ok v /\
    forall f, content f live = Some (stored v) -> migrated_from m f.
Proof.
  intros d' Ht Hw Hmig Hid Henc.
  destruct (encoded_document _ _ _ Hw Henc) as (m' & -> & Hread & Heq).
  exists (JObj m'). split; [done|]. intros f Hl. exists d1, m', version.
  split_and!; [done|done|done|done| | |].
  - intros s Hs. eapply jeqv_string; [exact Heq|]. apply go_encode_field.
    subst d'. rewrite !aget_aset_ne by done. rewrite Hid. by apply as_doc_field.
  - eapply jeqv_string; [exact Heq|]. apply go_encode_field, aget_aset_eq.
  - apply marker_current; [done|]. apply as_doc_field. eapply jeqv_string; [exact Heq|].
    apply go_encode_field. subst d'. rewrite aget_aset_ne by done. apply aget_aset_eq.
Qed.

(** What a migration of the stored document [m] at version [current] needs. *)
Record migratable (m : fields) (current : Z) : Prop := {
  mi_version : DocVersion (as_doc m) = Some current;
  mi_behind : (current < target)%Z;
  mi_updates : updates_ready cfg c current;
  mi_json : forall d', MigrateDocument cfg c (as_doc m) target = Ok (Some d') ->
    well_formed (JObj (as_fields d')) = true;
  mi_ids : forall n version, newid n = Ok version -> ValidString version = true;
}.

Lemma stored_migration_spec d m current s :
  plain_collection c = true -> SafeID id = true ->
  content (st_fs s) live = Some d -> ReadBytesNoSchema d = Ok (JObj m) -> migratable m current ->
  wp (ApplyToStoredDocument D cfg c id) (fun r s' =>
    untouched (st_fs s) (st_fs s') /\
    (content (st_fs s') live = Some d /\ is_ok r = false \/
     content (st_fs s') live = None /\ content (st_fs s') prev = Some d /\ is_ok r = false \/
     migrated_from m (st_fs s'))) s.
Proof.
  intros Hc Hid Hd Hm [Hv Hlt Hr Hwf Hids]. unfold ApplyToStoredDocument.
  wp_step ReadDocumentJSON_present; [exact Hd|exact Hm|]. intros r s1 [F1 [->|(err & -> & ->)]]; cycle 1.
  { apply wp_ret. rewrite F1. split; [done|by left]. }
  assert (NeedsMigration (Some cfg) c (Some (as_doc m)) = true) as ->.
  { unfold NeedsMigration. rewrite Hv. by apply Z.ltb_lt. }
  destruct (migration_runs cfg c current (as_doc m) Hv Hlt Hr) as (d1 & Emig & Hmof & Hkeep).
  rewrite Emig. cbn [negb]. wp_step NewID_fresh. intros [version|err] s2 [F2 [n Hn]];
    [|rewrite F2, F1; split; [done|by left]].
  set (d' := aset d1 "$" (AStr (current_marker cfg c))) in *.
  assert (well_formed (JObj (as_fields (aset d' "#" (AStr version)))) = true) as Hw.
  { rewrite as_fields_aset. apply well_formed_aset; [by apply Hwf|done|by eapply Hids]. }
  cbv zeta. cbn [default].
  match goal with |- context [match ?x with Ok _ => _ | Err _ => _ end] => destruct x as [docBytes|] eqn:Eenc end;
    [|apply wp_ret; rewrite F2, F1; split; [done|by left]].
  rewrite <-F1, <-F2 in Hd |- *.
  destruct (migrated_text m d1 version docBytes (ur_version _ _ _ Hr) Hw Hmof) as (v & Hrv & Hmig);
    [by apply Hkeep, metadata_unnamed|exact Eenc|].
  eapply wp_mono; [apply rewrite_is_commit|].
  { apply (commit_patch_spec e bare_engine_ok (mkRequest "patch" c id "") docBytes d v); done. }
  intros r s' (o & (O & _ & L) & Ho). split; [done|].
  destruct L as [[L Ln]|[L|(L & P & Ln)]]; [left|by auto|right; left]; (destruct Ho as [[_ ->]|[Ho _]]; [done|by auto]).
Qed.

(** C22: a stored document behind its collection, whose update lists are stored,
    accepted and give a value to every [replace], whose migrated form is JSON with
    valid strings, in a collection whose name has no slash and no leading dot and
    under identifiers with valid text: whatever system call of its migration
    fails, at whatever point, every other document is as it was and the old text
    is not lost: it is live, or it is at the hidden previous path, or the whole
    migrated document is live, that is the document with the operations of the
    update lists applied one after the other, field by field with their values,
    under the collection's marker and a version of its own, with its identifier
    and nothing left to migrate; a report of success means the migrated document
    is live. *)
Theorem stored_migration d m current s :
  plain_collection c = true -> SafeID id = true ->
  content (st_fs s) live = Some d -> ReadBytesNoSchema d = Ok (JObj m) -> migratable m current ->
  wp (ApplyToStoredDocument D cfg c id) (fun r s' =>
    untouched (st_fs s) (st_fs s') /\
    (content (st_fs s') live = Some d /\ is_ok r = false \/
     content (st_fs s') live = None /\ content (st_fs s') prev = Some d /\ is_ok r = false \/
     migrated_from m (st_fs s'))) s.
Proof. apply stored_migration_spec. Qed.
End stored_migration.
