(* ===== verification/SchemaPatch.v ===== *)
(** * Package schemapatch: an update list applied to a schema

    [internal/schemapatch/apply.go].  The source walks a tree of ojson values and
    changes the arrays it reaches in place.  Here a place is the list of positions
    that leads to it from the root, found in the tree before any change, and a
    change rebuilds the tree along that list.  A [move] appends the node before it
    takes it out of its old place: appending to the end shifts no position, and a
    node moved below itself is gone from the tree either way.

    Every string and number an update list holds comes out of a JSON text, so the
    ojson constructors accept it.  [schema_follows_documents] relates the two
    appliers of one update list, this one and the one for documents in [Migrate]. *)

From S2P Require Import Prelude GoStrings World Shard Json Config Store Docjson Replication Search Migrate MigrateSpec.

(** ** Places in a schema *)

Definition child_name (item : json) : string := ValueString (Get item "name").

Definition findChild (children : list json) (name : string) : option (nat * json) :=
  list_find (fun item => child_name item = name) children.

(** The place of the array a node is in, its position there, and the node. *)
Fixpoint resolveNode (node : json) (segments : list string) : result (list nat * nat * json) :=
  match segments with
  | [] => Err (errorf "path must not be the document root")
  | seg :: segs =>
      match Get node "children" with
      | Some (JArr children) =>
          match findChild children seg with
          | None => Err (errorf "field not found")
          | Some (i, child) =>
              match segs with
              | [] => Ok ([], i, child)
              | _ =>
                  if bool_decide (Kind (Some child) = KindObject)
                  then result_bind (resolveNode child segs) (fun '(place, idx, n) => Ok (i :: place, idx, n))
                  else Err (errorf "field is not an object; cannot descend")
              end
          end
      | _ => Err (errorf "field not found")
      end
  end.

(** The place of a children array that may still have to be made, and the
    children it has. *)
Fixpoint resolveParentChildrenArray (node : json) (segments : list string) : result (list nat * list json) :=
  match segments with
  | [] => Ok ([], match Get node "children" with Some (JArr children) => children | _ => [] end)
  | seg :: segs =>
      match Get node "children" with
      | Some (JArr children) =>
          match findChild children seg with
          | None => Err (errorf "field not found")
          | Some (i, child) =>
              if bool_decide (Kind (Some child) = KindObject)
              then result_bind (resolveParentChildrenArray child segs) (fun '(place, l) => Ok (i :: place, l))
              else Err (errorf "field is not an object; cannot descend")
          end
      | _ => Err (errorf "field not found")
      end
  end.

Definition children_of (m : fields) : list json :=
  match aget m "children" with Some (JArr l) => l | _ => [] end.

(** Changes the children array at a place. *)
Fixpoint at_place (place : list nat) (f : list json -> list json) (v : json) : json :=
  match v with
  | JObj m =>
      JObj (aset m "children" (JArr
        match place with
        | [] => f (children_of m)
        | i :: place' => alter (at_place place' f) i (children_of m)
        end))
  | _ => v
  end.

Definition append (entry : json) (l : list json) : list json := l ++ [entry].
Definition remove_at (i : nat) (l : list json) : list json := take i l ++ drop (S i) l.
Definition insert_at (i : nat) (entry : json) (l : list json) : list json := take i l ++ entry :: drop i l.

(** ** Operations *)

Fixpoint toJSONValue (v : json) : json :=
  match v with
  | JArr l => JArr (map toJSONValue l)
  | JObj m => JObj (aset_all [] (map (fun kv => (fst kv, toJSONValue (snd kv))) m))
  | _ => v
  end.

Definition buildSchemaEntry (name : string) (schema : fields) : json :=
  JObj (foldl (fun entry kv => if fst kv =? "name" then entry else aset entry (fst kv) (toJSONValue (snd kv)))
          [("name", JStr name)] schema).

Definition with_name (node : json) (name : string) : json :=
  match node with JObj m => JObj (aset m "name" (JStr name)) | _ => node end.

Section apply.
Context `{GoFloat}.

Definition applyAdd (root : json) (op : UpdateOp) : result json :=
  match rev (splitPath (UoPath op)) with
  | [] => Err (errorf "cannot add at document root")
  | leafName :: parents =>
      result_bind (resolveParentChildrenArray root (rev parents)) (fun '(place, children) =>
      match findChild children leafName, UoSchema op with
      | Some _, _ => Err (errorf "field already exists in schema")
      | None, None => Err (errorf "schema object is required")
      | None, Some schema => Ok (at_place place (append (buildSchemaEntry leafName schema)) root)
      end)
  end.

Definition applyRemove (root : json) (op : UpdateOp) : result json :=
  result_bind (resolveNode root (splitPath (UoPath op))) (fun '(place, idx, _) =>
  Ok (at_place place (remove_at idx) root)).

Definition applyReplace (root : json) (op : UpdateOp) : result json :=
  result_bind (resolveNode root (splitPath (UoPath op))) (fun _ => Ok root).

Definition applyMove (root : json) (op : UpdateOp) : result json :=
  match rev (splitPath (UoPath op)) with
  | [] => Err (errorf "cannot move to document root")
  | newName :: parents =>
      result_bind (resolveNode root (splitPath (UoFrom op))) (fun '(placeFrom, idxFrom, node) =>
      result_bind (resolveParentChildrenArray root (rev parents)) (fun '(placeTo, childrenTo) =>
      match findChild childrenTo newName with
      | Some _ => Err (errorf "field already exists in schema")
      | None =>
          Ok (at_place placeFrom (remove_at idxFrom)
                (at_place placeTo (append (with_name node newName)) root))
      end))
  end.

Definition applyCopy `{OJSON} (root : json) (op : UpdateOp) : result json :=
  match rev (splitPath (UoPath op)) with
  | [] => Err (errorf "cannot copy to document root")
  | newName :: parents =>
      result_bind (resolveNode root (splitPath (UoFrom op))) (fun '(_, _, node) =>
      result_bind (resolveParentChildrenArray root (rev parents)) (fun '(placeTo, childrenTo) =>
      match findChild childrenTo newName with
      | Some _ => Err (errorf "field already exists in schema")
      | None =>
          result_bind (ReadBytesNoSchema (ToJSONBytes node)) (fun clone =>
          Ok (at_place placeTo (append (with_name clone newName)) root))
      end))
  end.

Definition applyConvert (root : json) (op : UpdateOp) : result json :=
  result_bind (resolveNode root (splitPath (UoPath op))) (fun '(place, idx, node) =>
  match UoSchema op with
  | None => Err (errorf "schema object is required")
  | Some schema =>
      let entry := buildSchemaEntry (child_name node) schema in
      Ok (at_place place (fun l => insert_at idx entry (remove_at idx l)) root)
  end).

Definition applyOp `{OJSON} (root : json) (op : UpdateOp) : result json :=
  if (UoOp op =? "add") || (UoOp op =? "import") then applyAdd root op
  else if (UoOp op =? "remove") || (UoOp op =? "abandon") then applyRemove root op
  else if UoOp op =? "replace" then applyReplace root op
  else if UoOp op =? "move" then applyMove root op
  else if UoOp op =? "copy" then applyCopy root op
  else if UoOp op =? "convert" then applyConvert root op
  else Err (errorf "unsupported op").

Fixpoint apply_ops `{OJSON} (root : json) (ops : list UpdateOp) : result json :=
  match ops with
  | [] => Ok root
  | op :: ops' => result_bind (applyOp root op) (fun root' => apply_ops root' ops')
  end.

Definition ApplySchema `{OJSON} (currentSchemaBytes : string) (spec : UpdateSpec) : result string :=
  result_bind (ReadBytesNoSchema currentSchemaBytes) (fun root =>
  if bool_decide (Kind (Some root) = KindObject)
  then result_bind (apply_ops root (UsUpdates spec)) (fun root' => Ok (ToPrettyJSONBytes root'))
  else Err (errorf "current schema root must be kind object")).
End apply.

(** ** The fields of a schema *)

Definition names (root : json) : list string :=
  match root with JObj m => map child_name (children_of m) | _ => [] end.

Lemma child_name_at_place place f v : child_name (at_place place f v) = child_name v.
Proof.
  destruct v, place; try done; unfold child_name; cbn [at_place Get]; by rewrite aget_aset_ne by done.
Qed.

Lemma at_place_object place f m : exists m', at_place place f (JObj m) = JObj m'.
Proof. destruct place; by eexists. Qed.

Lemma names_at_place place f m :
  names (at_place place f (JObj m)) =
    match place with [] => map child_name (f (children_of m)) | _ => names (JObj m) end.
Proof.
  destruct place as [|i place]; cbn [at_place names]; unfold children_of at 1; rewrite aget_aset_eq; [done|].
  apply list_eq. intros j. rewrite !list_lookup_fmap. destruct (decide (i = j)) as [<-|Hne].
  - rewrite list_lookup_alter_eq. destruct (children_of m !! i); [|done]. simpl. by rewrite child_name_at_place.
  - by rewrite list_lookup_alter_ne.
Qed.

Lemma findChild_Some l name i c :
  findChild l name = Some (i, c) -> l !! i = Some c /\ child_name c = name.
Proof. intros (Hl & Hn & _)%list_find_Some. done. Qed.

Lemma children_array m l : Get (JObj m) "children" = Some (JArr l) -> children_of m = l.
Proof. cbn [Get]. unfold children_of. by intros ->. Qed.

Lemma findChild_name m l name i c :
  Get (JObj m) "children" = Some (JArr l) -> findChild l name = Some (i, c) -> name ∈ names (JObj m).
Proof.
  intros Hm (Hl & <-)%findChild_Some. cbn [names]. rewrite (children_array m l Hm).
  apply list_elem_of_fmap. exists c. split; [done|]. by eapply list_elem_of_lookup_2.
Qed.

(** Where a path leads. *)
Lemma resolveNode_place m seg segs place idx n :
  resolveNode (JObj m) (seg :: segs) = Ok (place, idx, n) ->
  seg ∈ names (JObj m) /\
  match segs with
  | [] => place = [] /\ children_of m !! idx = Some n /\ child_name n = seg
  | _ => exists i place', place = i :: place'
  end.
Proof.
  cbn [resolveNode]. destruct (Get (JObj m) "children") as [[]|] eqn:Em; try done.
  destruct (findChild l seg) as [[i c]|] eqn:Ef; [|done]. intros Hr.
  split; [by eapply findChild_name|]. destruct segs as [|s segs].
  - injection Hr as <- <- <-. rewrite (children_array m l Em). split; [done|]. by apply findChild_Some.
  - destruct (bool_decide _); [|done]. destruct (resolveNode c (s :: segs)) as [[[]]|]; [|done].
    injection Hr as <- <- <-. by eexists _, _.
Qed.

Lemma resolveParent_place m segs place l :
  resolveParentChildrenArray (JObj m) segs = Ok (place, l) ->
  match segs with
  | [] => place = [] /\ l = children_of m
  | seg :: _ => seg ∈ names (JObj m) /\ exists i place', place = i :: place'
  end.
Proof.
  destruct segs as [|seg segs]; cbn [resolveParentChildrenArray].
  - intros [= <- <-]. done.
  - destruct (Get (JObj m) "children") as [[]|] eqn:Em; try done.
    destruct (findChild l0 seg) as [[i c]|] eqn:Ef; [|done]. destruct (bool_decide _); [|done].
    destruct (resolveParentChildrenArray c segs) as [[]|]; [|done]. intros [= <- <-].
    split; [by eapply findChild_name|]. by eexists _, _.
Qed.

Lemma in_remove_at (l : list json) i c k :
  l !! i = Some c -> k ∈ map child_name l -> k <> child_name c -> k ∈ map child_name (remove_at i l).
Proof.
  intros Hi. rewrite <-(take_drop_middle l i c Hi) at 1. unfold remove_at. rewrite !map_app. cbn [map].
  set_solver.
Qed.

Lemma child_name_built name schema : child_name (buildSchemaEntry name schema) = name.
Proof.
  unfold child_name, buildSchemaEntry. cbn [Get].
  assert (forall e, aget e "name" = Some (JStr name) ->
    aget (foldl (fun entry kv => if fst kv =? "name" then entry else aset entry (fst kv) (toJSONValue (snd kv)))
            e schema) "name" = Some (JStr name)) as Hf; [|by rewrite Hf].
  induction schema as [|[k v] schema IH]; intros e He; cbn [foldl fst snd]; [done|].
  apply IH. destruct (k =? "name") eqn:Ek; [done|]. rewrite aget_aset_ne; [done|]. by apply String.eqb_neq.
Qed.

Lemma child_name_with_name m name : child_name (with_name (JObj m) name) = name.
Proof. unfold child_name. cbn [with_name Get]. by rewrite aget_aset_eq. Qed.

(** ** Schemas and documents

    What an update list does to the fields of a schema and of a document. *)

Section agrees.
Context `{GoFloat} `{OL : OJSONLaws} `{GoJSON}.

(** A field of the document that its schema does not describe. *)
Definition extra (root : json) (d : list (string * any)) (k : string) : Prop :=
  ahas d k = true /\ k ∉ names root.

(** An operation that keeps the field in both or in neither: not [abandon], which
    leaves the value in the document as an extra field, and not a [move] of a field
    to a place below itself. *)
Record in_step (op : UpdateOp) : Prop := {
  is_path : field_path (UoPath op);
  is_from : UoOp op = "move" \/ UoOp op = "copy" -> field_path (UoFrom op) /\ "" ∉ splitPath (UoFrom op);
  is_kept : UoOp op <> "abandon";
  is_outside : UoOp op = "move" -> ~ splitPath (UoFrom op) `prefix_of` splitPath (UoPath op);
}.

Lemma resolveNode_named node segs place idx n :
  resolveNode node segs = Ok (place, idx, n) -> last segs = Some (child_name n).
Proof.
  revert node place idx. induction segs as [|seg segs IH]; intros node place idx; cbn [resolveNode]; [done|].
  destruct (Get node "children") as [[]|]; try done.
  destruct (findChild l seg) as [[i c]|] eqn:Ef; [|done]. destruct segs as [|s segs].
  - intros [= <- <- <-]. by apply findChild_Some in Ef as [_ <-].
  - destruct (bool_decide _); [|done]. destruct (resolveNode c (s :: segs)) as [[[]]|] eqn:Er; [|done].
    intros [= <- <- <-]. by apply IH in Er.
Qed.

Lemma resolveNode_object node segs place idx n :
  "" ∉ segs -> resolveNode node segs = Ok (place, idx, n) -> exists m, n = JObj m.
Proof.
  intros Hs Hr%resolveNode_named. destruct n; try (by eexists); exfalso; apply Hs;
    apply last_Some_elem_of in Hr; exact Hr.
Qed.

(** A field appended to the children of the object a path leads to. *)
Lemma appended_names m parents leaf place l entry :
  resolveParentChildrenArray (JObj m) parents = Ok (place, l) -> child_name entry = leaf ->
  exists m', at_place place (append entry) (JObj m) = JObj m' /\
    names (JObj m) `prefix_of` names (JObj m') /\
    forall seg segs, parents ++ [leaf] = seg :: segs ->
      seg ∈ names (JObj m') /\ (segs <> [] -> seg ∈ names (JObj m)).
Proof.
  intros Hp He. destruct (at_place_object place (append entry) m) as [m' Em]. exists m'. split; [done|].
  rewrite <-Em, names_at_place. clear m' Em. apply resolveParent_place in Hp. destruct parents as [|p ps].
  - destruct Hp as [-> ->]. unfold append. rewrite map_app. cbn [map names]. rewrite He. split; [by eexists|].
    intros seg segs [= <- <-]. split; [set_solver|intros Hn; by destruct Hn].
  - destruct Hp as (Hp & i & place' & ->). split; [done|]. by intros seg segs [= <- _].
Qed.

(** A field taken out of the array it is in. *)
Lemma removed_names m place idx f :
  (place = [] -> names (JObj m) !! idx = Some f) ->
  exists m', at_place place (remove_at idx) (JObj m) = JObj m' /\
    forall k, k ∈ names (JObj m) -> k ∈ names (JObj m') \/ place = [] /\ k = f.
Proof.
  intros Hp. destruct (at_place_object place (remove_at idx) m) as [m' Em]. exists m'. split; [done|]. intros k Hk.
  rewrite <-Em, names_at_place. clear m' Em.
  destruct place; [|by left]. specialize (Hp eq_refl). cbn [names] in Hp, Hk.
  apply list_lookup_fmap_Some in Hp as (c & -> & Hc).
  destruct (decide (k = child_name c)) as [->|Hne]; [by right|left]. by eapply in_remove_at.
Qed.

(** What resolving a path says of the fields of the root. *)
Lemma resolveNode_names m seg segs place idx n :
  resolveNode (JObj m) (seg :: segs) = Ok (place, idx, n) ->
  seg ∈ names (JObj m) /\ (place = [] <-> segs = []) /\ (place = [] -> names (JObj m) !! idx = Some seg).
Proof.
  intros [Hs Hp]%resolveNode_place. split; [done|]. destruct segs.
  - destruct Hp as (-> & Hi & Hn). split; [done|]. intros _. cbn [names]. rewrite list_lookup_fmap, Hi. simpl. by rewrite Hn.
  - destruct Hp as (i & place' & ->). done.
Qed.

Lemma rev_cons_inv {A} (l : list A) x r : rev l = x :: r -> l = rev r ++ [x].
Proof. intros E. by rewrite <-(rev_involutive l), E. Qed.

(** The fields of the root after an operation that takes none away. *)
Definition grown (op : UpdateOp) (m : fields) (root' : json) : Prop :=
  exists m', root' = JObj m' /\ names (JObj m) ⊆ names (JObj m') /\
    forall seg segs, splitPath (UoPath op) = seg :: segs -> seg ∈ names (JObj m').

Lemma appended_grown op m leaf parents place l entry :
  rev (splitPath (UoPath op)) = leaf :: parents ->
  resolveParentChildrenArray (JObj m) (rev parents) = Ok (place, l) -> child_name entry = leaf ->
  grown op m (at_place place (append entry) (JObj m)).
Proof.
  intros Es%rev_cons_inv Ep He. destruct (appended_names m _ leaf place l entry Ep He) as (m' & Em & [k Hk] & Hseg).
  exists m'. split_and!; [done|rewrite Hk; set_solver|]. intros seg segs E. rewrite Es in E. by apply Hseg in E as [].
Qed.

Lemma add_grows m op root' : applyAdd (JObj m) op = Ok root' -> grown op m root'.
Proof.
  unfold applyAdd. destruct (rev (splitPath (UoPath op))) as [|leaf parents] eqn:Es; [done|].
  destruct (resolveParentChildrenArray _ _) as [[place l]|] eqn:Ep; [|done]. simpl.
  destruct (findChild l leaf); [done|]. destruct (UoSchema op) as [schema|]; [|done]. intros [= <-].
  eapply appended_grown; [done..|apply child_name_built].
Qed.

Lemma copy_grows m op root' :
  "" ∉ splitPath (UoFrom op) -> applyCopy (JObj m) op = Ok root' -> grown op m root'.
Proof.
  intros Hfrom. unfold applyCopy. destruct (rev (splitPath (UoPath op))) as [|leaf parents] eqn:Es; [done|].
  destruct (resolveNode _ _) as [[[place idx] n]|] eqn:En; [|done]. simpl.
  destruct (resolveParentChildrenArray _ _) as [[placeTo l]|] eqn:Ep; [|done]. simpl.
  destruct (findChild l leaf); [done|]. destruct (ReadBytesNoSchema _) as [clone|] eqn:Ec; [|done]. intros [= <-].
  destruct (resolveNode_object _ _ _ _ _ Hfrom En) as [nm ->]. apply read_compact_object in Ec as [cm ->].
  eapply appended_grown; [done..|apply child_name_with_name].
Qed.

Lemma replace_grows m op root' : applyReplace (JObj m) op = Ok root' -> grown op m root'.
Proof.
  unfold applyReplace. destruct (resolveNode _ _) as [[[place idx] n]|] eqn:En; [|done]. intros [= <-].
  exists m. split_and!; [done|done|]. intros seg segs E. rewrite E in En. by apply resolveNode_place in En as [].
Qed.

Lemma convert_grows m op root' : applyConvert (JObj m) op = Ok root' -> grown op m root'.
Proof.
  unfold applyConvert. destruct (resolveNode _ _) as [[[place idx] n]|] eqn:En; [|done]. simpl.
  destruct (UoSchema op) as [schema|]; [|done]. intros [= <-]. set (f := fun l => _).
  destruct (at_place_object place f m) as [m' Em]. rewrite Em. exists m'.
  assert (names (JObj m') = names (JObj m)) as Hn.
  { rewrite <-Em, names_at_place. destruct place; [|done]. destruct (splitPath (UoPath op)) as [|seg segs]; [done|].
    destruct segs as [|s segs]; apply resolveNode_place in En as [_ Hp]; [|by destruct Hp as (?&?&?)].
    destruct Hp as (_ & Hi & _). subst f. cbv beta. cbn [names]. pose proof (lookup_lt_Some _ _ _ Hi) as Hlt.
    rewrite <-(take_drop_middle _ _ _ Hi) at 2. unfold insert_at, remove_at.
    rewrite take_app_length', drop_app_length' by (rewrite length_take; lia).
    rewrite !map_app. cbn [map app]. by rewrite child_name_built. }
  rewrite Hn. split_and!; [done|done|]. intros seg segs E. rewrite E in En. by apply resolveNode_place in En as [].
Qed.

Lemma remove_shrinks m op root' seg segs :
  splitPath (UoPath op) = seg :: segs -> applyRemove (JObj m) op = Ok root' ->
  exists m', root' = JObj m' /\
    forall k, k ∈ names (JObj m) -> k ∈ names (JObj m') \/ segs = [] /\ k = seg.
Proof.
  intros Es. unfold applyRemove. rewrite Es. destruct (resolveNode _ _) as [[[place idx] n]|] eqn:En; [|done].
  intros [= <-]. apply resolveNode_names in En as (_ & Hp & Hi).
  destruct (removed_names m place idx seg Hi) as (m' & Em & Hk). exists m'. split; [done|].
  intros k Hkm. destruct (Hk k Hkm) as [?|[->%Hp ->]]; [by left|by right].
Qed.

Lemma move_names m op root' fseg fsegs seg segs :
  "" ∉ splitPath (UoFrom op) -> splitPath (UoFrom op) = fseg :: fsegs -> splitPath (UoPath op) = seg :: segs ->
  applyMove (JObj m) op = Ok root' ->
  exists m', root' = JObj m' /\
    (forall k, k ∈ names (JObj m) -> k ∈ names (JObj m') \/ fsegs = [] /\ k = fseg) /\
    (seg ∈ names (JObj m') \/ fsegs = [] /\ seg = fseg).
Proof.
  intros Hne Ef Ep. unfold applyMove. destruct (rev (splitPath (UoPath op))) as [|leaf parents] eqn:Es; [done|].
  apply rev_cons_inv in Es. destruct (resolveNode _ _) as [[[place idx] n]|] eqn:En; [|done]. simpl.
  destruct (resolveParentChildrenArray _ _) as [[placeTo l]|] eqn:Epar; [|done]. simpl.
  destruct (findChild l leaf); [done|]. intros [= <-].
  destruct (resolveNode_object _ _ _ _ _ Hne En) as [nm ->]. rewrite Ef in En.
  apply resolveNode_names in En as (_ & Hpl & Hi).
  destruct (appended_names m _ leaf placeTo l _ Epar (child_name_with_name nm leaf)) as (m1 & -> & Hpre & Hseg).
  destruct (removed_names m1 place idx fseg) as (m' & -> & Hk).
  { intros E. by eapply prefix_lookup_Some; [apply Hi|]. }
  exists m'. assert (forall k, k ∈ names (JObj m1) -> k ∈ names (JObj m') \/ fsegs = [] /\ k = fseg) as Hk'.
  { intros k Hin. destruct (Hk k Hin) as [?|[->%Hpl ->]]; [by left|by right]. }
  split_and!; [done| |].
  - intros k Hin. apply Hk'. destruct Hpre as [t ->]. apply elem_of_app. by left.
  - apply Hk'. rewrite Ep in Es. by apply (Hseg seg segs).
Qed.

(** *** Documents *)

Lemma ahas_of_aget (d d' : list (string * any)) k : aget d' k = aget d k -> ahas d' k = ahas d k.
Proof. unfold ahas. by intros ->. Qed.

Lemma set_keys d p v seg segs k :
  splitPath p = seg :: segs -> ahas (docPointerSet d p v) k = true -> k = seg \/ ahas d k = true.
Proof.
  intros E Hk. destruct (decide (k = seg)) as [|Hne]; [by left|right]. rewrite <-Hk. symmetry. apply ahas_of_aget.
  unfold docPointerSet. rewrite E. by apply set_in_other.
Qed.

Lemma remove_keys d p seg segs k :
  splitPath p = seg :: segs -> ahas (docPointerRemove d p) k = true ->
  ahas d k = true /\ ~ (segs = [] /\ k = seg).
Proof.
  intros E. unfold docPointerRemove. rewrite E. destruct (decide (k = seg)) as [->|Hne].
  - destruct segs as [|s segs]; cbn [remove_in].
    + unfold ahas. by rewrite aget_adel, String.eqb_refl.
    + destruct (aget d seg) as [[]|] eqn:Ed; try (intros Hin; split; [exact Hin|by intros []]).
      intros _. unfold ahas. by rewrite Ed; split; [|intros []].
  - intros Hk. split; [|by intros []]. rewrite <-Hk. symmetry. by apply ahas_of_aget, remove_in_other.
Qed.

Lemma doc_grows d op d' seg segs k :
  splitPath (UoPath op) = seg :: segs -> UoOp op <> "remove" -> UoOp op <> "move" ->
  applyDocOp d op = Ok d' -> ahas d' k = true -> k = seg \/ ahas d k = true.
Proof.
  intros E Hrem Hmove. unfold applyDocOp. pose proof (fun v => set_keys d (UoPath op) v seg segs k E) as Hset.
  assert (forall d0, ahas (fill d0 op) k = true -> k = seg \/ ahas d0 k = true) as Hfill.
  { intros d0. unfold fill. destruct (selectFillValue op); [by eapply set_keys|].
    intros [? _]%(remove_keys d0 (UoPath op) seg segs k E). by right. }
  destruct (_ || _).
  - intros [= <-]. unfold applyDocAdd. destruct (_ =? "import"); [|apply Hfill].
    destruct (docPointerGet d _); [|apply Hfill]. destruct (schemaKindMatches _ _); [by right|].
    intros [?|Hr]%Hfill; [by left|right]. by apply (remove_keys d _ seg segs k E) in Hr as [].
  - destruct (UoOp op =? "remove") eqn:E1; [by apply String.eqb_eq in E1|].
    destruct (UoOp op =? "abandon"); [intros [= <-]; by right|].
    destruct (UoOp op =? "replace"); [unfold applyDocReplace; destruct (UoValue op); [intros [= <-]; apply Hset|done]|].
    destruct (UoOp op =? "move") eqn:E2; [by apply String.eqb_eq in E2|].
    destruct (UoOp op =? "copy"); [intros [= <-]; unfold applyDocCopy; destruct (docPointerGet d _); [apply Hset|by right]|].
    destruct (UoOp op =? "convert"); [intros [= <-]|done]. unfold applyDocConvert.
    destruct (UoValue op); [apply Hset|]. destruct (docPointerGet d _); [apply Hset|].
    destruct (selectFillValue op); [apply Hset|by right].
Qed.

Lemma docPointerGet_top d p k : splitPath p = [k] -> docPointerGet d p = aget d k.
Proof. intros E. unfold docPointerGet. rewrite E. cbn [get_in]. by destruct (aget d k). Qed.

(** *** One operation, and a list of them *)

Lemma moved_step m op root' d d' :
  in_step op -> UoOp op = "move" -> applyOp (JObj m) op = Ok root' -> applyDocOp d op = Ok d' ->
  (exists m', root' = JObj m') /\ forall k, extra root' d' k -> extra (JObj m) d k.
Proof.
  intros [(seg & segs & Ep & _) Hfrom _ Hout] Eo. unfold applyOp, applyDocOp. rewrite Eo. cbn [orb]. intros Hs [= <-].
  destruct (Hfrom (or_introl Eo)) as [(fseg & fsegs & Ef & _) Hne].
  destruct (move_names m op root' fseg fsegs seg segs Hne Ef Ep Hs) as (m' & -> & Hk & Hseg).
  split; [by eexists|]. specialize (Hout Eo). unfold applyDocMove.
  assert (seg ∈ names (JObj m')) as Hin.
  { destruct Hseg as [|[-> ->]]; [done|]. destruct Hout. rewrite Ef, Ep. by exists segs. }
  intros k [Hd Hn]. destruct (docPointerGet d (UoFrom op)) as [v|] eqn:Eg.
  - apply (set_keys _ _ v seg segs k Ep) in Hd as [->|Hd]; [done|].
    apply (remove_keys d _ fseg fsegs k Ef) in Hd as [Hd Hnot]. split; [done|]. intros [?|?]%Hk; done.
  - split; [done|]. intros [?|[-> ->]]%Hk; [done|]. rewrite (docPointerGet_top d _ _ Ef) in Eg.
    unfold ahas in Hd. by rewrite Eg in Hd.
Qed.

Lemma extra_step m op root' d d' :
  in_step op -> applyOp (JObj m) op = Ok root' -> applyDocOp d op = Ok d' ->
  (exists m', root' = JObj m') /\ forall k, extra root' d' k -> extra (JObj m) d k.
Proof.
  intros Hop Hs Hd. destruct (decide (UoOp op = "move")) as [Em|Em]; [by eapply moved_step|].
  pose proof Hop as [(seg & segs & Ep & _) Hfrom Hab _]. destruct (decide (UoOp op = "remove")) as [Er|Er].
  - unfold applyOp in Hs. unfold applyDocOp in Hd. rewrite Er in Hs, Hd. cbn [orb] in Hs, Hd. injection Hd as <-.
    destruct (remove_shrinks m op root' seg segs Ep Hs) as (m' & -> & Hk). split; [by eexists|].
    intros k [Hd Hn]. apply (remove_keys d _ seg segs k Ep) in Hd as [Hd Hnot]. split; [done|].
    intros [?|?]%Hk; done.
  - assert (grown op m root') as (m' & -> & Hsub & Hseg).
    { unfold applyOp in Hs. destruct (_ || _); [by apply add_grows|]. destruct (_ || _) eqn:Erem.
      { apply orb_true_iff in Erem as [?%String.eqb_eq|?%String.eqb_eq]; done. }
      destruct (UoOp op =? "replace"); [by apply replace_grows|].
      destruct (UoOp op =? "move") eqn:E2; [by apply String.eqb_eq in E2|].
      destruct (UoOp op =? "copy") eqn:E3; [|destruct (UoOp op =? "convert"); [by apply convert_grows|done]].
      apply copy_grows; [|done]. apply String.eqb_eq in E3. by apply Hfrom; right. }
    split; [by eexists|]. intros k [Hk Hn]. specialize (Hseg seg segs Ep).
    destruct (doc_grows d op d' seg segs k Ep Er Em Hd Hk) as [->|]; [done|]. split; [done|]. set_solver.
Qed.

Lemma extra_steps ops m root' d d' :
  Forall in_step ops -> apply_ops (JObj m) ops = Ok root' -> apply_updates d ops = Ok d' ->
  forall k, extra root' d' k -> extra (JObj m) d k.
Proof.
  revert m d. induction ops as [|op ops IH]; intros m d Hops; cbn [apply_ops apply_updates].
  { intros [= <-] [= <-]. done. }
  apply Forall_cons in Hops as [Hop Hops]. destruct (applyOp (JObj m) op) as [root1|] eqn:Es; [|done].
  destruct (applyDocOp d op) as [d1|] eqn:Ed; [|done]. cbn [result_bind]. intros Hs Hd k Hk.
  destruct (extra_step m op root1 d d1 Hop Es Ed) as [[m1 ->] Hx]. apply Hx. by eapply IH.
Qed.

End agrees.
