(* ===== verification/Admin.v ===== *)
(** * Package adminconfig, and the commands of the engine that use it

    [internal/adminconfig]: changes to the configuration directory of the
    establishment server.  A change takes the lock file ([lock.go]), loads the
    configuration without validating it ([store.go]), is worked out in memory and
    validated there ([collection.go], [search.go]), and is then committed as a plan
    of directories, removals and atomic writes with [__general.json] last
    ([plan.go]).  [internal/engine/admin.go] and the rest of [engine.go]: [Reload],
    the three configuration commands and the dispatch of [Execute].

    [pid] is the text of the process identifier, [ulid_ok] the strict parser of the
    ULID library and [quote] fmt's quoting of a name in a message.  [e.Cfg] is replaced by [Reload], so a command gives back the
    engine with its new configuration. *)

From S2P Require Import Prelude GoStrings World Shard Json Config Store ConfigLoad Docjson Replication Engine Search Cache Migrate EngineRead SchemaPatch.

(** ** Paths *)

Definition generalPath (dir : path) : path := join dir ["__general.json"].
Definition schemaPath (dir : path) (collection : string) : path := join dir [collection +:+ ".schema.json"].
Definition schemaVersionPath (dir : path) (collection : string) (ver : Z) : path :=
  join dir [collection +:+ ".schema." +:+ Itoa ver +:+ ".json"].
Definition schemaUpdatePath (dir : path) (collection : string) (ver : Z) : path :=
  join dir [collection +:+ ".schema." +:+ Itoa ver +:+ ".update.json"].
Definition searchPath (dir : path) (collection name : string) : path :=
  join dir [collection +:+ ".search." +:+ name +:+ ".json"].
Definition searchVersionPath (dir : path) (collection name : string) (ver : Z) : path :=
  join dir [collection +:+ ".search." +:+ name +:+ "." +:+ Itoa ver +:+ ".json"].

(** ** Plans *)

Record plan := mkPlan {
  writes : list (path * string);
  removes : list path;
  dirs : list path;
}.

Definition no_plan : plan := mkPlan [] [] [].
Definition addWrite (p : plan) (target : path) (data : string) : plan :=
  mkPlan (writes p ++ [(target, data)]) (removes p) (dirs p).
Definition addRemove (p : plan) (target : path) : plan := mkPlan (writes p) (removes p ++ [target]) (dirs p).
Definition addDir (p : plan) (target : path) : plan := mkPlan (writes p) (removes p) (dirs p ++ [target]).

Definition addJSONWrite `{GoJSON} (p : plan) (target : path) (v : json) : plan :=
  addWrite p target (MarshalIndent v +:+ newline).

Definition is_general (w : path * string) : bool := path_base (fst w) =? "__general.json".

Definition orderedWrites (p : plan) : list (path * string) :=
  List.filter (fun w => negb (is_general w)) (writes p) ++ List.filter is_general (writes p).

Definition path_text_le (a b : path) : Prop := str_leb (path_string a) (path_string b) = true.

#[export] Instance path_text_le_dec : RelDecision path_text_le.
Proof. intros a b. unfold path_text_le. apply _. Defined.

(** [general.json] as the struct prints it: [maxFileBytes] is left out at zero. *)
Definition general_json (g : GeneralBody) : json :=
  JObj [("general", JObj ([("name", JStr (Name g)); ("establishmentServer", JStr (EstablishmentServer g));
    ("version", JNum (Itoa (Version g)));
    ("readMemberCheckinSeconds", JNum (Itoa (ReadMemberCheckinSeconds g)));
    ("cacheUpdateCheckinSeconds", JNum (Itoa (CacheUpdateCheckinSeconds g)));
    ("readMemberFailedCheckinsBeforeStale", JNum (Itoa (ReadMemberFailedCheckinsBeforeStale g)))] ++
    if (MaxFileBytes g =? 0)%Z then [] else [("maxFileBytes", JNum (Itoa (MaxFileBytes g)))]))].

Definition with_version (g : GeneralBody) (v : Z) : GeneralBody :=
  mkGeneralBody (Name g) (EstablishmentServer g) v (ReadMemberCheckinSeconds g)
    (CacheUpdateCheckinSeconds g) (ReadMemberFailedCheckinsBeforeStale g) (MaxFileBytes g).

Definition stageGeneralBump `{GoJSON} (dir : path) (p : plan) (cfg : Config) : plan * Z :=
  let next := with_version (General cfg) (Version (General cfg) + 1) in
  (addJSONWrite p (generalPath dir) (general_json next), Version next).

Section commit.
Context `{Env}.

Fixpoint make_dirs (l : list path) : M (result unit) :=
  match l with
  | [] => mret (Ok tt)
  | d :: l' => MkdirAll d ;? make_dirs l'
  end.

Fixpoint remove_files (l : list path) : M (result unit) :=
  match l with
  | [] => mret (Ok tt)
  | p :: l' => remove_if_present p ;? remove_files l'
  end.

Fixpoint write_files (l : list (path * string)) : M (result unit) :=
  match l with
  | [] => mret (Ok tt)
  | (p, data) :: l' => WriteFileAtomic p data ;? write_files l'
  end.

Definition commit (p : plan) : M (result unit) :=
  make_dirs (merge_sort path_text_le (dirs p)) ;?
  remove_files (removes p) ;?
  write_files (orderedWrites p).

(** ** The lock *)

(** [os.OpenFile] with [O_CREATE|O_EXCL|O_WRONLY]. *)
Definition CreateExclusive (p : path) : M (result unit) :=
  sys (fun f =>
         match f !! p with
         | Some _ => (Err (mkError Exist "file exists"), f)
         | None => if is_dir f (path_dir p) then (Ok tt, <[p := File ""]> f) else (Err (missing_error f p), f)
         end) nothing.

Definition lock_path (configDir : path) : path := join configDir [".datoriumctl.lock"].

(** The error is [None] for a lock that is held. *)
Definition acquireLock (pid : string) (configDir : path) : M (option error + path) :=
  let p := lock_path configDir in
  r ← MkdirAll configDir;
  match r with
  | Err e => mret (inl (Some e))
  | Ok _ =>
      r ← CreateExclusive p;
      match r with
      | Err e => mret (inl (match err_kind e with Exist => None | _ => Some e end))
      | Ok _ =>
          _ ← WriteTo p (pid +:+ newline);
          r ← Close p;
          match r with
          | Err e => _ ← Remove p; mret (inl (Some e))
          | Ok _ => mret (inr p)
          end
      end
  end.
End commit.

(** ** Changes *)

Record EnsureCollectionResult := mkCollectionResult {
  CrChanged : bool;
  CrSchemaVersion : Z;
  CrGeneralVersion : Z;
  CrNewVerID : string;
  CrCreated : bool;
  CrUpgraded : bool;
}.

Definition no_collection_result : EnsureCollectionResult := mkCollectionResult false 0 0 "" false false.

Record EnsureSearchResult := mkSearchResult {
  SrChanged : bool;
  SrSearchVersion : Z;
  SrGeneralVersion : Z;
}.

Definition no_search_result : EnsureSearchResult := mkSearchResult false 0 0.

(** What a change works out from a configuration: its plan, if any, the fields of
    the reply and the errors. *)
Definition change (R : Type) : Type := option plan * R * list EError.

Definition refused {R} (fields : R) (code message : string) (actual : option json) : change R :=
  (None, fields, [mkEError code "" message None actual]).

Definition with_schemas (c : Config) (schemas : list (string * string)) : Config :=
  let '(mkConfig g sv sm au _ sver shist uhist searches srver srhist) := c in
  mkConfig g sv sm au schemas sver shist uhist searches srver srhist.

(** A schema recorded as the current one and as a version. *)
Definition with_schema_version (c : Config) (collection : string) (ver : Z) (raw : string) : Config :=
  let '(mkConfig g sv sm au schemas sver shist uhist searches srver srhist) := c in
  mkConfig g sv sm au (aset schemas collection raw) (aset sver collection ver)
    (aset shist collection (zset (inner shist collection) ver raw)) uhist searches srver srhist.

Definition with_update (c : Config) (collection : string) (ver : Z) (raw : string) : Config :=
  let '(mkConfig g sv sm au schemas sver shist uhist searches srver srhist) := c in
  mkConfig g sv sm au schemas sver shist
    (aset uhist collection (zset (inner uhist collection) ver raw)) searches srver srhist.

Definition with_search (c : Config) (collection name : string) (ver : Z) (raw : string) : Config :=
  let '(mkConfig g sv sm au schemas sver shist uhist searches srver srhist) := c in
  mkConfig g sv sm au schemas sver shist uhist
    (aset searches collection (aset (inner searches collection) name raw))
    (aset srver collection (aset (inner srver collection) name ver))
    (aset srhist collection (aset (inner srhist collection) name (zset (inner (inner srhist collection) name) ver raw))).

Definition without_search (c : Config) (collection name : string) : Config :=
  let '(mkConfig g sv sm au schemas sver shist uhist searches srver srhist) := c in
  mkConfig g sv sm au schemas sver shist uhist
    (aset searches collection (adel (inner searches collection) name)) srver srhist.

Definition hasErrCode (errs : list EError) (code : string) : bool :=
  existsb (fun e => Code e =? code) errs.

Section changes.
Context `{GoTables} `{OJSON} `{GoJSON} `{GoFloat}.
Variable ulid_ok : string -> bool.
Variable quote : string -> string.
Variables configDir dataDir : path.

(** [reindentJSON] is [config.PrettyJSONBytes]. *)
Definition jsonBytesEqual (a b : string) : result bool :=
  if (a =? "") && (b =? "") then Ok true
  else result_bind (PrettyBytes a) (fun prettyA =>
       result_bind (PrettyBytes b) (fun prettyB => Ok (prettyA =? prettyB))).

Definition ensureCreateCollection (cfg : Config) (collection schemaBytes upgradeRaw : string)
    : change EnsureCollectionResult :=
  let fields := no_collection_result in
  if upgradeRaw <>? "" then
    refused fields "invalidArguments" "upgrade cannot be applied when creating a collection" None
  else if schemaBytes =? "" then
    refused fields "schemaRequired" "schema is required to create a collection" None
  else
  match ValidateOJSONSchemaBytes schemaBytes with
  | Err e => refused fields "invalidSchema" (err_msg e) None
  | Ok _ =>
  match ValidateCollectionSchemaRules quote schemaBytes (Schemas cfg) with
  | (_ :: _) as errs => (None, fields, errs)
  | [] =>
  match PrettyBytes schemaBytes with
  | Err e => refused fields "invalidJSON" (err_msg e) None
  | Ok pretty =>
  let cfg := with_schema_version cfg collection 0 pretty in
  match ValidateDetailed cfg with
  | (_ :: _) as errs => (None, fields, errs)
  | [] =>
  let p := addWrite no_plan (schemaPath configDir collection) pretty in
  let p := addWrite p (schemaVersionPath configDir collection 0) pretty in
  let p := addDir p (join dataDir [collection]) in
  let '(p, nextVersion) := stageGeneralBump configDir p cfg in
  (Some p, mkCollectionResult true 0 nextVersion "" true false, [])
  end end end end.

Definition ensureCollectionSchemaMatch (cfg : Config) (collection currentSchema schemaBytes : string)
    : change EnsureCollectionResult :=
  let fields := mkCollectionResult false (SchemaVersion (Some cfg) collection) 0 "" false false in
  if schemaBytes =? "" then (None, fields, [])
  else match jsonBytesEqual currentSchema schemaBytes with
       | Err e => refused fields "invalidJSON" (err_msg e) None
       | Ok true => (None, fields, [])
       | Ok false => refused fields "schemaDrift" "provided schema does not match the current collection schema"
                       (Some (JStr collection))
       end.

Definition upgradeAlreadyApplied (cfg : Config) (collection : string) (spec : UpdateSpec) : bool :=
  let targetVer := (UsFrom spec + 1)%Z in
  if (SchemaVersion (Some cfg) collection <? targetVer)%Z then false
  else match zget (inner (SchemaUpdateHistory cfg) collection) targetVer with
       | None => false
       | Some storedRaw =>
           match ParseUpdateSpec storedRaw with
           | Err _ => false
           | Ok storedSpec => UsNewVerID storedSpec =? UsNewVerID spec
           end
       end.

Definition ensureUpgradeCollection (cfg : Config) (collection upgradeRaw : string)
    : change EnsureCollectionResult :=
  match ParseUpdateSpec upgradeRaw with
  | Err e => refused no_collection_result "invalidSchemaUpgrade" (err_msg e) None
  | Ok spec =>
  let currentVersion := SchemaVersion (Some cfg) collection in
  let fields := mkCollectionResult false currentVersion 0 "" false false in
  if upgradeAlreadyApplied cfg collection spec then (None, fields, [])
  else
  match ValidateSpec ulid_ok spec currentVersion with
  | (_ :: _) as errs =>
      if hasErrCode errs "staleSchemaVersion" && (UsFrom spec <? currentVersion)%Z &&
         upgradeAlreadyApplied cfg collection spec
      then (None, fields, []) else (None, fields, errs)
  | [] =>
  match ApplySchema (default "" (aget (Schemas cfg) collection)) spec with
  | Err e => refused fields "invalidSchemaUpgrade" (err_msg e) None
  | Ok newSchemaBytes =>
  match ValidateOJSONSchemaBytes newSchemaBytes with
  | Err e => refused fields "invalidSchemaUpgrade" (err_msg e) None
  | Ok _ =>
  match ValidateCollectionSchemaRules quote newSchemaBytes (aset (Schemas cfg) collection newSchemaBytes) with
  | (_ :: _) as errs => (None, fields, errs)
  | [] =>
  let newVer := (currentVersion + 1)%Z in
  let newSchemaBytes := ensure_newline newSchemaBytes in
  let normalizedUpgrade := ensure_newline upgradeRaw in
  let cfg := with_update (with_schema_version cfg collection newVer newSchemaBytes)
               collection newVer normalizedUpgrade in
  match ValidateDetailed cfg with
  | (_ :: _) as errs => (None, fields, errs)
  | [] =>
  let p := addWrite no_plan (schemaPath configDir collection) newSchemaBytes in
  let p := addWrite p (schemaVersionPath configDir collection newVer) newSchemaBytes in
  let p := addWrite p (schemaUpdatePath configDir collection newVer) normalizedUpgrade in
  let '(p, nextVersion) := stageGeneralBump configDir p cfg in
  (Some p, mkCollectionResult true newVer nextVersion (UsNewVerID spec) false true, [])
  end end end end end end.

Definition change_collection (collection schemaBytes upgradeRaw : string) (cfg : Config)
    : change EnsureCollectionResult :=
  if negb (ValidCollectionName collection) then
    refused no_collection_result "invalidCollectionName" "collection name violates naming conventions"
      (Some (JStr collection))
  else match aget (Schemas cfg) collection with
       | None => ensureCreateCollection cfg collection schemaBytes upgradeRaw
       | Some currentSchema =>
           if upgradeRaw <>? "" then ensureUpgradeCollection cfg collection upgradeRaw
           else ensureCollectionSchemaMatch cfg collection currentSchema schemaBytes
       end.

(** The errors of the full validation of a definition; none when the definition or
    the schema cannot be read. *)
Definition full_search_errors (cfg : Config) (collection raw : string) : list EError :=
  match ParseDefinition raw, aget (Schemas cfg) collection with
  | Ok def, Some schemaRaw =>
      match CompileSchemaBytes schemaRaw with
      | Ok compiled => Validate def (Some compiled) (Schemas cfg)
      | Err _ => []
      end
  | _, _ => []
  end.

Definition ensureCreateSearch (cfg : Config) (collection name raw : string) : change EnsureSearchResult :=
  let fields := no_search_result in
  match ValidateSearchDefinition raw collection name (Schemas cfg) with
  | (_ :: _) as errs => (None, fields, errs)
  | [] =>
  match full_search_errors cfg collection raw with
  | (_ :: _) as errs => (None, fields, errs)
  | [] =>
  match PrettyBytes raw with
  | Err e => refused fields "invalidJSON" (err_msg e) None
  | Ok pretty =>
  let cfg := with_search cfg collection name 1 pretty in
  match ValidateDetailed cfg with
  | (_ :: _) as errs => (None, fields, errs)
  | [] =>
  let p := addWrite no_plan (searchPath configDir collection name) pretty in
  let p := addWrite p (searchVersionPath configDir collection name 1) pretty in
  let p := addDir p (join dataDir [collection; ".search"; name]) in
  let '(p, nextVersion) := stageGeneralBump configDir p cfg in
  (Some p, mkSearchResult true 1 nextVersion, [])
  end end end end.

Definition change_search (collection name defBytes : string) (cfg : Config) : change EnsureSearchResult :=
  let fields := no_search_result in
  if negb (ahas (Schemas cfg) collection) then
    refused fields "collectionNotFound" "collection does not exist" (Some (JStr collection))
  else
  match aget (inner (Searches cfg) collection) name with
  | None => ensureCreateSearch cfg collection name defBytes
  | Some current =>
      match jsonBytesEqual current defBytes with
      | Err e => refused fields "invalidJSON" (err_msg e) None
      | Ok true =>
          (None, mkSearchResult false (default 0%Z (aget (inner (SearchVersions cfg) collection) name)) 0, [])
      | Ok false => refused fields "searchDefinitionConflict"
                      "search definition differs from the current definition" (Some (JStr name))
      end
  end.

Definition change_delete (collection name : string) (cfg : Config) : change EnsureSearchResult :=
  let fields := no_search_result in
  match aget (inner (Searches cfg) collection) name with
  | None => (None, fields, [])
  | Some _ =>
      let cfg := without_search cfg collection name in
      match ValidateDetailed cfg with
      | (_ :: _) as errs => (None, fields, errs)
      | [] =>
          let p := addRemove no_plan (searchPath configDir collection name) in
          let '(p, nextVersion) := stageGeneralBump configDir p cfg in
          (Some p, mkSearchResult true 0 nextVersion, [])
      end
  end.
End changes.

(** ** Running a change *)

Section run.
Context `{Env} `{GoTables} `{OJSON} `{GoJSON}.

(** The deferred release of the lock ignores its error. *)
Definition locked {A} (lock : path) (m : M A) : M A := a ← m; _ ← Remove lock; mret a.

Definition run_change {R} (configDir : path) (mutate : Config -> change R) : M (option R * list EError) :=
  r ← loadUnvalidated configDir;
  match r with
  | Err e => mret (None, [mk_err (if is_not_exist e then "filesystemError" else "invalidJSON") (err_msg e)])
  | Ok cfg =>
      match mutate cfg with
      | (_, result, (_ :: _) as errs) => mret (Some result, errs)
      | (None, result, []) => mret (Some result, [])
      | (Some p, result, []) =>
          r ← commit p;
          match r with
          | Err e => mret (Some result, [mk_err "filesystemError" (err_msg e)])
          | Ok _ => mret (Some result, [])
          end
      end
  end.

Definition runMutation {R} (pid : string) (configDir : path) (mutate : Config -> change R)
    : M (option R * list EError) :=
  r ← acquireLock pid configDir;
  match r with
  | inl None => mret (None, [mk_err "configLockHeld"
                               ("config lock already held: " +:+ path_string (lock_path configDir))])
  | inl (Some e) => mret (None, [mk_err "filesystemError" (err_msg e)])
  | inr lock => locked lock (run_change configDir mutate)
  end.
End run.

Section commands.
Context `{Env} `{GoTables} `{OJSON} `{GoJSON} `{GoFloat} `{Net}.
Variable ulid_ok : string -> bool.
Variable quote : string -> string.
Variable pid : string.

Definition EnsureCollection (configDir dataDir : path) (collection schemaBytes upgradeRaw : string)
    : M (EnsureCollectionResult * list EError) :=
  '(result, errs) ← runMutation pid configDir
    (change_collection ulid_ok quote configDir dataDir collection schemaBytes upgradeRaw);
  mret (default no_collection_result result, errs).

Definition EnsureSearch (configDir dataDir : path) (collection name defBytes : string)
    : M (EnsureSearchResult * list EError) :=
  '(result, errs) ← runMutation pid configDir (change_search configDir dataDir collection name defBytes);
  mret (default no_search_result result, errs).

Definition DeleteSearch (configDir : path) (collection name : string) : M (EnsureSearchResult * list EError) :=
  '(result, errs) ← runMutation pid configDir (change_delete configDir collection name);
  mret (default no_search_result result, errs).

(** ** The engine *)

Definition isEstablishmentServer (e : Engine) : bool :=
  (EServerName e <>? "") && (EstablishmentServer (General (ECfg e)) =? EServerName e).

Definition with_config (e : Engine) (cfg : Config) : Engine :=
  mkEngine (EDataDir e) (EServerName e) cfg (EReplicator e) (EDistributor e) (EReadState e).

Definition Reload (configDir : path) (e : Engine) : M (result Engine) :=
  cfg <-? Load configDir; mret (Ok (with_config e cfg)).

(** The reply of a configuration command after its change. *)
Definition reloaded (configDir : path) (e : Engine) (errs : list EError) (failed out : fields)
    : M (Envelope * Engine) :=
  match errs with
  | _ :: _ => mret (Fail failed errs, e)
  | [] =>
      r ← Reload configDir e;
      match r with
      | Err err => mret (Fail failed [mk_err "configError" (err_msg err)], e)
      | Ok e' => mret (OK out, e')
      end
  end.

(** A member of the detail object as JSON text: empty when it is absent or null. *)
Definition detail_text (detail : fields) (k : string) : string :=
  match aget detail k with
  | None | Some JNull => ""
  | Some v => Marshal (map_order v)
  end.

Definition collectionEnsure (configDir : path) (e : Engine) (req : Request) (detail : fields)
    : M (Envelope * Engine) :=
  let fields := [("command", JStr "collectionEnsure"); ("collection", JStr (ReqTarget req))] in
  if ReqTarget req =? "" then
    mret (Fail fields [mk_err "invalidRequest" "target (collection) is required"], e)
  else if negb (isEstablishmentServer e) then
    mret (Fail fields [mk_err "establishmentRequired"
                         "collectionEnsure is only accepted on the establishment server"], e)
  else
    '(res, errs) ← EnsureCollection configDir (EDataDir e) (ReqTarget req)
                     (detail_text detail "schema") (detail_text detail "upgrade");
    reloaded configDir e errs fields (fields ++
      [("changed", JBool (CrChanged res)); ("schemaVersion", JNum (Itoa (CrSchemaVersion res)));
       ("generalVersion", JNum (Itoa (CrGeneralVersion res))); ("created", JBool (CrCreated res));
       ("upgraded", JBool (CrUpgraded res))] ++
      if CrNewVerID res =? "" then [] else [("newVerId", JStr (CrNewVerID res))]).

Definition search_fields (command : string) (req : Request) : fields :=
  [("command", JStr command); ("collection", JStr (ReqTarget req)); ("search", JStr (ReqParameter req))].

Definition searchEnsure (configDir : path) (e : Engine) (req : Request) (detail : fields)
    : M (Envelope * Engine) :=
  let fields := search_fields "searchEnsure" req in
  if (ReqTarget req =? "") || (ReqParameter req =? "") then
    mret (Fail fields [mk_err "invalidRequest" "target (collection) and parameter (search name) are required"], e)
  else if negb (isEstablishmentServer e) then
    mret (Fail fields [mk_err "establishmentRequired"
                         "searchEnsure is only accepted on the establishment server"], e)
  else
    '(res, errs) ← EnsureSearch configDir (EDataDir e) (ReqTarget req) (ReqParameter req)
                     (Marshal (map_order (JObj detail)));
    reloaded configDir e errs fields (fields ++
      [("changed", JBool (SrChanged res)); ("searchVersion", JNum (Itoa (SrSearchVersion res)));
       ("generalVersion", JNum (Itoa (SrGeneralVersion res)))]).

Definition searchDeleteCmd (configDir : path) (e : Engine) (req : Request) : M (Envelope * Engine) :=
  let fields := search_fields "searchDelete" req in
  if (ReqTarget req =? "") || (ReqParameter req =? "") then
    mret (Fail fields [mk_err "invalidRequest" "target (collection) and parameter (search name) are required"], e)
  else if negb (isEstablishmentServer e) then
    mret (Fail fields [mk_err "establishmentRequired"
                         "searchDelete is only accepted on the establishment server"], e)
  else
    '(res, errs) ← DeleteSearch configDir (ReqTarget req) (ReqParameter req);
    reloaded configDir e errs fields (fields ++
      [("changed", JBool (SrChanged res)); ("generalVersion", JNum (Itoa (SrGeneralVersion res)))]).

(** The commands that leave the configuration alone. *)
Definition unchanged (e : Engine) (m : M Envelope) : M (Envelope * Engine) := r ← m; mret (r, e).

Definition fail_command (e : Engine) (req : Request) (code message : string) : M (Envelope * Engine) :=
  mret (Fail [("command", JStr (ReqCommand req))] [mk_err code message], e).

Definition Execute (configDir : path) (e : Engine) (req : Request) : M (Envelope * Engine) :=
  let command := ReqCommand req in
  match DetailMap req with
  | Err err => fail_command e req "invalidDetail" (err_msg err)
  | Ok detail =>
      if command =? "create" then unchanged e (create e req detail)
      else if command =? "read" then unchanged e (read e req detail)
      else if command =? "patch" then unchanged e (patch e req detail)
      else if command =? "delete" then unchanged e (delete_doc e req detail)
      else if command =? "search" then unchanged e (search e req detail)
      else if command =? "collectionEnsure" then collectionEnsure configDir e req detail
      else if command =? "searchEnsure" then searchEnsure configDir e req detail
      else if command =? "searchDelete" then searchDeleteCmd configDir e req
      else if (command =? "fileCreate") || (command =? "fileUpdate") then
        fail_command e req "contentTypeRequired"
          "fileCreate and fileUpdate require multipart/form-data with a command JSON part and a content part"
      else if (command =? "fileRead") || (command =? "fileList") || (command =? "fileDelete") then
        fail_command e req "invalidRequest" "file commands must be dispatched by the HTTP command handler"
      else fail_command e req "unknownCommand" "unsupported command"
  end.
End commands.
