(* ===== verification/AdminSpec.v ===== *)
(** * Changes to the configuration

    What a committed plan leaves behind, whatever system call fails: the files of a
    plan are written in order, so the version in [__general.json], which tells the
    other servers that there is something new, moves only when everything else of
    the change is in place. *)

From S2P Require Import Prelude GoStrings World Shard Json Config Store ConfigLoad ConfigSpec Docjson Replication Engine Search Migrate SchemaPatch Admin.

Lemma NoDup_fmap_fst_inj {A B} (l : list (A * B)) x y :
  NoDup (map fst l) -> x ∈ l -> y ∈ l -> fst x = fst y -> x = y.
Proof.
  induction l as [|z l IH]; intros Hnd Hx Hy Heq; [by apply elem_of_nil in Hx|].
  cbn [map] in Hnd. apply NoDup_cons in Hnd as [Hz Hnd].
  apply elem_of_cons in Hx as [->|Hx], Hy as [->|Hy]; [done| | |by apply IH]; exfalso; apply Hz.
  - rewrite Heq. apply list_elem_of_fmap. by exists y.
  - rewrite <-Heq. apply list_elem_of_fmap. by exists x.
Qed.

Section commit.
Context `{E : Env}.

(** A plan whose targets are distinct, plain files. *)
Record plan_ok (p : plan) : Prop := {
  po_distinct : NoDup (map fst (writes p));
  po_targets : Forall (fun w => is_temp (fst w) = false) (writes p);
  po_removes : Forall (fun r => r ∉ map fst (writes p) /\ is_temp r = false) (removes p);
}.

Definition in_place (f : fs) (w : path * string) : Prop := content f (fst w) = Some (snd w).

Lemma write_files_spec l s :
  NoDup (map fst l) -> Forall (fun w => is_temp (fst w) = false) l ->
  wp (write_files l) (fun r s' => exists done rest, l = done ++ rest /\ (is_ok r = true -> rest = []) /\
    Forall (in_place (st_fs s')) done /\
    keeps (fun q => q ∈ map fst done \/ is_temp q = true) (st_fs s) (st_fs s')) s.
Proof.
  revert s. induction l as [|[p d] l IH]; intros s Hnd Ht; cbn [write_files].
  { apply wp_ret. by exists [], []. }
  cbn [map fst] in Hnd. apply NoDup_cons in Hnd as [Hp Hnd]. apply Forall_cons in Ht as [Htp Ht]. cbn [fst] in Htp.
  apply wp_rbind. eapply wp_mono; [by apply WriteFileAtomic_spec|]. intros [u|e] s1 W; cbv beta in W.
  - destruct W as [Wp Wk]. eapply wp_mono; [by apply IH|].
    intros r s2 (done & rest & -> & Hr & Hd & Hk). exists ((p, d) :: done), rest.
    split_and!; [done|done| |].
    + constructor; [|done]. unfold in_place. cbn [fst snd]. rewrite Hk; [done|]. intros [Hin|?]; [|congruence].
      apply Hp. rewrite map_app. apply elem_of_app. by left.
    + cbn [map fst]. eapply keeps_trans; [eapply keeps_mono; [exact Wk|]|eapply keeps_mono; [exact Hk|]]; cbv beta.
      * intros q [->|[? _]]; [left; by left|by right].
      * intros q [?|?]; [left; by right|by right].
  - exists [], ((p, d) :: l). split_and!; [done|done|done|]. eapply keeps_mono; [exact W|]. intros q [? _]. by right.
Qed.

Lemma make_dirs_spec l s : wp (make_dirs l) (fun _ s' => forall q, content (st_fs s') q = content (st_fs s) q) s.
Proof.
  revert s. induction l as [|d l IH]; intros s; cbn [make_dirs]; [done|].
  apply wp_rbind. eapply wp_mono; [apply MkdirAll_spec|]. intros [u|e] s1 [F1 _]; [|done].
  eapply wp_mono; [apply IH|]. intros r s2 F2 q. by rewrite F2, F1.
Qed.

Lemma remove_one_spec p s :
  wp (remove_if_present p) (fun r s' =>
    keeps (eq p) (st_fs s) (st_fs s') /\ (is_ok r = true -> content (st_fs s') p = None)) s.
Proof.
  unfold remove_if_present. apply wp_bind. apply wp_sys.
  - unfold fs_remove. intros r f' Hr. cbn. destruct (st_fs s !! p) as [[d|]|] eqn:El.
    + injection Hr as <- <-. cbn. split; [by apply keeps_delete|]. intros _. unfold content. by rewrite lookup_delete_eq.
    + destruct (existsb _ _); injection Hr as <- <-; cbn; [done|]. split; [by apply keeps_delete|].
      intros _. unfold content. by rewrite lookup_delete_eq.
    + injection Hr as <- <-. destruct (is_not_exist _); cbn; split; try done. intros _. unfold content. by rewrite El.
  - intros k Hk. done.
Qed.

Lemma remove_files_spec l s :
  wp (remove_files l) (fun r s' =>
    keeps (fun q => q ∈ l) (st_fs s) (st_fs s') /\
    (is_ok r = true -> Forall (fun q => content (st_fs s') q = None) l)) s.
Proof.
  revert s. induction l as [|p l IH]; intros s; cbn [remove_files]; [by apply wp_ret|].
  apply wp_rbind. eapply wp_mono; [apply remove_one_spec|]. intros [u|e] s1 [K1 G1].
  - eapply wp_mono; [apply IH|]. intros r s2 [K2 G2]. split.
    + eapply keeps_trans; eapply keeps_mono; [exact K1|by intros q <-; left|exact K2|by right].
    + intros Hr. constructor; [|by apply G2]. destruct (decide (p ∈ l)) as [Hin|Hin].
      * by apply (proj1 (Forall_forall _ _) (G2 Hr)).
      * rewrite (K2 p Hin). by apply G1.
  - split; [|done]. eapply keeps_mono; [exact K1|]. intros q <-. by left.
Qed.

(** What a commit of [p] has done by the time it ends. *)
Record committed (p : plan) (ok : bool) (f f' : fs) : Prop := {
  co_area : keeps (fun q => q ∈ map fst (writes p) \/ q ∈ removes p \/ is_temp q = true) f f';
  co_done : ok = true -> Forall (in_place f') (writes p) /\ Forall (fun q => content f' q = None) (removes p);
  co_last : forall w, w ∈ writes p -> is_general w = true -> content f' (fst w) <> content f (fst w) ->
    Forall (fun w => is_general w = false -> in_place f' w) (writes p) /\
    Forall (fun q => content f' q = None) (removes p);
  co_changed : forall w, w ∈ writes p -> content f' (fst w) <> content f (fst w) -> in_place f' w;
}.

Lemma orderedWrites_perm p : orderedWrites p ≡ₚ writes p.
Proof.
  unfold orderedWrites. induction (writes p) as [|w l IH]; [done|]. cbn [List.filter].
  destruct (is_general w); cbn [negb app]; [|by constructor].
  rewrite <-Permutation_middle. by constructor.
Qed.

Lemma orderedWrites_last p done rest w :
  orderedWrites p = done ++ rest -> w ∈ done -> is_general w = true ->
  forall w', w' ∈ writes p -> is_general w' = false -> w' ∈ done.
Proof.
  unfold orderedWrites. intros Heq Hw Hg w' Hin Hg'. set (others := List.filter _ _) in Heq.
  assert (w' ∈ others) as Ho.
  { subst others. apply list_elem_of_In, List.filter_In. rewrite Hg'. split; [by apply list_elem_of_In|done]. }
  apply app_eq_app in Heq as (t & [[E1 E2]|[E1 E2]]).
  - exfalso. assert (w ∈ others) as Hwo by (rewrite E1; apply elem_of_app; by left).
    subst others. apply list_elem_of_In, List.filter_In in Hwo as [_ Hn]. by rewrite Hg in Hn.
  - rewrite E1. apply elem_of_app. by left.
Qed.

Lemma commit_spec p s :
  plan_ok p -> wp (commit p) (fun r s' => committed p (is_ok r) (st_fs s) (st_fs s')) s.
Proof.
  intros [Hnd Ht Hrem]. pose proof (orderedWrites_perm p) as Hperm.
  assert (map fst (orderedWrites p) ≡ₚ map fst (writes p)) as Hfst by by rewrite Hperm.
  assert (forall (f' : fs), (forall q, content f' q = content (st_fs s) q) -> committed p false (st_fs s) f') as Hnone.
  { intros f' Hf. split; [by intros q _|done| |]; [intros w _ _ Hc|intros w _ Hc]; by rewrite Hf in Hc. }
  unfold commit. apply wp_rbind. eapply wp_mono; [apply make_dirs_spec|]. intros [u|e] s1 F1; [|by apply Hnone].
  apply wp_rbind. eapply wp_mono; [apply remove_files_spec|]. intros r1 s2 [K2 G2].
  assert (forall w, w ∈ writes p -> fst w ∉ removes p) as Hdis.
  { intros w Hw Hr. rewrite Forall_forall in Hrem. destruct (Hrem _ Hr) as [Hno _]. apply Hno.
    apply list_elem_of_fmap. by exists w. }
  assert (keeps (fun q => q ∈ removes p) (st_fs s) (st_fs s2)) as K by (intros q Hq; by rewrite K2, F1).
  destruct r1 as [u1|e1].
  - eapply wp_mono; [apply write_files_spec; [by rewrite Hfst|by rewrite Hperm]|].
    intros r s3 (done & rest & Hsplit & Hr & Hd & K3). specialize (G2 eq_refl).
    assert (forall w, w ∈ done -> w ∈ writes p) as Hdw.
    { intros w Hw. rewrite <-Hperm, Hsplit. apply elem_of_app. by left. }
    assert (Forall (fun q => content (st_fs s3) q = None) (removes p)) as G3.
    { rewrite Forall_forall in G2 |- *. intros q Hq. rewrite K3; [by apply G2|].
      rewrite Forall_forall in Hrem. destruct (Hrem q Hq) as [Hno Htq]. intros [Hin|?]; [|congruence].
      apply Hno. apply list_elem_of_fmap in Hin as (w & -> & Hw). apply list_elem_of_fmap. exists w. auto. }
    assert (forall w, w ∈ writes p -> content (st_fs s3) (fst w) <> content (st_fs s) (fst w) -> w ∈ done) as Hch.
    { intros w Hw Hc. destruct (decide (w ∈ done)) as [|Hno]; [done|].
      exfalso. apply Hc. rewrite K3; [by apply K, Hdis|]. intros [Hin|Htw].
      * apply list_elem_of_fmap in Hin as (w2 & E2 & Hw2). apply Hno. rewrite <-Hperm in Hw.
        assert (w = w2) as ->; [|done]. eapply (NoDup_fmap_fst_inj (orderedWrites p)); [by rewrite Hfst|done| |done].
        rewrite Hsplit. apply elem_of_app. by left.
      * rewrite Forall_forall in Ht. by rewrite (Ht w Hw) in Htw. }
    split.
    + eapply keeps_trans; eapply keeps_mono; [exact K|by intros q ?; right; left|exact K3|]. cbv beta.
      intros q [Hin|?]; [left|by right; right]. apply list_elem_of_fmap in Hin as (w & -> & Hw).
      apply list_elem_of_fmap. exists w. auto.
    + intros Hok. split; [|done]. rewrite (Hr Hok), app_nil_r in Hsplit. by rewrite <-Hperm, Hsplit.
    + intros w Hw Hg Hc. split; [|done]. rewrite Forall_forall in Hd |- *. intros w' Hw' Hg'. apply Hd.
      apply (orderedWrites_last p done rest w); [exact Hsplit|by apply Hch|done|done|done].
    + intros w Hw Hc. rewrite Forall_forall in Hd. by apply Hd, Hch.
  - split.
    + eapply keeps_mono; [exact K|]. intros q Hq. right. by left.
    + done.
    + intros w Hw _ Hc. exfalso. apply Hc. by apply K, Hdis.
    + intros w Hw Hc. exfalso. apply Hc. by apply K, Hdis.
Qed.
End commit.

(** ** A change under the lock *)

Section run.
Context `{E : Env} `{GoTables} `{OJSON} `{GoJSON}.
Variables (pid : string) (dir : path).

Notation lock := (lock_path dir).

(** The schemas of a configuration are those of its files. *)
Definition schemas_read (f : fs) (cfg : Config) : Prop :=
  forall c raw, aget (Schemas cfg) c = Some raw -> content f (schemaPath dir c) = Some raw.

(** The three ways a change ends: not worked out, worked out with nothing to
    write, committed or interrupted. *)
Inductive outcome {R} (mutate : Config -> change R) (f f' : fs) : option R * list EError -> Prop :=
| outcome_failed errs : errs <> [] -> keeps (eq lock) f f' -> outcome mutate f f' (None, errs)
| outcome_nothing cfg p r errs : mutate cfg = (p, r, errs) -> (errs = [] -> p = None) ->
    keeps (eq lock) f f' -> outcome mutate f f' (Some r, errs)
| outcome_tried cfg p r errs g g' : mutate cfg = (Some p, r, []) -> keeps (eq lock) f g ->
    schemas_read g cfg -> committed p (bool_decide (errs = [])) g g' -> keeps (eq lock) g' f' -> outcome mutate f f' (Some r, errs).

Lemma acquireLock_spec s :
  wp (acquireLock pid dir) (fun r s' =>
    keeps (eq lock) (st_fs s) (st_fs s') /\ forall p, r = inr p -> p = lock) s.
Proof.
  unfold acquireLock. apply wp_bind. eapply wp_mono; [apply MkdirAll_spec|]. intros [u|e] s1 [F1 _].
  2: { split; [by intros q _; rewrite F1|done]. }
  apply wp_bind. eapply (wp_mono _ (fun _ s' => keeps (eq lock) (st_fs s1) (st_fs s'))).
  { apply wp_sys; [|done]. intros r f'. destruct (_ !! _); [by intros [= <- <-]|].
    destruct (is_dir _ _); intros [= <- <-]; [by apply keeps_insert|done]. }
  assert (keeps (eq lock) (st_fs s) (st_fs s1)) as K1 by (intros q _; apply F1).
  intros [u2|e2] s2 K2.
  2: { split; [by eapply keeps_trans|]. by destruct (err_kind e2). }
  apply wp_bind. eapply wp_mono; [apply WriteTo_spec|]. intros r3 s3 (w & F3 & _).
  assert (keeps (eq lock) (st_fs s) (st_fs s3)) as K3.
  { eapply keeps_trans; [exact K1|]. eapply keeps_trans; [exact K2|]. rewrite F3. by apply append_file_keeps. }
  apply wp_bind. eapply wp_mono; [apply Close_spec|]. intros [u4|e4] s4 F4.
  - apply wp_ret. rewrite F4. split; [done|]. by intros p [= <-].
  - apply wp_bind. eapply wp_mono; [apply Remove_spec|]. intros r5 s5 F5. apply wp_ret. split; [|done].
    rewrite <-F4 in K3. destruct r5; rewrite F5; [|done]. eapply keeps_trans; [exact K3|]. by apply keeps_delete.
Qed.

Lemma loadUnvalidated_keeps s : wp (loadUnvalidated dir) (fun _ s' => st_fs s' = st_fs s) s.
Proof.
  unfold loadUnvalidated. do 4 (apply wp_rbind; eapply wp_mono; [apply readJSON_keeps|]; intros [?|?] ? <-; [|done]).
  apply wp_rbind. eapply wp_mono; [apply ReadDir_spec|]. intros [l|e] s5 [F5 _]; [|done]. rewrite <-F5.
  apply wp_rbind. eapply wp_mono; [apply load_entries_keeps|]. by intros [c|e] s6 F6.
Qed.

Lemma classified_schema n c : classify n = SchemaFile c -> n = c +:+ ".schema.json".
Proof.
  unfold classify. destruct (negb _); [done|]. destruct (HasPrefix _ _); [done|].
  destruct (parseVersionedSearchFilename n) as [[[? ?] ?]|]; [done|].
  destruct (parseSearchFilename n) as [[? ?]|]; [done|].
  destruct (parseVersionedSchemaUpdateFilename n) as [[? ?]|]; [done|].
  destruct (parseVersionedSchemaFilename n) as [[? ?]|]; [done|].
  destruct (HasSuffix n ".schema.json") eqn:Es; [|done]. intros [= <-].
  apply HasSuffix_spec in Es as [a ->]. by rewrite TrimSuffix_app.
Qed.

Lemma load_entries_schemas c l s :
  schemas_read (st_fs s) c ->
  wp (load_entries dir c l) (fun r s' => st_fs s' = st_fs s /\
    forall c', r = Ok c' -> schemas_read (st_fs s) c') s.
Proof.
  revert c s. induction l as [|[n d] l IH]; intros c s Hc; cbn [load_entries].
  { apply wp_ret. split; [done|]. by intros c' [= <-]. }
  destruct d; [by apply IH|]. destruct (classify n) as [| | | |col|] eqn:Ec; [..|by apply IH];
    (apply wp_rbind; eapply wp_mono; [apply ReadFile_spec|]; intros [raw|e] s1 [F1 Hr]; [|by split];
     rewrite <-F1 in Hc |- *; apply IH); try by destruct c.
  intros k raw'. destruct c as [g sv sm au schemas]. cbn [with_file Schemas] in *.
  destruct (decide (col = k)) as [->|Hne].
  - rewrite aget_aset_eq. intros [= <-]. destruct Hr as [Hr|[? _]]; [|done].
    apply classified_schema in Ec as ->. unfold schemaPath. rewrite F1. by apply fs_read_ok.
  - rewrite aget_aset_ne by done. apply Hc.
Qed.

Lemma loadUnvalidated_schemas s :
  wp (loadUnvalidated dir) (fun r s' => st_fs s' = st_fs s /\
    forall cfg, r = Ok cfg -> schemas_read (st_fs s) cfg) s.
Proof.
  unfold loadUnvalidated. do 4 (apply wp_rbind; eapply wp_mono; [apply readJSON_keeps|]; intros [?|?] ? <-; [|done]).
  apply wp_rbind. eapply wp_mono; [apply ReadDir_spec|]. intros [l|e] s5 [F5 _]; [|done]. rewrite <-F5.
  apply wp_rbind. eapply wp_mono; [by apply load_entries_schemas|]. intros [c|e] s6 [F6 H6]; [|done].
  apply wp_ret. split; [done|]. intros cfg [= <-]. exact (H6 c eq_refl).
Qed.

Lemma runMutation_outcome {R} (mutate : Config -> change R) s :
  (forall cfg p r, mutate cfg = (Some p, r, []) -> plan_ok p) ->
  wp (runMutation pid dir mutate) (fun r s' => outcome mutate (st_fs s) (st_fs s') r) s.
Proof.
  intros Hplan. unfold runMutation. apply wp_bind. eapply wp_mono; [apply acquireLock_spec|].
  intros [[e|]|p] s1 [K1 Hp]; [by constructor..|]. rewrite (Hp p eq_refl). clear p Hp. unfold locked.
  apply wp_bind. eapply (wp_mono _ (fun r s' => outcome mutate (st_fs s) (st_fs s') r)).
  - unfold run_change. apply wp_bind. eapply wp_mono; [apply loadUnvalidated_schemas|]. intros [cfg|e] s2 [F2 Hcfg]; rewrite <-F2 in K1, Hcfg.
    2: { by constructor. }
    destruct (mutate cfg) as [[p r] errs] eqn:Em. destruct errs as [|e errs].
    2: { destruct p; apply wp_ret; (eapply outcome_nothing; [exact Em|done|exact K1]). }
    destruct p as [p|]; [|apply wp_ret; eapply outcome_nothing; [exact Em|done|exact K1]].
    apply wp_bind. eapply wp_mono; [by eapply commit_spec, Hplan|].
    intros [u|e] s3 C; (eapply outcome_tried; [exact Em|exact K1|by apply Hcfg|exact C|done]).
  - intros r s2 Ho. apply wp_bind. eapply wp_mono; [apply Remove_spec|]. intros r3 s3 F3. apply wp_ret.
    assert (keeps (eq lock) (st_fs s2) (st_fs s3)) as K3.
    { destruct r3; rewrite F3; [by apply keeps_delete|done]. }
    destruct Ho; [constructor|eapply outcome_nothing|eapply outcome_tried]; try done; by eapply keeps_trans.
Qed.
End run.

(** ** Collections *)

(** The schema a request asks for, given the current one: for a new collection
    the schema of the request, as version 0; for an upgrade the current schema
    with the operations of the request applied, as the next version, along with
    the request itself. *)
Definition new_schema `{GoFloat} `{OJSON} `{GoJSON} (schema upgrade : string) (old : option string)
    (v : Z) (text : string) (updates : list string) : Prop :=
  match old with
  | None => upgrade = "" /\ PrettyBytes schema = Ok text /\ v = 0%Z /\ updates = []
  | Some current => exists spec out, ParseUpdateSpec upgrade = Ok spec /\ ApplySchema current spec = Ok out /\
      text = ensure_newline out /\ v = (UsFrom spec + 1)%Z /\ updates = [ensure_newline upgrade]
  end.

(** The plan of a new schema version: the current schema, the version, perhaps the
    update list that led to it, and [__general.json]. *)
Definition collection_plan `{GoFloat} `{OJSON} `{GoJSON} (dir : path) (c schema upgrade : string)
    (old : option string) (p : plan) (r : EnsureCollectionResult) : Prop :=
  CrChanged r = true /\ removes p = [] /\
  exists text updates general, new_schema schema upgrade old (CrSchemaVersion r) text updates /\
    writes p = (schemaPath dir c, text) :: (schemaVersionPath dir c (CrSchemaVersion r), text) ::
                 map (fun u => (schemaUpdatePath dir c (CrSchemaVersion r), u)) updates ++
                 [(generalPath dir, general)].

Lemma new_schema_updates `{GoFloat} `{OJSON} `{GoJSON} schema upgrade old v text updates :
  new_schema schema upgrade old v text updates -> (length updates <= 1)%nat.
Proof. destruct old; [intros (? & ? & _ & _ & _ & _ & ->)|intros (_ & _ & _ & ->)]; simpl; lia. Qed.

Section collections.
Context `{GoTables} `{OJSON} `{GoJSON} `{GoFloat}.
Variables (ulid_ok : string -> bool) (quote : string -> string) (pid : string).
Variables (dir dataDir : path).

Lemma change_collection_plan c schema upgrade cfg p r errs :
  change_collection ulid_ok quote dir dataDir c schema upgrade cfg = (p, r, errs) ->
  match p with
  | Some p => collection_plan dir c schema upgrade (aget (Schemas cfg) c) p r
  | None => CrChanged r = false
  end.
Proof.
  unfold change_collection. destruct (ValidCollectionName c); cbn [negb]; [|by intros [= <- <- <-]].
  destruct (aget (Schemas cfg) c) as [current|] eqn:Ecur.
  - destruct (upgrade <>? "").
    + unfold ensureUpgradeCollection. destruct (ParseUpdateSpec upgrade) as [spec|] eqn:Es; [|by intros [= <- <- <-]].
      destruct (upgradeAlreadyApplied _ _ _); [by intros [= <- <- <-]|].
      destruct (ValidateSpec _ _ _) eqn:Ev; [|destruct (_ && _); by intros [= <- <- <-]].
      rewrite Ecur. cbn [default]. unfold id.
      destruct (ApplySchema current spec) as [text|] eqn:Ea; [|by intros [= <- <- <-]].
      destruct (ValidateOJSONSchemaBytes text); [|by intros [= <- <- <-]].
      destruct (ValidateCollectionSchemaRules _ _ _); [|by intros [= <- <- <-]].
      destruct (ValidateDetailed _); [|by intros [= <- <- <-]]. intros [= <- <- <-].
      split; [done|]. split; [done|]. eexists _, [_], _. split; [|reflexivity].
      exists spec, text. split_and!; [done|done|done| |done].
      unfold ValidateSpec in Ev. apply app_eq_nil in Ev as [Ev _].
      destruct (UsFrom spec =? _)%Z eqn:Ef; [|done]. apply Z.eqb_eq in Ef. by rewrite Ef.
    + unfold ensureCollectionSchemaMatch. destruct (schema =? ""); [by intros [= <- <- <-]|].
      destruct (jsonBytesEqual _ _) as [[]|]; by intros [= <- <- <-].
  - unfold ensureCreateCollection. destruct (upgrade <>? "") eqn:Eu; [by intros [= <- <- <-]|].
    destruct (schema =? ""); [by intros [= <- <- <-]|].
    destruct (ValidateOJSONSchemaBytes schema); [|by intros [= <- <- <-]].
    destruct (ValidateCollectionSchemaRules _ _ _); [|by intros [= <- <- <-]].
    destruct (PrettyBytes schema) as [pretty|] eqn:Ep; [|by intros [= <- <- <-]].
    destruct (ValidateDetailed _); [|by intros [= <- <- <-]]. intros [= <- <- <-].
    split; [done|]. split; [done|]. eexists _, [], _. split; [|reflexivity]. cbn. by boolprop.
Qed.
End collections.

(** The names of the files of a collection. *)
Lemma Itoa_no_slash z : in_string "/" (Itoa z) = false.
Proof.
  destruct (decide (0 <= z)%Z) as [Hz|Hz].
  - destruct (Itoa_nonneg z Hz) as (Hd & _). by apply digits_no_char.
  - destruct z as [|z|z]; [done|lia|]. destruct (Itoa_nonneg (Z.pos z)) as (Hd & _); [done|].
    change (Itoa (Z.neg z)) with ("-" +:+ Itoa (Z.pos z)). rewrite in_string_app, (digits_no_char "/" _ eq_refl Hd). done.
Qed.

Lemma Itoa_head z : exists a t, Itoa z = String a t /\ Ascii.eqb a "j" = false.
Proof.
  destruct (decide (0 <= z)%Z) as [Hz|Hz].
  - destruct (Itoa_nonneg z Hz) as (Hd & Hne & _). destruct (Itoa z) as [|a t]; [done|].
    exists a, t. split; [done|]. cbn in Hd. apply andb_true_iff in Hd as [Hd _].
    destruct (Ascii.eqb a "j") eqn:E; [|done]. by apply Ascii.eqb_eq in E as ->.
  - destruct z as [|z|z]; [done|lia|]. change (Itoa (Z.neg z)) with (String "-" (Itoa (Z.pos z))). by eexists _, _.
Qed.

Section names.
Variables (dir : path) (c : string).
Hypothesis Hc : plain c = true.

Lemma name_no_slash t : in_string "/" t = false -> in_string "/" (c +:+ t) = false.
Proof. intros Ht. rewrite in_string_app, Ht. unfold plain in Hc.
  apply andb_true_iff in Hc as [_ Hs%negb_true_iff]. by rewrite Hs. Qed.

Lemma collection_file t :
  in_string "/" t = false -> (3 <= String.length t)%nat -> join dir [c +:+ t] = (c +:+ t) :: dir.
Proof.
  intros Ht Hl. apply join_plain1, plain_intro; [rewrite str_length_app; lia|]. by apply name_no_slash.
Qed.

Lemma schemaPath_eq : schemaPath dir c = (c +:+ ".schema.json") :: dir.
Proof. apply collection_file; [done|simpl; lia]. Qed.
Lemma schemaVersionPath_eq v : schemaVersionPath dir c v = (c +:+ ".schema." +:+ Itoa v +:+ ".json") :: dir.
Proof. apply collection_file; [|simpl; lia]. rewrite !in_string_app, Itoa_no_slash. done. Qed.
Lemma schemaUpdatePath_eq v : schemaUpdatePath dir c v = (c +:+ ".schema." +:+ Itoa v +:+ ".update.json") :: dir.
Proof. apply collection_file; [|simpl; lia]. rewrite !in_string_app, Itoa_no_slash. done. Qed.
Lemma generalPath_eq : generalPath dir = "__general.json" :: dir.
Proof. by apply join_plain1. Qed.
End names.

(** ** Plans of collections *)

Lemma app_general_ne c t : HasPrefix t ".schema." = true -> "__general.json" <> c +:+ t.
Proof.
  intros Ht Heq. destruct t as [|a t]; [done|].
  do 14 (destruct c as [|? c]; [cbn in Heq; injection Heq as <- <-; vm_compute in Ht; discriminate|];
         cbn in Heq; injection Heq as _ Heq).
  destruct c; discriminate.
Qed.

Lemma is_general_head n d t : is_general (n :: d, t) = (n =? "__general.json").
Proof. done. Qed.

Section plans.
Variables (dir : path) (c : string).
Hypothesis Hc : plain c = true.

Lemma str_app_inv s t u : s +:+ t = s +:+ u -> t = u.
Proof. intros Heq. by apply str_app_inv_length in Heq as [_ ?]. Qed.

Lemma collection_targets v :
  NoDup [schemaPath dir c; schemaVersionPath dir c v; schemaUpdatePath dir c v; generalPath dir].
Proof.
  rewrite schemaPath_eq, schemaVersionPath_eq, schemaUpdatePath_eq, generalPath_eq by done.
  destruct (Itoa_head v) as (a & t & Ea & Ha). apply Ascii.eqb_neq in Ha.
  assert (forall u, HasPrefix u ".schema." = true -> (c +:+ u) :: dir <> "__general.json" :: dir) as Hg.
  { intros u Hu Heq. injection Heq as Heq. by eapply app_general_ne. }
  repeat (apply NoDup_cons; split); rewrite ?elem_of_cons, ?elem_of_nil.
  - intros [Heq|[Heq|[Heq|[]]]]; [| |by apply Hg in Heq]; injection Heq as Heq; apply str_app_inv in Heq;
      rewrite Ea in Heq; cbn in Heq; injection Heq; intros; congruence.
  - intros [Heq|[Heq|[]]]; [|apply Hg in Heq; [done|by rewrite (HasPrefix_app ".schema.")]].
    injection Heq as Heq. apply str_app_inv, (str_app_inv ".schema."), str_app_inv in Heq. done.
  - intros [Heq|[]]. apply Hg in Heq; [done|by rewrite (HasPrefix_app ".schema.")].
  - by intros [].
  - constructor.
Qed.

Lemma collection_not_temp t : temp_component (c +:+ t +:+ ".json") = false.
Proof.
  rewrite <-str_app_assoc. apply json_name_not_temp. destruct c as [|a c']; [|done].
  by unfold plain in Hc.
Qed.

Section plan_files.
Context `{GoFloat} `{OJSON} `{GoJSON}.
Variables (schema upgrade : string) (old : option string) (p : plan) (r : EnsureCollectionResult).
Hypothesis Hp : collection_plan dir c schema upgrade old p r.

Lemma collection_plan_ok : plan_ok p.
Proof.
  destruct Hp as (_ & Hrem & text & updates & general & Hu & Hw). apply new_schema_updates in Hu.
  pose proof (collection_targets (CrSchemaVersion r)) as Hnd.
  assert (Forall (fun q => is_temp q = false) [schemaPath dir c; schemaVersionPath dir c (CrSchemaVersion r);
    schemaUpdatePath dir c (CrSchemaVersion r); generalPath dir]) as Ht.
  { rewrite schemaPath_eq, schemaVersionPath_eq, schemaUpdatePath_eq, generalPath_eq by done.
    repeat constructor; cbn [is_temp]; [apply (collection_not_temp ".schema")| |].
    - apply (collection_not_temp (".schema." +:+ Itoa (CrSchemaVersion r))).
    - pose proof (collection_not_temp (".schema." +:+ Itoa (CrSchemaVersion r) +:+ ".update")) as Hu'.
      rewrite !str_app_assoc in Hu'. exact Hu'. }
  split; rewrite ?Hrem, ?Hw; [| |done].
  - destruct updates as [|u [|u' us]]; [|cbn [map app fst]; exact Hnd|simpl in Hu; lia].
    eapply sublist_NoDup; [exact Hnd|]. by repeat constructor.
  - apply Forall_cons in Ht as [T1 Ht]. apply Forall_cons in Ht as [T2 Ht]. apply Forall_cons in Ht as [T3 Ht].
    rewrite Forall_cons, Forall_cons, Forall_app.
    split_and!; [done|done| |by apply Forall_cons in Ht as [? _]; constructor].
    apply Forall_fmap, Forall_forall. by intros u _.
Qed.

Lemma collection_plan_general : exists w, w ∈ writes p /\ fst w = generalPath dir /\ is_general w = true.
Proof.
  destruct Hp as (_ & _ & text & updates & general & _ & Hw). exists (generalPath dir, general). rewrite Hw.
  split_and!; [|done|by rewrite generalPath_eq]. do 2 right. apply elem_of_app. right. by left.
Qed.

(** The new schema and its update list are in place. *)
Definition schema_in_place (v : Z) (text : string) (updates : list string) (f : fs) : Prop :=
  content f (schemaPath dir c) = Some text /\ content f (schemaVersionPath dir c v) = Some text /\
  Forall (fun u => content f (schemaUpdatePath dir c v) = Some u) updates.

Lemma schema_file_not_general u text :
  HasPrefix u ".schema." = true -> is_general ((c +:+ u) :: dir, text) = false.
Proof.
  intros Hu. rewrite is_general_head. apply String.eqb_neq. intros Heq. by eapply app_general_ne.
Qed.

Lemma collection_plan_files f :
  Forall (fun w => is_general w = false -> in_place f w) (writes p) ->
  exists text updates, new_schema schema upgrade old (CrSchemaVersion r) text updates /\
    schema_in_place (CrSchemaVersion r) text updates f.
Proof.
  destruct Hp as (_ & _ & text & updates & general & Hnew & ->).
  intros [W1 [W2 [W3 _]%Forall_app]%Forall_cons]%Forall_cons.
  exists text, updates. split; [done|]. unfold schema_in_place, in_place in *. cbn [fst snd] in *.
  rewrite schemaPath_eq, schemaVersionPath_eq, schemaUpdatePath_eq in * by done. split_and!.
  - apply W1. by apply schema_file_not_general.
  - apply W2. apply schema_file_not_general. by rewrite (HasPrefix_app ".schema.").
  - rewrite Forall_fmap in W3. eapply Forall_impl; [exact W3|]. unfold compose. cbn [fst snd].
    intros u Hu. apply Hu. apply (schema_file_not_general _ u). by rewrite (HasPrefix_app ".schema.").
Qed.

(** The lock is none of these files. *)
Lemma schema_in_place_unlocked v text updates f f' :
  keeps (eq (lock_path dir)) f f' -> schema_in_place v text updates f -> schema_in_place v text updates f'.
Proof.
  intros K. assert (lock_path dir = ".datoriumctl.lock" :: dir) as El by by apply join_plain1.
  assert (forall u, content f' ((c +:+ u +:+ ".json") :: dir) = content f ((c +:+ u +:+ ".json") :: dir)) as Hk.
  { intros u. apply K. rewrite El. intros [= Heq].
    apply (f_equal (fun x => HasSuffix x ".json")) in Heq. rewrite <-str_app_assoc, HasSuffix_app in Heq. done. }
  unfold schema_in_place. rewrite schemaPath_eq, schemaVersionPath_eq, schemaUpdatePath_eq by done.
  pose proof (Hk ".schema") as K1. pose proof (Hk (".schema." +:+ Itoa v)) as K2.
  pose proof (Hk (".schema." +:+ Itoa v +:+ ".update")) as K3. rewrite str_app_assoc in K2.
  rewrite str_app_assoc, (str_app_assoc (Itoa v)) in K3. cbn [String.append] in K1. intros (F1 & F2 & F3). split_and!; [by rewrite <-F1|by rewrite <-F2|].
  eapply Forall_impl; [exact F3|]. cbv beta. intros u <-. exact K3.
Qed.
End plan_files.
End plans.

Section ensure.
Context `{E : Env} `{GoTables} `{OJSON} `{GoJSON} `{GoFloat}.
Variables (ulid_ok : string -> bool) (quote : string -> string) (pid : string).

(** C16: whatever system call fails, creating or upgrading a collection, whose
    name has no slash and is not a dot name, moves the version in [__general.json]
    only when the new schema is in place both as the current schema and as the
    version the reply names, and the update list with it; so it is when the
    command reports a change without errors.  The new schema is the one of the
    request, printed, as version 0, for a new collection; for an upgrade it is the
    schema that was on disk with the operations of the request applied, as the
    version after the one the request names, and the update list is the request.
    A request that is refused changes no file but the lock. *)
Theorem EnsureCollection_general_last dir dataDir c schema upgrade s :
  plain c = true ->
  wp (EnsureCollection ulid_ok quote pid dir dataDir c schema upgrade) (fun '(res, errs) s' =>
    (content (st_fs s') (generalPath dir) <> content (st_fs s) (generalPath dir) \/
       (errs = [] /\ CrChanged res = true) ->
     exists old text updates,
       (forall current, old = Some current -> content (st_fs s) (schemaPath dir c) = Some current) /\
       new_schema schema upgrade old (CrSchemaVersion res) text updates /\
       schema_in_place dir c (CrSchemaVersion res) text updates (st_fs s')) /\
    (CrChanged res = false -> keeps (eq (lock_path dir)) (st_fs s) (st_fs s'))) s.
Proof.
  intros Hc. unfold EnsureCollection. apply wp_bind.
  set (mutate := change_collection _ _ _ _ _ _ _).
  pose proof (change_collection_plan ulid_ok quote dir dataDir c schema upgrade) as Hplan. fold mutate in Hplan.
  eapply wp_mono; [apply (runMutation_outcome pid dir mutate)|].
  { intros cfg p r Hm. apply Hplan in Hm. by eapply collection_plan_ok. }
  assert (lock_path dir = ".datoriumctl.lock" :: dir) as El by by apply join_plain1.
  assert (forall f f', keeps (eq (lock_path dir)) f f' -> content f' (generalPath dir) = content f (generalPath dir)) as Hgen.
  { intros f f' K. apply K. by rewrite generalPath_eq, El. }
  intros [r errs] s' Ho. apply wp_ret.
  inversion Ho as [errs0 Hne K|cfg p r0 errs0 Hm Hn K|cfg p r0 errs0 g g' Hm K1 Hread C K2]; subst.
  - split; [|done]. cbn [default from_option]. by intros [Hx|[-> _]]; [rewrite (Hgen _ _ K) in Hx|].
  - cbn [default from_option]; unfold id. apply Hplan in Hm as Hp. split; [|done]. intros [Hx|[-> Hch]]; [by rewrite (Hgen _ _ K) in Hx|].
    rewrite (Hn eq_refl) in Hp. unfold id in Hch. congruence.
  - cbn [default from_option]; unfold id. apply Hplan in Hm as Hp. split; [|by destruct Hp as [-> _]]. intros Hx.
    assert (Forall (fun w => is_general w = false -> in_place g' w) (writes p)) as Hall.
    { destruct C as [_ Cd Cl _]. destruct Hx as [Hx|[-> _]].
      - destruct (collection_plan_general dir c _ _ _ p r0 Hp) as (w & Hw & Ew & Hg). eapply Cl; [exact Hw|exact Hg|].
        rewrite Ew, (Hgen _ _ K1). by rewrite (Hgen _ _ K2) in Hx.
      - destruct Cd as [Cd _]; [by rewrite bool_decide_eq_true|]. eapply Forall_impl; [exact Cd|]. done. }
    destruct (collection_plan_files dir c Hc _ _ _ p r0 Hp g' Hall) as (text & updates & Hnew & Hin).
    exists (aget (Schemas cfg) c), text, updates. split_and!; [|done|by eapply schema_in_place_unlocked].
    intros current Hcur. apply Hread in Hcur. rewrite <-(K1 (schemaPath dir c)); [done|].
    rewrite schemaPath_eq, El by done. intros [= Heq].
    apply (f_equal (fun x => HasSuffix x ".json")) in Heq.
    change (c +:+ ".schema.json") with (c +:+ (".schema" +:+ ".json")) in Heq.
    rewrite <-str_app_assoc, HasSuffix_app in Heq. done.
Qed.
End ensure.
