(* ===== verification/Establish.v ===== *)
(** * Package establish: how the other servers get their configuration

    [Config.EstablishDocument] of [internal/config/load.go] and the handler that
    serves it, and the worker of [internal/establish/worker.go] that obtains a
    machine token, fetches the document, caches it as a configuration directory and
    refreshes it.

    The establishment server, the transport and the clock are [EstNet]: a reply is
    the text of the response body, and time is in nanoseconds.  Ranging over a Go
    map visits it in an order of its own, [visit]. *)

From S2P Require Import Prelude GoStrings World Shard Json Config Store ConfigLoad Docjson Replication Engine Search FileRepl Migrate SchemaPatch Admin.

(** ** The document *)

Definition sorted_object (m : fields) : json := JObj (merge_sort key_le m).

Definition general_body_json (g : GeneralBody) : json := default JNull (Get (general_json g) "general").

Definition servers_json (l : list (string * ServerEntry)) : json :=
  sorted_object (map (fun s => (fst s, JObj [("baseURL", JStr (BaseURL (snd s)))])) l).

Definition assignment_json (a : ShardAssignment) : json :=
  JObj [("SHARD_SOT_MEMBER", JStr (ShardSOTMember a));
        ("SHARD_READ_MEMBER", JArr (map JStr (ShardReadMember a)));
        ("PROXY_READ_MEMBER", JArr (map JStr (ProxyReadMember a)))].

Definition shardmap_json (m : ShardMapBody) : json :=
  JObj [("default", match m with
                    | None => JNull
                    | Some l => sorted_object (map (fun s => (fst s, assignment_json (snd s))) l)
                    end)].

Definition key_json (k : AuthKey) : json :=
  JObj [("kid", JStr (Kid k)); ("alg", JStr (Alg k)); ("status", JStr (Status k)); ("publicKey", JStr (PublicKey k))].

Definition auth_json (a : AuthBody) : json :=
  JObj [("issuer", JStr (Issuer a)); ("audience", JStr (Audience a));
        ("tokenLifetimeSeconds", JObj [("client", JNum (Itoa (LifetimeClient a)));
                                       ("machine", JNum (Itoa (LifetimeMachine a)))]);
        ("keys", JArr (map key_json (Keys a)))].

Section document.
Context `{GoJSON}.

(** A [json.RawMessage] inside the document: its value, in the order it has. *)
Fixpoint raw_values (l : list (string * string)) (wrap : string -> json -> json) : result fields :=
  match l with
  | [] => Ok []
  | (k, raw) :: l' =>
      result_bind (Unmarshal raw) (fun v =>
      result_bind (raw_values l' wrap) (fun m => Ok ((k, wrap k v) :: m)))
  end.

Fixpoint raw_searches (l : list (string * list (string * string))) : result fields :=
  match l with
  | [] => Ok []
  | (k, byName) :: l' =>
      result_bind (raw_values byName (fun _ v => v)) (fun inner =>
      result_bind (raw_searches l') (fun m => Ok ((k, sorted_object inner) :: m)))
  end.

(** The fields of the document; printing them fails on a stored text that is not
    JSON. *)
Definition EstablishDocument (c : Config) : result fields :=
  result_bind (raw_values (Schemas c) (fun name v =>
    JObj [("schema", v); ("version", JNum (Itoa (SchemaVersion (Some c) name)))])) (fun schemas =>
  result_bind (raw_searches (Searches c)) (fun searches =>
  Ok [("general", general_body_json (General c)); ("servers", servers_json (Servers c));
      ("shardMap", shardmap_json (ShardMap c)); ("schemas", sorted_object schemas);
      ("searches", sorted_object searches); ("auth", auth_json (Auth c))])).

Definition establish_body (c : Config) : result string :=
  result_bind (EstablishDocument c) (fun fs => Ok (Encode (sorted_object (("ok", JBool true) :: fs)))).
End document.

(** ** The worker *)

Inductive est_request :=
| TokenRequest (body authorization : string)
| EstablishRequest (authorization : string).

Class EstNet := {
  est_reply : nat -> est_request -> result string;
  wall : nat -> Z;
  visit : forall {A}, list (string * A) -> list (string * A);
  visit_perm : forall {A} (l : list (string * A)), visit l ≡ₚ l;
}.

Record Worker := mkWorker {
  EwServerName : string;
  EwBootstrapSecret : string;
  EwConfigDir : path;
  EwDataDir : path;
  EwRenewSkew : Z;
  EwMaxConsecutiveFailures : Z;
  EwOnConfigCached : option (M (result unit));
}.

Definition second : Z := 1000000000.
Definition defaultRenewSkew : Z := 30 * second.
Definition defaultMaxFailures : Z := 5.

Definition renewSkew (w : Worker) : Z :=
  if (0 <? EwRenewSkew w)%Z then EwRenewSkew w else defaultRenewSkew.

Definition maxFailures (w : Worker) : Z :=
  if (0 <? EwMaxConsecutiveFailures w)%Z then EwMaxConsecutiveFailures w else defaultMaxFailures.

(** The files of the server, the token and its expiry, the requests made and the
    readings of the clock. *)
Record estate := mkEstate {
  es_st : st;
  es_token : string;
  es_expires : Z;
  es_requests : nat;
  es_readings : nat;
}.

Definition EM (A : Type) : Type := estate -> A * estate.

#[export] Instance EM_ret : MRet EM := fun A a s => (a, s).
#[export] Instance EM_bind : MBind EM := fun A B k m s => let '(a, s') := m s in k a s'.

Definition erbind {A B} (m : EM (result A)) (k : A -> EM (result B)) : EM (result B) :=
  r ← m; match r with Ok a => k a | Err e => mret (Err e) end.

Notation "x <-! m ; k" := (erbind m (fun x => k))
  (at level 20, m at level 100, k at level 200, right associativity).
Notation "m ;! k" := (erbind m (fun _ => k))
  (at level 100, k at level 200, right associativity).

(** A step on the files of the server. *)
Definition on_files {A} (m : M A) : EM A := fun s =>
  let '(a, t) := m (es_st s) in
  (a, mkEstate t (es_token s) (es_expires s) (es_requests s) (es_readings s)).

Record responseError := mkResponseError { ReCode : string; ReMessage : string }.

Definition firstErrorMessage (errs : list responseError) : string :=
  match errs with
  | [] => "unknown error"
  | e :: _ => ReCode e +:+ ": " +:+ ReMessage e
  end.

(** The writes of the cache, with map order left to [visit]. *)
Record establishResponse := mkEstablishResponse {
  ErOK : bool;
  ErGeneral : string;
  ErServers : string;
  ErShardMap : string;
  ErAuth : string;
  ErSchemas : list (string * (Z * string));
  ErSearches : list (string * list (string * string));
  ErErrors : list responseError;
}.

Section worker.
Context `{Env} `{GoTables} `{OJSON} `{GoJSON} `{EstNet}.

Definition time_now : EM Z := fun s =>
  (wall (es_readings s), mkEstate (es_st s) (es_token s) (es_expires s) (es_requests s) (S (es_readings s))).

Definition send (r : est_request) : EM (result string) := fun s =>
  (est_reply (es_requests s) r,
   mkEstate (es_st s) (es_token s) (es_expires s) (S (es_requests s)) (es_readings s)).

Definition currentToken : EM (string * Z) := fun s => ((es_token s, es_expires s), s).

Definition store_token (token : string) (expires : Z) : EM unit := fun s =>
  (tt, mkEstate (es_st s) token expires (es_requests s) (es_readings s)).

Definition setToken (token : string) (lifetime : Z) : EM unit :=
  now ← time_now; store_token token (now + lifetime).

(** *** The machine token *)

Definition response_errors (l : list json) : result (list responseError) :=
  slice_of (fun v => result_bind (struct_value v) (fun v =>
    result_bind (string_field v "code") (fun code =>
    result_bind (string_field v "message") (fun msg => Ok (mkResponseError code msg))))) l.

Definition token_response (v : json) : result (bool * string * Z * list responseError) :=
  result_bind (struct_value v) (fun v =>
  result_bind (bool_field v "ok") (fun ok =>
  result_bind (string_field v "token") (fun token =>
  result_bind (int_field v "expiresIn") (fun expiresIn =>
  result_bind (match Get v "errors" with
               | None | Some JNull => Ok []
               | Some (JArr l) => response_errors l
               | Some _ => Err (errorf "not an array")
               end) (fun errs => Ok (ok, token, expiresIn, errs)))))).

(** [bootstrapSecret] is left out when it is empty. *)
Definition token_request_body (serverName secret : string) : string :=
  Marshal (JObj (("serverName", JStr serverName) ::
    if secret =? "" then [] else [("bootstrapSecret", JStr secret)])).

Definition callMachineToken (body authHeader : string) : EM (result (string * Z)) :=
  text <-! send (TokenRequest body authHeader);
  mret (result_bind (result_bind (Decode text) token_response) (fun '(ok, token, expiresIn, errs) =>
    if ok then Ok (token, expiresIn)
    else Err (errorf ("machine-token request failed: " +:+ firstErrorMessage errs)))).

Definition ensureMachineToken (w : Worker) : EM (result unit) :=
  te ← currentToken; let tok := fst te in let exp := snd te in
  now ← time_now;
  if (tok <>? "") && (now <? exp - renewSkew w)%Z then mret (Ok tt)
  else
    let renew := (tok <>? "") && (now <? exp)%Z in
    let body := token_request_body (EwServerName w) (if renew then "" else EwBootstrapSecret w) in
    r ← callMachineToken body (if renew then "Bearer " +:+ tok else "");
    match r with
    | Err e => mret (Err e)
    | Ok (token, expiresIn) => _ ← setToken token (wrap64 (expiresIn * second)); mret (Ok tt)
    end.

Definition Token (w : Worker) : EM (result string) :=
  ensureMachineToken w ;!
  te ← currentToken; let tok := fst te in
  mret (Ok tok).

(** *** The document *)

(** [docjson.ObjectFieldKeys]: the members of an object, none of Void. *)
Definition ObjectFieldKeys (v : option json) : result (list string) :=
  match v with
  | None => Ok []
  | Some (JObj m) => Ok (akeys m)
  | Some _ => Err (errorf "docjson: value is not an object")
  end.

Definition get_opt (v : option json) (k : string) : option json := v ≫= fun v => Get v k.

Definition rawJSONField (root : json) (key : string) : string :=
  match Get root key with None => "{}" | Some v => ToJSONBytes v end.

Definition error_items (v : option json) : list responseError :=
  match v with
  | Some (JArr l) => map (fun item => mkResponseError (ValueString (Get item "code")) (ValueString (Get item "message"))) l
  | _ => []
  end.

Fixpoint schema_entries (schemas : option json) (keys : list string) : result (list (string * (Z * string))) :=
  match keys with
  | [] => Ok []
  | key :: keys' =>
      let entryObj := get_opt schemas key in
      match get_opt entryObj "version" with
      | Some (JNum l) =>
          match Atoi l with
          | None => Err (errorf "schema version is not an int")
          | Some ver =>
              match get_opt entryObj "schema" with
              | None => Err (errorf "schema is required")
              | Some v =>
                  result_bind (schema_entries schemas keys') (fun r => Ok ((key, (ver, ToJSONBytes v)) :: r))
              end
          end
      | _ => Err (errorf "schema version is not an int")
      end
  end.

Fixpoint search_entries (searches : option json) (keys : list string) : result (list (string * list (string * string))) :=
  match keys with
  | [] => Ok []
  | key :: keys' =>
      let coll := get_opt searches key in
      result_bind (ObjectFieldKeys coll) (fun names =>
      result_bind (search_entries searches keys') (fun r =>
      Ok ((key, map (fun n => (n, match get_opt coll n with Some v => ToJSONBytes v | None => "" end)) names) :: r)))
  end.

Definition parseEstablishResponse (body : string) : result establishResponse :=
  result_bind (ReadBytesNoSchema body) (fun root =>
  match root with
  | JObj _ =>
      match Get root "ok" with
      | Some (JBool ok) =>
          let errs := error_items (Get root "errors") in
          if negb ok then Ok (mkEstablishResponse false "" "" "" "" [] [] errs)
          else
            result_bind (ObjectFieldKeys (Get root "schemas")) (fun schemaKeys =>
            result_bind (schema_entries (Get root "schemas") schemaKeys) (fun schemas =>
            result_bind (ObjectFieldKeys (Get root "searches")) (fun searchKeys =>
            result_bind (search_entries (Get root "searches") searchKeys) (fun searches =>
            Ok (mkEstablishResponse true (rawJSONField root "general") (rawJSONField root "servers")
                  (rawJSONField root "shardMap") (rawJSONField root "auth") schemas searches errs)))))
      | _ => Err (errorf "missing or invalid ok field")
      end
  | _ => Err (errorf "establish response root must be an object")
  end).

Definition fetchEstablishment (w : Worker) : EM (result establishResponse) :=
  ensureMachineToken w ;!
  te ← currentToken; let tok := fst te in
  body <-! send (EstablishRequest ("Bearer " +:+ tok));
  mret (result_bind (parseEstablishResponse body) (fun doc =>
    if ErOK doc then Ok doc
    else Err (errorf ("establish request failed: " +:+ firstErrorMessage (ErErrors doc))))).

(** *** The cache *)

Definition or_empty (raw : string) : string := if raw =? "" then "{}" else raw.

Definition wrapped_text (key raw : string) : result string :=
  result_bind (ReadBytesNoSchema (or_empty raw)) (fun inner => PrettyBytes (ToJSONBytes (JObj [(key, inner)]))).

Definition writeWrapped (p : path) (key raw : string) : M (result unit) :=
  match wrapped_text key raw with
  | Err e => mret (Err e)
  | Ok pretty => WriteFileAtomic p pretty
  end.

Definition writeRaw (p : path) (raw : string) : M (result unit) :=
  match PrettyBytes (or_empty raw) with
  | Err e => mret (Err e)
  | Ok pretty => WriteFileAtomic p pretty
  end.

Fixpoint write_schemas (dir : path) (l : list (string * (Z * string))) : M (result unit) :=
  match l with
  | [] => mret (Ok tt)
  | (name, (ver, schema)) :: l' =>
      writeRaw (schemaPath dir name) schema ;?
      writeRaw (schemaVersionPath dir name ver) schema ;?
      write_schemas dir l'
  end.

Fixpoint write_collection_searches (dir : path) (collection : string) (l : list (string * string)) : M (result unit) :=
  match l with
  | [] => mret (Ok tt)
  | (name, raw) :: l' => writeRaw (searchPath dir collection name) raw ;? write_collection_searches dir collection l'
  end.

Fixpoint write_searches (dir : path) (l : list (string * list (string * string))) : M (result unit) :=
  match l with
  | [] => mret (Ok tt)
  | (collection, byName) :: l' =>
      write_collection_searches dir collection (visit byName) ;? write_searches dir l'
  end.

Definition writeConfig (dir : path) (doc : establishResponse) : M (result unit) :=
  MkdirAll dir ;?
  writeWrapped (join dir ["__general.json"]) "general" (ErGeneral doc) ;?
  writeWrapped (join dir ["__servers.json"]) "servers" (ErServers doc) ;?
  writeWrapped (join dir ["__shard-map.json"]) "shardMap" (ErShardMap doc) ;?
  writeWrapped (join dir ["__auth.json"]) "auth" (ErAuth doc) ;?
  write_schemas dir (visit (ErSchemas doc)) ;?
  write_searches dir (visit (ErSearches doc)).

Fixpoint create_dirs (dataDir : path) (l : list (string * (Z * string))) : M (result unit) :=
  match l with
  | [] => mret (Ok tt)
  | (name, _) :: l' => EnsureCollectionDir dataDir name ;? create_dirs dataDir l'
  end.

Definition createCollectionDirs (dataDir : path) (doc : establishResponse) : M (result unit) :=
  create_dirs dataDir (visit (ErSchemas doc)).

(** *** Refreshing *)

Definition RefreshOnce (w : Worker) : EM (result unit) :=
  doc <-! fetchEstablishment w;
  on_files (writeConfig (EwConfigDir w) doc) ;!
  on_files (createCollectionDirs (EwDataDir w) doc) ;!
  match EwOnConfigCached w with
  | None => mret (Ok tt)
  | Some cached => on_files cached
  end.

Definition HasLocalConfig (dir : path) : M bool := r ← loadUnvalidated dir; mret (is_ok r).

Definition Bootstrap (w : Worker) : EM (result unit) :=
  r ← RefreshOnce w;
  match r with
  | Ok _ => mret (Ok tt)
  | Err e =>
      cached ← on_files (HasLocalConfig (EwConfigDir w));
      mret (if cached : bool then Ok tt
            else Err (errorf ("establishment bootstrap failed and no usable local config is cached: " +:+ err_msg e)))
  end.

(** The channel of [Wake], with room for one: nil before [Run] made it. *)
Definition Wake (ch : option bool) : option bool :=
  match ch with None => None | Some _ => Some true end.

(** What the loop's [select] receives. *)
Inductive run_event := Done | TickOrWake.

Inductive run_end :=
| Stopped                     (* the context was cancelled *)
| Fatal (e : error)           (* too many failures in a row: [onFatal e] *)
| Waiting (failures : Z).     (* blocked in the select *)

Fixpoint run_loop (w : Worker) (failures : Z) (events : list run_event) : EM run_end :=
  match events with
  | [] => mret (Waiting failures)
  | Done :: _ => mret Stopped
  | TickOrWake :: events' =>
      r ← RefreshOnce w;
      match r with
      | Ok _ => run_loop w 0 events'
      | Err e =>
          if (maxFailures w <=? failures + 1)%Z then mret (Fatal e)
          else run_loop w (failures + 1) events'
      end
  end.

Definition Run (w : Worker) (events : list run_event) : EM run_end := run_loop w 0 events.
End worker.
