(* ===== verification/EstablishSpec.v ===== *)
(** * What a server learns from the establishment server

    The document the establishment server prints, read by another server and
    written into the files of its configuration directory, decodes there to the
    configuration it was made from; and the refresh loop gives up after exactly the
    configured number of failures in a row. *)

From S2P Require Import Prelude GoStrings World Shard Json Config Store ConfigLoad ConfigSpec Docjson Replication Engine Search FileRepl Migrate MigrateSpec SchemaPatch Admin Establish.

(** ** Codecs *)

Definition int_ok (z : Z) : Prop := (0 <= z < 2 ^ 63)%Z.

Lemma int_field_Itoa m k z : int_ok z -> aget m k = Some (JNum (Itoa z)) -> int_field (JObj m) k = Ok z.
Proof. intros Hz Hk. unfold int_field. cbn [Get]. rewrite Hk. by destruct (version_text z Hz) as [_ ->]. Qed.

Record general_ints (g : GeneralBody) : Prop := {
  gi_version : int_ok (Version g);
  gi_read : int_ok (ReadMemberCheckinSeconds g);
  gi_cache : int_ok (CacheUpdateCheckinSeconds g);
  gi_stale : int_ok (ReadMemberFailedCheckinsBeforeStale g);
  gi_max : int_ok (MaxFileBytes g);
}.

Lemma general_roundtrip g :
  general_ints g -> general_of_json (JObj [("general", general_body_json g)]) = Ok g.
Proof.
  intros [H1 H2 H3 H4 H5]. destruct g as [name server version read cache stale max].
  unfold general_of_json, general_body_json, general_json. cbn -[int_field Itoa].
  destruct (max =? 0)%Z eqn:Em; cbn -[int_field Itoa];
    rewrite !(int_field_Itoa _ "version" _ H1), !(int_field_Itoa _ "readMemberCheckinSeconds" _ H2),
      !(int_field_Itoa _ "cacheUpdateCheckinSeconds" _ H3), !(int_field_Itoa _ "readMemberFailedCheckinsBeforeStale" _ H4) by done;
    cbn -[int_field Itoa].
  - apply Z.eqb_eq in Em as ->. done.
  - by rewrite (int_field_Itoa _ "maxFileBytes" _ H5).
Qed.

Lemma map_of_app {A} (enc : A -> json) (dec : json -> result A) l acc :
  (forall a, dec (enc a) = Ok a) -> NoDup (akeys (acc ++ l)) ->
  map_of dec (map (fun s => (fst s, enc (snd s))) l) acc = Ok (acc ++ l).
Proof.
  intros Hdec. revert acc. induction l as [|[k a] l IH]; intros acc Hnd; cbn [map map_of fst snd]; [by rewrite app_nil_r|].
  rewrite Hdec. cbn [result_bind]. assert (aset acc k a = acc ++ [(k, a)]) as ->.
  { apply aset_fresh. unfold akeys in Hnd. rewrite map_app in Hnd. apply NoDup_app in Hnd as (_ & Hd & _).
    intros Hin. apply (Hd k Hin). by left. }
  rewrite IH; by rewrite <-app_assoc.
Qed.

(** A map of structs that was printed reads back as the same map. *)
Lemma struct_map_roundtrip {A} (enc : A -> json) (dec : json -> result A) m k l :
  (forall a, dec (enc a) = Ok a) -> NoDup (akeys l) ->
  aget m k = Some (sorted_object (map (fun s => (fst s, enc (snd s))) l)) ->
  exists l', struct_map_field dec (JObj m) k = Ok (Some l') /\ l' ≡ₚ l.
Proof.
  intros Hdec Hnd Hk. pose proof (merge_sort_Permutation key_le (map (fun s => (fst s, enc (snd s))) l)) as Hp.
  apply Permutation_map_inv in Hp as (l' & Hl' & Hp). exists l'. split; [|by symmetry].
  unfold struct_map_field. cbn [Get]. rewrite Hk. unfold sorted_object. rewrite Hl', (map_of_app enc); [done|done|].
  cbn [app]. unfold akeys in *. by rewrite <-Hp.
Qed.

Lemma server_roundtrip s : server_of_json (JObj [("baseURL", JStr (BaseURL s))]) = Ok s.
Proof. by destruct s. Qed.

Lemma strings_roundtrip l : strings_of (map JStr l) = Ok l.
Proof. induction l as [|s l IH]; [done|]. cbn [map strings_of]. by rewrite IH. Qed.

Lemma assignment_roundtrip a : assignment_of_json (assignment_json a) = Ok a.
Proof.
  destruct a. unfold assignment_of_json, assignment_json, strings_field. cbn -[strings_of]. by rewrite !strings_roundtrip.
Qed.

Lemma key_roundtrip k : key_of_json (key_json k) = Ok k.
Proof. by destruct k. Qed.

Lemma auth_roundtrip a :
  int_ok (LifetimeClient a) -> int_ok (LifetimeMachine a) -> auth_of_json (JObj [("auth", auth_json a)]) = Ok a.
Proof.
  intros H1 H2. destruct a as [issuer audience client machine keys]. unfold auth_of_json, auth_json.
  cbn -[int_field Itoa slice_field]. rewrite (int_field_Itoa _ "client" _ H1), (int_field_Itoa _ "machine" _ H2) by done.
  cbn -[int_field Itoa slice_field]. unfold slice_field. cbn -[slice_of].
  assert (slice_of key_of_json (map key_json keys) = Ok keys) as ->; [|done].
  induction keys as [|k keys IH]; [done|]. cbn [map slice_of]. by rewrite key_roundtrip, IH.
Qed.

(** ** The document *)

Section document.
Context `{OL : OJSONLaws} `{GJ : GoJSON} `{GL : !GoJSONLaws}.

Lemma sorted_object_get m k :
  well_formed (JObj m) = true -> Get (sorted_object m) k = aget m k.
Proof.
  intros [Hnd _]%well_formed_obj. cbn [Get]. symmetry. apply aget_perm; [done|]. symmetry. apply merge_sort_Permutation.
Qed.

Lemma sorted_object_well_formed m : well_formed (JObj m) = true -> well_formed (sorted_object m) = true.
Proof.
  intros [Hnd Hall]%well_formed_obj. unfold sorted_object. apply well_formed_obj.
  pose proof (merge_sort_Permutation key_le m) as Hp. split; [unfold akeys in *|]; by rewrite Hp.
Qed.

Lemma well_formed_get m k v : well_formed (JObj m) = true -> aget m k = Some v -> well_formed v = true.
Proof.
  intros [_ Hall]%well_formed_obj Hk%aget_Some_in. rewrite Forall_forall in Hall. by apply Hall in Hk as [_ ?].
Qed.

Lemma or_empty_compact v : well_formed v = true -> or_empty (ToJSONBytes v) = ToJSONBytes v.
Proof.
  intros Hv. unfold or_empty. destruct (ToJSONBytes v =? "") eqn:Eq; [|done]. apply String.eqb_eq in Eq.
  apply read_compact in Hv. rewrite Eq in Hv. by apply read_empty in Hv.
Qed.

(** The text of a value in a file of its own, and under a key. *)
Lemma raw_text_read v :
  well_formed v = true -> exists text, PrettyBytes (or_empty (ToJSONBytes v)) = Ok text /\ ReadBytesNoSchema text = Ok v.
Proof. intros Hv. rewrite or_empty_compact by done. by apply PrettyBytes_read, read_compact. Qed.

(** The file written for a part of the document decodes to [x]. *)
Definition decodes {A} (key raw : string) (dec : json -> result A) (P : A -> Prop) : Prop :=
  exists text v x, wrapped_text key raw = Ok text /\ Unmarshal text = Ok v /\ dec v = Ok x /\ P x.

Lemma wrapped_decodes {A} key v (dec : json -> result A) (P : A -> Prop) x :
  ValidString key = true -> well_formed v = true -> dec (JObj [(key, v)]) = Ok x -> P x ->
  decodes key (ToJSONBytes v) dec P.
Proof.
  intros Hk Hv Hd Hx. unfold decodes, wrapped_text. rewrite or_empty_compact, read_compact by done. cbn [result_bind].
  assert (well_formed (JObj [(key, v)]) = true) as Hw.
  { apply well_formed_obj. split; [apply NoDup_singleton|]. by repeat constructor. }
  destruct (PrettyBytes_read (ToJSONBytes (JObj [(key, v)])) (JObj [(key, v)])) as (text & Ht & Hr); [by apply read_compact|].
  exists text, (JObj [(key, v)]), x. split_and!; [done|by apply unmarshal_read|done|done].
Qed.

Lemma raw_values_get l wrap m :
  raw_values l wrap = Ok m -> akeys m = akeys l /\
  forall k raw, aget l k = Some raw -> exists v, Unmarshal raw = Ok v /\ aget m k = Some (wrap k v).
Proof.
  revert m. induction l as [|[k0 raw0] l IH]; intros m; cbn [raw_values]; [by intros [= <-]|].
  destruct (Unmarshal raw0) as [v0|] eqn:E0; [|done]. destruct (raw_values l wrap) as [m'|]; [|done].
  intros [= <-]. destruct (IH m' eq_refl) as [Hk Hg]. split; [unfold akeys in *; cbn [map fst]; by rewrite Hk|].
  intros k raw. cbn [aget]. destruct (k =? k0) eqn:Ek; [|apply Hg]. apply String.eqb_eq in Ek as ->.
  intros [= <-]. by exists v0.
Qed.

Lemma schema_entries_get (m : fields) (version : string -> Z) keys :
  (forall k, k ∈ keys -> int_ok (version k) /\
    exists v, aget m k = Some (JObj [("schema", v); ("version", JNum (Itoa (version k)))])) ->
  exists r, schema_entries (Some (JObj m)) keys = Ok r /\
    forall k v w, k ∈ keys -> aget m k = Some (JObj [("schema", v); ("version", w)]) ->
      aget r k = Some (version k, ToJSONBytes v).
Proof.
  induction keys as [|k0 keys IH]; intros Hm; [exists []; split; [done|set_solver]|].
  destruct IH as (r & Hr & Hg); [intros k Hk; apply Hm; by right|].
  destruct (Hm k0) as (Hi & v0 & E0); [by left|]. cbn [schema_entries]. unfold get_opt. cbn [mbind option_bind Get].
  rewrite E0. cbn -[schema_entries Atoi Itoa]. destruct (version_text _ Hi) as [_ ->]. rewrite Hr.
  eexists. split; [done|]. intros k v w Hk Ek. cbn [aget]. destruct (k =? k0) eqn:Eq.
  - apply String.eqb_eq in Eq as ->. rewrite E0 in Ek. by injection Ek as -> _.
  - apply elem_of_cons in Hk as [->|Hk]; [by rewrite String.eqb_refl in Eq|]. by eapply Hg.
Qed.

Lemma raw_searches_get l m :
  raw_searches l = Ok m -> akeys m = akeys l /\
  (forall k, k ∈ akeys m -> exists im, aget m k = Some (sorted_object im)) /\
  forall c byName, aget l c = Some byName ->
    exists im, aget m c = Some (sorted_object im) /\ raw_values byName (fun _ v => v) = Ok im.
Proof.
  revert m. induction l as [|[k0 b0] l IH]; intros m; cbn [raw_searches]; [intros [= <-]; split_and!; [done|set_solver|done]|].
  destruct (raw_values b0 _) as [im|] eqn:Ei; [|done]. destruct (raw_searches l) as [m'|]; [|done].
  intros [= <-]. destruct (IH m' eq_refl) as (Hk & Ho & Hg). split_and!; [unfold akeys in *; cbn [map fst]; by rewrite Hk| |].
  - intros k Hin. cbn [aget]. destruct (k =? k0) eqn:Eq; [by eexists|]. apply Ho.
    apply elem_of_cons in Hin as [->|?]; [by rewrite String.eqb_refl in Eq|done].
  - intros c byName. cbn [aget]. destruct (c =? k0) eqn:Eq; [|apply Hg]. intros [= <-]. by exists im.
Qed.

Lemma search_entries_get (m : fields) keys :
  (forall k, k ∈ keys -> exists im, aget m k = Some (sorted_object im)) ->
  exists r, search_entries (Some (JObj m)) keys = Ok r /\
    forall c im n v, c ∈ keys -> aget m c = Some (sorted_object im) -> well_formed (JObj im) = true ->
      aget im n = Some v -> aget (inner r c) n = Some (ToJSONBytes v).
Proof.
  induction keys as [|k0 keys IH]; intros Hm; [by exists []; split; [|set_solver]|].
  destruct IH as (r & Hr & Hg); [intros k Hk; apply Hm; by right|].
  destruct (Hm k0) as (im0 & E0); [by left|]. cbn [search_entries]. unfold get_opt. cbn [mbind option_bind].
  change (Get (JObj m) k0) with (aget m k0). rewrite E0. cbn [ObjectFieldKeys sorted_object result_bind]. rewrite Hr.
  eexists. split; [done|]. intros c im n v Hc Ec Hw Hn. unfold inner. cbn [aget]. destruct (c =? k0) eqn:Eq.
  - apply String.eqb_eq in Eq as ->. rewrite E0 in Ec. injection Ec as Ec. cbn [default from_option].
    assert (aget (merge_sort key_le im0) n = Some v) as Hs.
    { rewrite Ec. pose proof (sorted_object_get im n Hw) as Hs. cbn [Get sorted_object] in Hs. by rewrite Hs. }
    clear -Hs. set (m := merge_sort key_le im0) in *. change (Get (JObj m)) with (aget m).
    assert (forall l, (n ∈ l) -> aget (map (fun n => (n, match aget m n with Some v => ToJSONBytes v | None => "" end)) l) n
      = Some (ToJSONBytes v)) as Hl.
    { induction l as [|x l IH]; [by intros Hx%elem_of_nil|]. intros Hin. cbn [map aget].
      destruct (n =? x) eqn:Ex; [apply String.eqb_eq in Ex as <-; by rewrite Hs|].
      apply IH. apply elem_of_cons in Hin as [->|?]; [by rewrite String.eqb_refl in Ex|done]. }
    apply Hl. apply aget_Some_in in Hs. unfold akeys. apply list_elem_of_fmap. by exists (n, v).
  - apply elem_of_cons in Hc as [->|Hc]; [by rewrite String.eqb_refl in Eq|]. by eapply Hg.
Qed.

Record publishable (cfg : Config) (fs : fields) : Prop := {
  pb_document : EstablishDocument cfg = Ok fs;
  pb_well_formed : well_formed (JObj (("ok", JBool true) :: fs)) = true;
  pb_general : general_ints (General cfg);
  pb_client : int_ok (LifetimeClient (Auth cfg));
  pb_machine : int_ok (LifetimeMachine (Auth cfg));
  pb_versions : forall c, c ∈ akeys (Schemas cfg) -> int_ok (SchemaVersion (Some cfg) c);
}.

(** The stored text [raw] arrives as [sent], and the file written for it holds the
    same value. *)
Definition same_value (raw sent : string) : Prop :=
  exists v text, Unmarshal raw = Ok v /\ sent = ToJSONBytes v /\
    PrettyBytes (or_empty sent) = Ok text /\ ReadBytesNoSchema text = Ok v.

Lemma sorted_keys {A} (enc : A -> json) (l : list (string * A)) :
  well_formed (sorted_object (map (fun s => (fst s, enc (snd s))) l)) = true -> NoDup (akeys l).
Proof.
  unfold sorted_object. intros [Hnd _]%well_formed_obj. unfold akeys in *.
  rewrite (merge_sort_Permutation key_le), map_map in Hnd. done.
Qed.

Lemma published_parts cfg fs root :
  publishable cfg fs -> root = sorted_object (("ok", JBool true) :: fs) ->
  decodes "general" (rawJSONField root "general") general_of_json (eq (General cfg)) /\
  decodes "servers" (rawJSONField root "servers") servers_of_json (fun l => l ≡ₚ Servers cfg) /\
  decodes "shardMap" (rawJSONField root "shardMap") shardmap_of_json (fun m =>
    match m, ShardMap cfg with Some l', Some l => l' ≡ₚ l | None, None => True | _, _ => False end) /\
  decodes "auth" (rawJSONField root "auth") auth_of_json (eq (Auth cfg)).
Proof.
  intros [Hd Hw Hg Hcl Hma _] ->. unfold EstablishDocument in Hd.
  destruct (raw_values (Schemas cfg) _) as [schemas|]; [|done]. destruct (raw_searches (Searches cfg)) as [searches|]; [|done].
  injection Hd as <-. unfold rawJSONField. rewrite !sorted_object_get by done. cbn [aget String.eqb Ascii.eqb Bool.eqb].
  pose proof (well_formed_get _ "general" _ Hw eq_refl) as W1. pose proof (well_formed_get _ "servers" _ Hw eq_refl) as W2.
  pose proof (well_formed_get _ "shardMap" _ Hw eq_refl) as W3. pose proof (well_formed_get _ "auth" _ Hw eq_refl) as W4.
  split_and!.
  - by eapply wrapped_decodes; [done|done|by apply general_roundtrip|].
  - destruct (struct_map_roundtrip (fun s => JObj [("baseURL", JStr (BaseURL s))]) server_of_json
      [("servers", servers_json (Servers cfg))] "servers" (Servers cfg)) as (l' & Hl & Hp);
      [apply server_roundtrip|by apply (sorted_keys (fun s => JObj [("baseURL", JStr (BaseURL s))]))|done|].
    eapply wrapped_decodes; [done|done| |exact Hp]. unfold servers_of_json. cbn [struct_value result_bind]. by rewrite Hl.
  - destruct (ShardMap cfg) as [l|] eqn:Em; [|by eapply (wrapped_decodes _ _ _ _ None)].
    destruct (struct_map_roundtrip assignment_json assignment_of_json
      [("default", sorted_object (map (fun s => (fst s, assignment_json (snd s))) l))] "default" l) as (l' & Hl & Hp);
      [apply assignment_roundtrip|by apply (sorted_keys assignment_json), (well_formed_get _ "default" _ W3)|done|].
    eapply (wrapped_decodes _ _ _ _ (Some l')); [done|done| |exact Hp].
    unfold shardmap_of_json. cbn [struct_value struct_field result_bind Get aget String.eqb Ascii.eqb Bool.eqb]. exact Hl.
  - by eapply wrapped_decodes; [done|done|by apply auth_roundtrip|].
Qed.

Lemma same_value_of raw v :
  well_formed v = true -> Unmarshal raw = Ok v -> same_value raw (ToJSONBytes v).
Proof. intros Hv Hu. destruct (raw_text_read v Hv) as (text & Ht & Hr). by exists v, text. Qed.

Lemma published_schemas cfg fs root :
  publishable cfg fs -> root = sorted_object (("ok", JBool true) :: fs) ->
  exists keys r, ObjectFieldKeys (Get root "schemas") = Ok keys /\ schema_entries (Get root "schemas") keys = Ok r /\
    forall c raw, aget (Schemas cfg) c = Some raw ->
      exists sent, aget r c = Some (SchemaVersion (Some cfg) c, sent) /\ same_value raw sent.
Proof.
  intros [Hd Hw _ _ _ Hv] ->. unfold EstablishDocument in Hd.
  destruct (raw_values (Schemas cfg) _) as [schemas|] eqn:Es; [|done].
  destruct (raw_searches (Searches cfg)) as [searches|]; [|done]. injection Hd as <-.
  rewrite !sorted_object_get by done. cbn [aget String.eqb Ascii.eqb Bool.eqb].
  pose proof (well_formed_get _ "schemas" _ Hw eq_refl) as W. apply raw_values_get in Es as [Hk Hg].
  unfold sorted_object in *. set (m := merge_sort key_le schemas) in *.
  assert (m ≡ₚ schemas) as Hp by apply merge_sort_Permutation.
  assert (forall k, aget m k = aget schemas k) as Hm.
  { intros k. apply aget_perm; [by apply well_formed_obj in W as []|done]. }
  assert (forall c, c ∈ akeys m -> c ∈ akeys (Schemas cfg)) as Hin.
  { intros c. unfold akeys in *. by rewrite Hp, Hk. }
  destruct (schema_entries_get m (SchemaVersion (Some cfg)) (akeys m)) as (r & Hr & Hgr).
  { intros k Hkm%Hin. split; [by apply Hv|]. apply list_elem_of_fmap in Hkm as ([k' raw] & -> & Hin').
    destruct (aget (Schemas cfg) k') as [raw'|] eqn:Ea; [|apply aget_None_notin in Ea; exfalso; apply Ea, list_elem_of_fmap; by exists (k', raw)].
    destruct (Hg k' raw' Ea) as (v & _ & Hv'). exists v. by rewrite Hm. }
  exists (akeys m), r. split_and!; [done|done|]. intros c raw Hc. destruct (Hg c raw Hc) as (v & Hu & Ha).
  rewrite <-Hm in Ha. exists (ToJSONBytes v). split.
  - eapply Hgr; [|exact Ha]. apply aget_Some_in in Ha. apply list_elem_of_fmap. by eexists (_, _).
  - apply same_value_of; [|done]. apply (well_formed_get _ _ _ W) in Ha. by apply (well_formed_get _ "schema" _ Ha).
Qed.

Lemma published_searches cfg fs root :
  publishable cfg fs -> root = sorted_object (("ok", JBool true) :: fs) ->
  exists keys r, ObjectFieldKeys (Get root "searches") = Ok keys /\ search_entries (Get root "searches") keys = Ok r /\
    forall c byName n raw, aget (Searches cfg) c = Some byName -> aget byName n = Some raw ->
      exists sent, aget (inner r c) n = Some sent /\ same_value raw sent.
Proof.
  intros [Hd Hw _ _ _ _] ->. unfold EstablishDocument in Hd.
  destruct (raw_values (Schemas cfg) _) as [schemas|]; [|done].
  destruct (raw_searches (Searches cfg)) as [searches|] eqn:Es; [|done]. injection Hd as <-.
  rewrite !sorted_object_get by done. cbn [aget String.eqb Ascii.eqb Bool.eqb].
  pose proof (well_formed_get _ "searches" _ Hw eq_refl) as W. apply raw_searches_get in Es as (_ & Ho & Hg).
  unfold sorted_object at 1 2. unfold sorted_object in W. set (m := merge_sort key_le searches) in *.
  assert (m ≡ₚ searches) as Hp by apply merge_sort_Permutation.
  assert (forall k, aget m k = aget searches k) as Hm.
  { intros k. apply aget_perm; [by apply well_formed_obj in W as []|done]. }
  destruct (search_entries_get m (akeys m)) as (r & Hr & Hgr).
  { intros k Hk. rewrite Hm. apply Ho. unfold akeys in *. by rewrite <-Hp. }
  exists (akeys m), r. split_and!; [done|done|]. intros c byName n raw Hc Hn.
  destruct (Hg c byName Hc) as (im & Ha & Hi). rewrite <-Hm in Ha. apply raw_values_get in Hi as [_ Hi].
  destruct (Hi n raw Hn) as (v & Hu & Hv). pose proof (well_formed_get _ _ _ W Ha) as Wim.
  assert (well_formed (JObj im) = true) as Wi.
  { unfold sorted_object in Wim. apply well_formed_obj in Wim as [Hnd Hall]. apply well_formed_obj.
    pose proof (merge_sort_Permutation key_le im) as Hpi. split; [unfold akeys in *|]; by rewrite <-Hpi. }
  exists (ToJSONBytes v). split; [|by apply same_value_of; [apply (well_formed_get _ _ _ Wi Hv)|]].
  eapply Hgr; [|exact Ha|done|done]. apply aget_Some_in in Ha. apply list_elem_of_fmap. by eexists (_, _).
Qed.

(** C18: the document the establishment server prints can be read by every server
    that fetches it, and each file the server writes from it decodes to what the
    establishment server has: the general settings and the keys as they are, the
    servers and the shard map up to order, every schema with its version and every
    search with the value of its stored text. *)
Theorem establish_roundtrip cfg fs :
  publishable cfg fs ->
  exists body doc, establish_body cfg = Ok body /\ parseEstablishResponse body = Ok doc /\ ErOK doc = true /\
    decodes "general" (ErGeneral doc) general_of_json (eq (General cfg)) /\
    decodes "servers" (ErServers doc) servers_of_json (fun l => l ≡ₚ Servers cfg) /\
    decodes "shardMap" (ErShardMap doc) shardmap_of_json (fun m =>
      match m, ShardMap cfg with Some l', Some l => l' ≡ₚ l | None, None => True | _, _ => False end) /\
    decodes "auth" (ErAuth doc) auth_of_json (eq (Auth cfg)) /\
    (forall c raw, aget (Schemas cfg) c = Some raw -> exists sent,
       aget (ErSchemas doc) c = Some (SchemaVersion (Some cfg) c, sent) /\ same_value raw sent) /\
    (forall c byName n raw, aget (Searches cfg) c = Some byName -> aget byName n = Some raw -> exists sent,
       aget (inner (ErSearches doc) c) n = Some sent /\ same_value raw sent).
Proof.
  intros Hpub. pose proof Hpub as [Hd Hw _ _ _ _]. set (root := sorted_object (("ok", JBool true) :: fs)).
  destruct (published_schemas cfg fs root Hpub eq_refl) as (keys & r & Hk & Hr & Hgr).
  destruct (published_searches cfg fs root Hpub eq_refl) as (skeys & sr & Hsk & Hsr & Hgs).
  destruct (published_parts cfg fs root Hpub eq_refl) as (P1 & P2 & P3 & P4).
  exists (Encode root). unfold establish_body, parseEstablishResponse. rewrite Hd. cbn [result_bind].
  rewrite read_encode by by apply sorted_object_well_formed. cbn [result_bind].
  assert (Get root "ok" = Some (JBool true)) as Hok by by apply sorted_object_get.
  change root with (JObj (merge_sort key_le (("ok", JBool true) :: fs))) at 2. cbv iota.
  fold root. rewrite Hok. cbn [negb]. rewrite Hk. cbn [result_bind]. rewrite Hr. cbn [result_bind]. rewrite Hsk.
  cbn [result_bind]. rewrite Hsr. cbn [result_bind]. eexists. split; [done|]. split; [done|]. by split_and!.
Qed.
End document.

(** ** The refresh loop *)

Section refresh.
Context `{Env} `{GoTables} `{OJSON} `{GoJSON} `{EstNet}.

(** The result of the refresh number [j] of a run that starts in [s]. *)
Fixpoint refresh_result (w : Worker) (s : estate) (j : nat) : result unit :=
  match j with
  | O => fst (RefreshOnce w s)
  | S j' => refresh_result w (snd (RefreshOnce w s)) j'
  end.

(** The same sequence after [f] failures. *)
Definition succeeded (f : nat) (w : Worker) (s : estate) (j : nat) : bool :=
  if (j <? f)%nat then false else is_ok (refresh_result w s (j - f)).

Lemma succeeded_next f w s j :
  is_ok (fst (RefreshOnce w s)) = false -> succeeded (S f) w (snd (RefreshOnce w s)) j = succeeded f w s j.
Proof.
  intros Hr. unfold succeeded. destruct (Nat.ltb_spec j (S f)) as [L1|L1], (Nat.ltb_spec j f) as [L2|L2]; try done; try lia.
  - replace (j - f)%nat with O by lia. cbn [refresh_result]. by rewrite Hr.
  - replace (j - f)%nat with (S (j - S f))%nat by lia. done.
Qed.

Lemma succeeded_reset f w s j : succeeded f w s (S f + j) = succeeded 0 w (snd (RefreshOnce w s)) j.
Proof.
  unfold succeeded. destruct (Nat.ltb_spec (S f + j) f); [lia|].
  replace (S f + j - f)%nat with (S j) by lia. cbn [refresh_result Nat.ltb Nat.leb]. by rewrite Nat.sub_0_r.
Qed.

Lemma maxFailures_pos w : (0 < maxFailures w)%Z.
Proof. unfold maxFailures, defaultMaxFailures. destruct (0 <? EwMaxConsecutiveFailures w)%Z eqn:E; [by apply Z.ltb_lt|lia]. Qed.

Lemma run_loop_window w n : forall f s, (Z.of_nat f < maxFailures w)%Z ->
  let k := Z.to_nat (maxFailures w) in
  match fst (run_loop w (Z.of_nat f) (replicate n TickOrWake) s) with
  | Fatal _ => exists i, (i + k <= f + n)%nat /\ forall j, (i <= j < i + k)%nat -> succeeded f w s j = false
  | Waiting _ => forall i, (i + k <= f + n)%nat -> exists j, (i <= j < i + k)%nat /\ succeeded f w s j = true
  | Stopped => False
  end.
Proof.
  pose proof (maxFailures_pos w) as Hpos. induction n as [|n IH]; intros f s Hf k; cbn [replicate run_loop].
  { cbn. intros i Hi. unfold k in Hi. lia. }
  unfold mbind, EM_bind. pose proof (succeeded_next f w s) as Hnext. pose proof (succeeded_reset f w s) as Hreset.
  assert (succeeded f w s f = is_ok (fst (RefreshOnce w s))) as Hhere.
  { unfold succeeded. rewrite Nat.ltb_irrefl, Nat.sub_diag. done. }
  destruct (RefreshOnce w s) as [[u|e] s1]; cbn [fst snd is_ok] in *.
  - specialize (IH 0%nat s1 Hpos). fold k in IH. change (Z.of_nat 0) with 0%Z in IH.
    destruct (fst (run_loop w 0 (replicate n TickOrWake) s1)) as [|e|z]; [done| |].
    + destruct IH as (i & Hi & Hall). exists (S f + i)%nat. split; [lia|]. intros j Hj.
      replace j with (S f + (j - S f))%nat by lia. rewrite Hreset. apply Hall. lia.
    + intros i Hi. destruct (decide (i <= f)%nat) as [Hle|Hgt].
      * exists f. split; [unfold k in *; lia|done].
      * destruct (IH (i - S f)%nat) as (j & Hj & Hs); [lia|]. exists (S f + j)%nat. split; [lia|]. by rewrite Hreset.
  - destruct (maxFailures w <=? Z.of_nat f + 1)%Z eqn:Em; cbn [mret EM_ret fst].
    + apply Z.leb_le in Em. exists 0%nat. unfold k. split; [lia|]. intros j Hj.
      destruct (decide (j = f)) as [->|Hne]; [done|]. unfold succeeded. destruct (Nat.ltb_spec j f); [done|lia].
    + apply Z.leb_gt in Em. replace (Z.of_nat f + 1)%Z with (Z.of_nat (S f)) by lia. specialize (IH (S f) s1). fold k in IH.
      assert (Z.of_nat (S f) < maxFailures w)%Z as Hf' by lia. specialize (IH Hf').
      destruct (fst (run_loop w (Z.of_nat (S f)) (replicate n TickOrWake) s1)) as [|e'|z]; [done| |].
      * destruct IH as (i & Hi & Hall). exists i. split; [lia|]. intros j Hj. rewrite <-(Hnext j eq_refl). by apply Hall.
      * intros i Hi. destruct (IH i) as (j & Hj & Hs); [lia|]. exists j. split; [done|]. by rewrite <-(Hnext j eq_refl).
Qed.

(** C37: of any number of refreshes the loop gives up only when as many in a row
    failed as the worker tolerates, and it is still waiting only when every such
    stretch had a success. *)
Theorem Run_gives_up w n s :
  let k := Z.to_nat (maxFailures w) in
  match fst (Run w (replicate n TickOrWake) s) with
  | Fatal _ => exists i, (i + k <= n)%nat /\ forall j, (i <= j < i + k)%nat -> is_ok (refresh_result w s j) = false
  | Waiting _ => forall i, (i + k <= n)%nat -> exists j, (i <= j < i + k)%nat /\ is_ok (refresh_result w s j) = true
  | Stopped => False
  end.
Proof.
  pose proof (run_loop_window w n 0 s (maxFailures_pos w)) as Hr. cbv zeta in *. unfold Run.
  assert (forall j, succeeded 0 w s j = is_ok (refresh_result w s j)) as Hs.
  { intros j. unfold succeeded. cbn [Nat.ltb Nat.leb]. by rewrite Nat.sub_0_r. }
  change (Z.of_nat 0) with 0%Z in Hr. destruct (fst (run_loop w 0 (replicate n TickOrWake) s)); [done| |].
  - destruct Hr as (i & Hi & Hall). exists i. split; [done|]. intros j Hj. rewrite <-Hs. by apply Hall.
  - intros i Hi. destruct (Hr i Hi) as (j & Hj & Hok). exists j. by rewrite <-Hs.
Qed.
End refresh.
