(* ===== verification/Auth.v ===== *)
(** * Package auth: keys, tokens and their validation

    [internal/auth]: the key set of __auth.json, the issuer of tokens and the
    validator every server runs.  Signatures and the JSON Web Token format are the
    library [github.com/lestrrat-go/jwx], which is the class [JWX]; what the
    program relies on is [JWXLaws].  Ed25519 keys are their bytes: the second half
    of a private key is its public key.  Times are nanoseconds. *)

From S2P Require Import Prelude GoStrings Json Config.

(** ** encoding/base64, standard encoding with padding *)

Definition sextet_char (v : Z) : ascii :=
  if (v <? 26)%Z then of_byte (65 + v)
  else if (v <? 52)%Z then of_byte (71 + v)
  else if (v <? 62)%Z then of_byte (v - 4)
  else if (v =? 62)%Z then "+"%char else "/"%char.

Definition sextet_val (c : ascii) : option Z :=
  let b := byte_of c in
  if in_range 65 b 90 then Some (b - 65)%Z
  else if in_range 97 b 122 then Some (b - 71)%Z
  else if in_range 48 b 57 then Some (b + 4)%Z
  else if (b =? 43)%Z then Some 62%Z
  else if (b =? 47)%Z then Some 63%Z
  else None.

(** [EncodeToString]. *)
Fixpoint encode64 (s : string) : string :=
  match s with
  | "" => ""
  | String a "" =>
      let n := (byte_of a * 65536)%Z in
      String (sextet_char (n / 262144)) (String (sextet_char (n / 4096 mod 64)) "==")
  | String a (String b "") =>
      let n := (byte_of a * 65536 + byte_of b * 256)%Z in
      String (sextet_char (n / 262144)) (String (sextet_char (n / 4096 mod 64))
        (String (sextet_char (n / 64 mod 64)) "="))
  | String a (String b (String c s')) =>
      let n := (byte_of a * 65536 + byte_of b * 256 + byte_of c)%Z in
      String (sextet_char (n / 262144)) (String (sextet_char (n / 4096 mod 64))
        (String (sextet_char (n / 64 mod 64)) (String (sextet_char (n mod 64)) (encode64 s'))))
  end.

(** The decoder leaves line ends out wherever they stand. *)
Fixpoint no_newlines (s : string) : string :=
  match s with
  | "" => ""
  | String c s' =>
      if (byte_of c =? 10)%Z || (byte_of c =? 13)%Z then no_newlines s' else String c (no_newlines s')
  end.

Fixpoint decode_quanta (s : string) : option string :=
  match s with
  | "" => Some ""
  | String a (String b (String c (String d s'))) =>
      match sextet_val a, sextet_val b with
      | Some va, Some vb =>
          let first := of_byte ((va * 4 + vb / 16) mod 256) in
          if Ascii.eqb c "=" then
            if Ascii.eqb d "=" && (s' =? "") then Some (String first "") else None
          else
            match sextet_val c with
            | None => None
            | Some vc =>
                let second := of_byte ((vb * 16 + vc / 4) mod 256) in
                if Ascii.eqb d "=" then
                  if s' =? "" then Some (String first (String second "")) else None
                else
                  match sextet_val d with
                  | None => None
                  | Some vd =>
                      let third := of_byte ((vc * 64 + vd) mod 256) in
                      match decode_quanta s' with
                      | Some rest => Some (String first (String second (String third rest)))
                      | None => None
                      end
                  end
            end
      | _, _ => None
      end
  | _ => None
  end.

(** [DecodeString]. *)
Definition decode64 (s : string) : result string :=
  match decode_quanta (no_newlines s) with
  | Some d => Ok d
  | None => Err (errorf "illegal base64 data")
  end.

(** ** Claims *)

Definition KindClient : string := "client".
Definition KindMachine : string := "machine".
Definition KindAdmin : string := "admin".

Definition ClaimKind : string := "datoriumdb.kind".
Definition ClaimServerName : string := "datoriumdb.serverName".

Record Claims := mkClaims {
  ClSubject : string;
  ClKind : string;
  ClServerName : string;
  ClIssuer : string;
  ClAudience : list string;
  ClIssuedAt : Z;
  ClExpiresAt : Z;
}.

(** [auth.Error]. *)
Record AuthError := mkAuthError { AeCode : string; AeMessage : string }.

Definition errUnauthenticated (msg : string) : AuthError := mkAuthError "unauthenticated" msg.
Definition errInvalidToken (msg : string) : AuthError := mkAuthError "invalidToken" msg.
Definition errTokenExpired (msg : string) : AuthError := mkAuthError "tokenExpired" msg.
Definition errMachineIdentityMismatch (msg : string) : AuthError := mkAuthError "machineIdentityMismatch" msg.
Definition errAdminRequired (msg : string) : AuthError := mkAuthError "adminRequired" msg.

(** ** The token library *)

(** The claims of a token: registered ones that may be absent, and private ones. *)
Record token := mkToken {
  TkIssuer : option string;
  TkAudience : option (list string);
  TkSubject : option string;
  TkIssuedAt : option Z;
  TkExpiration : option Z;
  TkPrivate : fields;
}.

(** A refusal of [jwt.Parse]: whether it [errors.Is] [jwt.TokenExpiredError], and
    its text. *)
Record ParseError := mkParseError { PeExpired : bool; PeText : string }.

Class JWX := {
  jwk : Type;
  jwk_set : Type;
  NewSet : jwk_set;
  ImportPublic : string -> result jwk;
  ImportPrivate : string -> result jwk;
  SetKeyID : jwk -> string -> result jwk;
  SetAlgorithm : jwk -> string -> result jwk;
  AddKey : jwk_set -> jwk -> result jwk_set;
  BuildToken : token -> result unit;
  SignToken : token -> jwk -> result string;
  ParseJWT : string -> jwk_set -> string -> string -> Z -> ParseError + token;
}.

Definition nanoseconds : Z := 1000000000.

(** Tokens carry their times in whole seconds. *)
Definition whole (t : Z) : Z := (t / nanoseconds * nanoseconds)%Z.
Definition in_seconds (t : token) : token :=
  mkToken (TkIssuer t) (TkAudience t) (TkSubject t) (whole <$> TkIssuedAt t) (whole <$> TkExpiration t)
    (TkPrivate t).

(** [ed25519.PrivateKey.Public]. *)
Definition PublicOf (priv : string) : string := str_drop 32 priv.

(** [set] is the new set with the public keys [keys] added under their identifiers. *)
Inductive built `{JWX} : list (string * string) -> jwk_set -> Prop :=
| built_new : built [] NewSet
| built_add keys set kid pub k1 k2 k3 set' :
    built keys set -> ImportPublic pub = Ok k1 -> SetKeyID k1 kid = Ok k2 ->
    SetAlgorithm k2 "EdDSA" = Ok k3 -> AddKey set k3 = Ok set' -> built (keys ++ [(kid, pub)]) set'.

(** What the documentation of the library promises: a public key is accepted with
    its identifier and its algorithm and can be added to a set that has no key of
    that identifier; the compact form of a signed token is graphic ASCII; a token
    signed with a private key is accepted, with the claims it was signed with, by a
    set that has the public key under the signer's identifier, when issuer and
    audience fit and the time lies between issue and expiry; and whoever accepts a
    signed text sees the claims that were signed. *)
Class JWXLaws `{JWX} : Prop := {
  public_imported keys set kid pub :
    built keys set -> kid ∉ map fst keys -> String.length pub = 32 ->
    exists k1 k2 k3 set', ImportPublic pub = Ok k1 /\ SetKeyID k1 kid = Ok k2 /\
      SetAlgorithm k2 "EdDSA" = Ok k3 /\ AddKey set k3 = Ok set';
  signed_compact tok key raw : SignToken tok key = Ok raw -> raw <> "" /\ str_all graphic raw = true;
  parse_signed priv kid k1 k2 tok raw keys set iss aud auds iat exp now :
    ImportPrivate priv = Ok k1 -> SetKeyID k1 kid = Ok k2 -> SignToken tok k2 = Ok raw ->
    built keys set -> NoDup (map fst keys) -> (kid, PublicOf priv) ∈ keys ->
    TkIssuer tok = Some iss -> TkAudience tok = Some auds -> aud ∈ auds ->
    TkIssuedAt tok = Some iat -> TkExpiration tok = Some exp ->
    (whole iat <= whole now < whole exp)%Z ->
    ParseJWT raw set iss aud now = inr (in_seconds tok);
  parse_faithful tok key raw set iss aud now tok' :
    SignToken tok key = Ok raw -> ParseJWT raw set iss aud now = inr tok' -> tok' = in_seconds tok;
}.

(** ** Keys *)

Section keys.
Context `{JWX}.

Definition PublicKeySize : nat := 32.

Definition decodePublicKey (k : AuthKey) : result jwk :=
  if Kid k =? "" then Err (errorf "kid is required")
  else if Alg k <>? "EdDSA" then Err (errorf "unsupported alg (only EdDSA is supported)")
  else
    match decode64 (PublicKey k) with
    | Err _ => Err (errorf "invalid publicKey base64")
    | Ok raw =>
        if negb (String.length raw =? PublicKeySize)%nat then Err (errorf "invalid ed25519 public key length")
        else
          result_bind (ImportPublic raw) (fun key =>
          result_bind (SetKeyID key (Kid k)) (fun key => SetAlgorithm key "EdDSA"))
    end.

Fixpoint add_keys (keys : list AuthKey) (set : jwk_set) (haveActive : bool) : result (jwk_set * bool) :=
  match keys with
  | [] => Ok (set, haveActive)
  | k :: keys' =>
      result_bind (decodePublicKey k) (fun key =>
      result_bind (AddKey set key) (fun set' =>
      add_keys keys' set' (haveActive || (Status k =? "active"))))
  end.

Definition buildKeySet (a : AuthBody) : result jwk_set :=
  match Keys a with
  | [] => Err (errorf "auth: no signing keys configured in __auth.json")
  | keys =>
      result_bind (add_keys keys NewSet false) (fun r =>
      if snd r then Ok (fst r) else Err (errorf "auth: no active signing key configured in __auth.json"))
  end.

Definition EncodePublicKey (pub : string) : string := encode64 pub.

Fixpoint find_active (keys : list AuthKey) (pub : string) : result string :=
  match keys with
  | [] => Err (errorf "signing key does not match any active key in __auth.json")
  | k :: keys' =>
      if (Status k <>? "active") || (Alg k <>? "EdDSA") then find_active keys' pub
      else
        match decode64 (PublicKey k) with
        | Err _ => find_active keys' pub
        | Ok raw =>
            if negb (String.length raw =? PublicKeySize)%nat then find_active keys' pub
            else if raw =? pub then Ok (Kid k) else find_active keys' pub
        end
  end.

Definition findActiveKidForPublicKey (a : AuthBody) (pub : string) : result string := find_active (Keys a) pub.

(** ** Issuing *)

Record TokenIssuer := mkIssuer {
  IsPrivateKey : string;
  IsKid : string;
  IsIssuer : string;
  IsAudience : string;
  IsClientLifetime : Z;
  IsMachineLifetime : Z;
}.

Definition defaultTokenLifetime : Z := (3600 * nanoseconds)%Z.

Definition lifetimeOrDefault (seconds : Z) : Z :=
  if (seconds <=? 0)%Z then defaultTokenLifetime else wrap64 (seconds * nanoseconds).

Definition NewIssuer (cfg : AuthBody) (priv : string) : result TokenIssuer :=
  result_bind (findActiveKidForPublicKey cfg (PublicOf priv)) (fun kid =>
  if Issuer cfg =? "" then Err (errorf "auth: __auth.json auth.issuer is required")
  else if Audience cfg =? "" then Err (errorf "auth: __auth.json auth.audience is required")
  else Ok (mkIssuer priv kid (Issuer cfg) (Audience cfg)
             (lifetimeOrDefault (LifetimeClient cfg)) (lifetimeOrDefault (LifetimeMachine cfg)))).

(** The token [issue] builds. *)
Definition issued_token (i : TokenIssuer) (now : Z) (kind subject serverName : string) (lifetime : Z) : token :=
  mkToken (Some (IsIssuer i)) (Some [IsAudience i]) (Some subject) (Some now) (Some (now + lifetime)%Z)
    ((ClaimKind, JStr kind) :: if serverName =? "" then [] else [(ClaimServerName, JStr serverName)]).

(** [issue] at the time [now]: the token and its lifetime. *)
Definition issue (i : TokenIssuer) (now : Z) (kind subject serverName : string) (lifetime : Z)
    : result (string * Z) :=
  let tok := issued_token i now kind subject serverName lifetime in
  match BuildToken tok with
  | Err e => Err (errorf ("auth: build token: " +:+ err_msg e))
  | Ok _ =>
      match ImportPrivate (IsPrivateKey i) with
      | Err e => Err (errorf ("auth: import signing key: " +:+ err_msg e))
      | Ok key =>
          match SetKeyID key (IsKid i) with
          | Err e => Err (errorf ("auth: set kid: " +:+ err_msg e))
          | Ok key =>
              match SignToken tok key with
              | Err e => Err (errorf ("auth: sign token: " +:+ err_msg e))
              | Ok signed => Ok (signed, lifetime)
              end
          end
      end
  end.

Definition IssueClientToken (i : TokenIssuer) (now : Z) (subject : string) (lifetime : Z)
    : result (string * Z) :=
  if subject =? "" then Err (errorf "auth: client token subject is required")
  else issue i now KindClient subject "" (if (lifetime <=? 0)%Z then IsClientLifetime i else lifetime).

Definition IssueAdminToken (i : TokenIssuer) (now : Z) (subject : string) (lifetime : Z)
    : result (string * Z) :=
  if subject =? "" then Err (errorf "auth: admin token subject is required")
  else issue i now KindAdmin subject "" (if (lifetime <=? 0)%Z then IsClientLifetime i else lifetime).

Definition IssueMachineToken (i : TokenIssuer) (now : Z) (serverName : string) (lifetime : Z)
    : result (string * Z) :=
  if serverName =? "" then Err (errorf "auth: machine token serverName is required")
  else issue i now KindMachine serverName serverName
         (if (lifetime <=? 0)%Z then IsMachineLifetime i else lifetime).

(** [replication.IssuerTokenSource]: the token of a server that holds the key. *)
Record IssuerTokenSource := mkTokenSource { TsIssuer : TokenIssuer; TsServerName : string }.

Definition SourceToken (s : IssuerTokenSource) (now : Z) : result string :=
  result_bind (IssueMachineToken (TsIssuer s) now (TsServerName s) 0) (fun r => Ok (fst r)).

(** ** Validating *)

Record Validator := mkValidator {
  VaIssuer : string;
  VaAudience : string;
  VaKeySet : jwk_set;
}.

Definition NewValidator (cfg : AuthBody) : result Validator :=
  result_bind (buildKeySet cfg) (fun set =>
  if Issuer cfg =? "" then Err (errorf "auth: __auth.json auth.issuer is required")
  else if Audience cfg =? "" then Err (errorf "auth: __auth.json auth.audience is required")
  else Ok (mkValidator (Issuer cfg) (Audience cfg) set)).

(** [tok.Get] into a string. *)
Definition string_claim (tok : token) (name : string) : option string :=
  match aget (TkPrivate tok) name with Some (JStr s) => Some s | _ => None end.

(** The zero [time.Time] is the 0 of a missing time. *)
Definition ParseToken (v : Validator) (now : Z) (raw : string) : AuthError + Claims :=
  match ParseJWT raw (VaKeySet v) (VaIssuer v) (VaAudience v) now with
  | inl e =>
      if PeExpired e then inl (errTokenExpired "token is expired") else inl (errInvalidToken (PeText e))
  | inr tok =>
      let claims kind serverName :=
        mkClaims (default "" (TkSubject tok)) kind serverName (default "" (TkIssuer tok))
          (default [] (TkAudience tok)) (default 0%Z (TkIssuedAt tok)) (default 0%Z (TkExpiration tok)) in
      match string_claim tok ClaimKind with
      | None => inl (errInvalidToken ("token is missing the " +:+ ClaimKind +:+ " claim"))
      | Some kind =>
          if kind =? KindMachine then
            match string_claim tok ClaimServerName with
            | None | Some "" => inl (errInvalidToken ("machine token is missing the " +:+ ClaimServerName +:+ " claim"))
            | Some serverName => inr (claims kind serverName)
            end
          else if (kind =? KindClient) || (kind =? KindAdmin) then inr (claims kind "")
          else inl (errInvalidToken ("token has an unknown " +:+ ClaimKind +:+ " claim: " +:+ kind))
      end
  end.

(** The token of an Authorization header, or what is wrong with the header. *)
Definition bearer (headerValue : string) : AuthError + string :=
  let headerValue := TrimSpace headerValue in
  if headerValue =? "" then inl (errUnauthenticated "missing Authorization header")
  else if negb (HasPrefix headerValue "Bearer ") then
    inl (errUnauthenticated "Authorization header must use the Bearer scheme")
  else
    let raw := TrimSpace (str_drop 7 headerValue) in
    if raw =? "" then inl (errUnauthenticated "missing bearer token") else inr raw.

Definition ParseBearer (v : Validator) (now : Z) (headerValue : string) : AuthError + Claims :=
  match bearer headerValue with inl e => inl e | inr raw => ParseToken v now raw end.
End keys.

Definition RequireAdmin (claims : Claims) : option AuthError :=
  if ClKind claims <>? KindAdmin then Some (errAdminRequired "this endpoint requires an admin token") else None.

Definition RequireMachine (claims : Claims) (serverName : string) : option AuthError :=
  if ClKind claims <>? KindMachine then
    Some (errMachineIdentityMismatch "this endpoint requires a machine token")
  else if (serverName <>? "") && (ClServerName claims <>? serverName) then
    Some (errMachineIdentityMismatch "authenticated server name does not match the requested server name")
  else None.
