(* ===== verification/AuthSpec.v ===== *)
(** * Tokens: what the validator accepts of what the issuer signs

    Base64 reads back what it wrote, a validated list of keys builds the set the
    validator needs, and a token signed with an active key is accepted by every
    server until it expires, with the identity it was issued for. *)

From S2P Require Import Prelude GoStrings Json Config Auth.

(** ** Base64 *)

Lemma of_byte_of c : of_byte (byte_of c) = c.
Proof. unfold of_byte, byte_of. rewrite N2Z.id. apply Ascii.ascii_N_embedding. Qed.

Lemma byte_bound c : (0 <= byte_of c < 256)%Z.
Proof. unfold byte_of. pose proof (Ascii.N_ascii_bounded c). lia. Qed.

Definition sextets : list Z := map Z.of_nat (seq 0 64).

Lemma sextets_in v : (0 <= v < 64)%Z -> v ∈ sextets.
Proof.
  intros Hv. apply list_elem_of_In, in_map_iff. exists (Z.to_nat v). split; [lia|]. apply in_seq. lia.
Qed.

(** A character of the alphabet stands for its value, and is neither the padding
    nor a line end. *)
Definition reads (v : Z) : Prop :=
  sextet_val (sextet_char v) = Some v /\ Ascii.eqb (sextet_char v) "=" = false /\
  ((byte_of (sextet_char v) =? 10)%Z || (byte_of (sextet_char v) =? 13)%Z = false).

Lemma sextet_read v : (0 <= v < 64)%Z -> reads v.
Proof.
  intros Hv%sextets_in. assert (Forall reads sextets) as Hall.
  { unfold reads. apply (bool_decide_eq_true_1 _). vm_compute. reflexivity. }
  rewrite Forall_forall in Hall. by apply Hall.
Qed.

(** Strings by groups of three bytes. *)
Lemma triples_ind (P : string -> Prop) :
  P "" -> (forall a, P (String a "")) -> (forall a b, P (String a (String b ""))) ->
  (forall a b c s, P s -> P (String a (String b (String c s)))) -> forall s, P s.
Proof.
  intros P0 P1 P2 P3. fix IH 1. intros [|a [|b [|c s]]]; [apply P0|apply P1|apply P2|apply P3, IH].
Qed.

Lemma group_bounds a b c :
  (0 <= a < 256 -> 0 <= b < 256 -> 0 <= c < 256 ->
   let n := a * 65536 + b * 256 + c in
   0 <= n / 262144 < 64 /\ 0 <= n / 4096 mod 64 < 64 /\ 0 <= n / 64 mod 64 < 64 /\ 0 <= n mod 64 < 64)%Z.
Proof.
  intros Ha Hb Hc n. repeat split; try (apply Z.mod_pos_bound; lia); unfold n.
  - apply Z.div_pos; lia.
  - apply Z.div_lt_upper_bound; lia.
Qed.

Lemma group_bytes a b c :
  (0 <= a < 256 -> 0 <= b < 256 -> 0 <= c < 256 ->
   let n := a * 65536 + b * 256 + c in
   (n / 262144 * 4 + n / 4096 mod 64 / 16) mod 256 = a /\
   (n / 4096 mod 64 * 16 + n / 64 mod 64 / 4) mod 256 = b /\
   (n / 64 mod 64 * 64 + n mod 64) mod 256 = c)%Z.
Proof.
  intros Ha Hb Hc n. unfold n.
  repeat split; Z.to_euclidean_division_equations; lia.
Qed.

(** What the decoder sees of one group. *)
Lemma read_group a b c :
  let n := (byte_of a * 65536 + byte_of b * 256 + byte_of c)%Z in
  reads (n / 262144) /\ reads (n / 4096 mod 64) /\ reads (n / 64 mod 64) /\ reads (n mod 64) /\
  of_byte ((n / 262144 * 4 + n / 4096 mod 64 / 16) mod 256) = a /\
  of_byte ((n / 4096 mod 64 * 16 + n / 64 mod 64 / 4) mod 256) = b /\
  of_byte ((n / 64 mod 64 * 64 + n mod 64) mod 256) = c.
Proof.
  intros n. destruct (group_bounds _ _ _ (byte_bound a) (byte_bound b) (byte_bound c)) as (B1 & B2 & B3 & B4).
  destruct (group_bytes _ _ _ (byte_bound a) (byte_bound b) (byte_bound c)) as (E1 & E2 & E3).
  fold n in B1, B2, B3, B4, E1, E2, E3. rewrite E1, E2, E3, !of_byte_of.
  by repeat (split; [by apply sextet_read|]).
Qed.

(** Base64 text reads back as the bytes it was made from. *)
Lemma decode64_encode64 s : decode64 (encode64 s) = Ok s.
Proof.
  unfold decode64. assert (decode_quanta (no_newlines (encode64 s)) = Some s) as ->; [|done].
  induction s as [|a|a b|a b c s IH] using triples_ind; [done|..]; cbn [encode64].
  - destruct (read_group a (Ascii.ascii_of_nat 0) (Ascii.ascii_of_nat 0))
      as ((V1 & _ & N1) & (V2 & _ & N2) & _ & _ & E1 & _ & _).
    change (byte_of (Ascii.ascii_of_nat 0)) with 0%Z in *. rewrite Z.mul_0_l, !Z.add_0_r in *.
    cbn [no_newlines]. rewrite N1, N2. cbn [orb decode_quanta no_newlines]. rewrite V1, V2. cbn. by rewrite E1.
  - destruct (read_group a b (Ascii.ascii_of_nat 0))
      as ((V1 & _ & N1) & (V2 & _ & N2) & (V3 & P3 & N3) & _ & E1 & E2 & _).
    change (byte_of (Ascii.ascii_of_nat 0)) with 0%Z in *. rewrite !Z.add_0_r in *.
    cbn [no_newlines]. rewrite N1, N2, N3. cbn [orb decode_quanta no_newlines]. rewrite V1, V2, P3, V3. cbn.
    by rewrite E1, E2.
  - destruct (read_group a b c)
      as ((V1 & _ & N1) & (V2 & _ & N2) & (V3 & P3 & N3) & (V4 & P4 & N4) & E1 & E2 & E3).
    cbn [no_newlines]. rewrite N1, N2, N3, N4. cbn [orb decode_quanta]. rewrite V1, V2, P3, V3, P4, V4, IH.
    by rewrite E1, E2, E3.
Qed.

(** ** The key set of a validated configuration *)

(** A key the validator can use: an Ed25519 public key in base64. *)
Definition key_bytes (k : AuthKey) : string :=
  match decode64 (PublicKey k) with Ok raw => raw | Err _ => "" end.

Definition usable (k : AuthKey) : Prop :=
  Alg k = "EdDSA" /\ decode64 (PublicKey k) = Ok (key_bytes k) /\ String.length (key_bytes k) = 32.

(** What [EncodePublicKey] writes is usable. *)
Lemma EncodePublicKey_usable kid status pub :
  String.length pub = 32 -> usable (mkAuthKey kid "EdDSA" status (EncodePublicKey pub)).
Proof. intros Hl. unfold usable, key_bytes. cbn. by rewrite decode64_encode64. Qed.

Definition entry_of_key (k : AuthKey) : string * string := (Kid k, key_bytes k).

Lemma containsString_not_elem l x : containsString l x = false -> x ∉ l.
Proof.
  unfold containsString. intros Hf Hx%list_elem_of_In. apply not_true_iff_false in Hf. apply Hf.
  apply existsb_exists. exists x. split; [done|]. apply String.eqb_refl.
Qed.

Section validator.
Context `{GoTables} `{JWX, !JWXLaws}.

Lemma check_keys_distinct i seen keys :
  check_keys i seen keys = [] ->
  NoDup (map Kid keys) /\ (forall k, k ∈ keys -> Kid k <> "" /\ Kid k ∉ seen).
Proof.
  revert i seen. induction keys as [|k keys IH]; intros i seen; cbn [check_keys].
  { intros _. split; [constructor|]. intros k Hk. by apply not_elem_of_nil in Hk. }
  intros [Hkid [_ [_ [_ Hr]%app_nil]%app_nil]%app_nil]%app_nil.
  destruct (Kid k =? "") eqn:E; [done|]. destruct (containsString seen (Kid k)) eqn:Es; [done|].
  destruct (IH _ _ Hr) as [Hnd Hk]. split.
  - cbn. constructor; [|done]. intros (k' & Hx & Hin)%list_elem_of_In%in_map_iff.
    destruct (Hk k') as [_ Hn]; [by apply list_elem_of_In|]. apply Hn. rewrite Hx. left.
  - intros k' [->|Hin]%elem_of_cons; [split; [by apply String.eqb_neq|by apply containsString_not_elem]|].
    destruct (Hk k' Hin) as [Hne Hns]. split; [done|]. by intros Hs; apply Hns; right.
Qed.

Lemma decodePublicKey_usable keys set k :
  built keys set -> Kid k ∉ map fst keys -> Kid k <> "" -> usable k ->
  exists key set', decodePublicKey k = Ok key /\ AddKey set key = Ok set' /\ built (keys ++ [entry_of_key k]) set'.
Proof.
  intros Hb Hn Hk (Ha & Hd & Hl).
  destruct (public_imported keys set (Kid k) (key_bytes k) Hb Hn Hl) as (k1 & k2 & k3 & set' & I1 & I2 & I3 & I4).
  exists k3, set'. split; [|split; [done|by eapply built_add]].
  unfold decodePublicKey. rewrite (proj2 (String.eqb_neq _ _) Hk), Ha, Hd. cbn.
  rewrite Hl, I1. cbn [Nat.eqb PublicKeySize negb result_bind]. by rewrite I2.
Qed.

Lemma add_keys_built keys done set active :
  built done set -> NoDup (map fst done ++ map Kid keys) -> (forall k, k ∈ keys -> Kid k <> "") ->
  Forall usable keys ->
  exists set', add_keys keys set active = Ok (set', active || existsb (fun k => Status k =? "active") keys) /\
    built (done ++ map entry_of_key keys) set'.
Proof.
  revert done set active. induction keys as [|k keys IH]; intros done set active Hb Hnd Hk Hu; cbn [add_keys].
  { exists set. cbn. by rewrite orb_false_r, app_nil_r. }
  apply Forall_cons in Hu as [Hu Hus]. cbn [map] in Hnd.
  destruct (decodePublicKey_usable done set k Hb) as (key & set' & Hd & Ha & Hb'); [|apply Hk; left|done|].
  { apply NoDup_app in Hnd as (_ & Hn & _). intros Hin. apply (Hn _ Hin). left. }
  rewrite Hd. cbn [result_bind]. rewrite Ha. cbn [result_bind].
  destruct (IH (done ++ [entry_of_key k]) set' (active || (Status k =? "active")) Hb') as (set2 & Hr & Hb2).
  - rewrite map_app, <-app_assoc. done.
  - intros k' Hin. apply Hk. by right.
  - done.
  - exists set2. cbn [existsb map]. rewrite Hr, <-app_assoc in *. rewrite orb_assoc. by split.
Qed.

Lemma NewValidator_built a :
  validateAuth a = [] -> Forall usable (Keys a) ->
  exists v, NewValidator a = Ok v /\ VaIssuer v = Issuer a /\ VaAudience v = Audience a /\
    built (map entry_of_key (Keys a)) (VaKeySet v) /\ NoDup (map Kid (Keys a)).
Proof.
  unfold validateAuth. intros [Hi [Ha [Hl [Hk Hc]%app_nil]%app_nil]%app_nil]%app_nil Hu.
  destruct (Issuer a =? "") eqn:Ei; [done|]. destruct (Audience a =? "") eqn:Ea; [done|].
  apply check_keys_distinct in Hk as [Hnd Hne].
  destruct (add_keys_built (Keys a) [] NewSet false built_new Hnd (fun k Hin => proj1 (Hne k Hin)) Hu)
    as (set & Hr & Hb).
  assert (existsb (fun k => Status k =? "active") (Keys a) = true) as Hact.
  { destruct (existsb _ _) eqn:E; [done|]. exfalso. unfold ActiveKeyCount in Hc.
    assert (List.filter (fun k => Status k =? "active") (Keys a) = []) as Ef.
    { clear -E. induction (Keys a) as [|k l IH]; [done|]. cbn in *. apply orb_false_iff in E as [-> E]. auto. }
    rewrite Ef in Hc. destruct (Keys a); done. }
  exists (mkValidator (Issuer a) (Audience a) set).
  unfold NewValidator, buildKeySet. destruct (Keys a) as [|k l] eqn:Ek; [done|].
  rewrite Hr, Hact. cbn [result_bind snd fst orb]. by rewrite Ei, Ea.
Qed.

Lemma find_active_key keys pub kid :
  find_active keys pub = Ok kid -> exists k, k ∈ keys /\ Kid k = kid /\ key_bytes k = pub.
Proof.
  induction keys as [|k keys IH]; cbn [find_active]; [done|].
  assert (find_active keys pub = Ok kid -> exists k', k' ∈ k :: keys /\ Kid k' = kid /\ key_bytes k' = pub) as Hl.
  { intros (k' & ? & ?)%IH. exists k'. by split; [right|]. }
  destruct (_ || _); [done|]. destruct (decode64 (PublicKey k)) as [raw|] eqn:Ed; [|done].
  destruct (negb _); [done|]. destruct (raw =? pub) eqn:E; [|done].
  intros [= <-]. exists k. unfold key_bytes. rewrite Ed. split; [left|]. split; [done|]. by apply String.eqb_eq.
Qed.

(** ** Tokens *)

Lemma issue_signed i now kind subject serverName lifetime raw actual :
  issue i now kind subject serverName lifetime = Ok (raw, actual) ->
  actual = lifetime /\ exists k1 k2, ImportPrivate (IsPrivateKey i) = Ok k1 /\ SetKeyID k1 (IsKid i) = Ok k2 /\
    SignToken (issued_token i now kind subject serverName lifetime) k2 = Ok raw.
Proof.
  unfold issue. destruct (BuildToken _); [|done]. destruct (ImportPrivate _) as [k1|]; [|done].
  destruct (SetKeyID k1 _) as [k2|] eqn:Es; [|done]. destruct (SignToken _ k2) as [signed|] eqn:Eg; [|done].
  intros [= <- <-]. split; [done|]. by exists k1, k2.
Qed.

Lemma bearer_token raw :
  raw <> "" -> str_all graphic raw = true -> bearer ("Bearer " +:+ raw) = inr raw.
Proof.
  intros Hne Hg. unfold bearer.
  assert (exists m d, raw = m +:+ String d "" /\ graphic d = true) as (m & d & -> & Hd).
  { clear -Hne Hg. induction raw as [|c raw IH]; [done|]. cbn in Hg. apply andb_true_iff in Hg as [Hc Hr].
    destruct raw as [|c' raw]; [by exists "", c|]. destruct IH as (m & d & E & Hd); [done|done|].
    exists (String c m), d. by rewrite E. }
  change ("Bearer " +:+ (m +:+ String d "")) with (String "B" (("earer " +:+ m) +:+ String d "")).
  rewrite TrimSpace_between by done. cbn -[TrimSpace str_drop].
  change (str_drop 7 _) with (str_drop 0 (m +:+ String d "")).
  replace (str_drop 0 (m +:+ String d "")) with (m +:+ String d "") by (by destruct m).
  rewrite TrimSpace_graphic by done.
  by destruct m.
Qed.

(** The identity a fresh token gives its holder. *)
Lemma issued_claims v i now kind subject serverName lifetime later raw :
  ParseJWT raw (VaKeySet v) (VaIssuer v) (VaAudience v) later =
    inr (in_seconds (issued_token i now kind subject serverName lifetime)) ->
  kind ∈ [KindClient; KindMachine; KindAdmin] -> (kind = KindMachine <-> serverName <> "") ->
  ParseToken v later raw =
    inr (mkClaims subject kind serverName (IsIssuer i) [IsAudience i] (whole now) (whole (now + lifetime))).
Proof.
  intros Hp Hk Hs. unfold ParseToken. rewrite Hp. unfold string_claim. cbn.
  rewrite !elem_of_cons, elem_of_nil in Hk. destruct Hk as [->|[->|[->|[]]]]; cbn.
  - destruct (serverName =? "") eqn:E; [by apply String.eqb_eq in E as ->|].
    apply String.eqb_neq in E. by apply Hs in E.
  - destruct serverName; [by destruct (proj1 Hs eq_refl)|]. done.
  - destruct (serverName =? "") eqn:E; [by apply String.eqb_eq in E as ->|].
    apply String.eqb_neq in E. by apply Hs in E.
Qed.

(** C15: A token lives up to its purpose: on every server that trusts the same
    validated keys, each of which, retired ones included, is a base64 Ed25519 key
    of 32 bytes marked EdDSA (validation does not check this, and one bad key locks
    everyone out, see [retired_key_locks_out]), a machine token is accepted from its
    issue until it expires, carries the server name it was issued for, opens the
    endpoints of that server and of no other, and is not an administrator's. *)
Theorem issued_token_valid a priv i now later name lifetime raw actual :
  validateAuth a = [] -> Forall usable (Keys a) -> NewIssuer a priv = Ok i ->
  IssueMachineToken i now name lifetime = Ok (raw, actual) ->
  (whole now <= whole later < whole (now + actual))%Z ->
  exists v claims, NewValidator a = Ok v /\ ParseBearer v later ("Bearer " +:+ raw) = inr claims /\
    ClKind claims = KindMachine /\ ClServerName claims = name /\ ClExpiresAt claims = whole (now + actual) /\
    (forall other, RequireMachine claims other = None <-> other = "" \/ other = name) /\
    RequireAdmin claims <> None.
Proof.
  intros Hv Hu Hi Hm Ht. destruct (NewValidator_built a Hv Hu) as (v & Hn & Vi & Va & Hb & Hnd).
  unfold NewIssuer, findActiveKidForPublicKey in Hi.
  destruct (find_active (Keys a) (PublicOf priv)) as [kid|] eqn:Ef; [|done]. cbn [result_bind] in Hi.
  destruct (Issuer a =? ""); [done|]. destruct (Audience a =? ""); [done|]. injection Hi as <-.
  apply find_active_key in Ef as (k & Hin & Hkid & Hpub).
  unfold IssueMachineToken in Hm. destruct (name =? "") eqn:En; [done|]. apply String.eqb_neq in En.
  apply issue_signed in Hm as [-> (k1 & k2 & I1 & I2 & Hs)].
  pose proof (signed_compact _ _ _ Hs) as [Hne Hg].
  assert ((kid, PublicOf priv) ∈ map entry_of_key (Keys a)) as Hkey.
  { apply list_elem_of_In, in_map_iff. exists k. unfold entry_of_key. rewrite Hkid, Hpub.
    split; [done|]. by apply list_elem_of_In. }
  assert (NoDup (map fst (map entry_of_key (Keys a)))) as Hnd' by (by rewrite map_map).
  assert (Audience a ∈ [Audience a]) as Haud by left.
  pose proof (parse_signed priv kid k1 k2 _ raw _ _ _ _ _ _ _ later I1 I2 Hs Hb Hnd' Hkey
                eq_refl eq_refl Haud eq_refl eq_refl Ht) as Hp. cbn [IsIssuer] in Hp. rewrite <-Vi, <-Va in Hp at 1.
  eexists v, _. split; [done|]. unfold ParseBearer. rewrite bearer_token by done.
  split; [apply (issued_claims v _ _ _ _ _ _ later raw Hp); [right; left|done]|]. cbn.
  split; [done|]. split; [done|]. split; [done|]. split; [|done]. intros other. unfold RequireMachine. cbn.
  destruct (other =? "") eqn:Eo; cbn.
  { apply String.eqb_eq in Eo as ->. split; [by left|done]. }
  destruct (name =? other) eqn:Eq; cbn.
  - apply String.eqb_eq in Eq as ->. split; [by right|done].
  - apply String.eqb_neq in Eo, Eq. split; [done|]. intros [?|?]; congruence.
Qed.
End validator.
