(* ===== verification/Ctl.v ===== *)
(** * Package ctl: the administrator's tool

    [internal/ctl]: the flags ([flags.go]), the outcomes and exit codes
    ([context.go]), the commands that change the configuration directory under its
    lock ([helpers.go] and [cmd_general.go], [cmd_server.go], [cmd_shardmap.go],
    [cmd_auth.go]), those that only read it, and those that are checked here and
    then sent to the establishment server ([cmd_collection.go], [cmd_search.go],
    [admin_http.go]); [ctl_Run] puts them together ([cli.go]).  Its lock and its plans
    are line for line those of [adminconfig], modelled in [Admin].

    An outcome is an envelope, which a reply of [null] leaves nil, an exit code and
    a text for people; [Emit] prints it.  The directory [--data-dir] names is not
    read by any command.  Standard input is one text, [None] when there is none. *)

From S2P Require Import Prelude GoStrings World Shard Json Config Store ConfigLoad Docjson Replication Engine Search Cache Migrate EngineRead SchemaPatch Admin Establish Auth.

(** The surroundings of one invocation: the environment variables, the file an
    argument names, the clock, the texts of [strconv]'s errors and of [%q], the
    decoders of packages pem and x509 (a key that is not Ed25519 decodes to
    [None]), and one HTTP exchange: the URL, the bearer token and the body give a
    status and the body of the response. *)
Class Operator := {
  Getenv : string -> string;
  resolve : string -> path;
  op_now : Z;
  atoi_error : string -> string;
  GoQuote : string -> string;
  PemDecode : string -> option string;
  ParsePKCS8PrivateKey : string -> result (option string);
  http_post : string -> string -> string -> result (Z * result string);
}.

(** ** Flags *)

Fixpoint extractFlag (args : list string) (name : string) : string * list string * bool :=
  match args with
  | a :: ((value :: rest) as args') =>
      if a =? name then (value, rest, true)
      else let '(v, out, found) := extractFlag args' name in (v, a :: out, found)
  | _ => ("", args, false)
  end.

Definition extractBoolFlag (args : list string) (name : string) : bool * list string :=
  (existsb (fun a => a =? name) args, List.filter (fun a => negb (a =? name)) args).

Definition extractIntFlag `{Operator} (args : list string) (name : string)
    : result (option Z) * list string :=
  let '(raw, rest, found) := extractFlag args name in
  if negb found then (Ok None, rest)
  else match Atoi raw with
       | None => (Err (errorf (atoi_error raw)), rest)
       | Some n => (Ok (Some n), rest)
       end.

(** ** Outcomes *)

Definition ExitOK : Z := 0.
Definition ExitValidation : Z := 1.
Definition ExitRuntime : Z := 2.
Definition ExitDryRunComplete : Z := 3.

Record Context := mkContext {
  ConfigDir : path;
  EstablishmentURL : string;
  AdminToken : string;
  SigningKeyFile : string;
  DryRun : bool;
  AsJSON : bool;
  Quiet : bool;
  Yes : bool;
  Stdin : option string;
}.

Record Outcome := mkOutcome {
  OResult : option Envelope;
  OCode : Z;
  Human : string;
}.

Definition OKOutcome (fs : fields) : Outcome := mkOutcome (Some (OK fs)) ExitOK "".
Definition OKHuman (fs : fields) (human : string) : Outcome := mkOutcome (Some (OK fs)) ExitOK human.
Definition DryRunResult (fs : fields) : Outcome :=
  mkOutcome (Some (OK (aset fs "dryRun" (JBool true)))) ExitDryRunComplete "".
Definition ValidationFail (fs : fields) (errs : list EError) : Outcome :=
  mkOutcome (Some (Fail fs errs)) ExitValidation "".
Definition RuntimeFail (fs : fields) (errs : list EError) : Outcome :=
  mkOutcome (Some (Fail fs errs)) ExitRuntime "".

Definition SimpleValidationError (command code message : string) : Outcome :=
  ValidationFail [("command", JStr command)] [mk_err code message].
Definition RuntimeFailSimple (command code message : string) : Outcome :=
  RuntimeFail [("command", JStr command)] [mk_err code message].

(** [out.Result["command"] = command], unless the result is nil. *)
Definition named (command : string) (o : Outcome) : Outcome :=
  mkOutcome ((fun r => aset r "command" (EJ (JStr command))) <$> OResult o) (OCode o) (Human o).

Definition with_actual (code message actual : string) : EError := mkEError code "" message None (Some (JStr actual)).

(** ** Confirmation *)

(** The line [ReadString] returns, up to and with the newline or to the end. *)
Fixpoint first_line (s : string) : string :=
  match s with
  | EmptyString => ""
  | String c s' => if Ascii.eqb c "010" then String c "" else String c (first_line s')
  end.

(** [strings.ToLower] as far as the comparison with ASCII words goes: no rune
    outside ASCII has y, e or s as its lower case. *)
Definition lower_ascii (c : ascii) : ascii :=
  if in_range 65 (byte_of c) 90 then of_byte (byte_of c + 32) else c.

Fixpoint to_lower (s : string) : string :=
  match s with
  | EmptyString => ""
  | String c s' => String (lower_ascii c) (to_lower s')
  end.

Definition confirm (ctx : Context) : bool :=
  if Yes ctx then true
  else match Stdin ctx with
       | None => false
       | Some text =>
           let answer := to_lower (TrimSpace (first_line text)) in
           (answer =? "y") || (answer =? "yes")
       end.

(** ** Changes to the configuration directory *)

Definition with_general (c : Config) (g : GeneralBody) : Config :=
  let '(mkConfig _ sv sm au schemas sver shist uhist searches srver srhist) := c in
  mkConfig g sv sm au schemas sver shist uhist searches srver srhist.
Definition with_servers (c : Config) (sv : list (string * ServerEntry)) : Config :=
  let '(mkConfig g _ sm au schemas sver shist uhist searches srver srhist) := c in
  mkConfig g sv sm au schemas sver shist uhist searches srver srhist.
Definition with_shardmap (c : Config) (sm : ShardMapBody) : Config :=
  let '(mkConfig g sv _ au schemas sver shist uhist searches srver srhist) := c in
  mkConfig g sv sm au schemas sver shist uhist searches srver srhist.
Definition with_auth (c : Config) (au : AuthBody) : Config :=
  let '(mkConfig g sv sm _ schemas sver shist uhist searches srver srhist) := c in
  mkConfig g sv sm au schemas sver shist uhist searches srver srhist.

Definition serversPath (dir : path) : path := join dir ["__servers.json"].
Definition shardMapPath (dir : path) : path := join dir ["__shard-map.json"].
Definition authPath (dir : path) : path := join dir ["__auth.json"].

(** The three files as their structs print them.  A member list that is nil prints
    as [null] and an empty one as an array; they are one value here. *)
Definition servers_file (c : Config) : json := JObj [("servers", servers_json (Servers c))].
Definition shardmap_file (c : Config) : json := JObj [("shardMap", shardmap_json (ShardMap c))].
Definition auth_file (c : Config) : json := JObj [("auth", auth_json (Auth c))].

Section mutations.
Context `{Env} `{GoTables} `{OJSON} `{GoJSON} `{Operator}.
Variable pid : string.

(** The fields that list what a plan does. *)
Definition plan_fields (p : plan) (fs : fields) : fields :=
  let put k (l : list string) fs := match l with [] => fs | _ => aset fs k (JArr (map JStr l)) end in
  put "directoriesCreated" (map path_string (dirs p))
    (put "filesRemoved" (map path_base (removes p))
       (put "filesWritten" (map (fun w => path_base (fst w)) (orderedWrites p)) fs)).

(** The change under the lock. *)
Definition mutate_locked (ctx : Context) (command : string) (mutate : Config -> change fields) : M Outcome :=
  r ← loadUnvalidated (ConfigDir ctx);
  match r with
  | Err e =>
      mret (if is_not_exist e then RuntimeFailSimple command "filesystemError" (err_msg e)
            else SimpleValidationError command "invalidJSON" (err_msg e))
  | Ok cfg =>
      let '(p, fs, errs) := mutate cfg in
      let fs := aset fs "command" (JStr command) in
      match errs, p with
      | _ :: _, _ => mret (ValidationFail fs errs)
      | [], None => mret (OKOutcome fs)
      | [], Some p =>
          if DryRun ctx then mret (DryRunResult (plan_fields p fs))
          else
            r ← commit p;
            match r with
            | Err e => mret (RuntimeFail fs [mk_err "filesystemError" (err_msg e)])
            | Ok _ => mret (OKOutcome (plan_fields p fs))
            end
      end
  end.

Definition ctl_runMutation (ctx : Context) (command : string) (mutate : Config -> change fields) : M Outcome :=
  r ← acquireLock pid (ConfigDir ctx);
  match r with
  | inl None => mret (RuntimeFailSimple command "configLockHeld"
                        ("config lock already held: " +:+ path_string (lock_path (ConfigDir ctx))))
  | inl (Some e) => mret (RuntimeFailSimple command "filesystemError" (err_msg e))
  | inr lock => locked lock (mutate_locked ctx command mutate)
  end.

(** What every change does with its candidate: validate all of it, write the file
    of the section that changed and the next version. *)
Definition staged (dir : path) (section : list (path * json)) (fs extra : fields) (cfg : Config) : change fields :=
  match ValidateDetailed cfg with
  | (_ :: _) as errs => (None, fs, errs)
  | [] =>
      let p := foldl (fun p w => addJSONWrite p (fst w) (snd w)) no_plan section in
      let '(p, nextVersion) := stageGeneralBump dir p cfg in
      (Some p, aset_all fs (extra ++ [("generalVersion", JNum (Itoa nextVersion))]), [])
  end.

(** *** [general set] *)

(** A positive integer flag: its error, or the field set to it. *)
Definition positive_flag (field : string) (flag : option Z) (old : Z) : list EError * Z :=
  match flag with
  | None => ([], old)
  | Some n =>
      if (n <=? 0)%Z then
        ([mkEError "invalidArguments" ("/general/" +:+ field) "must be a positive integer" None (Some (JNum (Itoa n)))], old)
      else ([], n)
  end.

Definition change_general (dir : path) (name server : option string) (readCheckin cacheCheckin failedCheckins : option Z)
    (cfg : Config) : change fields :=
  let g := General cfg in
  let '(errName, name) :=
    match name with
    | None => ([], Name g)
    | Some n => if n =? "" then ([mkEError "invalidArguments" "/general/name" "name must not be empty" None None], Name g)
                else ([], n)
    end in
  let '(errRead, read) := positive_flag "readMemberCheckinSeconds" readCheckin (ReadMemberCheckinSeconds g) in
  let '(errCache, cache) := positive_flag "cacheUpdateCheckinSeconds" cacheCheckin (CacheUpdateCheckinSeconds g) in
  let '(errStale, stale) :=
    positive_flag "readMemberFailedCheckinsBeforeStale" failedCheckins (ReadMemberFailedCheckinsBeforeStale g) in
  match errName ++ errRead ++ errCache ++ errStale with
  | (_ :: _) as errs => (None, [], errs)
  | [] => staged dir [] [] [] (with_general cfg
            (mkGeneralBody name (default (EstablishmentServer g) server) (Version g) read cache stale (MaxFileBytes g)))
  end.

(** A flag that was found. *)
Definition given (value : string) (found : bool) : option string := if found then Some value else None.

Definition cmdGeneralSet (ctx : Context) (args : list string) : M Outcome :=
  let '(name, args, hasName) := extractFlag args "--name" in
  let '(establishmentServer, args, hasEstablishment) := extractFlag args "--establishment-server" in
  let refuse e := mret (SimpleValidationError "general.set" "invalidArguments" (err_msg e)) in
  match extractIntFlag args "--read-member-checkin-seconds" with
  | (Err e, _) => refuse e
  | (Ok readCheckin, args) =>
  match extractIntFlag args "--cache-update-checkin-seconds" with
  | (Err e, _) => refuse e
  | (Ok cacheCheckin, args) =>
  match extractIntFlag args "--read-member-failed-checkins-before-stale" with
  | (Err e, _) => refuse e
  | (Ok failedCheckins, _) =>
      ctl_runMutation ctx "general.set"
        (change_general (ConfigDir ctx) (given name hasName) (given establishmentServer hasEstablishment)
           readCheckin cacheCheckin failedCheckins)
  end end end.

(** *** [server set] and [server remove] *)

Definition change_server (dir : path) (name baseURL : string) (cfg : Config) : change fields :=
  let fs := [("server", JStr name)] in
  if negb (ValidServerName name) then
    refused fs "invalidArguments" "server name must be a non-empty identifier without whitespace" (Some (JStr name))
  else if negb (ValidBaseURL baseURL) then
    refused fs "invalidBaseURL" "baseURL must be an absolute URL with scheme and host" (Some (JStr baseURL))
  else
    let cfg := with_servers cfg (aset (Servers cfg) name (mkServerEntry baseURL)) in
    staged dir [(serversPath dir, servers_file cfg)] fs [("baseURL", JStr baseURL)] cfg.

Definition cmdServerSet (ctx : Context) (args : list string) : M Outcome :=
  let '(baseURL, args, hasURL) := extractFlag args "--base-url" in
  match args with
  | [] => mret (SimpleValidationError "server.set" "invalidArguments" "usage: server set <serverName> --base-url <url>")
  | name :: _ =>
      if negb hasURL || (baseURL =? "") then
        mret (ValidationFail [("command", JStr "server.set"); ("server", JStr name)]
                [mk_err "invalidArguments" "--base-url is required"])
      else ctl_runMutation ctx "server.set" (change_server (ConfigDir ctx) name baseURL)
  end.

Definition referencedByShardMap (cfg : Config) (name : string) : bool :=
  existsb (fun e => let a := snd e in
             (ShardSOTMember a =? name) || containsString (ShardReadMember a) name ||
             containsString (ProxyReadMember a) name)
    (shard_entries (ShardMap cfg)).

Definition change_remove (dir : path) (ctx : Context) (name : string) (cfg : Config) : change fields :=
  let fs := [("server", JStr name)] in
  if negb (ahas (Servers cfg) name) then refused fs "serverNotFound" "server does not exist" (Some (JStr name))
  else if EstablishmentServer (General cfg) =? name then
    refused fs "serverStillReferenced" "server is referenced by general.establishmentServer" (Some (JStr name))
  else if referencedByShardMap cfg name then
    refused fs "serverStillReferenced" "server is referenced by shardMap.default" (Some (JStr name))
  else if negb (confirm ctx) then
    refused fs "cancelled" "operation cancelled; pass --yes to skip confirmation" None
  else
    let cfg := with_servers cfg (adel (Servers cfg) name) in
    staged dir [(serversPath dir, servers_file cfg)] fs [] cfg.

Definition cmdServerRemove (ctx : Context) (args : list string) : M Outcome :=
  match args with
  | [] => mret (SimpleValidationError "server.remove" "invalidArguments" "usage: server remove <serverName>")
  | name :: _ => ctl_runMutation ctx "server.remove" (change_remove (ConfigDir ctx) ctx name)
  end.

(** *** [shard-map set] *)

(** A [map[string]json.RawMessage]; [null] leaves it nil. *)
Definition raw_map (v : json) : result fields :=
  match v with
  | JObj m => Ok m
  | JNull => Ok []
  | _ => Err (errorf "json: cannot unmarshal into a map")
  end.

Definition change_shardmap (dir : path) (parsed : ShardMapBody) (cfg : Config) : change fields :=
  match ValidateShardMapBody parsed (Servers cfg) with
  | (_ :: _) as errs => (None, [], errs)
  | [] =>
      let cfg := with_shardmap cfg parsed in
      staged dir [(shardMapPath dir, shardmap_file cfg)] []
        [("ranges", JNum (Itoa (Z.of_nat (length (shard_entries parsed)))))] cfg
  end.

(** The checks on the file: whether it has overrides per collection, and the map. *)
Definition parse_shardmap (raw : string) : result (bool * ShardMapBody) :=
  result_bind (Unmarshal raw) (fun v =>
  result_bind (raw_map v) (fun generic =>
  result_bind (match aget generic "shardMap" with None => Ok [] | Some sm => raw_map sm end) (fun shardMapGeneric =>
  if ahas shardMapGeneric "collections" then Ok (true, None)
  else result_bind (shardmap_of_json v) (fun parsed => Ok (false, parsed))))).

Definition cmdShardMapSet (ctx : Context) (args : list string) : M Outcome :=
  let refuse := SimpleValidationError "shard-map.set" in
  match args with
  | [] => mret (refuse "invalidArguments" "usage: shard-map set <shard-map-file.json>")
  | file :: _ =>
      r ← ReadFile (resolve file);
      match r with
      | Err e => mret (refuse "invalidJSON" ("cannot read shard map file: " +:+ err_msg e))
      | Ok raw =>
          match parse_shardmap raw with
          | Err e => mret (refuse "invalidJSON" (err_msg e))
          | Ok (true, _) => mret (refuse "unsupportedShardMapFeature"
                                    "collection-specific shard map overrides are not part of the MVP")
          | Ok (false, parsed) => ctl_runMutation ctx "shard-map.set" (change_shardmap (ConfigDir ctx) parsed)
          end
      end
  end.

(** *** [auth set], [auth key add] and [auth key retire] *)

Definition staged_auth (dir : path) (fs : fields) (cfg : Config) (a : AuthBody) : change fields :=
  let cfg := with_auth cfg a in staged dir [(authPath dir, auth_file cfg)] fs [] cfg.

Definition change_auth (dir : path) (issuer audience : option string) (client machine : option Z) (cfg : Config)
    : change fields :=
  let a := Auth cfg in
  staged_auth dir [] cfg (mkAuthBody (default (Issuer a) issuer) (default (Audience a) audience)
    (default (LifetimeClient a) client) (default (LifetimeMachine a) machine) (Keys a)).

Definition cmdAuthSet (ctx : Context) (args : list string) : M Outcome :=
  let '(issuer, args, hasIssuer) := extractFlag args "--issuer" in
  let '(audience, args, hasAudience) := extractFlag args "--audience" in
  let refuse e := mret (SimpleValidationError "auth.set" "invalidArguments" (err_msg e)) in
  match extractIntFlag args "--client-token-lifetime-seconds" with
  | (Err e, _) => refuse e
  | (Ok client, args) =>
  match extractIntFlag args "--machine-token-lifetime-seconds" with
  | (Err e, _) => refuse e
  | (Ok machine, _) =>
      ctl_runMutation ctx "auth.set"
        (change_auth (ConfigDir ctx) (given issuer hasIssuer) (given audience hasAudience) client machine)
  end end.

Definition with_keys (a : AuthBody) (keys : list AuthKey) : AuthBody :=
  mkAuthBody (Issuer a) (Audience a) (LifetimeClient a) (LifetimeMachine a) keys.

Definition change_key_add (dir : path) (newKey : AuthKey) (cfg : Config) : change fields :=
  let fs := [("kid", JStr (Kid newKey))] in
  let a := with_keys (Auth cfg) (match KeyByKid (Auth cfg) (Kid newKey) with
                                 | Some idx => <[idx := newKey]> (Keys (Auth cfg))
                                 | None => Keys (Auth cfg) ++ [newKey]
                                 end) in
  if (ActiveKeyCount a =? 0)%nat then refused fs "noActiveSigningKey" "at least one key must remain active" None
  else staged_auth dir fs cfg a.

(** The key material: not private, and 32 bytes in base64 for EdDSA. *)
Definition check_material (alg kid material : string) : option Outcome :=
  let refuse err := Some (ValidationFail [("command", JStr "auth.key.add"); ("kid", JStr kid)] [err]) in
  if LooksLikePrivateKeyMaterial material then
    refuse (mk_err "privateKeyRejected" "public-key-file looks like private key material")
  else if alg =? "EdDSA" then
    match decode64 material with
    | Ok raw => if (String.length raw =? PublicKeySize)%nat then None
                else refuse (auth_error "/publicKey" "publicKey must be the base64-encoded 32-byte Ed25519 public key")
    | Err _ => refuse (auth_error "/publicKey" "publicKey must be the base64-encoded 32-byte Ed25519 public key")
    end
  else None.

Definition cmdAuthKeyAdd (ctx : Context) (args : list string) : M Outcome :=
  let refuse := SimpleValidationError "auth.key.add" "invalidArguments" in
  let '(kid, args, hasKid) := extractFlag args "--kid" in
  let '(alg, args, hasAlg) := extractFlag args "--alg" in
  let '(keyFile, args, hasKeyFile) := extractFlag args "--public-key-file" in
  let '(status, _, hasStatus) := extractFlag args "--status" in
  if negb hasKid || negb hasAlg || negb hasKeyFile then
    mret (refuse "usage: auth key add --kid <id> --alg <alg> --public-key-file <path> [--status active|retired]")
  else
  let status := if negb hasStatus || (status =? "") then "active" else status in
  if (status <>? "active") && (status <>? "retired") then mret (refuse "status must be active or retired")
  else
  r ← ReadFile (resolve keyFile);
  match r with
  | Err e => mret (refuse ("cannot read public key file: " +:+ err_msg e))
  | Ok rawKeyMaterial =>
      let keyMaterial := TrimSpace rawKeyMaterial in
      match check_material alg kid keyMaterial with
      | Some o => mret o
      | None => ctl_runMutation ctx "auth.key.add" (change_key_add (ConfigDir ctx) (mkAuthKey kid alg status keyMaterial))
      end
  end.

Definition retired_key (k : AuthKey) : AuthKey := mkAuthKey (Kid k) (Alg k) "retired" (PublicKey k).

Definition change_key_retire (dir : path) (kid : string) (cfg : Config) : change fields :=
  let fs := [("kid", JStr kid)] in
  let a := Auth cfg in
  match KeyByKid a kid ≫= fun idx => (fun k => (idx, k)) <$> Keys a !! idx with
  | None => refused fs "invalidAuthConfig" "unknown kid" (Some (JStr kid))
  | Some (idx, k) =>
      if (Status k =? "active") && (ActiveKeyCount a <=? 1)%nat then
        refused fs "noActiveSigningKey" "retiring this key would leave zero active keys" None
      else staged_auth dir fs cfg (with_keys a (<[idx := retired_key k]> (Keys a)))
  end.

Definition cmdAuthKeyRetire (ctx : Context) (args : list string) : M Outcome :=
  match args with
  | [] => mret (SimpleValidationError "auth.key.retire" "invalidArguments" "usage: auth key retire <kid>")
  | kid :: _ => ctl_runMutation ctx "auth.key.retire" (change_key_retire (ConfigDir ctx) kid)
  end.
End mutations.

(** ** Commands that read the configuration *)

Section reading.
Context `{Env} `{GoTables} `{OJSON} `{GoJSON} `{Operator}.

Definition loadReadOnly (ctx : Context) (command : string) (k : Config -> M Outcome) : M Outcome :=
  r ← loadUnvalidated (ConfigDir ctx);
  match r with
  | Err e =>
      mret (if is_not_exist e then RuntimeFailSimple command "filesystemError" (err_msg e)
            else SimpleValidationError command "invalidJSON" (err_msg e))
  | Ok cfg => k cfg
  end.

Definition jint (z : Z) : json := JNum (Itoa z).
Definition tab : string := String "009" "".
Definition text_of_bool (b : bool) : string := if b then "true" else "false".

(** The keys of a map in the order of [sort.Strings]. *)
Definition sorted_names {A} (m : list (string * A)) : list string := merge_sort str_le (akeys m).

Definition cmdConfigValidate (ctx : Context) (args : list string) : M Outcome :=
  loadReadOnly ctx "config.validate" (fun cfg =>
  let version := Version (General cfg) in
  let fs := [("command", JStr "config.validate"); ("generalVersion", jint version)] in
  mret (match ValidateDetailed cfg with
        | (_ :: _) as errs => ValidationFail fs errs
        | [] => OKHuman fs ("config is valid (general.version=" +:+ Itoa version +:+ ")" +:+ newline)
        end)).

Fixpoint parse_ranges (l : list (string * ShardAssignment)) : option (list Range) :=
  match l with
  | [] => Some []
  | (raw, _) :: l' =>
      match ParseRange raw with
      | Err _ => None
      | Ok r => cons r <$> parse_ranges l'
      end
  end.

Definition shardMapComplete (cfg : Config) : bool :=
  match ShardMap cfg with
  | None => false
  | Some l => match parse_ranges l with
              | None => false
              | Some ranges => is_ok (ValidateFullCoverage ranges)
              end
  end.

Definition cmdConfigShow (ctx : Context) (args : list string) : M Outcome :=
  loadReadOnly ctx "config.show" (fun cfg =>
  let g := General cfg in
  let servers := Z.of_nat (length (Servers cfg)) in
  let collections := Z.of_nat (length (Schemas cfg)) in
  let complete := shardMapComplete cfg in
  mret (OKHuman
    [("command", JStr "config.show"); ("name", JStr (Name g)); ("establishment", JStr (EstablishmentServer g));
     ("generalVersion", jint (Version g)); ("servers", jint servers); ("collections", jint collections);
     ("shardMapComplete", JBool complete)]
    ("database: " +:+ Name g +:+ newline +:+ "establishment server: " +:+ EstablishmentServer g +:+ newline +:+
     "general.version: " +:+ Itoa (Version g) +:+ newline +:+ "servers: " +:+ Itoa servers +:+ newline +:+
     "collections: " +:+ Itoa collections +:+ newline +:+
     "shardMap.default complete: " +:+ text_of_bool complete +:+ newline))).

Definition cmdServerList (ctx : Context) (args : list string) : M Outcome :=
  loadReadOnly ctx "server.list" (fun cfg =>
  let url name := match aget (Servers cfg) name with Some s => BaseURL s | None => "" end in
  let names := sorted_names (Servers cfg) in
  mret (OKHuman
    [("command", JStr "server.list");
     ("servers", JArr (map (fun n => JObj [("name", JStr n); ("baseURL", JStr (url n))]) names))]
    (String.concat "" (map (fun n => n +:+ tab +:+ url n +:+ newline) names)))).

(** [%v] of a slice of strings. *)
Definition slice_text (l : list string) : string := "[" +:+ Join l " " +:+ "]".

Definition cmdShardMapShow (ctx : Context) (args : list string) : M Outcome :=
  loadReadOnly ctx "shard-map.show" (fun cfg =>
  let entries := shard_entries (ShardMap cfg) in
  mret (OKHuman
    [("command", JStr "shard-map.show"); ("default", default JNull (Get (shardmap_json (ShardMap cfg)) "default"))]
    (String.concat "" (map (fun r =>
       let a := default no_assignment (aget entries r) in
       r +:+ tab +:+ "SOT=" +:+ ShardSOTMember a +:+ tab +:+ "READ=" +:+ slice_text (ShardReadMember a) +:+ tab +:+
       "PROXY=" +:+ slice_text (ProxyReadMember a) +:+ newline) (sorted_names entries))))).

Definition cmdAuthShow (ctx : Context) (args : list string) : M Outcome :=
  loadReadOnly ctx "auth.show" (fun cfg =>
  let a := Auth cfg in
  mret (OKHuman
    [("command", JStr "auth.show"); ("issuer", JStr (Issuer a)); ("audience", JStr (Audience a));
     ("clientTokenLifetime", jint (LifetimeClient a)); ("machineTokenLifetime", jint (LifetimeMachine a));
     ("keys", JArr (map (fun k => JObj [("kid", JStr (Kid k)); ("alg", JStr (Alg k)); ("status", JStr (Status k))]) (Keys a)))]
    ("issuer: " +:+ Issuer a +:+ newline +:+ "audience: " +:+ Audience a +:+ newline +:+
     "client token lifetime: " +:+ Itoa (LifetimeClient a) +:+ "s" +:+ newline +:+
     "machine token lifetime: " +:+ Itoa (LifetimeMachine a) +:+ "s" +:+ newline +:+ "keys:" +:+ newline +:+
     String.concat "" (map (fun k => "  " +:+ Kid k +:+ tab +:+ Alg k +:+ tab +:+ Status k +:+ newline) (Keys a))))).

Definition cmdCollectionList (ctx : Context) (args : list string) : M Outcome :=
  loadReadOnly ctx "collection.list" (fun cfg =>
  let ver name := SchemaVersion (Some cfg) name in
  let names := sorted_names (Schemas cfg) in
  mret (OKHuman
    [("command", JStr "collection.list");
     ("collections", JArr (map (fun n => JObj [("name", JStr n); ("version", jint (ver n))]) names))]
    (String.concat "" (map (fun n => n +:+ tab +:+ Itoa (ver n) +:+ newline) names)))).
(** A stored schema goes into the result as it is; one that is not JSON, which only
    printing the result would notice, is shown as [null]. *)
Definition cmdCollectionShow (ctx : Context) (args : list string) : M Outcome :=
  match args with
  | [] => mret (SimpleValidationError "collection.show" "invalidArguments"
                  "usage: collection show <CollectionName> [--version <ver>]")
  | name :: args =>
  match fst (extractIntFlag args "--version") with
  | Err e => mret (SimpleValidationError "collection.show" "invalidArguments" (err_msg e))
  | Ok ver =>
      loadReadOnly ctx "collection.show" (fun cfg =>
      let failed err := ValidationFail [("command", JStr "collection.show"); ("collection", JStr name)] [err] in
      let shown version raw := OKHuman
        [("command", JStr "collection.show"); ("collection", JStr name); ("version", jint version);
         ("schema", match Unmarshal raw with Ok v => v | Err _ => JNull end)]
        ("collection: " +:+ name +:+ newline +:+ "version: " +:+ Itoa version +:+ newline +:+
         "schema:" +:+ newline +:+ raw +:+ newline) in
      mret (match aget (Schemas cfg) name with
            | None => failed (with_actual "collectionNotFound" "collection does not exist" name)
            | Some current =>
                match ver with
                | None => shown (SchemaVersion (Some cfg) name) current
                | Some v =>
                    match zget (inner (SchemaHistory cfg) name) v with
                    | None => failed (mkEError "invalidArguments" "/version" "schema version not found" None (Some (jint v)))
                    | Some raw => shown v raw
                    end
                end
            end))
  end end.

Definition cmdSearchList (ctx : Context) (args : list string) : M Outcome :=
  loadReadOnly ctx "search.list" (fun cfg =>
  let entries := flat_map (fun c => map (fun n =>
    (c, n, default 0%Z (aget (inner (SearchVersions cfg) c) n))) (sorted_names (inner (Searches cfg) c)))
    (sorted_names (Searches cfg)) in
  mret (OKHuman
    [("command", JStr "search.list");
     ("searches", match entries with
                  | [] => JNull
                  | _ => JArr (map (fun '(c, n, v) => JObj [("collection", JStr c); ("name", JStr n); ("version", jint v)]) entries)
                  end)]
    (String.concat "" (map (fun '(c, n, v) => c +:+ tab +:+ n +:+ tab +:+ Itoa v +:+ newline) entries)))).
End reading.

(** ** Tokens *)

Section tokens.
Context `{Env} `{GoTables} `{OJSON} `{GoJSON} `{Operator} `{JWX}.

Definition loadEd25519PrivateKeyPEM (file : string) : M (result string) :=
  r ← ReadFile (resolve file);
  mret (match r with
        | Err e => Err (errorf ("read signing key file: " +:+ err_msg e))
        | Ok raw =>
            match PemDecode raw with
            | None => Err (errorf ("signing key file " +:+ file +:+ " is not PEM encoded"))
            | Some block =>
                match ParsePKCS8PrivateKey block with
                | Err e => Err (errorf ("parse PKCS8 private key: " +:+ err_msg e))
                | Ok None => Err (errorf ("signing key file " +:+ file +:+ " does not contain an Ed25519 private key"))
                | Ok (Some priv) => Ok priv
                end
            end
        end).

Definition NewIssuerFromFile (cfg : AuthBody) (keyPath : string) : M (result TokenIssuer) :=
  priv <-? loadEd25519PrivateKeyPEM keyPath; mret (NewIssuer cfg priv).

(** The seconds of [expiresIn] are those of a whole number of seconds, unless the
    product with a second overflowed. *)
Definition cmdAuthTokenIssue (ctx : Context) (args : list string) : M Outcome :=
  let refuse := SimpleValidationError "auth.token.issue" in
  let broken := RuntimeFailSimple "auth.token.issue" "filesystemError" in
  let '(kind, args, hasKind) := extractFlag args "--kind" in
  let '(subject, args, _) := extractFlag args "--subject" in
  let '(serverName, args, _) := extractFlag args "--server-name" in
  match fst (extractIntFlag args "--lifetime-seconds") with
  | Err e => mret (refuse "invalidArguments" (err_msg e))
  | Ok lifetime =>
  if negb hasKind || ((kind <>? "client") && (kind <>? "machine") && (kind <>? "admin")) then
    mret (refuse "invalidArguments" "--kind must be client, machine, or admin")
  else if (kind =? "machine") && (serverName =? "") then
    mret (refuse "invalidArguments" "--server-name is required for --kind machine")
  else
    loadReadOnly ctx "auth.token.issue" (fun cfg =>
    if (ActiveKeyCount (Auth cfg) =? 0)%nat then
      mret (refuse "noActiveSigningKey" "no active signing key in __auth.json")
    else
    let keyFile := Getenv "DATORIUMDB_SIGNING_KEY_FILE" in
    if keyFile =? "" then mret (broken "DATORIUMDB_SIGNING_KEY_FILE is not set")
    else
    r ← NewIssuerFromFile (Auth cfg) keyFile;
    match r with
    | Err e => mret (broken (err_msg e))
    | Ok issuer =>
        let requested := match lifetime with Some l => wrap64 (l * nanoseconds) | None => 0%Z end in
        let subject := if subject <>? "" then subject
                       else if kind =? "machine" then serverName
                       else if kind =? "admin" then "admin" else "client" in
        mret (match (if kind =? "client" then IssueClientToken issuer op_now subject requested
                     else if kind =? "admin" then IssueAdminToken issuer op_now subject requested
                     else IssueMachineToken issuer op_now serverName requested) with
              | Err e => broken (err_msg e)
              | Ok (token, actual) =>
                  OKHuman [("command", JStr "auth.token.issue"); ("kind", JStr kind); ("kid", JStr (IsKid issuer));
                           ("token", JStr token); ("expiresIn", JNum (Itoa (actual ÷ nanoseconds)))] (token +:+ newline)
              end)
    end)
  end.

(** ** Commands for the establishment server *)

(** [strings.TrimRight s "/"]. *)
Fixpoint strip_right_slashes (s : string) : string :=
  match s with
  | EmptyString => ""
  | String c s' =>
      let t := strip_right_slashes s' in
      if (t =? "") && Ascii.eqb c "/" then "" else String c t
  end.

Definition resolveAdminToken (ctx : Context) (command : string) : M (Outcome + string) :=
  if AdminToken ctx <>? "" then mret (inr (AdminToken ctx))
  else if SigningKeyFile ctx =? "" then
    mret (inl (SimpleValidationError command "adminTokenRequired"
      "admin authentication required: pass --admin-token or set DATORIUMDB_ADMIN_TOKEN, or provide --signing-key-file / DATORIUMDB_SIGNING_KEY_FILE to mint a token"))
  else
    r ← loadUnvalidated (ConfigDir ctx);
    match r with
    | Err e =>
        mret (inl (if is_not_exist e then RuntimeFailSimple command "filesystemError" (err_msg e)
                   else SimpleValidationError command "invalidJSON" (err_msg e)))
    | Ok cfg =>
        r ← NewIssuerFromFile (Auth cfg) (SigningKeyFile ctx);
        mret (match result_bind r (fun issuer => IssueAdminToken issuer op_now "admin" 0) with
              | Err e => inl (RuntimeFailSimple command "filesystemError" (err_msg e))
              | Ok (token, _) => inr token
              end)
    end.

Definition adminEndpoint (ctx : Context) (command : string) : M (Outcome + (string * string)) :=
  let baseURL := strip_right_slashes (EstablishmentURL ctx) in
  if baseURL =? "" then
    mret (inl (SimpleValidationError command "establishmentURLRequired"
      "establishment URL required: pass --establishment-url or set DATORIUMDB_ESTABLISHMENT_URL"))
  else
    r ← resolveAdminToken ctx command;
    mret (match r with inl o => inl o | inr token => inr (baseURL, token) end).

(** [fmt.Sprint] of a member of a decoded object. *)
Definition sprint_member (m : fields) (k : string) : string :=
  match aget m k with None | Some JNull => "<nil>" | Some _ => StringField m k end.

Definition present (v : option json) : option json := match v with Some JNull => None | _ => v end.

Definition error_of_json (v : json) : option EError :=
  match v with
  | JObj m => Some (mkEError (sprint_member m "code") (as_string (aget m "path")) (sprint_member m "message")
                      (present (aget m "expected")) (present (aget m "actual")))
  | _ => None
  end.

Definition normalizeEnvelopeErrors (result : fields) : Envelope :=
  match aget result "errors" with
  | Some (JArr items) => aset (ej result) "errors" (EErrors (omap error_of_json items))
  | _ => ej result
  end.

Definition error_code (v : json) : string := as_string (Get v "code").

Definition outcomeFromEnvelope (result : option fields) : Outcome :=
  let m := default [] result in
  if as_bool (aget m "ok") then mkOutcome (ej <$> result) ExitOK ""
  else
    let items := match aget m "errors" with Some (JArr items) => items | _ => [] end in
    let runtime code := (code =? "filesystemError") || (code =? "configError") || (code =? "httpError") in
    mkOutcome (normalizeEnvelopeErrors <$> result)
      (if existsb (fun v => runtime (error_code v)) items then ExitRuntime else ExitValidation) "".

(** An envelope decoded from the body of a response; [null] leaves it nil. *)
Definition decode_envelope (raw : string) : result (option fields) :=
  result_bind (Unmarshal raw) (fun v =>
  match floats v with
  | JObj m => Ok (Some m)
  | JNull => Ok None
  | _ => Err (errorf "json: cannot unmarshal into envelope.Result")
  end).

Definition postAdminCommand (ctx : Context) (command target parameter : string) (detail : fields) : M Outcome :=
  let fs := [("command", JStr command)] in
  let fs := if target <>? "" then aset fs "target" (JStr target) else fs in
  let fs := if parameter <>? "" then aset fs "parameter" (JStr parameter) else fs in
  if DryRun ctx then
    mret (DryRunResult (aset (aset fs "establishmentURL" (JStr (strip_right_slashes (EstablishmentURL ctx))))
            "detail" (JObj detail)))
  else
    r ← adminEndpoint ctx command;
    match r with
    | inl o => mret o
    | inr (baseURL, token) =>
        let body := Marshal (map_order (JObj [("command", JStr command); ("target", JStr target);
                                              ("parameter", JStr parameter); ("detail", JObj detail)])) in
        mret (match http_post (baseURL +:+ "/datoriumdb/v1/command") token body with
              | Err e | Ok (_, Err e) => RuntimeFail fs [mk_err "httpError" (err_msg e)]
              | Ok (status, Ok raw) =>
                  match decode_envelope raw with
                  | Err e => RuntimeFail fs [mk_err "invalidResponse"
                               ("decode response (status " +:+ Itoa status +:+ "): " +:+ err_msg e)]
                  | Ok result => outcomeFromEnvelope result
                  end
              end)
    end.

Definition parseJSONObject (raw : string) : result fields :=
  result_bind (Unmarshal raw) (fun v =>
  match floats v with
  | JObj m => Ok m
  | JNull => Ok []
  | _ => Err (errorf "json: cannot unmarshal into a map")
  end).

(** What follows the checks: the file as an object, sent under the server's name
    for the command and reported under the tool's. *)
Definition send_object (ctx : Context) (name command target parameter raw : string) (detail : fields -> fields) : M Outcome :=
  match parseJSONObject raw with
  | Err e => mret (named name (SimpleValidationError "invalidJSON" "invalidJSON" (err_msg e)))
  | Ok obj => o ← postAdminCommand ctx command target parameter (detail obj); mret (named name o)
  end.
End tokens.

Section catalog.
Context `{Env} `{GoTables} `{OJSON} `{GoJSON} `{GoFloat} `{Operator} `{JWX}.
Variable ulid_ok : string -> bool.

Definition cmdCollectionCreate (ctx : Context) (args : list string) : M Outcome :=
  match args with
  | name :: schemaFile :: _ =>
      r ← ReadFile (resolve schemaFile);
      match r with
      | Err e => mret (SimpleValidationError "collection.create" "invalidSchema" ("cannot read schema file: " +:+ err_msg e))
      | Ok rawSchema =>
          let failed errs := mret (ValidationFail [("collection", JStr name)] errs) in
          if negb (ValidCollectionName name) then
            failed [with_actual "invalidCollectionName" "collection name violates naming conventions" name]
          else
          match ValidateOJSONSchemaBytes rawSchema with
          | Err e => failed [mk_err "invalidSchema" (err_msg e)]
          | Ok _ =>
              loadReadOnly ctx "collection.create" (fun cfg =>
              if ahas (Schemas cfg) name then
                failed [with_actual "collectionAlreadyExists" "collection already exists" name]
              else
              match ValidateCollectionSchemaRules GoQuote rawSchema (Schemas cfg) with
              | (_ :: _) as errs => failed errs
              | [] => send_object ctx "collection.create" "collectionEnsure" name "" rawSchema
                        (fun obj => [("schema", JObj obj)])
              end)
          end
      end
  | _ => mret (SimpleValidationError "collection.create" "invalidArguments"
                 "usage: collection create <CollectionName> <schema-file.json>")
  end.

Definition cmdCollectionUpgrade (ctx : Context) (args : list string) : M Outcome :=
  match args with
  | name :: upgradeFile :: _ =>
      r ← ReadFile (resolve upgradeFile);
      match r with
      | Err e => mret (SimpleValidationError "collection.upgrade" "invalidSchemaUpgrade"
                         ("cannot read upgrade file: " +:+ err_msg e))
      | Ok rawUpgrade =>
          match ParseUpdateSpec rawUpgrade with
          | Err e => mret (SimpleValidationError "collection.upgrade" "invalidSchemaUpgrade" (err_msg e))
          | Ok spec =>
              loadReadOnly ctx "collection.upgrade" (fun cfg =>
              let failed errs := mret (ValidationFail [("collection", JStr name)] errs) in
              match aget (Schemas cfg) name with
              | None => failed [with_actual "collectionNotFound" "collection does not exist" name]
              | Some currentSchema =>
              match ValidateSpec ulid_ok spec (SchemaVersion (Some cfg) name) with
              | (_ :: _) as errs => failed errs
              | [] =>
              match ApplySchema currentSchema spec with
              | Err e => failed [mk_err "invalidSchemaUpgrade" (err_msg e)]
              | Ok newSchemaBytes =>
              match ValidateOJSONSchemaBytes newSchemaBytes with
              | Err e => failed [mk_err "invalidSchemaUpgrade" (err_msg e)]
              | Ok _ =>
              match ValidateCollectionSchemaRules GoQuote newSchemaBytes (aset (Schemas cfg) name newSchemaBytes) with
              | (_ :: _) as errs => failed errs
              | [] => send_object ctx "collection.upgrade" "collectionEnsure" name "" rawUpgrade
                        (fun obj => [("upgrade", JObj obj)])
              end end end end end)
          end
      end
  | _ => mret (SimpleValidationError "collection.upgrade" "invalidArguments"
                 "usage: collection upgrade <CollectionName> <upgrade-file.json>")
  end.

Definition cmdSearchCreate (ctx : Context) (args : list string) : M Outcome :=
  match args with
  | collection :: name :: defFile :: _ =>
      r ← ReadFile (resolve defFile);
      match r with
      | Err e => mret (SimpleValidationError "search.create" "invalidJSON"
                         ("cannot read search definition file: " +:+ err_msg e))
      | Ok raw =>
          let failed errs := mret (ValidationFail [("collection", JStr collection); ("search", JStr name)] errs) in
          loadReadOnly ctx "search.create" (fun cfg =>
          if ahas (inner (Searches cfg) collection) name then
            failed [with_actual "searchAlreadyExists" "search definition already exists" name]
          else
          match ValidateSearchDefinition raw collection name (Schemas cfg) with
          | (_ :: _) as errs => failed errs
          | [] =>
          match full_search_errors cfg collection raw with
          | (_ :: _) as errs => failed errs
          | [] => send_object ctx "search.create" "searchEnsure" collection name raw (fun obj => obj)
          end end)
      end
  | _ => mret (SimpleValidationError "search.create" "invalidArguments"
                 "usage: search create <CollectionName> <SearchName> <search-definition-file.json>")
  end.

Definition cmdSearchDelete (ctx : Context) (args : list string) : M Outcome :=
  match args with
  | collection :: name :: _ =>
      o ← postAdminCommand ctx "searchDelete" collection name []; mret (named "search.delete" o)
  | _ => mret (SimpleValidationError "search.delete" "invalidArguments" "usage: search delete <CollectionName> <SearchName>")
  end.

(** ** The command line *)

Variable pid : string.

Definition dispatchAuth (ctx : Context) (args : list string) : M Outcome :=
  match args with
  | [] => mret (SimpleValidationError "auth" "missingSubcommand" "auth requires a subcommand")
  | sub :: rest =>
      if sub =? "show" then cmdAuthShow ctx rest
      else if sub =? "set" then cmdAuthSet pid ctx rest
      else if sub =? "key" then
        match rest with
        | [] => mret (SimpleValidationError "auth.key" "missingSubcommand" "auth key requires a subcommand (add|retire)")
        | verb :: rest =>
            if verb =? "add" then cmdAuthKeyAdd pid ctx rest
            else if verb =? "retire" then cmdAuthKeyRetire pid ctx rest
            else mret (SimpleValidationError "auth.key" "unknownCommand" ("unknown auth key subcommand " +:+ GoQuote verb))
        end
      else if sub =? "token" then
        match rest with
        | verb :: rest =>
            if verb =? "issue" then cmdAuthTokenIssue ctx rest
            else mret (SimpleValidationError "auth.token" "unknownCommand" "unknown auth token subcommand")
        | [] => mret (SimpleValidationError "auth.token" "unknownCommand" "unknown auth token subcommand")
        end
      else mret (SimpleValidationError "auth" "unknownCommand" ("unknown auth subcommand " +:+ GoQuote sub))
  end.

Definition dispatchSub (ctx : Context) (args : list string) (group : string)
    (handlers : list (string * (Context -> list string -> M Outcome))) : M Outcome :=
  match args with
  | [] => mret (SimpleValidationError group "missingSubcommand" (group +:+ " requires a subcommand"))
  | sub :: rest =>
      match aget handlers sub with
      | None => mret (SimpleValidationError (group +:+ "." +:+ sub) "unknownCommand"
                        ("unknown " +:+ group +:+ " subcommand " +:+ GoQuote sub))
      | Some handler => handler ctx rest
      end
  end.

Definition dispatch (ctx : Context) (command : string) (rest : list string) : M Outcome :=
  if command =? "config" then
    dispatchSub ctx rest "config" [("validate", cmdConfigValidate); ("show", cmdConfigShow)]
  else if command =? "collection" then
    dispatchSub ctx rest "collection"
      [("create", cmdCollectionCreate); ("upgrade", cmdCollectionUpgrade); ("list", cmdCollectionList);
       ("show", cmdCollectionShow)]
  else if command =? "server" then
    dispatchSub ctx rest "server" [("list", cmdServerList); ("set", cmdServerSet pid); ("remove", cmdServerRemove pid)]
  else if command =? "shard-map" then
    dispatchSub ctx rest "shard-map" [("set", cmdShardMapSet pid); ("show", cmdShardMapShow)]
  else if command =? "general" then dispatchSub ctx rest "general" [("set", cmdGeneralSet pid)]
  else if command =? "auth" then dispatchAuth ctx rest
  else if command =? "search" then
    dispatchSub ctx rest "search"
      [("create", cmdSearchCreate); ("delete", cmdSearchDelete); ("list", cmdSearchList)]
  else if (command =? "help") || (command =? "--help") || (command =? "-h") then
    mret (mkOutcome (Some [("ok", EJ (JBool true))]) ExitOK "")
  else mret (SimpleValidationError "unknown" "unknownCommand" ("unknown command " +:+ GoQuote command)).

(** A flag, or else an environment variable. *)
Definition flag_or_env (args : list string) (name variable : string) : string * list string :=
  let '(value, args, _) := extractFlag args name in
  (if value =? "" then Getenv variable else value, args).

(** The options of a command line and the words that are left. *)
Definition parse_context (args : list string) (stdin : option string) : Context * list string :=
  let '(configDir, args, _) := extractFlag args "--config-dir" in
  let configDir := if configDir =? "" then "/db/.config" else configDir in
  let '(_, args, _) := extractFlag args "--data-dir" in
  let '(dryRun, args) := extractBoolFlag args "--dry-run" in
  let '(asJSON, args) := extractBoolFlag args "--json" in
  let '(quiet, args) := extractBoolFlag args "--quiet" in
  let '(yes, args) := extractBoolFlag args "--yes" in
  let '(establishmentURL, args) := flag_or_env args "--establishment-url" "DATORIUMDB_ESTABLISHMENT_URL" in
  let '(adminToken, args) := flag_or_env args "--admin-token" "DATORIUMDB_ADMIN_TOKEN" in
  let '(signingKeyFile, args) := flag_or_env args "--signing-key-file" "DATORIUMDB_SIGNING_KEY_FILE" in
  (mkContext (resolve configDir) establishmentURL adminToken signingKeyFile dryRun asJSON quiet yes stdin, args).

(** The outcome of a command line; [None] when there is no command, where the usage
    is printed and the exit code is [ExitValidation]. *)
Definition ctl_Run (args : list string) (stdin : option string) : M (option Outcome) :=
  match parse_context args stdin with
  | (_, []) => mret None
  | (ctx, command :: rest) => o ← dispatch ctx command rest; mret (Some o)
  end.

(** The exit code of the process. *)
Definition exit_code (o : option Outcome) : Z := match o with None => ExitValidation | Some o => OCode o end.
End catalog.
