(* ===== verification/CtlSpec.v ===== *)
(** * What the administrator's tool does to the configuration

    Whatever the command line and whatever system call fails: the tool changes
    nothing but the four configuration files and its lock; a run that reports a
    refusal or a dry run changes nothing but the lock; and whenever the version in
    [__general.json] moves, it moves by one and the files hold a configuration that
    passed the complete validation. *)

From S2P Require Import Prelude GoStrings World Shard Json Config Store ConfigLoad ConfigSpec Docjson Replication Engine Search Migrate EngineRead SchemaPatch Admin AdminSpec Establish Auth Ctl.

(** ** Loading reads the four files *)

Section loading.
Context `{E : Env} `{GT : GoTables} `{OJ : OJSON} `{GJ : GoJSON}.

Definition decodes_at {A : Type} (f : fs) (p : path) (dec : json -> result A) (v : A) : Prop :=
  exists text, content f p = Some text /\ result_bind (Unmarshal text) dec = Ok v.

Record holds (dir : path) (f : fs) (cfg : Config) : Prop := {
  ho_general : decodes_at f (generalPath dir) general_of_json (General cfg);
  ho_servers : decodes_at f (serversPath dir) servers_of_json (Servers cfg);
  ho_shardmap : decodes_at f (shardMapPath dir) shardmap_of_json (ShardMap cfg);
  ho_auth : decodes_at f (authPath dir) auth_of_json (Auth cfg);
}.

Definition sections (c : Config) := (General c, Servers c, ShardMap c, Auth c).

Lemma with_file_sections c f raw : sections (with_file c f raw) = sections c.
Proof. by destruct c, f. Qed.

Lemma load_entries_sections dir c l s :
  wp (load_entries dir c l) (fun r s' => st_fs s' = st_fs s /\ forall c', r = Ok c' -> sections c' = sections c) s.
Proof.
  revert c s. induction l as [|[n d] l IH]; intros c s; cbn [load_entries].
  { apply wp_ret. split; [done|]. by intros c' [= <-]. }
  destruct d; [apply IH|]. destruct (classify n) as [| | | | |] eqn:Ec;
    try (apply wp_rbind; eapply wp_mono; [apply ReadFile_spec|]; intros [raw|e] s1 [F1 _]; [|by split];
         eapply wp_mono; [apply IH|]; intros r s2 [F2 H2]; split; [congruence|]; intros c' Hc';
         rewrite (H2 c' Hc'); apply with_file_sections).
  apply IH.
Qed.

Lemma readJSON_spec {A} p (dec : json -> result A) s :
  wp (readJSON p dec) (fun r s' => st_fs s' = st_fs s /\ forall v, r = Ok v -> decodes_at (st_fs s) p dec v) s.
Proof.
  unfold readJSON. apply wp_rbind. eapply wp_mono; [apply ReadFile_spec|]. intros [d|e] s1 [F1 Hr]; [|by split].
  apply wp_ret. split; [done|]. intros v Hv. exists d. destruct Hr as [Hr|[? _]]; [|done]. split.
  - by apply fs_read_ok.
  - destruct (result_bind _ _); [by injection Hv as <-|done].
Qed.

Lemma loadUnvalidated_holds dir s :
  wp (loadUnvalidated dir) (fun r s' => st_fs s' = st_fs s /\ forall cfg, r = Ok cfg -> holds dir (st_fs s) cfg) s.
Proof.
  unfold loadUnvalidated.
  apply wp_rbind. eapply wp_mono; [apply readJSON_spec|]. intros [g|e] s1 [F1 H1]; [|by split].
  apply wp_rbind. eapply wp_mono; [apply readJSON_spec|]. intros [sv|e] s2 [F2 H2]; [|by split; [congruence|]].
  apply wp_rbind. eapply wp_mono; [apply readJSON_spec|]. intros [sm|e] s3 [F3 H3]; [|by split; [congruence|]].
  apply wp_rbind. eapply wp_mono; [apply readJSON_spec|]. intros [au|e] s4 [F4 H4]; [|by split; [congruence|]].
  apply wp_rbind. eapply wp_mono; [apply ReadDir_spec|]. intros [l|e] s5 [F5 _]; [|by split; [congruence|]].
  apply wp_rbind. eapply wp_mono; [apply load_entries_sections|]. intros [c|e] s6 [F6 H6]; [|by split; [congruence|]].
  apply wp_ret. split; [congruence|]. intros cfg [= <-]. specialize (H6 c eq_refl). unfold sections in H6. cbn in H6.
  injection H6 as E1 E2 E3 E4. destruct c. cbn in E1, E2, E3, E4. subst.
  rewrite F1 in *. rewrite F2 in *. rewrite F3 in *. rewrite F4 in *.
  split; cbn; [by apply H1|by apply H2|by apply H3|by apply H4].
Qed.
End loading.

(** ** What a change of one section writes *)

Inductive section := SGeneral | SServers | SShardMap | SAuth.

Definition section_file (dir : path) (cfg : Config) (sec : section) : list (path * json) :=
  match sec with
  | SGeneral => []
  | SServers => [(serversPath dir, servers_file cfg)]
  | SShardMap => [(shardMapPath dir, shardmap_file cfg)]
  | SAuth => [(authPath dir, auth_file cfg)]
  end.

(** [cfg'] is [cfg] but for one section; the version is not set directly. *)
Record differs_in (sec : section) (cfg cfg' : Config) : Prop := {
  di_version : Version (General cfg') = Version (General cfg);
  di_general : sec <> SGeneral -> General cfg' = General cfg;
  di_servers : sec <> SServers -> Servers cfg' = Servers cfg;
  di_shardmap : sec <> SShardMap -> ShardMap cfg' = ShardMap cfg;
  di_auth : sec <> SAuth -> Auth cfg' = Auth cfg;
}.

Section changes.
Context `{GoTables} `{OJSON} `{GoJSON}.
Variable dir : path.

Definition printed (v : json) : string := MarshalIndent v +:+ newline.

Definition next_general (cfg : Config) : json :=
  general_json (with_version (General cfg) (Version (General cfg) + 1)).

(** The plan of the candidate [cfg']. *)
Definition section_plan (sec : section) (cfg' : Config) : plan :=
  mkPlan (map (fun w => (fst w, printed (snd w))) (section_file dir cfg' sec) ++ [(generalPath dir, printed (next_general cfg'))]) [] [].

(** A change either refuses with a reason or has a validated candidate. *)
Definition sound_at (cfg : Config) (c : change fields) : Prop :=
  match c with
  | (None, _, errs) => errs <> []
  | (Some p, _, errs) => errs = [] /\ exists sec cfg',
      ValidateDetailed cfg' = [] /\ differs_in sec cfg cfg' /\ p = section_plan sec cfg'
  end.

Definition sound_change (mutate : Config -> change fields) : Prop := forall cfg, sound_at cfg (mutate cfg).

Lemma staged_sound sec cfg cfg' fs extra :
  differs_in sec cfg cfg' -> sound_at cfg (staged dir (section_file dir cfg' sec) fs extra cfg').
Proof.
  intros Hd. unfold staged. destruct (ValidateDetailed cfg') eqn:Ev; [|done].
  split; [done|]. exists sec, cfg'. split_and!; [done|done|]. by destruct sec.
Qed.

Lemma differs_servers cfg sv : differs_in SServers cfg (with_servers cfg sv).
Proof. by destruct cfg. Qed.
Lemma differs_shardmap cfg sm : differs_in SShardMap cfg (with_shardmap cfg sm).
Proof. by destruct cfg. Qed.
Lemma differs_auth cfg a : differs_in SAuth cfg (with_auth cfg a).
Proof. by destruct cfg. Qed.
Lemma differs_general cfg g : Version g = Version (General cfg) -> differs_in SGeneral cfg (with_general cfg g).
Proof. by destruct cfg. Qed.

Lemma change_general_sound name server r c st : sound_change (change_general dir name server r c st).
Proof.
  intros cfg. unfold change_general. destruct (match name with Some _ => _ | None => _ end) as [e1 n].
  destruct (positive_flag _ r _) as [e2 r'], (positive_flag _ c _) as [e3 c'], (positive_flag _ st _) as [e4 st'].
  destruct (_ ++ _); [|done]. by apply (staged_sound SGeneral), differs_general.
Qed.

Lemma change_server_sound name url : sound_change (change_server dir name url).
Proof. intros cfg. unfold change_server. do 2 (case_match; [done|]). apply (staged_sound SServers), differs_servers. Qed.

Lemma change_remove_sound ctx name : sound_change (change_remove dir ctx name).
Proof. intros cfg. unfold change_remove. do 4 (case_match; [done|]). apply (staged_sound SServers), differs_servers. Qed.

Lemma change_shardmap_sound parsed : sound_change (change_shardmap dir parsed).
Proof.
  intros cfg. unfold change_shardmap. destruct (ValidateShardMapBody _ _); [|done].
  apply (staged_sound SShardMap), differs_shardmap.
Qed.

Lemma staged_auth_sound fs cfg a : sound_at cfg (staged_auth dir fs cfg a).
Proof. apply (staged_sound SAuth), differs_auth. Qed.

Lemma change_auth_sound i a c m : sound_change (change_auth dir i a c m).
Proof. intros cfg. apply staged_auth_sound. Qed.

Lemma change_key_add_sound k : sound_change (change_key_add dir k).
Proof. intros cfg. unfold change_key_add. case_match; [done|]. apply staged_auth_sound. Qed.

Lemma change_key_retire_sound kid : sound_change (change_key_retire dir kid).
Proof.
  intros cfg. unfold change_key_retire. destruct (_ ≫= _) as [[idx k]|]; [|done].
  case_match; [done|]. apply staged_auth_sound.
Qed.
End changes.

(** ** The effect of a run *)

Lemma generalPath_at dir : generalPath dir = "__general.json" :: dir.
Proof. by apply join_plain1. Qed.
Lemma serversPath_at dir : serversPath dir = "__servers.json" :: dir.
Proof. by apply join_plain1. Qed.
Lemma shardMapPath_at dir : shardMapPath dir = "__shard-map.json" :: dir.
Proof. by apply join_plain1. Qed.
Lemma authPath_at dir : authPath dir = "__auth.json" :: dir.
Proof. by apply join_plain1. Qed.
Lemma lock_path_at dir : lock_path dir = ".datoriumctl.lock" :: dir.
Proof. by apply join_plain1. Qed.

Definition config_files (dir : path) : list path :=
  [generalPath dir; serversPath dir; shardMapPath dir; authPath dir].

Lemma config_files_plain dir : Forall (fun q => is_temp q = false /\ q <> lock_path dir) (config_files dir).
Proof.
  unfold config_files. rewrite generalPath_at, serversPath_at, shardMapPath_at, authPath_at, lock_path_at.
  repeat constructor; done.
Qed.

Lemma config_files_distinct dir : NoDup (config_files dir).
Proof.
  unfold config_files. rewrite generalPath_at, serversPath_at, shardMapPath_at, authPath_at.
  change (NoDup ((fun n => n :: dir) <$> ["__general.json"; "__servers.json"; "__shard-map.json"; "__auth.json"])).
  apply NoDup_fmap_2; [by intros n m [=]|]. by apply (bool_decide_unpack _).
Qed.

Lemma section_files_in dir cfg sec q :
  q ∈ map fst (section_file dir cfg sec) -> q ∈ config_files dir /\ q <> generalPath dir.
Proof.
  pose proof (config_files_distinct dir) as Hd. unfold config_files in *. apply NoDup_cons in Hd as [Hn _].
  rewrite !elem_of_cons, elem_of_nil in Hn.
  destruct sec; cbn [section_file map fst]; rewrite ?elem_of_cons, ?elem_of_nil; [by intros []|..];
    intros [->|[]]; (split; [tauto|]); intros Heq; apply Hn; rewrite Heq; tauto.
Qed.

Section effects.
Context `{E : Env} `{GT : GoTables} `{OJ : OJSON} `{GJ : GoJSON}.
Variable dir : path.

Notation lock := (lock_path dir).

(** A validated candidate, one section away from what was stored, is in place with
    the next version. *)
Definition updated (f f' : fs) : Prop :=
  exists cfg0 sec cfg, holds dir f cfg0 /\ differs_in sec cfg0 cfg /\ ValidateDetailed cfg = [] /\
    content f' (generalPath dir) = Some (printed (next_general cfg)) /\
    Forall (fun w => content f' (fst w) = Some (printed (snd w))) (section_file dir cfg sec) /\
    keeps (fun q => q ∈ lock :: generalPath dir :: map fst (section_file dir cfg sec) \/ is_temp q = true) f f'.

Record effect (code : Z) (mutation : bool) (f f' : fs) : Prop := {
  ef_area : keeps (fun q => q ∈ lock :: config_files dir \/ is_temp q = true) f f';
  ef_refused : code = ExitValidation \/ code = ExitDryRunComplete -> keeps (eq lock) f f';
  ef_version : content f' (generalPath dir) <> content f (generalPath dir) ->
    updated f f';
  ef_done : mutation = true -> code = ExitOK -> updated f f';
}.

Lemma config_kept f g q : keeps (eq lock) f g -> q ∈ config_files dir -> content g q = content f q.
Proof.
  intros K Hq. apply K. pose proof (config_files_plain dir) as Hp. rewrite Forall_forall in Hp.
  destruct (Hp q Hq) as [_ Hl]. congruence.
Qed.

Lemma holds_kept f g cfg : keeps (eq lock) f g -> holds dir g cfg -> holds dir f cfg.
Proof.
  intros K [H1 H2 H3 H4]. assert (forall q, q ∈ config_files dir -> content g q = content f q) as C
    by (intros q; by apply config_kept).
  unfold config_files in C. unfold decodes_at in *.
  rewrite (C (generalPath dir)) in H1 by (rewrite !elem_of_cons; tauto).
  rewrite (C (serversPath dir)) in H2 by (rewrite !elem_of_cons; tauto).
  rewrite (C (shardMapPath dir)) in H3 by (rewrite !elem_of_cons; tauto).
  rewrite (C (authPath dir)) in H4 by (rewrite !elem_of_cons; tauto). done.
Qed.

Lemma updated_frame f g g' f' :
  keeps (eq lock) f g -> updated g g' -> keeps (eq lock) g' f' -> updated f f'.
Proof.
  intros K1 (cfg0 & sec & cfg & Hh & Hd & Hv & Hg & Hs & Hk) K2. exists cfg0, sec, cfg.
  split_and!; [by eapply holds_kept|done|done| | |].
  - rewrite (config_kept _ _ _ K2); [done|]. by left.
  - rewrite Forall_forall in Hs |- *. intros w Hw. rewrite (config_kept _ _ _ K2); [by apply Hs|].
    eapply section_files_in. apply list_elem_of_fmap. by exists w.
  - eapply keeps_trans; [eapply keeps_mono; [exact K1|]|eapply keeps_trans; [exact Hk|eapply keeps_mono; [exact K2|]]];
      intros q <-; left; by left.
Qed.

Lemma effect_frame code m f g g' f' :
  keeps (eq lock) f g -> effect code m g g' -> keeps (eq lock) g' f' -> effect code m f f'.
Proof.
  intros K1 [Ha Hr Hv Hd] K2.
  assert (forall a b : fs, keeps (eq lock) a b -> keeps (fun q => q ∈ lock :: config_files dir \/ is_temp q = true) a b) as W.
  { intros a b K. eapply keeps_mono; [exact K|]. intros q <-. left. by left. }
  split.
  - eapply keeps_trans; [by apply W|]. eapply keeps_trans; [exact Ha|by apply W].
  - intros Hc. eapply keeps_trans; [exact K1|]. eapply keeps_trans; [by apply Hr|done].
  - intros Hc. eapply updated_frame; [done| |done]. apply Hv.
    rewrite (config_kept _ _ _ K1), <-(config_kept _ _ _ K2); [done|by left|by left].
  - intros Hm Hc. eapply updated_frame; [done| |done]. by apply Hd.
Qed.

Lemma effect_nothing code f f' : keeps (eq lock) f f' -> effect code false f f'.
Proof.
  intros K. split; [|done| |done].
  - eapply keeps_mono; [exact K|]. intros q <-. left. by left.
  - intros Hc. exfalso. apply Hc, config_kept; [done|by left].
Qed.

(** A code other than success claims nothing more for a change. *)
Lemma effect_refused code m f f' : code <> ExitOK -> effect code false f f' -> effect code m f f'.
Proof. intros Hc [Ha Hr Hv _]. by split. Qed.

Lemma section_plan_ok sec cfg : plan_ok (section_plan dir sec cfg).
Proof.
  assert (map fst (writes (section_plan dir sec cfg)) = map fst (section_file dir cfg sec) ++ [generalPath dir]) as Hw.
  { unfold section_plan. cbn [writes]. rewrite map_app, map_map. done. }
  pose proof (config_files_plain dir) as Hp. rewrite Forall_forall in Hp. split; [| |done].
  - rewrite Hw. apply NoDup_app. split_and!; [by destruct sec; repeat constructor; rewrite ?elem_of_nil; auto| |by apply NoDup_singleton].
    intros q Hq Hg%list_elem_of_singleton. by apply section_files_in in Hq as [_ ?].
  - apply Forall_forall. intros w Hin.
    assert (fst w ∈ map fst (section_file dir cfg sec) ++ [generalPath dir]) as Hf.
    { rewrite <-Hw. apply list_elem_of_fmap. by exists w. }
    apply elem_of_app in Hf as [Hf|Hf]; [apply section_files_in in Hf as [Hf _]; by apply Hp|].
    apply list_elem_of_singleton in Hf as ->. apply Hp. by left.
Qed.

Lemma committed_effect sec cfg0 cfg ok f f' :
  holds dir f cfg0 -> differs_in sec cfg0 cfg -> ValidateDetailed cfg = [] ->
  committed (section_plan dir sec cfg) ok f f' ->
  effect (if ok then ExitOK else ExitRuntime) true f f'.
Proof.
  intros Hh Hd Hv [Ca Cd Cl Cc]. set (files := section_file dir cfg sec) in *.
  assert (forall q, q ∈ map fst (writes (section_plan dir sec cfg)) -> q = generalPath dir \/ q ∈ map fst files) as Hw.
  { intros q. unfold section_plan. cbn [writes]. rewrite map_app, map_map, elem_of_app. intros [Hq|Hq]; [by right|left]. by apply list_elem_of_singleton in Hq. }
  assert (keeps (fun q => q ∈ lock :: generalPath dir :: map fst files \/ is_temp q = true) f f') as Ka.
  { eapply keeps_mono; [exact Ca|]. intros q [Hq|[Hq|Hq]]; [left|by apply elem_of_nil in Hq|by right].
    rewrite !elem_of_cons. apply Hw in Hq. tauto. }
  assert (Forall (fun w => in_place f' w) (writes (section_plan dir sec cfg)) -> updated f f') as Hup.
  { intros Hin. unfold section_plan in Hin. cbn [writes] in Hin. apply Forall_app in Hin as [Hs Hg].
    apply Forall_cons in Hg as [Hg _]. exists cfg0, sec, cfg. split_and!; [done..|exact Hg| |exact Ka].
    apply Forall_forall. intros w Hin. apply (proj1 (Forall_forall _ _) Hs (fst w, printed (snd w))).
    apply list_elem_of_fmap. by exists w. }
  split.
  - eapply keeps_mono; [exact Ka|]. intros q [Hq|Hq]; [left|by right]. rewrite !elem_of_cons in *.
    destruct Hq as [->|[->|Hq]]; [by left|right; by left|]. right. by apply section_files_in in Hq as [? _].
  - destruct ok; intros [|]; discriminate.
  - intros Hc. set (w := (generalPath dir, printed (next_general cfg))).
    assert (w ∈ writes (section_plan dir sec cfg)) as Hin by (apply elem_of_app; right; by left).
    assert (is_general w = true) as Hgen by by unfold w; rewrite generalPath_at.
    destruct (Cl w Hin Hgen Hc) as [Hall _]. apply Hup. rewrite Forall_forall in Hall |- *. intros w' Hw'.
    destruct (is_general w') eqn:Hg'; [|by apply Hall]. unfold section_plan in Hw'. cbn [writes] in Hw'.
    apply elem_of_app in Hw' as [Hw'|Hw']; [|apply list_elem_of_singleton in Hw' as ->; by apply Cc].
    exfalso. revert Hw' Hg'. destruct sec; cbn [section_file map fst snd]; rewrite ?list_elem_of_singleton, ?elem_of_nil;
      [done|intros ->..]; by rewrite ?serversPath_at, ?shardMapPath_at, ?authPath_at.
  - intros _ Hok. destruct ok; [|done]. apply Hup. by apply Cd.
Qed.
End effects.

(** ** Every command *)

(** The words that change the configuration directory. *)
Definition is_change (words : list string) : bool :=
  match words with
  | command :: sub :: rest =>
      (command =? "server") && ((sub =? "set") || (sub =? "remove")) ||
      (command =? "shard-map") && (sub =? "set") || (command =? "general") && (sub =? "set") ||
      (command =? "auth") && ((sub =? "set") || (sub =? "key") &&
        match rest with verb :: _ => (verb =? "add") || (verb =? "retire") | [] => false end)
  | _ => false
  end.

Section commands.
Context `{E : Env} `{GT : GoTables} `{OJ : OJSON} `{GJ : GoJSON} `{GF : GoFloat} `{Op : Operator} `{JX : JWX}.
Variables (ulid_ok : string -> bool) (pid : string).

Notation effects ctx m mutation s :=
  (wp m (fun o s' => effect (ConfigDir ctx) (OCode o) mutation (st_fs s) (st_fs s')) s).

(** A program that leaves every file as it is. *)
Definition calmly {A} (m : M A) : Prop := forall s, wp m (fun _ s' => st_fs s' = st_fs s) s.

Lemma calmly_ret {A} (a : A) : calmly (mret a).
Proof. by intros s. Qed.

Lemma calmly_bind {A B} (m : M A) (k : A -> M B) : calmly m -> (forall a, calmly (k a)) -> calmly (m ≫= k).
Proof.
  intros Hm Hk s. apply wp_bind. eapply wp_mono; [apply Hm|]. intros a s1 F1.
  eapply wp_mono; [apply Hk|]. intros b s2 F2. congruence.
Qed.

Lemma calmly_read p : calmly (ReadFile p).
Proof. intros s. eapply wp_mono; [apply ReadFile_spec|]. by intros r s1 [F1 _]. Qed.

Lemma calmly_load dir : calmly (loadUnvalidated dir).
Proof. intros s. apply loadUnvalidated_keeps. Qed.

Lemma calmly_effect ctx (m : M Outcome) s : calmly m -> effects ctx m false s.
Proof. intros Hm. eapply wp_mono; [apply Hm|]. intros o s1 F1. apply effect_nothing. by intros q _; rewrite F1. Qed.

Lemma refusal_effect ctx o mutation s : OCode o = ExitValidation -> effects ctx (mret o) mutation s.
Proof. intros Ho. apply wp_ret. rewrite Ho. apply effect_refused; [done|]. by apply effect_nothing. Qed.

Lemma ctl_runMutation_effect ctx command mutate s :
  sound_change (ConfigDir ctx) mutate -> effects ctx (ctl_runMutation pid ctx command mutate) true s.
Proof.
  intros Hsound. unfold ctl_runMutation. apply wp_bind. eapply wp_mono; [apply acquireLock_spec|].
  intros [[e|]|p] s1 [K1 Hp];
    [by apply wp_ret, effect_refused, effect_nothing..|]. rewrite (Hp p eq_refl). clear p Hp. unfold locked.
  apply wp_bind. eapply (wp_mono _ (fun o s' => effect (ConfigDir ctx) (OCode o) true (st_fs s1) (st_fs s'))).
  - unfold mutate_locked. apply wp_bind. eapply wp_mono; [apply loadUnvalidated_holds|]. intros [cfg0|e] s2 [F2 Hh].
    2: { rewrite <-F2. destruct (is_not_exist e); by apply wp_ret, effect_refused, effect_nothing. }
    specialize (Hh cfg0 eq_refl). rewrite <-F2 in Hh |- *. specialize (Hsound cfg0).
    destruct (mutate cfg0) as [[[p|] fs] errs]; cbn [sound_at] in Hsound.
    2: { destruct errs; [done|]. by apply wp_ret, effect_refused, effect_nothing. }
    destruct Hsound as (-> & sec & cfg & Hv & Hd & ->). destruct (DryRun ctx).
    { by apply wp_ret, effect_refused, effect_nothing. }
    apply wp_bind. eapply wp_mono; [apply commit_spec, section_plan_ok|]. intros r s3 C.
    apply (committed_effect _ _ _ _ _ _ _ Hh Hd Hv) in C. by destruct r.
  - intros o s2 He. apply wp_bind. eapply wp_mono; [apply Remove_spec|]. intros r3 s3 F3. apply wp_ret.
    eapply effect_frame; [exact K1|exact He|]. destruct r3; rewrite F3; [by apply keeps_delete|done].
Qed.
(** Commands that only read. *)
Ltac calm := repeat first
  [ apply calmly_ret | apply calmly_read | apply calmly_load
  | progress unfold loadReadOnly, rbind | apply calmly_bind; [|intros ?] | case_match ].

Lemma calmly_issuer cfg file : calmly (NewIssuerFromFile cfg file).
Proof. unfold NewIssuerFromFile, loadEd25519PrivateKeyPEM. calm. Qed.

Lemma calmly_post ctx command target parameter detail : calmly (postAdminCommand ctx command target parameter detail).
Proof.
  unfold postAdminCommand, adminEndpoint, resolveAdminToken. destruct (DryRun ctx); [calm|].
  apply calmly_bind; [|intros [o|[url token]]; calm]. destruct (_ =? ""); [calm|].
  apply calmly_bind; [|intros; calm]. do 2 (case_match; [calm|]). apply calmly_bind; [calm|].
  intros [cfg|e]; [|calm]. apply calmly_bind; [apply calmly_issuer|]. intros; calm.
Qed.

Lemma calmly_send ctx name command target parameter raw detail :
  calmly (send_object ctx name command target parameter raw detail).
Proof. unfold send_object. destruct (parseJSONObject raw); [|calm]. apply calmly_bind; [apply calmly_post|]. intros; calm. Qed.

Lemma calmly_token ctx args : calmly (cmdAuthTokenIssue ctx args).
Proof.
  unfold cmdAuthTokenIssue. destruct (extractFlag args _) as [[? ?] ?], (extractFlag _ _) as [[? ?] ?], (extractFlag _ _) as [[? ?] ?].
  destruct (fst _); [|calm]. do 2 (case_match; [calm|]). unfold loadReadOnly. apply calmly_bind; [calm|]. intros [cfg|e]; [|calm].
  do 2 (case_match; [calm|]). apply calmly_bind; [apply calmly_issuer|]. intros [i|e]; calm.
Qed.

Lemma calmly_catalog ctx args :
  calmly (cmdCollectionCreate ctx args) /\ calmly (cmdCollectionUpgrade ulid_ok ctx args) /\
  calmly (cmdSearchCreate ctx args) /\ calmly (cmdSearchDelete ctx args).
Proof.
  unfold cmdCollectionCreate, cmdCollectionUpgrade, cmdSearchCreate, cmdSearchDelete.
  split_and!; repeat first [apply calmly_send | apply calmly_post | calm].
Qed.

(** Commands that change the configuration. *)
Ltac refusal := by apply refusal_effect.

Lemma cmdGeneralSet_effect ctx args s : effects ctx (cmdGeneralSet pid ctx args) true s.
Proof.
  unfold cmdGeneralSet. destruct (extractFlag args _) as [[? ?] ?], (extractFlag _ _) as [[? ?] ?].
  destruct (extractIntFlag _ _) as [[r|e] ?]; [|refusal]. destruct (extractIntFlag _ _) as [[c|e] ?]; [|refusal].
  destruct (extractIntFlag _ _) as [[f|e] ?]; [|refusal]. apply ctl_runMutation_effect, change_general_sound.
Qed.

Lemma cmdServerSet_effect ctx args s : effects ctx (cmdServerSet pid ctx args) true s.
Proof.
  unfold cmdServerSet. destruct (extractFlag args _) as [[url [|name ?]] hasURL]; [refusal|]. case_match; [refusal|].
  apply ctl_runMutation_effect, change_server_sound.
Qed.

Lemma cmdServerRemove_effect ctx args s : effects ctx (cmdServerRemove pid ctx args) true s.
Proof. destruct args; [refusal|]. apply ctl_runMutation_effect, change_remove_sound. Qed.

(** A file is read, and then the configuration changed. *)
Lemma read_then ctx p (k : result string -> M Outcome) s :
  (forall r s', effects ctx (k r) true s') -> effects ctx (ReadFile p ≫= k) true s.
Proof.
  intros Hk. apply wp_bind. eapply wp_mono; [apply calmly_read|]. intros r s1 F1. rewrite <-F1. apply Hk.
Qed.

Lemma cmdShardMapSet_effect ctx args s : effects ctx (cmdShardMapSet pid ctx args) true s.
Proof.
  unfold cmdShardMapSet. destruct args as [|file args]; [refusal|]. apply read_then. intros [raw|e] s'; [|refusal].
  destruct (parse_shardmap raw) as [[[] parsed]|e]; [refusal| |refusal]. apply ctl_runMutation_effect, change_shardmap_sound.
Qed.

Lemma cmdAuthSet_effect ctx args s : effects ctx (cmdAuthSet pid ctx args) true s.
Proof.
  unfold cmdAuthSet. destruct (extractFlag args _) as [[? ?] ?], (extractFlag _ _) as [[? ?] ?].
  destruct (extractIntFlag _ _) as [[r|e] ?]; [|refusal]. destruct (extractIntFlag _ _) as [[c|e] ?]; [|refusal].
  apply ctl_runMutation_effect, change_auth_sound.
Qed.

Lemma check_material_code alg kid m o : check_material alg kid m = Some o -> OCode o = ExitValidation.
Proof. unfold check_material. repeat case_match; by intros [= <-]. Qed.

Lemma cmdAuthKeyAdd_effect ctx args s : effects ctx (cmdAuthKeyAdd pid ctx args) true s.
Proof.
  unfold cmdAuthKeyAdd. destruct (extractFlag args _) as [[? ?] ?], (extractFlag _ _) as [[? ?] ?].
  destruct (extractFlag _ _) as [[? ?] ?], (extractFlag _ _) as [[? ?] ?]. case_match; [refusal|].
  case_match; [refusal|]. apply read_then. intros [raw|e] s'; [|refusal].
  destruct (check_material _ _ _) eqn:Em; [apply refusal_effect; by eapply check_material_code|].
  apply ctl_runMutation_effect, change_key_add_sound.
Qed.

Lemma cmdAuthKeyRetire_effect ctx args s : effects ctx (cmdAuthKeyRetire pid ctx args) true s.
Proof. destruct args; [refusal|]. apply ctl_runMutation_effect, change_key_retire_sound. Qed.

Lemma dispatchAuth_effect ctx args s : effects ctx (dispatchAuth pid ctx args) (is_change ("auth" :: args)) s.
Proof.
  unfold dispatchAuth. destruct args as [|sub rest]; [refusal|].
  destruct (String.eqb_spec sub "show") as [->|]; [apply calmly_effect; unfold cmdAuthShow; calm|].
  destruct (String.eqb_spec sub "set") as [->|]; [apply cmdAuthSet_effect|].
  destruct (String.eqb_spec sub "key") as [->|].
  { destruct rest as [|verb rest]; [refusal|].
    destruct (String.eqb_spec verb "add") as [->|]; [apply cmdAuthKeyAdd_effect|].
    destruct (String.eqb_spec verb "retire") as [->|]; [apply cmdAuthKeyRetire_effect|refusal]. }
  destruct (String.eqb_spec sub "token") as [->|]; [|refusal].
  destruct rest as [|verb rest]; [refusal|]. destruct (verb =? "issue"); [|refusal].
  apply calmly_effect, calmly_token.
Qed.

Lemma dispatchSub_effect ctx args group handlers s :
  Forall (fun h => forall rest, effects ctx (snd h ctx rest) (is_change (group :: fst h :: rest)) s) handlers ->
  effects ctx (dispatchSub ctx args group handlers) (is_change (group :: args)) s.
Proof.
  intros Hall. unfold dispatchSub. destruct args as [|sub rest]; [refusal|].
  destruct (aget handlers sub) as [h|] eqn:Eh; [|refusal]. apply aget_Some_in in Eh.
  rewrite Forall_forall in Hall. apply (Hall _ Eh).
Qed.

Lemma dispatch_effect ctx command rest s :
  effects ctx (dispatch ulid_ok pid ctx command rest) (is_change (command :: rest)) s.
Proof.
  unfold dispatch. assert (forall args, _) as Hcat by exact (calmly_catalog ctx).
  destruct (String.eqb_spec command "config") as [->|].
  { apply dispatchSub_effect. repeat constructor; intros args; apply calmly_effect;
      unfold cmdConfigValidate, cmdConfigShow; calm. }
  destruct (String.eqb_spec command "collection") as [->|].
  { apply dispatchSub_effect. repeat constructor; intros args; apply calmly_effect; [apply Hcat..| |];
      unfold cmdCollectionList, cmdCollectionShow; cbn [snd]; calm. }
  destruct (String.eqb_spec command "server") as [->|].
  { apply dispatchSub_effect. repeat constructor; intros args; [|apply cmdServerSet_effect|apply cmdServerRemove_effect].
    apply calmly_effect. unfold cmdServerList. calm. }
  destruct (String.eqb_spec command "shard-map") as [->|].
  { apply dispatchSub_effect. repeat constructor; intros args; [apply cmdShardMapSet_effect|].
    apply calmly_effect. unfold cmdShardMapShow. calm. }
  destruct (String.eqb_spec command "general") as [->|].
  { apply dispatchSub_effect. repeat constructor. intros args. apply cmdGeneralSet_effect. }
  destruct (String.eqb_spec command "auth") as [->|]; [apply dispatchAuth_effect|].
  destruct (String.eqb_spec command "search") as [->|].
  { apply dispatchSub_effect. repeat constructor; intros args; apply calmly_effect; [apply Hcat..|].
    unfold cmdSearchList. cbn [snd]. calm. }
  destruct (_ || _) eqn:Eh; [|refusal].
  replace (is_change (command :: rest)) with false; [by apply calmly_effect, calmly_ret|].
  destruct rest; [done|]. unfold is_change. by rewrite !(proj2 (String.eqb_neq command _)) by done.
Qed.

(** C17: whatever the command line and whatever system call fails, the tool changes
    no file but the four configuration files, its lock and temporary files; a run
    that ends in a refusal or as a dry run changes none but the lock; and when
    [__general.json] changes, or a command that is meant to change the configuration
    reports success, then the stored configuration was decoded from the four files,
    one section of it was replaced, the whole passed the validation, its changed
    section is in place together with a [__general.json] of the next version, and
    nothing else was touched. *)
Theorem ctl_commits_validated args stdin s :
  wp (ctl_Run ulid_ok pid args stdin) (fun o s' =>
    let (ctx, words) := parse_context args stdin in
    effect (ConfigDir ctx) (exit_code o) (is_change words) (st_fs s) (st_fs s')) s.
Proof.
  unfold ctl_Run. destruct (parse_context args stdin) as [ctx [|command rest]].
  - apply wp_ret. cbn. apply effect_nothing. done.
  - apply wp_bind. eapply wp_mono; [apply dispatch_effect|]. intros o s' He. by apply wp_ret.
Qed.
End commands.
