(* ===== verification/HttpServer.v ===== *)
(** * Package server: the HTTP interface

    [internal/server/http.go] and [http_command.go]: authentication of requests,
    machine tokens, the command endpoint with its JSON and multipart forms, the
    establishment document, historic schemas and the delivery of document writes.
    The handlers behind the other endpoints are in [Replication], [FileRepl],
    [Cache] and [ChangeAgent].

    A request has the headers the handlers look at and a body that comes in pieces.
    Media types and multipart bodies are parsed by [HttpLib].  A handler runs on
    the files of its server, at the time [now], and gives its reply and the server
    it leaves: the configuration may have been loaded on the way. *)

From S2P Require Import Prelude GoStrings Sha256 World Shard Json Config Store Attach ConfigLoad Docjson Replication Operation FileRepl.
From S2P Require Import Engine EngineFiles HttpRange Search EngineRead Migrate SchemaPatch Admin Establish Auth.

Record HttpRequest := mkHttp {
  HrAuthorization : string;
  HrContentType : string;
  HrRange : string;
  HrBody : source;
}.

Record form_part := mkPart {
  PtName : string;
  PtContentType : string;
  PtBody : source;
}.

(** [mime.ParseMediaType], and the parts [multipart.Reader] finds in a body until
    it reports the end of the body or an error. *)
Class HttpLib := {
  ParseMediaType : string -> result (string * list (string * string));
  FormParts : string -> source -> list form_part * option error;
}.

Definition maxCommandBodyBytes : Z := 1048576.
Definition maxAuthRequestBodyBytes : Z := 16384.

(** ** Bodies *)

Definition body_text (s : source) : string := foldr String.append "" (pieces s).

Definition max_bytes_error : error := errorf "http: request body too large".

(** The first [n] bytes of a sequence of pieces, and whether there were more. *)
Fixpoint cut_pieces (n : nat) (l : list string) : list string * bool :=
  match l with
  | [] => ([], false)
  | c :: l' =>
      if (String.length c <=? n)%nat then
        let '(l2, more) := cut_pieces (n - String.length c) l' in (c :: l2, more)
      else ([str_take n c], true)
  end.

(** [http.MaxBytesReader]. *)
Definition MaxBytesReader (limit : Z) (s : source) : source :=
  let '(l, more) := cut_pieces (Z.to_nat limit) (pieces s) in
  if more then mkSource l true (Some max_bytes_error) else mkSource l (eager s) (ending s).

Definition readBodyLimited (body : source) (limit : Z) : EError + string :=
  if (limit <? Z.of_nat (String.length (body_text body)))%Z then
    inl (mk_err "bodyTooLarge" ("request body exceeds the " +:+ Itoa limit +:+ " byte limit"))
  else
    match ending body with
    | Some e => inl (mk_err "invalidRequest" (err_msg e))
    | None => inr (body_text body)
    end.

Definition toEnvelopeError (e : AuthError) : EError := mk_err (AeCode e) (AeMessage e).

(** A refusal without fields, or with [fs]. *)
Definition refuse (fs : fields) (e : EError) : Reply := writeJSON (Fail fs [e]).

Definition writeJSONStatus (status : Z) (hs : list (string * string)) (r : Envelope) : Reply :=
  mkReply status (hs ++ [("Content-Type", "application/json")]) (JsonBody r).

(** The reply when [Encode] fails on a stored text that is not JSON: the error is
    dropped after the status line went out. *)
Definition empty_reply : Reply := mkReply 200 [("Content-Type", "application/json")] (FileBody 0 "").

(** ** The server *)

(** [HsLoaded]: [Engine.Cfg] is not nil. *)
Record HTTPServer := mkServer {
  HsEngine : Engine;
  HsLoaded : bool;
  HsConfigDir : path;
  HsIssuer : option TokenIssuer;
  HsBootstrapSecret : string;
}.

Section server.
Context `{Env} `{GoTables} `{OJSON} `{GoJSON} `{GoFloat} `{Net} `{FileNet} `{JWX} `{HttpLib}.
(** As in [Admin]: the ULID parser, [%q] of package fmt, the process identifier. *)
Variable ulid_ok : string -> bool.
Variable quote : string -> string.
Variable pid : string.

Definition with_engine (s : HTTPServer) (e : Engine) : HTTPServer :=
  mkServer e true (HsConfigDir s) (HsIssuer s) (HsBootstrapSecret s).

Definition isJSONContentType (contentType : string) : bool :=
  match ParseMediaType contentType with Ok (mt, _) => mt =? "application/json" | Err _ => false end.

Definition json_required : Reply :=
  refuse [] (mk_err "contentTypeRequired" "Content-Type must be application/json").

(** The configuration, loaded when it is not there yet. *)
Definition ensure_config (s : HTTPServer) : M (EError + HTTPServer) :=
  if HsLoaded s then mret (inr s)
  else
    r ← Reload (HsConfigDir s) (HsEngine s);
    match r with
    | Err err => mret (inl (mk_err "configError" (err_msg err)))
    | Ok e => mret (inr (with_engine s e))
    end.

(** ** Authentication *)

Definition currentValidator (s : HTTPServer) : M ((EError + Validator) * HTTPServer) :=
  r ← ensure_config s;
  match r with
  | inl err => mret (inl err, s)
  | inr s =>
      match NewValidator (Auth (ECfg (HsEngine s))) with
      | Err err => mret (inl (mk_err "configError" (err_msg err)), s)
      | Ok v => mret (inr v, s)
      end
  end.

Definition authenticate (s : HTTPServer) (now : Z) (r : HttpRequest) : M ((EError + Claims) * HTTPServer) :=
  '(v, s) ← currentValidator s;
  match v with
  | inl err => mret (inl err, s)
  | inr v =>
      match ParseBearer v now (HrAuthorization r) with
      | inl err => mret (inl (toEnvelopeError err), s)
      | inr claims => mret (inr claims, s)
      end
  end.

Definition withAuth (next : HTTPServer -> HttpRequest -> Claims -> M (Reply * HTTPServer))
    (s : HTTPServer) (now : Z) (r : HttpRequest) : M (Reply * HTTPServer) :=
  '(c, s) ← authenticate s now r;
  match c with
  | inl err => mret (refuse [] err, s)
  | inr claims => next s r claims
  end.

(** The request of the machine-token endpoint: server name and bootstrap secret. *)
Definition token_request (body : string) : result (string * string) :=
  if TrimSpace body =? "" then Ok ("", "")
  else
    result_bind (Unmarshal body) (fun v =>
    result_bind (struct_value v) (fun v =>
    result_bind (string_field v "serverName") (fun name =>
    result_bind (string_field v "bootstrapSecret") (fun secret => Ok (name, secret))))).

(** What the machine-token endpoint requires before it issues. *)
Definition token_allowed (s : HTTPServer) (now : Z) (authorization name secret : string)
    : M (option EError * HTTPServer) :=
  if authorization <>? "" then
    '(v, s) ← currentValidator s;
    match v with
    | inl err => mret (Some err, s)
    | inr v =>
        match ParseBearer v now authorization with
        | inl err => mret (Some (toEnvelopeError err), s)
        | inr claims => mret (toEnvelopeError <$> RequireMachine claims name, s)
        end
    end
  else if secret <>? "" then
    if (HsBootstrapSecret s =? "") || (secret <>? HsBootstrapSecret s)
    then mret (Some (mk_err "invalidBootstrapSecret" "bootstrap secret is invalid"), s)
    else mret (None, s)
  else mret (Some (mk_err "unauthenticated" "bootstrapSecret or an Authorization bearer token is required"), s).

(** The lifetime is a whole number of seconds, unless the configured number of
    seconds does not fit a [time.Duration]. *)
Definition handleMachineToken (s : HTTPServer) (now : Z) (r : HttpRequest) : M (Reply * HTTPServer) :=
  if negb (isJSONContentType (HrContentType r)) then mret (json_required, s)
  else
    match readBodyLimited (HrBody r) maxAuthRequestBodyBytes with
    | inl err => mret (refuse [] err, s)
    | inr body =>
        match token_request body with
        | Err err => mret (refuse [] (mk_err "invalidRequest" (err_msg err)), s)
        | Ok (name, secret) =>
            if name =? "" then
              mret (refuse [] (mkEError "invalidRequest" "/serverName" "serverName is required" None None), s)
            else
              '(denied, s) ← token_allowed s now (HrAuthorization r) name secret;
              match denied, HsIssuer s with
              | Some err, _ => mret (refuse [] err, s)
              | None, None =>
                  mret (refuse [] (mk_err "machineTokenIssuanceUnavailable"
                    "this server does not hold a signing key and cannot issue machine tokens"), s)
              | None, Some i =>
                  match IssueMachineToken i now name 0 with
                  | Err err => mret (refuse [] (mk_err "tokenIssuanceFailed" (err_msg err)), s)
                  | Ok (token, lifetime) =>
                      mret (writeJSON (OK [("token", JStr token);
                                           ("expiresIn", JNum (Itoa (Z.quot lifetime nanoseconds)))]), s)
                  end
              end
        end
    end.

(** ** Liveness, the establishment document and historic schemas *)

Definition handleHealth : Reply := writeJSON (OK [("alive", JBool true)]).

Definition handleReady (s : HTTPServer) : Reply :=
  if negb (HsLoaded s) then
    refuse [("ready", JBool false)] (mk_err "notReady" "establishment config is not loaded yet")
  else writeJSON (OK [("ready", JBool true); ("generalVersion", JNum (Itoa (Version (General (ECfg (HsEngine s))))))]).

Definition handleEstablish (s : HTTPServer) (r : HttpRequest) (claims : Claims) : M (Reply * HTTPServer) :=
  r ← Reload (HsConfigDir s) (HsEngine s);
  match r with
  | Err err => mret (refuse [] (mk_err "configError" (err_msg err)), s)
  | Ok e =>
      mret (match EstablishDocument (ECfg e) with Ok fs => writeJSON (OK fs) | Err _ => empty_reply end,
            with_engine s e)
  end.

Definition handleSchemaHistory (collection verRaw : string) (s : HTTPServer) (r : HttpRequest) (claims : Claims)
    : M (Reply * HTTPServer) :=
  match Atoi verRaw with
  | None =>
      mret (refuse [("collection", JStr collection)]
              (mkEError "invalidRequest" "/ver" "version must be an integer" None (Some (JStr verRaw))), s)
  | Some ver =>
      c ← ensure_config s;
      match c with
      | inl err => mret (refuse [] err, s)
      | inr s =>
          match aget (SchemaHistory (ECfg (HsEngine s))) collection with
          | None => mret (refuse [("collection", JStr collection)]
                            (mk_err "collectionNotFound" "collection does not exist"), s)
          | Some history =>
              match zget history ver with
              | None =>
                  mret (refuse [("collection", JStr collection); ("version", JNum (Itoa ver))]
                          (mk_err "schemaVersionNotFound" "no historic schema found for that version"), s)
              | Some raw =>
                  mret (match Unmarshal raw with
                        | Ok v => writeJSON (OK [("collection", JStr collection); ("version", JNum (Itoa ver)); ("schema", v)])
                        | Err _ => empty_reply
                        end, s)
              end
          end
      end
  end.

(** ** Server to server *)

Definition handleSysPing (serverName : string) (s : HTTPServer) (r : HttpRequest) (claims : Claims)
    : M (Reply * HTTPServer) :=
  mret (match RequireMachine claims serverName with
        | Some err => refuse [("serverName", JStr serverName)] (toEnvelopeError err)
        | None => writeJSON (OK [("pong", JBool true); ("serverName", JStr serverName)])
        end, s).

Definition applyDocumentWriteRequest (body : string) : result (string * DocumentWorkItem) :=
  result_bind (Unmarshal body) (fun v =>
  result_bind (struct_value v) (fun v =>
  result_bind (string_field v "targetServer") (fun target =>
  result_bind (item_field v "item") (fun item => Ok (target, item))))).

Definition handleApplyDocumentWrite (s : HTTPServer) (r : HttpRequest) (claims : Claims) : M (Reply * HTTPServer) :=
  if negb (isJSONContentType (HrContentType r)) then mret (json_required, s)
  else
    match readBodyLimited (HrBody r) maxCommandBodyBytes with
    | inl err => mret (refuse [] err, s)
    | inr body =>
        match applyDocumentWriteRequest body with
        | Err err => mret (refuse [] (mk_err "invalidRequest" (err_msg err)), s)
        | Ok (target, item) =>
            if target =? "" then
              mret (refuse [] (mkEError "invalidRequest" "/targetServer" "targetServer is required" None None), s)
            else
              match RequireMachine claims "" with
              | Some err => mret (refuse [("targetServer", JStr target)] (toEnvelopeError err), s)
              | None =>
                  if target <>? EServerName (HsEngine s) then
                    mret (refuse [("targetServer", JStr target)]
                      (mkEError "targetServerMismatch" "" "this delivery is not addressed to this server"
                         (Some (JStr (EServerName (HsEngine s)))) (Some (JStr target))), s)
                  else
                    a ← Apply (EDataDir (HsEngine s)) item;
                    mret (match a with
                          | Err err => refuse [("operationId", JStr (OperationID item))]
                                         (mk_err "applyFailed" (err_msg err))
                          | Ok applied => writeJSON (OK [("applied", JBool applied); ("operationId", JStr (OperationID item))])
                          end, s)
              end
        end
    end.

(** ** Commands *)

(** [Seek] in an open file. *)
Definition Seek : M (result unit) := sys (fun f => (Ok tt, f)) nothing.

(** [bytes first-last/size]. *)
Definition content_range (start len size : Z) : string :=
  "bytes " +:+ Itoa start +:+ "-" +:+ Itoa (start + len - 1) +:+ "/" +:+ Itoa size.

Definition handleFileReadCommand (e : Engine) (r : HttpRequest) (req : Request) : M Reply :=
  match DetailMap req with
  | Err err => mret (refuse [("command", JStr "fileRead")] (mk_err "invalidDetail" (err_msg err)))
  | Ok detail =>
      let filename := StringField detail "filename" in
      d ← OpenFileForDownload e (ReqTarget req) (ReqParameter req) filename;
      match d with
      | inl failure => mret (writeJSON failure)
      | inr (entry, data) =>
          match parseSingleByteRange (HrRange r) (FByteSize entry) with
          | Err err =>
              mret (writeJSONStatus 416
                [("Accept-Ranges", "bytes"); ("Content-Range", "bytes */" +:+ Itoa (FByteSize entry))]
                (fail_file "fileRead" (ReqTarget req) (ReqParameter req) filename "invalidRange" (err_msg err)))
          | Ok (start, len, partial) =>
              sought ← (if (0 <? start)%Z then Seek else mret (Ok tt)) : M (result unit);
              match sought with
              | Err err => mret (refuse [] (mk_err "filesystemError" (err_msg err)))
              | Ok _ =>
                  mret (mkReply (if partial then 206 else 200)
                    ([("Content-Type", FContentType entry); ("Content-Length", Itoa len); ("Accept-Ranges", "bytes");
                      ("X-DatoriumDB-SHA256", FSHA256 entry); ("X-DatoriumDB-File-Version", FVersion entry);
                      ("X-DatoriumDB-Operation-Id", FOperationID entry);
                      ("ETag", String (of_byte 34) (FVersion entry) +:+ String (of_byte 34) "")] ++
                     if partial then [("Content-Range", content_range start len (FByteSize entry))] else [])
                    (FileBody len (str_take (Z.to_nat len) (str_drop (Z.to_nat start) data))))
              end
          end
      end
  end.

Definition dispatchFileDelete (e : Engine) (req : Request) : M Envelope :=
  match DetailMap req with
  | Err err => mret (Fail [("command", JStr "fileDelete")] [mk_err "invalidDetail" (err_msg err)])
  | Ok detail =>
      DeleteFile e (ReqTarget req) (ReqParameter req) (StringField detail "filename")
        (StringField detail "version") (StringField detail "operationId")
  end.

(** The content type of an upload: of the command, of its part, or the default. *)
Definition upload_type (detail : fields) (partContentType : string) : string :=
  let contentType := StringField detail "contentType" in
  if contentType <>? "" then contentType
  else if partContentType <>? "" then partContentType else "application/octet-stream".

Definition applyFileWrite (e : Engine) (req : Request) (content : source) (partContentType : string) : M Reply :=
  if (ReqCommand req <>? "fileCreate") && (ReqCommand req <>? "fileUpdate") then
    mret (refuse [("command", JStr (ReqCommand req))]
            (mk_err "invalidRequest" "multipart uploads are only valid for fileCreate and fileUpdate"))
  else
    match DetailMap req with
    | Err err => mret (refuse [("command", JStr (ReqCommand req))] (mk_err "invalidDetail" (err_msg err)))
    | Ok detail =>
        let filename := StringField detail "filename" in
        let failed command code msg : M Reply :=
          mret (writeJSON (fail_file command (ReqTarget req) (ReqParameter req) filename code msg)) in
        let version := StringField detail "version" in
        let put ifMatch : M Reply :=
          res ← PutFile e content (ReqTarget req) (ReqParameter req) filename
                  (mkPutFileOptions (upload_type detail partContentType) ifMatch (StringField detail "operationId"));
          mret (writeJSON res) in
        if negb (SafeFileName filename) then
          failed (ReqCommand req) "invalidFileName" "file name is invalid or unsafe for filesystem storage"
        else if ReqCommand req =? "fileUpdate" then
          if version =? "" then
            failed "fileUpdate" "fileVersionMismatch" "fileUpdate requires detail.version (If-Match equivalent)"
          else put version
        else put ""
    end.

(** [io.ReadAll] of a [LimitReader] that stops one byte after the limit. *)
Definition read_command_part (s : source) : EError + string :=
  let n := Z.of_nat (String.length (body_text s)) in
  let too_large := inl (mk_err "bodyTooLarge" "command part exceeds 1 MiB") in
  match ending s with
  | Some err =>
      if (maxCommandBodyBytes + 1 <? n)%Z || ((maxCommandBodyBytes + 1 =? n)%Z && negb (eager s))
      then too_large else inl (mk_err "invalidRequest" (err_msg err))
  | None => if (maxCommandBodyBytes <? n)%Z then too_large else inr (body_text s)
  end.

(** The loop over the parts, with the command read so far; [last] ends them. *)
Fixpoint command_parts (e : Engine) (parts : list form_part) (last : option error) (req : option Request)
    : M Reply :=
  match parts with
  | [] =>
      mret (match last, req with
            | Some err, _ => refuse [] (mk_err "invalidRequest" (err_msg err))
            | None, None => refuse [] (mk_err "invalidRequest" "multipart command part is required")
            | None, Some req => refuse [("command", JStr (ReqCommand req))]
                (mk_err "invalidRequest" "multipart content part is required for fileCreate and fileUpdate")
            end)
  | part :: parts' =>
      if PtName part =? "command" then
        match read_command_part (PtBody part) with
        | inl err => mret (refuse [] err)
        | inr raw =>
            match DecodeJSON raw with
            | Err err => mret (refuse [] (mk_err "invalidRequest" (err_msg err)))
            | Ok parsed => command_parts e parts' last (Some parsed)
            end
        end
      else if PtName part =? "content" then
        match req with
        | None => mret (refuse [] (mk_err "invalidRequest" "multipart command part must precede the content part"))
        | Some req => applyFileWrite e req (PtBody part) (PtContentType part)
        end
      else command_parts e parts' last req
  end.

Definition handleMultipartCommand (e : Engine) (r : HttpRequest) (boundary : string) : M Reply :=
  if boundary =? "" then mret (refuse [] (mk_err "invalidRequest" "multipart boundary is required"))
  else
    let '(parts, last) := FormParts boundary (MaxBytesReader (2 ^ 30 + maxCommandBodyBytes) (HrBody r)) in
    command_parts e parts last None.

(** A command that leaves the server as it is. *)
Definition same_server (s : HTTPServer) (m : M Reply) : M (Reply * HTTPServer) := r ← m; mret (r, s).

Definition execute_command (s : HTTPServer) (req : Request) : M (Reply * HTTPServer) :=
  '(res, e) ← Execute ulid_ok quote pid (HsConfigDir s) (HsEngine s) req; mret (writeJSON res, with_engine s e).

Definition admin_command (command : string) : bool :=
  (command =? "collectionEnsure") || (command =? "searchEnsure") || (command =? "searchDelete").

Definition handleJSONCommand (s : HTTPServer) (r : HttpRequest) (claims : Claims) : M (Reply * HTTPServer) :=
  match readBodyLimited (HrBody r) maxCommandBodyBytes with
  | inl err => mret (refuse [] err, s)
  | inr body =>
      match DecodeJSON body with
      | Err err => mret (refuse [] (mk_err "invalidRequest" (err_msg err)), s)
      | Ok req =>
          let command := ReqCommand req in
          if (command =? "fileCreate") || (command =? "fileUpdate") then
            mret (refuse [("command", JStr command)] (mk_err "contentTypeRequired"
              "fileCreate and fileUpdate require multipart/form-data with a command JSON part and a content part"), s)
          else if command =? "fileRead" then same_server s (handleFileReadCommand (HsEngine s) r req)
          else if command =? "fileList" then
            same_server s (l ← ListFiles (HsEngine s) (ReqTarget req) (ReqParameter req); mret (writeJSON l))
          else if command =? "fileDelete" then
            same_server s (d ← dispatchFileDelete (HsEngine s) req; mret (writeJSON d))
          else if admin_command command then
            match RequireAdmin claims with
            | Some err => mret (refuse [("command", JStr command)] (toEnvelopeError err), s)
            | None => execute_command s req
            end
          else execute_command s req
      end
  end.

Definition command_type_required : Reply :=
  refuse [] (mk_err "contentTypeRequired" "Content-Type must be application/json or multipart/form-data").

Definition handleCommand (s : HTTPServer) (r : HttpRequest) (claims : Claims) : M (Reply * HTTPServer) :=
  c ← ensure_config s;
  match c with
  | inl err => mret (refuse [] err, s)
  | inr s =>
      match ParseMediaType (HrContentType r) with
      | Err _ => mret (command_type_required, s)
      | Ok (mediatype, params) =>
          if mediatype =? "multipart/form-data" then
            same_server s (handleMultipartCommand (HsEngine s) r (default "" (aget params "boundary")))
          else if mediatype =? "application/json" then handleJSONCommand s r claims
          else mret (command_type_required, s)
      end
  end.
End server.
