(* ===== verification/HttpServerSpec.v ===== *)
(** * The HTTP interface: who may do what

    Machine identities come from the bootstrap secret or from the signing key and
    from nothing else; the configuration changes only for an administrator; a
    download carries the bytes that were asked for; and one key the validator cannot
    use closes every authenticated endpoint. *)

From S2P Require Import Prelude GoStrings Sha256 World Shard Json Config Store Attach ConfigLoad Docjson Replication Operation FileRepl.
From S2P Require Import Engine EngineFiles HttpRange Search EngineRead Migrate SchemaPatch Admin Establish EstablishSpec Auth AuthSpec HttpServer.

(** ** Identities in circulation *)

(** The token a reply hands out. *)
Definition reply_token (r : Reply) : list string :=
  match RBody r with
  | JsonBody env => match aget env "token" with Some (EJ (JStr t)) => [t] | _ => [] end
  | FileBody _ _ => []
  end.

(** The server name a request asks for with the bootstrap secret of the server. *)
Definition bootstraps `{GoJSON} (s : HTTPServer) (r : HttpRequest) : list string :=
  match readBodyLimited (HrBody r) maxAuthRequestBodyBytes with
  | inl _ => []
  | inr body =>
      match token_request body with
      | Err _ => []
      | Ok (name, secret) =>
          if (HrAuthorization r =? "") && (HsBootstrapSecret s <>? "") && (secret =? HsBootstrapSecret s)
          then [name] else []
      end
  end.

Section circulation.
Context `{Env} `{GoTables} `{OJSON} `{GoJSON} `{JWX} `{HttpLib}.

(** The tokens in circulation and the server names granted on the way: whoever
    holds the signing key issues tokens of any kind, and anyone asks any server for
    a machine token, at any time and with any header, as long as the token in it,
    if the server takes it, is one in circulation: nobody forges signatures. *)
Inductive circulates : list string -> list string -> Prop :=
| circ_start : circulates [] []
| circ_client issued granted i now subject lifetime raw actual :
    circulates issued granted -> IssueClientToken i now subject lifetime = Ok (raw, actual) ->
    circulates (raw :: issued) granted
| circ_admin issued granted i now subject lifetime raw actual :
    circulates issued granted -> IssueAdminToken i now subject lifetime = Ok (raw, actual) ->
    circulates (raw :: issued) granted
| circ_machine issued granted i now name lifetime raw actual :
    circulates issued granted -> IssueMachineToken i now name lifetime = Ok (raw, actual) ->
    circulates (raw :: issued) (name :: granted)
| circ_request issued granted s now r st reply s' st' :
    circulates issued granted -> handleMachineToken s now r st = ((reply, s'), st') ->
    (forall v raw claims, NewValidator (Auth (ECfg (HsEngine s'))) = Ok v ->
       bearer (HrAuthorization r) = inr raw -> ParseToken v now raw = inr claims -> raw ∈ issued) ->
    circulates (reply_token reply ++ issued) (bootstraps s r ++ granted).

Context `{!JWXLaws}.

(** What every validator makes of a token an issuer signed. *)
Lemma signed_identity i now kind subject serverName lifetime raw actual v later claims :
  issue i now kind subject serverName lifetime = Ok (raw, actual) -> ParseToken v later raw = inr claims ->
  kind ∈ [KindClient; KindMachine; KindAdmin] -> (kind = KindMachine <-> serverName <> "") ->
  ClKind claims = kind /\ ClServerName claims = serverName.
Proof.
  intros (_ & k1 & k2 & _ & _ & Hs)%issue_signed Hp Hk Hn.
  destruct (ParseJWT raw (VaKeySet v) (VaIssuer v) (VaAudience v) later) as [e|tok'] eqn:Ej.
  { unfold ParseToken in Hp. rewrite Ej in Hp. by destruct (PeExpired e). }
  pose proof (parse_faithful _ _ _ _ _ _ _ _ Hs Ej) as ->.
  rewrite (issued_claims v _ _ _ _ _ _ later raw Ej Hk Hn) in Hp. by injection Hp as <-.
Qed.

(** A token has one identity for all who accept it. *)
Definition identity (raw : string) (granted : list string) : Prop :=
  forall v later claims, ParseToken v later raw = inr claims ->
    ClKind claims = KindMachine -> ClServerName claims ∈ granted.

Lemma client_identity i now subject lifetime raw actual granted :
  IssueClientToken i now subject lifetime = Ok (raw, actual) -> identity raw granted.
Proof.
  unfold IssueClientToken. destruct (subject =? ""); [done|]. intros Hi v later claims Hp Hk.
  destruct (signed_identity _ _ _ _ _ _ _ _ v later claims Hi Hp) as [E _]; [left|done|]. by rewrite Hk in E.
Qed.

Lemma admin_identity i now subject lifetime raw actual granted :
  IssueAdminToken i now subject lifetime = Ok (raw, actual) -> identity raw granted.
Proof.
  unfold IssueAdminToken. destruct (subject =? ""); [done|]. intros Hi v later claims Hp Hk.
  destruct (signed_identity _ _ _ _ _ _ _ _ v later claims Hi Hp) as [E _]; [right; right; left|done|]. by rewrite Hk in E.
Qed.

Lemma machine_identity i now name lifetime raw actual granted :
  IssueMachineToken i now name lifetime = Ok (raw, actual) -> name ∈ granted -> identity raw granted.
Proof.
  unfold IssueMachineToken. destruct (name =? "") eqn:En; [done|]. apply String.eqb_neq in En.
  intros Hi Hin v later claims Hp Hk.
  by destruct (signed_identity _ _ _ _ _ _ _ _ v later claims Hi Hp) as [_ ->]; [right; left|done|].
Qed.

Lemma RequireMachine_name claims name :
  name <> "" -> RequireMachine claims name = None -> ClKind claims = KindMachine /\ ClServerName claims = name.
Proof.
  intros Hn. unfold RequireMachine. destruct (ClKind claims =? KindMachine) eqn:Ek; [|done].
  rewrite (proj2 (String.eqb_neq _ _) Hn). destruct (ClServerName claims =? name) eqn:Es; [|done].
  intros _. split; by apply String.eqb_eq.
Qed.

(** The two ways to a machine token: the bootstrap secret, and a token of the same
    server. *)
Definition entitled (s : HTTPServer) (now : Z) (r : HttpRequest) (s' : HTTPServer) (name : string) : Prop :=
  name ∈ bootstraps s r \/
  exists v raw claims, NewValidator (Auth (ECfg (HsEngine s'))) = Ok v /\
    bearer (HrAuthorization r) = inr raw /\ ParseToken v now raw = inr claims /\
    ClKind claims = KindMachine /\ ClServerName claims = name.

Lemma currentValidator_own s st v s' st' :
  currentValidator s st = ((inr v, s'), st') -> NewValidator (Auth (ECfg (HsEngine s'))) = Ok v.
Proof.
  unfold currentValidator. unfold mbind, M_bind, mret, M_ret.
  destruct (ensure_config s st) as [[e|s1] st1]; [done|].
  destruct (NewValidator (Auth (ECfg (HsEngine s1)))) as [v1|] eqn:Ev; [|done]. by intros [= <- <- <-].
Qed.

Lemma token_allowed_entitled s now r body name secret st s' st' :
  readBodyLimited (HrBody r) maxAuthRequestBodyBytes = inr body -> token_request body = Ok (name, secret) ->
  name <> "" -> token_allowed s now (HrAuthorization r) name secret st = ((None, s'), st') ->
  entitled s now r s' name.
Proof.
  intros Hb Ht Hn. unfold token_allowed, entitled, bootstraps. rewrite Hb, Ht.
  destruct (HrAuthorization r =? "") eqn:Ea; cbn [negb].
  - destruct (secret =? "") eqn:Es; cbn [negb]; [done|]. destruct (HsBootstrapSecret s =? "") eqn:Eb; [done|].
    destruct (secret =? HsBootstrapSecret s); [|done]. intros _. left. cbn. left.
  - unfold mbind, M_bind, mret, M_ret. destruct (currentValidator s st) as [[[e|v] s1] st1] eqn:Ev; [done|].
    unfold ParseBearer. destruct (bearer (HrAuthorization r)) as [e|raw]; [done|].
    destruct (ParseToken v now raw) as [e|claims] eqn:Ep; [done|].
    intros [= Hr <- <-]. right. exists v, raw, claims. split; [by eapply currentValidator_own|]. split; [done|].
    split; [done|]. apply RequireMachine_name; [done|]. by destruct (RequireMachine claims name).
Qed.

(** A refusal hands out no token. *)
Ltac refused := intros [= <- <- <-] Hno; by destruct (not_elem_of_nil _ Hno).

(** Whoever gets a token was entitled to it. *)
Lemma handleMachineToken_entitled s now r st reply s' st' raw :
  handleMachineToken s now r st = ((reply, s'), st') -> raw ∈ reply_token reply ->
  exists i name actual, IssueMachineToken i now name 0 = Ok (raw, actual) /\ entitled s now r s' name.
Proof.
  unfold handleMachineToken, mret, M_ret. destruct (negb _); [refused|].
  destruct (readBodyLimited _ _) as [e|body] eqn:Hb; [refused|].
  destruct (token_request body) as [[name secret]|e] eqn:Ht; [|refused].
  destruct (name =? "") eqn:En; [refused|]. apply String.eqb_neq in En.
  unfold mbind, M_bind. destruct (token_allowed s now (HrAuthorization r) name secret st) as [[[e|] s1] st1] eqn:Ea;
    [refused|].
  destruct (HsIssuer s1) as [i|]; [|refused].
  destruct (IssueMachineToken i now name 0) as [[token lifetime]|e] eqn:Ei;
    [|refused].
  intros [= <- <- <-] Hr. cbn in Hr. apply list_elem_of_singleton in Hr as ->.
  exists i, name, lifetime. split; [done|]. by eapply token_allowed_entitled.
Qed.

Lemma identity_mono raw granted more : identity raw granted -> identity raw (more ++ granted).
Proof. intros Hi v later claims Hp Hk. apply elem_of_app. right. by eapply Hi. Qed.

(** C13: A machine identity is never made up: whatever requests are sent to the
    servers of a cluster, in whatever order and with whatever tokens are in
    circulation, a token that some server accepts as the machine [name] exists only
    if the bootstrap secret was presented for [name] or the holder of the signing
    key issued a token for it. A machine token is never turned into one of another
    server, nor the token of a client or an administrator into a machine token. *)
Theorem machine_identity_granted issued granted raw v later claims :
  circulates issued granted -> raw ∈ issued -> ParseToken v later raw = inr claims ->
  ClKind claims = KindMachine -> ClServerName claims ∈ granted.
Proof.
  intros Hc Hin. cut (identity raw granted); [intros Hi; by apply Hi|]. revert raw Hin.
  induction Hc as [|l gr i now sub lt rw ac Hc IH Hi|l gr i now sub lt rw ac Hc IH Hi
                  |l gr i now nm lt rw ac Hc IH Hi|l gr s now r st reply s' st' Hc IH Hr Hf]; intros raw Hin.
  - by apply elem_of_nil in Hin.
  - apply elem_of_cons in Hin as [->|Hin]; [by eapply client_identity|auto].
  - apply elem_of_cons in Hin as [->|Hin]; [by eapply admin_identity|auto].
  - apply elem_of_cons in Hin as [->|Hin]; [eapply machine_identity; [done|left]|].
    apply (identity_mono _ _ [nm]). auto.
  - apply elem_of_app in Hin as [Hin|Hin]; [|apply identity_mono; auto].
    destruct (handleMachineToken_entitled _ _ _ _ _ _ _ _ Hr Hin) as (i & name & actual & Hi & [Hb|Ht]).
    + eapply machine_identity; [done|]. apply elem_of_app. by left.
    + destruct Ht as (v1 & tok & c & Hv & Hb & Hp & Hk & <-). apply identity_mono.
      eapply machine_identity; [done|]. by eapply (IH tok (Hf _ _ _ Hv Hb Hp)).
Qed.
End circulation.

(** ** The configuration *)

Section commands.
Context `{Env} `{GoTables} `{OJSON} `{GoJSON} `{GoFloat} `{Net} `{FileNet} `{JWX} `{HttpLib}.
Variable ulid_ok : string -> bool.
Variable quote : string -> string.
Variable pid : string.

Lemma with_engine_same s : HsLoaded s = true -> with_engine s (HsEngine s) = s.
Proof. destruct s as [e l d i b]. cbn. by intros ->. Qed.

(** The engine keeps its configuration unless the command is an administrator's. *)
Lemma Execute_keeps configDir e req st res e' st' :
  admin_command (ReqCommand req) = false ->
  Execute ulid_ok quote pid configDir e req st = ((res, e'), st') -> e' = e.
Proof.
  unfold admin_command, Execute. intros [[Hc Hs]%orb_false_iff Hd]%orb_false_iff.
  assert (forall m, unchanged e m st = ((res, e'), st') -> e' = e) as Hu.
  { intros m. unfold unchanged, mbind, M_bind, mret, M_ret. destruct (m st). by intros [= <- <- <-]. }
  assert (forall code msg, fail_command e req code msg st = ((res, e'), st') -> e' = e) as Hf.
  { intros code msg. unfold fail_command, mret, M_ret. by intros [= <- <- <-]. }
  destruct (DetailMap req) as [detail|err]; [|apply Hf]. rewrite Hc, Hs, Hd.
  repeat match goal with |- context [if ?c =? ?k then unchanged _ _ else _] => destruct (c =? k); [apply Hu|] end.
  repeat match goal with |- context [if ?b then _ else _] => destruct b; [apply Hf|] end. apply Hf.
Qed.

(** A command request for an administrator: the body of a JSON command. *)
Definition admin_request (r : HttpRequest) : Prop :=
  exists body req, readBodyLimited (HrBody r) maxCommandBodyBytes = inr body /\ DecodeJSON body = Ok req /\
    admin_command (ReqCommand req) = true.

Lemma same_server_same s m st reply s' st' : same_server s m st = ((reply, s'), st') -> s' = s.
Proof. unfold same_server, mbind, M_bind, mret, M_ret. destruct (m st). by intros [= <- <- <-]. Qed.

Lemma execute_command_keeps s req st reply s' st' :
  HsLoaded s = true -> admin_command (ReqCommand req) = false ->
  execute_command ulid_ok quote pid s req st = ((reply, s'), st') -> s' = s.
Proof.
  intros Hl Ha. unfold execute_command, mbind, M_bind, mret, M_ret.
  destruct (Execute _ _ _ _ _ _ st) as [[res e] st1] eqn:E. intros [= <- <- <-].
  rewrite (Execute_keeps _ _ _ _ _ _ _ Ha E). by apply with_engine_same.
Qed.

Lemma handleJSONCommand_keeps s r claims st reply s' st' :
  HsLoaded s = true -> handleJSONCommand ulid_ok quote pid s r claims st = ((reply, s'), st') ->
  s' = s \/ (RequireAdmin claims = None /\ admin_request r).
Proof.
  intros Hl. unfold handleJSONCommand, mret, M_ret.
  destruct (readBodyLimited _ _) as [e|body] eqn:Hb; [intros [= <- <- <-]; by left|].
  destruct (DecodeJSON body) as [req|e] eqn:Hd; [|intros [= <- <- <-]; by left].
  destruct (_ || _); [intros [= <- <- <-]; by left|].
  repeat match goal with |- context [if ?c =? ?k then same_server _ _ else _] =>
    destruct (c =? k); [intros ->%same_server_same; by left|] end.
  destruct (admin_command (ReqCommand req)) eqn:Ha; [|intros ->%execute_command_keeps; [by left|done|done]].
  destruct (RequireAdmin claims); [intros [= <- <- <-]; by left|]. intros _. right.
  split; [done|]. by exists body, req.
Qed.

(** C14: Only an administrator changes the configuration: when a command request
    leaves the server with another configuration than before, its token is valid
    for the keys the server trusts, is of the kind of administrators, and the
    request is one of the three commands that change collections and searches. *)
Theorem config_change_needs_admin s now r st reply s' st' :
  HsLoaded s = true ->
  withAuth (handleCommand ulid_ok quote pid) s now r st = ((reply, s'), st') ->
  s' = s \/
  (admin_request r /\ exists v claims, NewValidator (Auth (ECfg (HsEngine s))) = Ok v /\
     ParseBearer v now (HrAuthorization r) = inr claims /\ ClKind claims = KindAdmin).
Proof.
  intros Hl. unfold withAuth, authenticate, currentValidator, handleCommand, ensure_config.
  unfold mbind, M_bind, mret, M_ret. rewrite Hl.
  destruct (NewValidator _) as [v|e] eqn:Hv; [|intros [= <- <- <-]; by left].
  destruct (ParseBearer v now _) as [e|claims] eqn:Hp; [intros [= <- <- <-]; by left|]. rewrite Hl.
  destruct (ParseMediaType _) as [[mt ps]|e]; [|intros [= <- <- <-]; by left].
  destruct (mt =? "multipart/form-data"); [intros ->%same_server_same; by left|].
  destruct (mt =? "application/json"); [|intros [= <- <- <-]; by left].
  intros [->|[Ha Hr]]%handleJSONCommand_keeps; [by left| |done]. right. split; [done|]. exists v, claims.
  split; [done|]. split; [done|]. unfold RequireAdmin in Ha. destruct (ClKind claims =? KindAdmin) eqn:Ek; [|done].
  by apply String.eqb_eq.
Qed.

(** ** A key that cannot be used *)

Lemma add_keys_unusable keys k set active :
  k ∈ keys -> is_ok (decodePublicKey k) = false -> exists err, add_keys keys set active = Err err.
Proof.
  revert set active. induction keys as [|k' keys IH]; intros set active Hk Hd; [by apply elem_of_nil in Hk|].
  cbn [add_keys]. apply elem_of_cons in Hk as [->|Hin].
  - destruct (decodePublicKey k'); [done|]. by eexists.
  - destruct (decodePublicKey k'); [|by eexists]. cbn [result_bind]. destruct (AddKey _ _); [|by eexists].
    by apply IH.
Qed.

(** Whatever its status, one key that does not decode makes every authenticated
    endpoint answer configError. *)
Lemma unusable_key_refuses next s now r st k :
  HsLoaded s = true -> k ∈ Keys (Auth (ECfg (HsEngine s))) -> is_ok (decodePublicKey k) = false ->
  exists msg, withAuth next s now r st = ((refuse [] (mk_err "configError" msg), s), st).
Proof.
  intros Hl Hin Hd. unfold withAuth, authenticate, currentValidator, ensure_config.
  unfold mbind, M_bind, mret, M_ret. rewrite Hl. unfold NewValidator, buildKeySet.
  destruct (add_keys_unusable _ k NewSet false Hin Hd) as [err He].
  destruct (Keys (Auth (ECfg (HsEngine s)))) as [|k1 ks]; [by eexists|]. rewrite He. by eexists.
Qed.

(** ** Downloads *)

Definition filename_of (req : Request) : string :=
  match DetailMap req with Ok detail => StringField detail "filename" | Err _ => "" end.

(** A slice inside a string: its length, and where it stands. *)
Lemma slice_inside s start len :
  (0 <= start)%Z -> (0 <= len)%Z -> (start + len <= Z.of_nat (String.length s))%Z ->
  let part := str_take (Z.to_nat len) (str_drop (Z.to_nat start) s) in
  Z.of_nat (String.length part) = len /\
  exists pre post, s = pre +:+ part +:+ post /\ Z.of_nat (String.length pre) = start.
Proof.
  intros Hs Hl Hle part. unfold part. split.
  - rewrite str_length_take, str_length_drop. lia.
  - exists (str_take (Z.to_nat start) s), (str_drop (Z.to_nat len) (str_drop (Z.to_nat start) s)).
    rewrite str_take_drop, str_take_drop, str_length_take. split; [done|lia].
Qed.

(** C38: a download carries what was asked for.  A reply with contents comes from
    an attachment that was opened, and when the blob has the size its manifest
    entry says, an int64, the bytes of the reply are as many as it announces, and
    are the whole attachment, or the part of it that the Content-Range header
    names, which is not empty.  The condition is on the stored data: an upload
    leaves blob and entry in agreement, except for the windows of
    [Examples.upload_crash_window] and [Examples.stale_journal_recovered], and
    without it the announced length is that of the manifest entry. *)
Theorem download_exact e r req st reply st' len bytes :
  handleFileReadCommand e r req st = (reply, st') -> RBody reply = FileBody len bytes ->
  exists entry data st1,
    OpenFileForDownload e (ReqTarget req) (ReqParameter req) (filename_of req) st = (inr (entry, data), st1) /\
    ((0 <= FByteSize entry < 2 ^ 63)%Z -> Z.of_nat (String.length data) = FByteSize entry ->
     Z.of_nat (String.length bytes) = len /\
     ((RStatus reply = 200%Z /\ bytes = data) \/
      (RStatus reply = 206%Z /\ (1 <= len)%Z /\ exists pre post, data = pre +:+ bytes +:+ post /\
         header reply "Content-Range" = content_range (Z.of_nat (String.length pre)) len (FByteSize entry)))).
Proof.
  unfold handleFileReadCommand, filename_of. destruct (DetailMap req) as [detail|err]; [|by intros [= <- <-]].
  unfold mbind, M_bind, mret, M_ret.
  destruct (OpenFileForDownload _ _ _ _ st) as [[fail|[entry data]] st1] eqn:Eo; [by intros [= <- <-]|].
  destruct (parseSingleByteRange _ _) as [[[start n] partial]|err] eqn:Er; [|by intros [= <- <-]].
  destruct ((if (0 <? start)%Z then Seek else mret (Ok tt)) st1) as [[u|err] st2] eqn:Es; unfold mret, M_ret in Es;
    rewrite Es; intros [= <- <-]; [|done]. cbn [RBody RStatus]. intros [= <- <-].
  exists entry, data, st1. split; [done|]. intros Hsize Hlen.
  pose proof (byte_range_within _ _ _ _ _ Hsize Er) as Hr. destruct partial; [destruct Hr as (H1s & Hl & Hle)|].
  - destruct (slice_inside data start n) as [Hn (pre & post & Hd & Hp)]; [lia|lia|lia|].
    split; [done|]. right. split; [done|]. split; [done|]. exists pre, post. split; [done|]. by rewrite Hp.
  - destruct Hr as [-> ->]. destruct (slice_inside data 0 (FByteSize entry)) as [Hn _]; [lia|lia|lia|].
    split; [done|]. left. split; [done|]. rewrite <-Hlen, Nat2Z.id. cbn [Z.to_nat].
    replace (str_drop 0 data) with data by (by destruct data). rewrite <-(str_app_nil_r data) at 2. apply str_take_app.
Qed.
End commands.

(** ** The worker of another server and the machine-token endpoint *)

(** The request [callMachineToken] sends, and the text of a reply. *)
Definition token_http (body authorization : string) : HttpRequest :=
  mkHttp authorization "application/json" "" (mkSource [body] true None).

Definition reply_text `{GoJSON} (r : Reply) : string :=
  match RBody r with JsonBody env => Encode (envelope_json env) | FileBody _ d => d end.

Section session.
Context `{Env} `{GoTables} `{OJSON, !OJSONLaws} `{GoJSON, !GoJSONLaws} `{JWX, !JWXLaws} `{HttpLib} `{EstNet}.

Lemma token_request_read name secret :
  ValidString name = true -> ValidString secret = true ->
  token_request (token_request_body name secret) = Ok (name, secret).
Proof.
  intros Hn Hs. unfold token_request, token_request_body.
  set (m := ("serverName", JStr name) :: if secret =? "" then [] else [("bootstrapSecret", JStr secret)]).
  assert (well_formed (JObj m) = true) as Hw.
  { assert (ValidString "serverName" = true /\ ValidString "bootstrapSecret" = true) as [K1 K2] by done.
    unfold m. destruct (secret =? ""); cbn [well_formed forallb fst snd]; rewrite K1, ?K2, Hn, ?Hs; done. }
  destruct (marshal_object m Hw) as (t & Et & _).
  assert (TrimSpace (Marshal (JObj m)) =? "" = false) as ->.
  { rewrite Et. change ("{" +:+ t +:+ "}") with (String "{" (t +:+ String "}" "")).
    by rewrite TrimSpace_between. }
  rewrite (unmarshal_read _ _ (read_marshal _ Hw)). unfold m. destruct (secret =? "") eqn:Es; cbn; [|done].
  by apply String.eqb_eq in Es as ->.
Qed.

(** The reply that hands out a token, as the worker reads it. *)
Lemma token_reply_read raw z :
  ValidString raw = true -> int_ok z ->
  result_bind (Decode (reply_text (writeJSON (OK [("token", JStr raw); ("expiresIn", JNum (Itoa z))]))))
    token_response = Ok (true, raw, z, []).
Proof.
  intros Hr Hz. unfold reply_text. cbn [RBody writeJSON].
  assert (envelope_json (OK [("token", JStr raw); ("expiresIn", JNum (Itoa z))]) =
    JObj [("expiresIn", JNum (Itoa z)); ("ok", JBool true); ("token", JStr raw)]) as -> by reflexivity.
  rewrite (decode_whole _ (JObj [("expiresIn", JNum (Itoa z)); ("ok", JBool true); ("token", JStr raw)])).
  - cbn [result_bind]. unfold token_response. cbn [struct_value result_bind].
    rewrite (int_field_Itoa _ _ z Hz) by done. done.
  - assert (ValidString "expiresIn" = true /\ ValidString "ok" = true /\ ValidString "token" = true)
      as (K1 & K2 & K3) by done.
    apply unmarshal_read, read_encode. cbn [well_formed forallb fst snd]. by rewrite K1, K2, K3, Hr, number_int.
Qed.

Lemma body_text_one body eager ending : body_text (mkSource [body] eager ending) = body.
Proof. unfold body_text. cbn. apply str_app_nil_r. Qed.

Lemma token_granted s now body authorization name secret sst i raw lifetime :
  ParseMediaType "application/json" = Ok ("application/json", []) ->
  (Z.of_nat (String.length body) <= maxAuthRequestBodyBytes)%Z ->
  token_request body = Ok (name, secret) -> name <> "" ->
  token_allowed s now authorization name secret sst = ((None, s), sst) ->
  HsIssuer s = Some i -> IssueMachineToken i now name 0 = Ok (raw, lifetime) ->
  handleMachineToken s now (token_http body authorization) sst =
    ((writeJSON (OK [("token", JStr raw); ("expiresIn", JNum (Itoa (Z.quot lifetime nanoseconds)))]), s), sst).
Proof.
  intros Hm Hl Ht Hn Ha Hi Hr. unfold handleMachineToken, isJSONContentType, token_http.
  cbn [HrContentType HrBody HrAuthorization]. rewrite Hm. cbn [negb String.eqb Ascii.eqb Bool.eqb].
  unfold readBodyLimited. rewrite body_text_one, (proj2 (Z.ltb_ge _ _)) by exact Hl. cbn [ending].
  rewrite Ht, (proj2 (String.eqb_neq _ _) Hn). unfold mbind, M_bind. by rewrite Ha, Hi, Hr.
Qed.

(** The server [s] takes what the worker holds: its bootstrap secret, and its token
    when that is [live], not expired by the worker's clock.  Nothing is asked of a
    token that has expired. *)
Record trusted (s : HTTPServer) (now : Z) (w : Worker) (tok : string) (live : bool) : Prop := {
  tr_loaded : HsLoaded s = true;
  tr_secret : EwBootstrapSecret w = HsBootstrapSecret s /\ EwBootstrapSecret w <> "";
  tr_token : live = true -> exists v claims, NewValidator (Auth (ECfg (HsEngine s))) = Ok v /\
    ParseBearer v now ("Bearer " +:+ tok) = inr claims /\ RequireMachine claims (EwServerName w) = None;
}.

Lemma trusted_allowed s now w tok renew sst :
  trusted s now w tok renew ->
  token_allowed s now (if renew then "Bearer " +:+ tok else "") (EwServerName w)
    (if renew then "" else EwBootstrapSecret w) sst = ((None, s), sst).
Proof.
  intros [Hl [Hs Hne] Ht]. unfold token_allowed. destruct renew.
  - destruct (Ht eq_refl) as (v & claims & Hv & Hp & Hm).
    change ("Bearer " +:+ tok <>? "") with true. unfold currentValidator, ensure_config, mbind, M_bind, mret, M_ret.
    by rewrite Hl, Hv, Hp, Hm.
  - cbn [String.eqb negb]. rewrite (proj2 (String.eqb_neq _ _) Hne), <-Hs. cbn [negb orb].
    by rewrite (proj2 (String.eqb_neq _ _) Hne), String.eqb_refl.
Qed.

(** The establishment server [s] at the other end, with a signing key that works
    for the name of the worker. *)
Record answers (s : HTTPServer) (now : Z) (sst : st) (w : Worker) (k : nat) (raw : string) (lifetime : Z) : Prop := {
  an_media : ParseMediaType "application/json" = Ok ("application/json", []);
  an_reply body authorization : est_reply k (TokenRequest body authorization) =
    Ok (reply_text (fst (fst (handleMachineToken s now (token_http body authorization) sst))));
  an_name : EwServerName w <> "" /\ ValidString (EwServerName w) = true;
  an_secret : ValidString (EwBootstrapSecret w) = true;
  an_short secret : secret = "" \/ secret = EwBootstrapSecret w ->
    (Z.of_nat (String.length (token_request_body (EwServerName w) secret)) <= maxAuthRequestBodyBytes)%Z;
  an_issuer : exists i, HsIssuer s = Some i /\ IssueMachineToken i now (EwServerName w) 0 = Ok (raw, lifetime);
  an_lifetime : int_ok lifetime;
}.

Lemma callMachineToken_answered s now sst w es raw lifetime renew tok :
  answers s now sst w (es_requests es) raw lifetime -> trusted s now w tok renew ->
  callMachineToken (token_request_body (EwServerName w) (if renew then "" else EwBootstrapSecret w))
    (if renew then "Bearer " +:+ tok else "") es =
  (Ok (raw, Z.quot lifetime nanoseconds),
   mkEstate (es_st es) (es_token es) (es_expires es) (S (es_requests es)) (es_readings es)).
Proof.
  intros [Hm Hnet [Hn Hvn] Hvs Hl (i & Hi & Hr) Hlt] Htr.
  assert (int_ok (Z.quot lifetime nanoseconds)) as Hq.
  { unfold int_ok, nanoseconds in *. split; [apply Z.quot_pos; lia|].
    apply Z.le_lt_trans with lifetime; [|lia]. rewrite Z.quot_div_nonneg by lia. apply Z.div_le_upper_bound; lia. }
  assert (ValidString raw = true) as Hraw.
  { pose proof Hr as Hs. unfold IssueMachineToken in Hs. destruct (EwServerName w =? ""); [done|].
    apply issue_signed in Hs as (_ & k1 & k2 & _ & _ & Hs). by apply valid_graphic, (signed_compact _ _ _ Hs). }
  unfold callMachineToken, erbind, send, mbind, EM_bind. rewrite Hnet.
  rewrite (token_granted s now _ _ (EwServerName w) (if renew then "" else EwBootstrapSecret w) sst i raw lifetime);
    [|done|apply Hl; destruct renew; tauto| |done|by apply trusted_allowed|done|done].
  - cbn [fst]. by rewrite token_reply_read.
  - apply token_request_read; [done|by destruct renew].
Qed.

(** A lifetime in whole seconds is an int64 of nanoseconds again. *)
Lemma seconds_fit z : int_ok z -> (- 2 ^ 63 <= Z.quot z nanoseconds * nanoseconds < 2 ^ 63)%Z.
Proof.
  unfold int_ok, nanoseconds. intros Hz. rewrite Z.quot_div_nonneg by lia.
  pose proof (Z.mul_div_le z 1000000000 ltac:(lia)). pose proof (Z.div_pos z 1000000000 ltac:(lia) ltac:(lia)). lia.
Qed.

(** What the worker does with its token at a reading of its clock: it keeps a token
    that is not near its expiry, renews one that is, and presents its bootstrap
    secret when it holds none or an expired one. *)
Definition held (es : estate) : bool := es_token es <>? "".
Definition keeps (w : Worker) (es : estate) : bool :=
  held es && (wall (es_readings es) <? es_expires es - renewSkew w)%Z.
Definition unexpired (es : estate) : bool := held es && (wall (es_readings es) <? es_expires es)%Z.

End session.
