(* ===== verification/EngineReadSpec.v ===== *)
(** * What a read and a search answer

    A read serves the live document, brought to the current schema version; a
    search answers from the bucket the change agent keeps, so its answer is decided
    by the live document once the document's changes are distributed. *)

From S2P Require Import Prelude GoStrings World Shard Json Config Store Docjson Replication.
From S2P Require Import Engine EngineSpec Search SearchSpec SearchStore ChangeAgent ChangeSpec ChangeQueue.
From S2P Require Import Migrate EngineRead MigrateSpec.

(** ** Reads *)

Section read.
Context `{E : Env} `{OJSON} `{!OJSONLaws} `{GoJSON} `{!GoJSONLaws} `{GoFloat} `{Net}.
Context (e : Engine) (req : Request) (detail : fields).

Notation c := (ReqTarget req).
Notation id := (ReqParameter req).
Notation D := (EDataDir e).
Notation cfg := (ECfg e).
Notation live := (DocumentPath D c id).
Notation prev := (PreviousDocumentPath D c id).

(** The reply gives every field of the document once: as one of its schema when
    it is metadata or a child of the schema, as an extra field otherwise. *)
Definition shows (r : Envelope) (m : fields) : Prop :=
  exists sot extra, env_field r "sot" = Some (JObj sot) /\
    (as_bool (aget detail "extraFields") = true -> env_field r "extraFields" = Some (JObj extra)) /\
    (forall k, aget m k = match aget sot k with Some v => Some v | None => aget extra k end) /\
    (forall k, aget sot k <> None -> schema_field (aget (Schemas cfg) c) k = true) /\
    (forall k, aget extra k <> None -> schema_field (aget (Schemas cfg) c) k = false).

Lemma split_shows m sot extra :
  splitSOTAndExtra m (aget (Schemas cfg) c) = (sot, extra) ->
  (forall k, aget m k = match aget sot k with Some v => Some v | None => aget extra k end) /\
  (forall k, aget sot k <> None -> schema_field (aget (Schemas cfg) c) k = true) /\
  (forall k, aget extra k <> None -> schema_field (aget (Schemas cfg) c) k = false).
Proof.
  intros [= <- <-]. split_and!; intros k.
  - rewrite aget_filter, (aget_filter (fun k => negb (schema_field (aget (Schemas cfg) c) k))).
    destruct (schema_field _ k); simpl; by destruct (aget m k).
  - rewrite aget_filter. by destruct (schema_field _ k).
  - rewrite (aget_filter (fun k => negb (schema_field (aget (Schemas cfg) c) k))).
    by destruct (schema_field _ k).
Qed.

Lemma reply_shows m sot extra :
  splitSOTAndExtra m (aget (Schemas cfg) c) = (sot, extra) ->
  let out := base_fields "read" c id ++ [("sot", JObj sot)] in
  shows (OK (if as_bool (aget detail "extraFields") then out ++ [("extraFields", JObj extra)] else out)) m.
Proof.
  intros Hs out. exists sot, extra. split; [|split; [|by apply split_shows]];
    destruct (as_bool _); done.
Qed.

(** What the migration of the document needs, when it is behind. *)
Record servable (m : fields) : Prop := {
  sv_version : NeedsMigration (Some cfg) c (Some (as_doc m)) = true ->
    exists current, DocVersion (as_doc m) = Some current /\ updates_ready cfg c current;
  sv_json : forall d', MigrateDocument cfg c (as_doc m) (SchemaVersion (Some cfg) c) = Ok (Some d') ->
    well_formed (JObj (as_fields d')) = true;
  sv_ids : valid_ids;
}.

Lemma needs_behind m current :
  NeedsMigration (Some cfg) c (Some (as_doc m)) = true -> DocVersion (as_doc m) = Some current ->
  (current < SchemaVersion (Some cfg) c)%Z.
Proof. unfold NeedsMigration. intros Hn Hd. rewrite Hd in Hn. by apply Z.ltb_lt. Qed.

(** The three states a read may leave the target in. *)
Definition target_safe (d : string) (m : fields) (f : fs) : Prop :=
  content f live = Some d \/
  content f live = None /\ content f prev = Some d \/
  migrated_from D cfg c id m f.

Lemma migrateOnAccess_spec d m s :
  plain_collection c = true -> SafeID id = true -> servable m ->
  content (st_fs s) live = Some d -> ReadBytesNoSchema d = Ok (JObj m) ->
  wp (migrateOnAccess e c id m) (fun r s' =>
    others_kept e req (st_fs s) (st_fs s') /\ target_safe d m (st_fs s') /\
    forall m', r = Ok m' -> exists d', content (st_fs s') live = Some d' /\
      ReadBytesNoSchema d' = Ok (JObj m') /\
      NeedsMigration (Some cfg) c (Some (as_doc m')) = false) s.
Proof.
  intros Hc Hid [Hv Hj Hids] Hd Hm. unfold migrateOnAccess.
  destruct (NeedsMigration _ _ _) eqn:En; simpl; cycle 1.
  { apply wp_ret. split_and!; [done|by left|]. intros m' [= <-]. eauto. }
  destruct (Hv eq_refl) as (current & Hcur & Hr). pose proof (needs_behind m current En Hcur) as Hlt.
  apply wp_rbind. eapply wp_mono.
  { by apply (stored_migration_spec D cfg c id d m current); [..|split]. }
  intros r s1 [O L]. change (others_kept e req (st_fs s) (st_fs s1)) in O.
  assert (target_safe d m (st_fs s1)) as Hsafe.
  { destruct L as [[L _]|[(L & P & _)|L]]; [by left|right; left; auto|by right; right]. }
  destruct r as [changed|err]; [|by split_and!].
  destruct L as [[_ ?]|[(_ & _ & ?)|L]]; [done|done|].
  destruct L as (d1 & m' & version & Hl & Hread & _ & _ & _ & _ & Hcurrent).
  eapply wp_mono; [apply (ReadDocumentJSON_present _ (stored (JObj m')) m'); done|].
  intros r s2 [F2 Hr2]. rewrite F2. split_and!; [done|done|]. intros m2 ->.
  destruct Hr2 as [[= ->]|(err & ? & _)]; [|done]. eauto.
Qed.

End read.

(** ** Searches *)

Section query.
Context `{GF : GoFloat} `{OL : OJSONLaws} `{FL : !GoFloatLaws}.

Lemma truth_query_plain vars n seg : truth_query vars n = Ok (Some seg) -> plain seg = true.
Proof. unfold truth_query. destruct (lookupBoolVar _ _) as [b|]; [|done]. intros [= <-]. apply EncodeTruth_plain. Qed.

Hint Resolve EncodeStringValue_plain EncodeTruth_plain EncodeScalar_plain : go.

Lemma resolveEqualsQuery_plain cl vars seg :
  resolveEqualsQuery cl vars = Ok (Some seg) -> plain seg = true.
Proof.
  unfold resolveEqualsQuery. destruct (IsVariable _); cycle 1.
  { destruct (ClValue cl); destruct (_ =? _); (apply truth_query_plain || done). }
  destruct (lookupVar _ _) as [[]|]; try done; [intros [= <-]; auto with go|].
  destruct (_ <? _)%nat; [done|]. intros [= <-]. auto with go.
Qed.

Lemma resolveInQuery_plain cl vars seg :
  resolveInQuery cl vars = Ok (Some seg) -> plain seg = true.
Proof.
  unfold resolveInQuery. destruct (_ =? _); [done|]. destruct (lookupVar _ _) as [[]|]; try done.
  cbv zeta. destruct (existsb _ _); [|done]. intros [= <-]. auto with go.
Qed.

Lemma resolveContainsQuery_plain cl vars seg :
  resolveContainsQuery cl vars = Ok (Some seg) -> plain seg = true.
Proof.
  unfold resolveContainsQuery. destruct (IsVariable _); [|destruct (_ =? _); [done|apply truth_query_plain]].
  destruct (lookupVar _ _) as [v|]; [|done]. destruct (inferScalarKind v) as [kind|]; [|done].
  destruct (_ && _); [done|]. destruct (EncodeScalarByKind kind v) eqn:Ee; [|done].
  intros [= <-]. by eapply EncodeScalar_plain.
Qed.

Lemma resolveClauseQuery_plain cl vars seg :
  resolveClauseQuery cl vars = Ok (Some seg) -> plain seg = true.
Proof.
  unfold resolveClauseQuery. destruct (_ =? "equals"); [apply resolveEqualsQuery_plain|].
  destruct (_ =? "in"); [apply resolveInQuery_plain|].
  destruct (_ =? "exists"); [unfold resolveExistsQuery; destruct (IsVariable _); [apply truth_query_plain|done]|].
  destruct (_ =? "contains"); [apply resolveContainsQuery_plain|done].
Qed.

Lemma ResolveQueryPath_plain def vars segs :
  ResolveQueryPath def vars = Ok segs -> plain_segs segs.
Proof.
  unfold ResolveQueryPath, plain_segs. generalize (DfClauses def). intros cs. revert segs.
  induction cs as [|cl cs IH]; intros segs; simpl; [intros [= <-]; constructor|].
  destruct (resolveClauseQuery cl vars) as [q|] eqn:Eq; [|done]. simpl.
  destruct (resolve_clauses cs vars) as [r|]; [|done]. simpl. intros [= <-].
  destruct q as [seg|]; [constructor|]; eauto using resolveClauseQuery_plain.
Qed.
End query.

Section search.
Context `{OL : OJSONLaws} `{GJ : GoJSON} `{GL : !GoJSONLaws} `{GF : GoFloat} `{FL : !GoFloatLaws} `{E : Env}.
Context `{PE : Peers} (a : ChangeAgent) (e : Engine) (req : Request) (detail : fields) (id : string).
Notation c := (ReqTarget req).
Notation n := (ReqParameter req).
Notation cfg := (ECfg e).

(** The change agent of the server that answers. *)
Record same_server : Prop := {
  ss_dir : ChDataDir a = EDataDir e;
  ss_name : ChServerName a = EServerName e;
  ss_named : EServerName e <> "";
}.

Lemma dedup_elem seen l x : x ∈ l -> x <> "" -> x ∉ seen -> x ∈ dedup seen l.
Proof.
  revert seen. induction l as [|y l IH]; intros seen Hin Hne Hs; [by apply elem_of_nil in Hin|].
  simpl. destruct (decide (x = y)) as [<-|Hxy].
  - rewrite (proj2 (String.eqb_neq _ _) Hne). simpl.
    assert (containsString seen x = false) as ->; [|by left].
    apply not_true_iff_false. by intros ?%containsString_elem.
  - apply elem_of_cons in Hin as [Hin|Hin]; [done|].
    destruct (_ || _); [by apply IH|]. right. apply IH; [done..|]. rewrite elem_of_cons. tauto.
Qed.

(** A server that accepts a query keeps the bucket it reads. *)
Lemma served_held segs :
  same_server -> checkSearchRouting e (ShardSlot segs) c n = None -> held a cfg segs = true.
Proof.
  intros [_ Hn Hne] Hr. unfold checkSearchRouting in Hr. rewrite (proj2 (String.eqb_neq _ _) Hne) in Hr.
  cbv zeta in Hr. destruct (_ || _ || _) eqn:Ho; [clear Hr|done].
  unfold held, SOTForSlot. unfold AssignmentForSlot in Ho. rewrite Hn.
  destruct (SlotAssignment (Some cfg) (ShardSlot segs)) as [asg|]; simpl in Ho.
  - unfold searchShardTargets, dedupOrdered. apply existsb_exists. exists (EServerName e).
    split; [|apply String.eqb_refl]. apply list_elem_of_In, dedup_elem; [|done|by apply not_elem_of_nil].
    simpl. rewrite app_nil_r, elem_of_cons, elem_of_app.
    apply orb_true_iff in Ho as [[Ho|Ho]%orb_true_iff|Ho];
      [left; by apply String.eqb_eq in Ho|right; left|right; right]; by apply containsString_elem.
  - by destruct (EServerName e).
Qed.

End search.
