(* ===== verification/Examples.v ===== *)
(** * The theorems at concrete inputs

    Each property with hypotheses is applied here to a small database, so that
    its hypotheses are seen to hold together, and the commands are run on it. *)

From S2P Require Import Prelude GoStrings Sha256 World Shard Json Config Store.
From S2P Require Import Attach AttachSpec Docjson Replication Concrete Engine EngineSpec.

Definition demo_engine : Engine :=
  mkEngine demo_dir "a" demo_cfg (Some (mkCoordinator "a" demo_dir (Some demo_cfg) 500)) None None.

(** ** The small database is in order *)

Lemma demo_fs_lookup q n : demo_fs !! q = Some n -> n = Directory /\ (q = demo_dir \/ q = "users" :: demo_dir).
Proof.
  unfold demo_fs. intros [[<- <-]|[_ Hq]]%lookup_insert_Some; [auto|].
  apply lookup_singleton_Some in Hq as [<- <-]. auto.
Qed.

Lemma demo_fs_ok : store_ok demo_dir demo_fs.
Proof.
  assert (forall q, content demo_fs q = None) as Hno.
  { intros q. unfold content. destruct (demo_fs !! q) eqn:E; [|done].
    by apply demo_fs_lookup in E as [-> _]. }
  assert (forall n l, (2 <= length l)%nat -> demo_fs !! (n :: l) = None) as Hlong.
  { intros n l Hl. destruct (demo_fs !! (n :: l)) eqn:E; [|done].
    apply demo_fs_lookup in E as [_ [E|E]]; apply (f_equal length) in E; simpl in E; lia. }
  split.
  - by repeat constructor.
  - intros q Hq. destruct (demo_fs !! q) eqn:E; [|done].
    apply demo_fs_lookup in E as [_ [->| ->]]; done.
  - intros q Hq. apply Hno.
  - intros c Hc. apply Hno.
  - intros c d Hc Hd. apply Hno.
  - intros c id ext _ _ _. by rewrite Hlong.
  - intros c id _ _. by rewrite Hlong.
  - intros c d n _ _. rewrite Hlong; [done|simpl; lia].
  - intros c n _ [x Hx]. by rewrite Hlong in Hx.
Qed.

Lemma demo_fs1_ok : store_ok demo_dir demo_fs1.
Proof. apply store_ok_insert; [by apply doc_file_place|done|apply demo_fs_ok]. Qed.

Lemma demo_engine_ok : @engine_ok demo_engine.
Proof.
  split.
  - intros co [= <-]. done.
  - intros slot. unfold AssignmentForSlot, SlotAssignment.
    cbn [shard_entries ShardMap ECfg demo_engine demo_cfg demo_map assignment_in].
    destruct (ParseRange _) as [r|]; [destruct (range_contains r slot)|]; by repeat constructor.
  - done.
Qed.

Lemma demo_engine_layout : engine_layout demo_engine.
Proof. done. Qed.

(** ** Commands *)

Definition demo_detail : fields := [("name", JStr "Bob")].

Definition demo_create : Request := mkRequest "create" "users" "u2" (text_of (JObj demo_detail)).

Definition demo_change : fields :=
  [("#", JStr "v0"); ("$", JStr "users:1");
   ("RFC6902", JArr [JObj [("op", JStr "replace"); ("path", JStr "/name"); ("value", JStr "Bob")]])].

Definition demo_patch : Request := mkRequest "patch" "users" "u1" (text_of (JObj demo_change)).
Definition demo_delete : Request := mkRequest "delete" "users" "u1" (text_of (JObj demo_change)).

Section runs.
#[local] Existing Instances calm text_json text_gojson silent.

(** The three commands succeed on the small database. *)
Example demo_create_ok :
  env_ok (fst (create demo_engine demo_create demo_detail (demo_st demo_fs1))) = true.
Proof. vm_compute. reflexivity. Qed.

Example demo_patch_ok :
  env_ok (fst (patch demo_engine demo_patch demo_change (demo_st demo_fs1))) = true.
Proof. vm_compute. reflexivity. Qed.

Example demo_delete_ok :
  env_ok (fst (delete_doc demo_engine demo_delete demo_change (demo_st demo_fs1))) = true.
Proof. vm_compute. reflexivity. Qed.
End runs.

#[local] Existing Instances text_json text_gojson text_json_laws text_gojson_laws silent.

(** The second system call after the rename of the live file fails: the document
    is not readable any more, and its text is at the hidden path. *)
Example patch_interrupted :
  let '(r, s') := patch (H:=fails_at 5) demo_engine demo_patch demo_change (demo_st demo_fs1) in
  env_ok r = false /\ content (st_fs s') (DocumentPath demo_dir "users" "u1") = None /\
  content (st_fs s') (PreviousDocumentPath demo_dir "users" "u1") = Some (text_of demo_doc).
Proof. vm_compute. done. Qed.

(** ** Other components *)

Lemma WriteFileAtomic_atomic_witness :
  wp (WriteFileAtomic (H:=fails_at 4) ["x.json"; "users"; "data"] "new") (fun r s' =>
    forall q, q <> ["x.json"; "users"; "data"] -> is_temp q = false ->
      content (st_fs s') q = content demo_fs q) (demo_st demo_fs).
Proof.
  eapply wp_mono; [by apply (WriteFileAtomic_atomic (E:=fails_at 4) ["x.json"; "users"; "data"] "new"
                               (demo_st demo_fs))|].
  intros r s' [_ H]. exact H.
Defined.

Lemma routing_total_witness :
  exists a, SlotAssignment (Some demo_cfg) (Slot "u1") = Some a /\
    ahas (Servers demo_cfg) (ShardSOTMember a) = true.
Proof.
  destruct (routing_total demo_cfg [("00-FF", mkShardAssignment "a" ["b"] [])]
              [("00-FF", mkShardAssignment "a" ["b"] [])] "u1" eq_refl (Permutation_refl _)
              ltac:(vm_compute; reflexivity)) as (a & H1 & _ & _ & H2 & _).
  exists a. auto.
Defined.

Lemma Canonicalize_canonical_witness :
  exists c, read_text (ensure_newline (text_of (JObj c))) = Ok (JObj c) /\
    akeys c = ["!"; "$"; "#"; "name"].
Proof.
  destruct (Canonicalize_canonical (H:=text_json) "{}" [("name", JStr "Ada"); ("#", JStr "v0"); ("$", JStr "users:1"); ("!", JStr "u1")]
              (text_of demo_doc +:+ newline) eq_refl ltac:(vm_compute; reflexivity))
    as (root & c & Hroot & Hread & _ & _ & _ & Hkeys).
  exists c. injection Hroot as <-. rewrite Hkeys by reflexivity. split; [|vm_compute; reflexivity].
  assert (read_text (text_of demo_doc +:+ newline) = Ok demo_doc) as Hd by (vm_compute; reflexivity).
  change (read_text (text_of demo_doc +:+ newline) = Ok (JObj c)) in Hread.
  rewrite Hd in Hread. injection Hread as <-. vm_compute. reflexivity.
Defined.

Definition demo_created : DocumentWorkItem :=
  mkItem "users" "u1" "" "v0" "op1" "create" [] (text_of demo_doc).
Definition demo_patched : DocumentWorkItem :=
  mkItem "users" "u1" "v0" "v1" "op2" "patch" [] (text_of demo_doc).

Lemma demo_created_ok : item_ok demo_created.
Proof.
  split; [by repeat constructor|by constructor|right]. exists demo_doc. vm_compute. reflexivity.
Qed.

Lemma demo_patched_ok : item_ok demo_patched.
Proof.
  split; [by repeat constructor|by constructor|right]. exists demo_doc. vm_compute. reflexivity.
Qed.

Definition demo_co : Coordinator := mkCoordinator "a" demo_dir (Some demo_cfg) 500.

Lemma DeliverOnce_complete_witness :
  exists o s', DeliverOnce (H:=calm) demo_co demo_created ["b"] (demo_st demo_fs1) = (o, s') /\
    "b" ∈ Unacknowledged o.
Proof.
  destruct (DeliverOnce_complete (NF:=calm_nofault) demo_co demo_created ["b"] (demo_st demo_fs1)
              eq_refl eq_refl ltac:(by repeat constructor) demo_created_ok demo_fs1_ok)
    as (o & s' & Hd & _ & Hv & _).
  exists o, s'. split; [exact Hd|]. apply Hv; [by left|reflexivity].
Defined.

Lemma pending_create_lost_witness :
  let s1 := snd (DeliverOnce (H:=calm) demo_co demo_created ["b"] (demo_st demo_fs1)) in
  let s2 := snd (DeliverOnce (H:=calm) demo_co demo_patched ["b"] s1) in
  exists item', fst (ReadPendingWrite (H:=calm) demo_dir "users" "b" "u1" s2) = Ok item' /\
    is_ok (fst (Apply (H:=calm) ["other"] item' (demo_st ∅))) = false.
Proof.
  destruct (pending_create_lost (NF:=calm_nofault) demo_co demo_created demo_patched ["b"] "b"
              (demo_st demo_fs1) eq_refl eq_refl eq_refl eq_refl eq_refl demo_created_ok
              demo_patched_ok ltac:(by repeat constructor) ltac:(by left) eq_refl eq_refl demo_fs1_ok)
    as (item' & Hr & _ & Ha).
  exists item'. split; [exact Hr|]. apply (Ha ["other"] (demo_st ∅)). reflexivity.
Defined.

(** ** Attachments *)

Definition demo_entry (version data : string) : FileEntry :=
  mkFileEntry "a.txt" "text/plain" (Z.of_nat (String.length data)) (sha256_hex data) version
    ("op" +:+ version).

(** Document [u1] has the attachment [a.txt], and a new version of it is staged. *)
Definition demo_lfs : fs :=
  <[[".stage-0"; "u1"; ".fileOps"; "users"; "data"] := File "new"]>
  (<[BinaryPath demo_dir "users" "u1" "a.txt" := File "old"]>
  (<[FilesManifestPath demo_dir "users" "u1" := File (manifest_text [demo_entry "1" "old"])]>
  (<[LFSDir demo_dir "users" "u1" := Directory]>
  (<["lfs" :: "users" :: demo_dir := Directory]>
  (<[FileOpsDir demo_dir "users" "u1" := Directory]>
  (<[".fileOps" :: "users" :: demo_dir := Directory]> demo_fs1)))))).

Definition demo_staged : StagedBinary :=
  mkStaged [".stage-0"; "u1"; ".fileOps"; "users"; "data"] 3 (sha256_hex "new").

Lemma upload_limit_witness :
  fst (fill_upload (H:=calm) ["t"; "data"] (mkSource ["ab"; "cd"] false None) 4
         (demo_st (<[["t"; "data"] := File ""]> demo_fs))) = Err too_large.
Proof.
  rewrite (upload_limit (NF:=calm_nofault) ["t"; "data"] (mkSource ["ab"; "cd"] false None) 4).
  - reflexivity.
  - by repeat constructor.
  - lia.
  - reflexivity.
Defined.

(** A commit that replaces an attachment stops between the rename of the blob
    and the second journal record.  Recovery reports success and drops the
    record: the new bytes are served under the old manifest entry, whose hash is
    that of the old bytes. *)
Theorem upload_crash_window :
  let s1 := snd (CommitStagedBinary (H:=crash_at 14) demo_dir "users" "u1" (demo_entry "2" "new")
                   demo_staged (demo_st demo_lfs)) in
  let '(r, s2) := RecoverFileOps (H:=calm) demo_dir "users" "u1" s1 in
  is_ok r = true /\
  content (st_fs s2) (BinaryPath demo_dir "users" "u1" "a.txt") = Some "new" /\
  fst (ReadFilesManifest (H:=calm) demo_dir "users" "u1" s2) = Ok [demo_entry "1" "old"] /\
  FSHA256 (demo_entry "1" "old") <> sha256_hex "new".
Proof. vm_compute. done. Qed.

(** The next version of the attachment, staged. *)
Definition demo_restaged : StagedBinary :=
  mkStaged [".stage-1"; "u1"; ".fileOps"; "users"; "data"] 5 (sha256_hex "newer").

Definition demo_lfs2 : fs := <[StagedPath demo_restaged := File "newer"]> demo_lfs.

(** One upload fails when it replaces the manifest, and leaves its journal; the
    next one succeeds, and its bytes and its entry are served.  Recovery finishes
    the older upload and reports success: the entry of version 2 is back over that
    of version 3, with the size and hash of bytes that are gone. *)
Theorem stale_journal_recovered :
  let '(r1, s1) := CommitStagedBinary (H:=fails_at 25) demo_dir "users" "u1" (demo_entry "2" "new")
                     demo_staged (demo_st demo_lfs2) in
  let '(r2, s2) := CommitStagedBinary (H:=calm) demo_dir "users" "u1" (demo_entry "3" "newer") demo_restaged s1 in
  let '(r3, s3) := RecoverFileOps (H:=calm) demo_dir "users" "u1" s2 in
  is_ok r1 = false /\ r2 = Ok tt /\ r3 = Ok tt /\
  fst (ReadFilesManifest (H:=calm) demo_dir "users" "u1" s2) = Ok [demo_entry "3" "newer"] /\
  content (st_fs s3) (BinaryPath demo_dir "users" "u1" "a.txt") = Some "newer" /\
  fst (ReadFilesManifest (H:=calm) demo_dir "users" "u1" s3) = Ok [demo_entry "2" "new"] /\
  FByteSize (demo_entry "2" "new") <> Z.of_nat (String.length "newer").
Proof. vm_compute. split_and!; reflexivity || done. Qed.

Lemma demo_manifest_good :
  manifest_good demo_dir "users" "u1" demo_lfs [demo_entry "1" "old"].
Proof.
  split.
  - unfold manifest_is. vm_compute. reflexivity.
  - repeat constructor; vm_compute; reflexivity || (intros; discriminate).
  - apply Forall_cons_2; [|apply Forall_nil_2]. unfold line_fits. apply Nat.ltb_lt.
    vm_compute. reflexivity.
  - by repeat constructor; set_solver.
Qed.

Lemma names_checked (f : fs) d :
  forallb (fun kv => match fst kv with
                     | n :: d' => negb (bool_decide (d' = d)) || plain n
                     | [] => true
                     end) (map_to_list f) = true ->
  forall n nd, f !! (n :: d) = Some nd -> plain n = true.
Proof.
  intros Hall n nd Hl. rewrite forallb_forall in Hall.
  specialize (Hall (n :: d, nd)). apply elem_of_map_to_list, list_elem_of_In, Hall in Hl.
  simpl in Hl. by rewrite bool_decide_eq_true_2 in Hl.
Qed.

Lemma no_records_checked (f : fs) d :
  forallb (fun kv => match kv with
                     | (n :: d', File _) => negb (bool_decide (d' = d)) || negb (HasSuffix n ".json")
                     | _ => true
                     end) (map_to_list f) = true ->
  forall n, HasSuffix n ".json" = true -> content f (n :: d) = None.
Proof.
  intros Hall n Hn. unfold content. destruct (f !! (n :: d)) as [[x|]|] eqn:Hl; try done.
  rewrite forallb_forall in Hall. apply elem_of_map_to_list, list_elem_of_In, Hall in Hl.
  by rewrite bool_decide_eq_true_2, Hn in Hl.
Qed.

Lemma wp_snd {A} {m : M A} {P s} : wp m P s -> P (fst (m s)) (snd (m s)).
Proof. unfold wp. by destruct (m s). Qed.

Lemma upload_crash_recovery_witness :
  let s := demo_st demo_lfs in
  let s1 := snd (CommitStagedBinary (H:=crash_at 25) demo_dir "users" "u1" (demo_entry "2" "new")
                   demo_staged s) in
  let s2 := snd (RecoverFileOps (H:=calm) demo_dir "users" "u1" s1) in
  let blob f := content f (BinaryPath demo_dir "users" "u1" "a.txt") in
  let manifest f := content f (FilesManifestPath demo_dir "users" "u1") in
  is_ok (fst (RecoverFileOps (H:=calm) demo_dir "users" "u1" s1)) = true /\
  ((blob (st_fs s2) = blob (st_fs s) /\ manifest (st_fs s2) = manifest (st_fs s)) \/
   outcome_new demo_dir "users" "u1" (demo_entry "2" "new") "new" (st_fs s2) [demo_entry "1" "old"] \/
   (blob (st_fs s2) = Some "new" /\ manifest (st_fs s2) = manifest (st_fs s) /\
    exists command, content (st_fs s1) (fileOpJournalPath demo_dir "users" "u1" "op2") =
      Some (journal_staged (demo_entry "2" "new") demo_staged command))).
Proof.
  cbv zeta. split; [vm_compute; reflexivity|].
  apply (wp_snd (upload_crash_recovery demo_dir "users" "u1" eq_refl eq_refl (demo_entry "2" "new")
    demo_staged ".stage-0" eq_refl eq_refl eq_refl eq_refl
    ltac:(repeat constructor; vm_compute; reflexivity || (intros; discriminate))
    ltac:(by repeat constructor) ltac:(vm_compute; reflexivity) eq_refl (crash_at 25) calm "new"
    [demo_entry "1" "old"] (demo_st demo_lfs)
    ltac:(unfold line_fits; apply Nat.ltb_lt; vm_compute; reflexivity)
    demo_manifest_good eq_refl
    ltac:(apply no_records_checked; vm_compute; reflexivity)
    ltac:(split; [vm_compute; reflexivity|apply names_checked; vm_compute; reflexivity]))).
  vm_compute. reflexivity.
Defined.
