(* ===== verification/ExamplesFiles.v ===== *)
(** * Attachments at concrete inputs

    The theorems about attachments applied to a small database, and two runs in
    which replication of an attachment does not do what it is for. *)

From S2P Require Import Prelude GoStrings Sha256 World Shard Json Config Store Attach AttachSpec Replication.
From S2P Require Import Concrete Engine EngineSpec FileRepl FileReplSpec EngineFiles EngineFilesSpec Examples.

(** A server whose identifiers are all alike, and a network that carries nothing. *)
Definition steady : Env := {|
  fault := fun _ => None; tmprand := fun _ n => Z.of_nat n; newid := fun _ => Ok "v1" |}.

Definition deaf : FileNet := {|
  file_reply := fun _ _ => None; file_finish_order := fun l => l;
  file_finish_order_perm := fun l => Permutation_refl l |}.

#[local] Existing Instances text_json text_gojson text_json_laws text_gojson_laws.

Definition hello : source := mkSource ["hel"; "lo"] false None.

Definition upload_options : PutFileOptions := mkPutFileOptions "text/plain" "" "".

Definition hello_entry : FileEntry :=
  mkFileEntry "notes.txt" "text/plain" 5 (sha256_hex "hello") "v1" "v1".

Lemma steady_ids : ids_safe (H:=steady) "".
Proof. split; [by left|]. by intros k v [= <-]. Qed.

Lemma demo_fs1_manifest : manifest_good demo_dir "users" "u1" demo_fs1 [].
Proof. split; [vm_compute; reflexivity|constructor..]. Qed.

Definition uploaded : Envelope * st :=
  PutFile (H:=steady) (H2:=deaf) demo_engine hello "users" "u1" "notes.txt" upload_options (demo_st demo_fs1).


(** ** Removing, applying, naming *)

Definition filed_fs : fs :=
  <[FilesManifestPath demo_dir "users" "u1" := File (manifest_text [hello_entry])]>
  (<[BinaryPath demo_dir "users" "u1" "notes.txt" := File "hello"]> demo_fs1).

Lemma filed_fs_manifest : manifest_good demo_dir "users" "u1" filed_fs [hello_entry].
Proof.
  split.
  - unfold manifest_is. vm_compute. reflexivity.
  - repeat constructor; vm_compute; reflexivity || (intros; discriminate).
  - apply Forall_cons_2; [|apply Forall_nil_2]. unfold line_fits. apply Nat.ltb_lt.
    vm_compute. reflexivity.
  - by repeat constructor; set_solver.
Qed.

Definition deleted : Envelope * st :=
  DeleteFile (H:=steady) (H2:=deaf) demo_engine "users" "u1" "notes.txt" "v1" "" (demo_st filed_fs).

Lemma DeleteFile_compare_and_delete_witness :
  env_ok (fst deleted) = true /\
  removal_outcome demo_dir "users" "u1" "notes.txt" [hello_entry] filed_fs (st_fs (snd deleted)) true.
Proof.
  assert (env_ok (fst deleted) = true) as Hok by (vm_compute; reflexivity). split; [exact Hok|].
  pose proof (DeleteFile_compare_and_delete (E:=steady) (H3:=deaf) demo_engine demo_engine_ok "users" "u1" "notes.txt"
    eq_refl "v1" "" [hello_entry] (demo_st filed_fs) steady_ids filed_fs_manifest) as Hp.
  unfold wp in Hp. unfold deleted in *. destruct (DeleteFile _ _ _ _ _ _ _) as [r s'].
  cbn [fst snd] in *. rewrite Hok in Hp. destruct Hp as [[? _]|(_ & _ & Hp)]; [discriminate|exact Hp].
Defined.

Definition hello_item : FileWorkItem := file_item "fileCreate" "users" "u1" hello_entry "v1".

Definition streamed : result bool * st :=
  ApplyStream (H:=steady) demo_dir hello_item hello 0 (demo_st demo_fs1).

Lemma ApplyStream_verified_witness :
  fst streamed = Ok true /\ verified hello_item "hello" /\
  attachment_outcome demo_dir "users" "u1" (applied_entry hello_item "hello") [] "hello" demo_fs1
    (st_fs (snd streamed)) true.
Proof.
  assert (fst streamed = Ok true) as Hok by (vm_compute; reflexivity). split; [exact Hok|].
  pose proof (ApplyStream_verified (E:=steady) demo_dir "users" "u1" eq_refl eq_refl hello_item hello 0 []
    (demo_st demo_fs1) eq_refl eq_refl eq_refl eq_refl demo_fs1_manifest) as Hp.
  unfold wp in Hp. unfold streamed in *. destruct (ApplyStream _ _ _ _ _) as [r s'].
  cbn [fst snd] in *. rewrite Hok in Hp. cbn [is_ok] in Hp.
  destruct Hp as [(_ & _ & Ha)|(_ & Hv & Ho)]; [|split; [exact Hv|exact Ho]].
  destruct (Ha eq_refl) as (x & Hx & _). discriminate Hx.
Defined.

(** Listing takes [notes.txt] of [u-1] for [txt] of [u-1.notes]. *)
Lemma pending_file_found_witness :
  parsePendingFileWriteName "b.u-1.notes.txt.json" "b" = Some ("u-1.notes", "txt") /\
  exists d f, pending_file_ids "b" [("b.u-1.notes.txt.json", false)] = [FileWorkItemID "b" d f] /\
    ParseFileWorkItemID (FileWorkItemID "b" d f) "b" = Some (d, f) /\
    PendingFileWritePath demo_dir "users" "b" d f = PendingFileWritePath demo_dir "users" "b" "u-1" "notes.txt".
Proof.
  split; [reflexivity|].
  exact (pending_file_found demo_dir "users" "b" "u-1" "notes.txt" eq_refl eq_refl eq_refl).
Defined.

(** ** An operation identifier that is a path *)

(** Document [u1] has another attachment, [x.json]. *)
Definition other_fs : fs :=
  <[BinaryPath demo_dir "users" "u1" "x.json" := File "precious"]>
  (<[LFSDir demo_dir "users" "u1" := Directory]> (<["lfs" :: "users" :: demo_dir := Directory]> demo_fs1)).

(** The journal of an upload is a file named after the operation identifier,
    which the client chooses and nobody checks: an upload of [notes.txt] under the
    identifier [../../lfs/u1/x] writes its journal over the attachment [x.json]
    and then removes it, and replies success; a read member that applies the
    upload loses its copy in the same way. *)
Theorem operation_id_escapes :
  let traversal := "../../lfs/u1/x" in
  let B := BinaryPath demo_dir "users" "u1" "x.json" in
  let '(r, s') := PutFile (H:=steady) (H2:=deaf) demo_engine hello "users" "u1" "notes.txt"
                    (mkPutFileOptions "text/plain" "" traversal) (demo_st other_fs) in
  let '(a, s2) := ApplyStream (H:=steady) demo_dir
                    (file_item "fileCreate" "users" "u1" hello_entry traversal) hello 0 (demo_st other_fs) in
  content other_fs B = Some "precious" /\
  env_ok r = true /\ content (st_fs s') B = None /\
  a = Ok true /\ content (st_fs s2) B = None.
Proof. vm_compute. split_and!; reflexivity. Qed.

(** ** Replication that does not deliver *)

(** Server b answers every push, but none of its system calls work. *)
Definition broken_target (req : FileRequest) : Reply * st :=
  handleApplyFileWrite (H:=crash_at 0) demo_dir "b" demo_cfg req (mkSource [FrBody req] false None)
    (demo_st demo_fs).

Definition broken_net : FileNet := {|
  file_reply := fun _ req => Some (fst (broken_target req)); file_finish_order := fun l => l;
  file_finish_order_perm := fun l => Permutation_refl l |}.

Definition to_broken : Envelope * st :=
  PutFile (H:=steady) (H2:=broken_net) demo_engine hello "users" "u1" "notes.txt"
    upload_options (demo_st demo_fs1).

(** A read member that cannot store an attachment says so in the body of a
    reply whose status is 200; the sender looks at the status only, so the upload
    reports that it was distributed completely and no pending write is kept. *)
Theorem rejected_file_acknowledged :
  (forall req, RStatus (fst (broken_target req)) = 200%Z) /\
  (exists r, RBody (fst (broken_target (push_request "b" hello_item "hello"))) = JsonBody r /\ env_ok r = false) /\
  env_ok (fst to_broken) = true /\
  env_field (fst to_broken) "distributionComplete" = Some (JBool true) /\
  content (st_fs (snd to_broken)) (PendingFileWritePath demo_dir "users" "b" "u1" "notes.txt") = None.
Proof.
  split; [|split; [by eexists|split_and!; vm_compute; reflexivity]].
  intros req. unfold broken_target, handleApplyFileWrite.
  destruct (_ =? ""); [done|]. destruct (_ <>? _); [done|]. destruct (_ || _); [done|].
  destruct (negb _); [done|]. unfold mbind, M_bind.
  by match goal with |- context [let '(_, _) := ?m in _] => destruct m as [[|] ?] end.
Qed.

(** Two uploads that reached nobody, the first with a hyphen in its name. *)
Definition two_pending : st :=
  snd (PutFile (H:=steady) (H2:=deaf) demo_engine hello "users" "u1" "c.txt" upload_options
    (snd (PutFile (H:=steady) (H2:=deaf) demo_engine hello "users" "u1" "a-b" upload_options
       (demo_st demo_fs1)))).

Definition whole_bodies : Wire := fun _ s => mkSource [s] false None.
Definition good_link : Link := fun _ => Delivered.

Definition member_b : FileCatchUpAgent :=
  mkFileCatchUp "b" demo_dir demo_dir (Some demo_cfg) 0 0 true.

Definition behind_cluster : cluster := mkCluster two_pending (demo_st demo_fs1) (mkRMS 3 [] [] [] []) 0.

Definition checked_in : result unit * cluster :=
  CheckInFile (H:=good_link) (H0:=whole_bodies) steady steady member_b "a" behind_cluster.

(** The identifier of a pending write of [a-b] on document [u1] is read back
    as [b] on document [u1-a].  Nothing is pending there, the member fails on the
    empty item it gets, and its check-in stops: with every message delivered and no
    failing system call neither server's files change, so the next check-in ends the
    same way, and [c.txt] behind it is never fetched. *)
Theorem hyphen_blocks_catchup :
  ParseFileWorkItemID (FileWorkItemID "b" "u1" "a-b") "b" = Some ("u1-a", "b") /\
  is_ok (fst checked_in) = false /\
  st_fs (sot (snd checked_in)) = st_fs (sot behind_cluster) /\
  st_fs (reader (snd checked_in)) = st_fs (reader behind_cluster) /\
  fst (ListPendingFileWorkItemIDs (H:=steady) demo_dir "b" 0 (sot (snd checked_in))) =
    Ok (["b-u1-a-b"; "b-u1.c-txt"], 2%nat).
Proof.
  split; [reflexivity|]. split; [vm_compute; reflexivity|].
  split; [apply (bool_decide_eq_true_1 _); vm_compute; reflexivity|].
  split; [apply (bool_decide_eq_true_1 _); vm_compute; reflexivity|vm_compute; reflexivity].
Qed.
