(* ===== verification/ExamplesSearch.v ===== *)
(** * Searches and the change agent at concrete inputs

    A number type that satisfies the laws assumed of float64, a database with one
    search, and the theorems about searches applied to it. *)

From S2P Require Import Prelude GoStrings World Shard Json Config Store Docjson Replication Concrete.
From S2P Require Import Engine Cache Search SearchSpec SearchStore ChangeAgent ChangeSpec ChangeQueue.
From S2P Require Import Migrate EngineRead EngineReadSpec.

(** ** Numbers *)

(** The natural numbers, written in decimal. *)
Definition nat_float : GoFloat := {|
  float64 := N;
  ParseFloat := fun s => if s =? "" then None else Z.to_N <$> parse_digits 10 0 s;
  FormatFloat := fun n => Itoa (Z.of_N n);
  float_json := fun n => Itoa (Z.of_N n);
  float_ltb := N.ltb;
  float_eqb := N.eqb;
  float_zero := 0%N;
|}.

Lemma nat_text n :
  plain_collection (Itoa (Z.of_N n)) = true /\ (Itoa (Z.of_N n) =? "") = false /\
  parse_digits 10 0 (Itoa (Z.of_N n)) = Some (Z.of_N n).
Proof.
  destruct (Itoa_nonneg (Z.of_N n)) as (Hd & Hne & Hp); [lia|]. split_and!; [|by apply String.eqb_neq|done].
  unfold plain_collection, plain. rewrite (digits_no_char "/") by done.
  assert (HasPrefix (Itoa (Z.of_N n)) "." = false) as ->.
  { destruct (Itoa (Z.of_N n)) as [|x t]; [done|]. simpl in Hd. apply andb_true_iff in Hd as [Hx _].
    assert (x <> "."%char) by (intros ->; done). unfold HasPrefix. cbn [String.prefix].
    destruct (Ascii.ascii_dec "." x) as [?|]; [congruence|done]. }
  destruct (Itoa (Z.of_N n) =? "") eqn:Q1; [by apply String.eqb_eq in Q1|].
  destruct (Itoa (Z.of_N n) =? ".") eqn:Q2; [apply String.eqb_eq in Q2; by rewrite Q2 in Hd|].
  destruct (Itoa (Z.of_N n) =? "..") eqn:Q3; [apply String.eqb_eq in Q3; by rewrite Q3 in Hd|done].
Qed.

Definition nat_float_laws : GoFloatLaws (H:=nat_float) (H0:=text_json).
Proof.
  refine {| finite := fun _ => True |}; simpl; intros.
  - done.
  - apply N.ltb_irrefl.
  - apply N.ltb_lt. apply N.ltb_lt in H2, H3. lia.
  - apply N.eqb_eq. apply N.ltb_ge in H1, H2. lia.
  - apply N.eqb_eq in H2. by subst.
  - apply N.eqb_refl.
  - apply N.eqb_eq. destruct (nat_text a) as (_ & _ & Ha), (nat_text b) as (_ & _ & Hb).
    rewrite H1, Hb in Ha. injection Ha. lia.
  - apply nat_text.
  - done.
  - destruct (nat_text a) as (_ & -> & ->). simpl. f_equal. lia.
Defined.

(** An equation the virtual machine evaluates, without printing the values back. *)
Ltac by_vm := match goal with |- _ = ?b => vm_cast_no_check (@eq_refl _ b) end.

#[local] Existing Instances nat_float nat_float_laws text_json text_gojson text_json_laws text_gojson_laws silent.

(** ** A database with one search *)

Definition by_name : json :=
  JObj [("$", JStr "search:1"); ("collection", JStr "users"); ("name", JStr "byName");
        ("version", JNum "1");
        ("v1", JObj [("clauses", JArr [JObj [("field", JStr "/name"); ("op", JStr "equals");
                                             ("value", JStr "$name")]]);
                     ("sort", JArr [JObj [("field", JStr "/!"); ("dir", JStr "asc")]])])].

Definition search_cfg : Config :=
  mkConfig (mkGeneralBody "demo" "a" 1 5 5 3 1000)
    [("a", mkServerEntry "http://a"); ("b", mkServerEntry "http://b")] demo_map
    (mkAuthBody "" "" 0 0 []) [("users", "{}")] [("users", 1%Z)] [] []
    [("users", [("byName", text_of by_name)])] [] [].

Definition search_engine : Engine :=
  mkEngine demo_dir "a" search_cfg (Some (mkCoordinator "a" demo_dir (Some search_cfg) 500)) None None.

Definition search_agent : ChangeAgent := mkChangeAgent demo_dir "a" (Some search_cfg) true false.

(** Server [b] answers, or does not. *)
Definition peer (up : bool) : Peers := {|
  send_search := fun _ _ => if up then Ok tt else Err (errorf "connection refused");
  push_cache := fun _ _ => Ok tt;
  send_order := fun l => l;
  send_order_perm := fun l => Permutation_refl l |}.

(** A document without a name, indexed: no bucket lists it. *)
Definition nameless : json := JObj [("!", JStr "u1"); ("$", JStr "users:1"); ("#", JStr "v0")].

Definition search_fs : fs := <[DocumentPath demo_dir "users" "u1" := File (text_of nameless)]> demo_fs.

Definition rename_to (version name : string) : fields :=
  [("#", JStr version); ("$", JStr "users:1");
   ("RFC6902", JArr [JObj [("op", JStr "add"); ("path", JStr "/name"); ("value", JStr name)]])].

Definition run_patch (version name : string) : M Envelope :=
  patch (H:=calm) search_engine (mkRequest "patch" "users" "u1" (text_of (JObj (rename_to version name))))
    (rename_to version name).

Definition run_agent (up : bool) : M (bool * option error) :=
  ProcessNow (H:=calm) (H3:=peer up) search_agent (fun _ => false) "patch" "users" "u1".

Definition bucket (name : string) : path :=
  SearchResultPath demo_dir "users" "byName" [EncodeStringValue name].

Definition bucket_ids (name : string) : M (result (list string)) :=
  r ← LoadResultFile (H0:=calm) (bucket name);
  mret (match r with Ok (rf, _) => Ok (map ItID (RfItems rf)) | Err e => Err e end).


(** ** A stale listing *)

(** The document is renamed to Bob while server [b] is down: the agent files
    it under Bob here, cannot tell [b], and keeps the claimed entry for another
    try.  Before that try the document is renamed to Cid; the previous document is
    still the one without a name.  The two entries are then processed, both with
    success, and the queue is empty; the bucket of Bob still lists the document,
    next to the bucket of Cid. *)
Theorem stale_listing :
  let '(p1, s1) := run_patch "v0" "Bob" (demo_st search_fs) in
  let '(r2, s2) := run_agent false s1 in
  let '(p3, s3) := run_patch "v7" "Cid" s2 in
  let '(r4, s4) := run_agent true s3 in
  let '(r5, s5) := run_agent true s4 in
  env_ok p1 = true /\ bool_decide (snd r2 = None) = false /\ env_ok p3 = true /\
  r4 = (true, None) /\ r5 = (true, None) /\
  fst (ReadDir (H:=calm) (ChangeQueueDir demo_dir "users") s5) = Ok [] /\
  content (st_fs s5) (PreviousDocumentPath demo_dir "users" "u1") = None /\
  aget (default [] (doc_at (st_fs s5) (DocumentPath demo_dir "users" "u1"))) "name" = Some (JStr "Cid") /\
  fst (bucket_ids "Bob" s5) = Ok ["u1"] /\ fst (bucket_ids "Cid" s5) = Ok ["u1"].
Proof. vm_compute. split_and!; reflexivity. Qed.

(** ** A segment two values share *)

Definition num (n : N) : any := AFloat (H:=nat_float) n.

Definition by_tag_def : SearchDef :=
  mkDefinition "search:1" "users" "byTag" 1 [mkClause "/tags" "contains" (AStr "$tag") "" "" false]
    [mkSortSpec "/!" "asc"].

(** The bucket of a string is named by its bytes in hexadecimal, that of a number
    by its digits, and nothing tells the two apart: a document whose array holds
    the number 35 is in the bucket a query for the string 5 reads, though no item
    of the array equals it. *)
Theorem segment_clash :
  let doc := [("tags", AArr [ANumber "35"])] in
  let vars := [("tag", AStr "5")] in
  forallb (fun c => holds c doc vars) (DfClauses by_tag_def) = false /\
  ResolveQueryPath by_tag_def vars = Ok ["35"] /\
  EvaluateDocument by_tag_def (Some doc) = Ok [mkEval ["35"] [num 35%N]].
Proof. split_and!; vm_compute; reflexivity. Qed.

(** ** Witnesses *)

Definition by_name_def : SearchDef :=
  mkDefinition "search:1" "users" "byName" 1 [mkClause "/name" "equals" (AStr "$name") "" "" false]
    [mkSortSpec "/!" "asc"].

Lemma query_reads_matches_witness :
  [EncodeStringValue "Bob"] ∈ map Segments [mkEval [EncodeStringValue "Bob"] [AStr "Bob"]] <->
  forallb (fun c => holds c [("name", AStr "Bob")] [("name", AStr "Bob")]) (DfClauses by_name_def) = true.
Proof.
  apply (query_reads_matches by_name_def [("name", AStr "Bob")] [("name", AStr "Bob")]).
  - constructor; [|constructor]. unfold typed_query. simpl. discriminate.
  - by_vm.
  - by_vm.
Defined.

Lemma bucket_files_distinct_witness :
  (bucket "Bob" = bucket "Cid" <-> "byName" = "byName" /\ [EncodeStringValue "Bob"] = [EncodeStringValue "Cid"]) /\
  (ShardInput [EncodeStringValue "Bob"] = ShardInput [EncodeStringValue "Cid"] <->
   [EncodeStringValue "Bob"] = [EncodeStringValue "Cid"]).
Proof.
  apply (bucket_files_distinct demo_dir "users" "byName" "byName" by_name_def by_name_def
    (Some [("name", AStr "Bob")]) (Some [("name", AStr "Cid")])
    [mkEval [EncodeStringValue "Bob"] [AStr "Bob"]] [mkEval [EncodeStringValue "Cid"] [AStr "Cid"]]);
    try by_vm; by left.
Defined.

Definition by_age : SearchDef :=
  mkDefinition "search:1" "users" "byAge" 1 [] [mkSortSpec "/age" "asc"].

Definition ages (l : list (string * N)) : ResultFile :=
  mkResultFile "v" "s" "byAge" "users" [] (map (fun x => mkItemS (Some [num (snd x)]) (fst x)) l).

Definition by_city : SearchDef :=
  mkDefinition "search:1" "users" "byCity" 1 [] [mkSortSpec "/city" "desc"; mkSortSpec "/!" "asc"].

Definition cities (l : list (string * string)) : ResultFile :=
  mkResultFile "v" "s" "byCity" "users" []
    (map (fun x => mkItemS (Some [AStr (snd x); AStr (fst x)]) (fst x)) l).

Definition eva : list (string * any) := [("!", AStr "u2"); ("city", AStr "Lyon")].

(** A stored document sorted by a string field and its identifier, and a number
    that came over the wire. *)
Lemma Upsert_keeps_order_witness :
  (exists rf' changed,
    Upsert (cities [("u1", "Rome"); ("u3", "Bern")]) by_city "u2" (ComputeSortValues by_city eva) = Some (rf', changed) /\
    items_ok [SortString; SortString] ["desc"; "asc"] (RfItems rf') /\
    Upsert rf' by_city "u2" (ComputeSortValues by_city eva) = Some (rf', false)) /\
  (exists rf' changed,
    Upsert (ages [("u1", 20%N); ("u3", 40%N)]) by_age "u2" (SortValuesFromJSON [num 30%N]) = Some (rf', changed) /\
    items_ok [SortNumber] ["asc"] (RfItems rf')).
Proof.
  split.
  - destruct (Upsert_keeps_order [SortString; SortString] (cities [("u1", "Rome"); ("u3", "Bern")]) by_city "u2"
      (ComputeSortValues by_city eva)) as (rf' & changed & Hu & Hok & _ & _ & Hagain).
    + reflexivity.
    + split.
      * repeat apply Forall_cons_2; [..|apply Forall_nil_2];
          (split; [by eexists|repeat (apply Forall2_cons; split; [right; exact I|]); constructor]).
      * repeat constructor; set_solver.
      * repeat constructor. eexists. split; [vm_compute; reflexivity|done].
    + apply from_document. constructor; [exact I|]. constructor; [reflexivity|constructor].
    + exists rf', changed. split; [exact Hu|]. split; [exact Hok|exact Hagain].
  - destruct (Upsert_keeps_order [SortNumber] (ages [("u1", 20%N); ("u3", 40%N)]) by_age "u2"
      (SortValuesFromJSON [num 30%N])) as (rf' & changed & Hu & Hok & _).
    + reflexivity.
    + split.
      * repeat apply Forall_cons_2; [..|apply Forall_nil_2];
          (split; [by eexists|apply Forall2_cons; split; [right; exact I|constructor]]).
      * repeat constructor; set_solver.
      * repeat constructor. eexists. split; [vm_compute; reflexivity|done].
    + apply from_wire. constructor; [right; exact I|constructor].
    + exists rf', changed. split; [exact Hu|exact Hok].
Defined.

(** The younger document goes after the older one. *)
Lemma numbers_sort_by_arrival_witness :
  Upsert (ages [("u1", 40%N)]) by_age "u2" [known_value (ANumber "30")] =
  Some (set_items (ages [("u1", 40%N)])
          (RfItems (ages [("u1", 40%N)]) ++ [mkItemS (Some [ANumber "30"]) "u2"]), true).
Proof.
  apply (numbers_sort_by_arrival _ _ "/age" "asc"); [reflexivity|reflexivity| |].
  - change ("u2" ∉ ["u1"]). by rewrite list_elem_of_singleton.
  - repeat constructor. by eexists.
Defined.

(** A tree without bucket files. *)
Lemma shallow_checked (f : fs) :
  forallb (fun kv => Nat.leb (length (fst kv)) 4) (map_to_list f) = true ->
  forall q, (5 <= length q)%nat -> content f q = None.
Proof.
  intros Hall q Hq. unfold content. destruct (f !! q) as [nd|] eqn:Hl; [|done].
  rewrite forallb_forall in Hall. apply elem_of_map_to_list, list_elem_of_In, Hall in Hl.
  apply Nat.leb_le in Hl. simpl in Hl. lia.
Qed.

Lemma unlisted_within f P :
  forallb (fun kv => Nat.leb (length (fst kv)) 4) (map_to_list f) = true ->
  listed_within search_agent search_cfg "users" "u1" f "byName" P (fun _ => []).
Proof.
  intros Hall. exists (fun _ => False). split; [|done]. intros segs Hs. exists None. split.
  - split; [|done]. apply (shallow_checked f Hall).
    by apply (bucket_depth search_agent "users").
  - split; [by split; [constructor|]|]. split; [by intros ?%elem_of_nil|done].
Qed.

Lemma calm_valid : valid_ids (E:=calm).
Proof.
  intros n v [= <-]. apply valid_graphic.
  destruct (Itoa_nonneg (Z.of_nat n)) as (Hd & _ & _); [lia|]. simpl.
  eapply str_all_impl; [|exact Hd]. apply is_digit_graphic.
Qed.

Lemma search_names : names_ok (defs search_cfg "users").
Proof. split; repeat constructor. set_solver. Qed.

Definition bob : fields :=
  [("!", JStr "u1"); ("$", JStr "users:1"); ("#", JStr "v1"); ("name", JStr "Bob")].

Lemma distributeSearch_index_witness :
  wp (distributeSearch (H:=fails_at 9) (H3:=peer true) search_agent search_cfg "users" "u1" None
        (native_doc <$> Some bob)) (fun r s' =>
    is_ok r = true ->
    listed_exactly search_agent search_cfg "users" "u1" (st_fs s') "byName"
      (filed (text_of by_name) (native_doc <$> Some bob)) (fun _ => [])) (demo_st search_fs).
Proof.
  eapply wp_mono; [apply (distributeSearch_index (E:=fails_at 9) (H2:=peer true) search_agent search_cfg
    "users" "u1" eq_refl calm_valid eq_refl eq_refl None (Some bob) (fun _ _ => []) (demo_st search_fs)
    eq_refl search_names)|].
  - intros n raw [[= -> ->]|[]%elem_of_nil]%elem_of_cons. apply unlisted_within. vm_compute. reflexivity.
  - intros r s' Hs Hr. apply Hs; [by left|exact Hr].
Defined.

(** The document [bob] is live and its change is claimed. *)
Definition claimed_fs : fs :=
  <[TakenQueuePath demo_dir "users" "patch" "u1" := File "x"]>
  (<[DocumentPath demo_dir "users" "u1" := File (text_of (JObj bob))]> demo_fs).

(** The state after the claimed change is processed. *)
Definition indexed_st : st :=
  snd (runEntryResult (H:=calm) (H3:=peer true) search_agent search_cfg "patch" "users" "u1" "f" "taken"
         (demo_st claimed_fs)).

Lemma claimed_pending :
  index_pending search_agent search_cfg "users" "u1" (fun _ _ => []) claimed_fs.
Proof.
  intros n raw [[= -> ->]|[]%elem_of_nil]%elem_of_cons. apply unlisted_within. vm_compute. reflexivity.
Qed.

Lemma indexed_current :
  index_current search_agent search_cfg "users" "u1" (fun _ _ => []) (st_fs indexed_st).
Proof.
  pose proof (runEntryResult_index (E:=calm) (PE:=peer true) search_agent search_cfg
    "users" "u1" eq_refl eq_refl eq_refl eq_refl calm_valid search_names
    ltac:(by repeat constructor) "patch" eq_refl "f" "taken" "x" (fun _ _ => []) (demo_st claimed_fs)
    eq_refl claimed_pending ltac:(vm_compute; reflexivity)) as Hr.
  assert (fst (runEntryResult (H:=calm) (H3:=peer true) search_agent search_cfg "patch" "users" "u1"
         "f" "taken" (demo_st claimed_fs)) = mkEntryResult true true None) as Hrun
    by (vm_compute; reflexivity).
  unfold wp in Hr. unfold indexed_st. destruct (runEntryResult _ _ _ _ _ _ _ _) as [r s'].
  simpl in Hrun |- *. subst r. apply Hr.
Qed.

Definition query_bob : fields := [("name", JStr "Bob")].


Lemma entry_until_indexed_witness :
  wp (runEntryResult (H:=calm) (H3:=peer true) search_agent search_cfg "patch" "users" "u1" "f" "taken")
     (fun r s' => er_claimed r = true -> er_err r = None ->
        index_current search_agent search_cfg "users" "u1" (fun _ _ => []) (st_fs s')) (demo_st claimed_fs) /\
  fst (runEntryResult (H:=calm) (H3:=peer true) search_agent search_cfg "patch" "users" "u1"
         "f" "taken" (demo_st claimed_fs)) = mkEntryResult true true None.
Proof.
  split; [|vm_compute; reflexivity].
  eapply wp_mono; [apply (entry_until_indexed (E:=calm) (PE:=peer true) search_agent search_cfg
    "users" "u1" eq_refl eq_refl eq_refl eq_refl calm_valid search_names
    ltac:(by repeat constructor) "patch" eq_refl "f" "taken" "x" (fun _ _ => []) (demo_st claimed_fs))|].
  - reflexivity.
  - exact claimed_pending.
  - vm_compute. reflexivity.
  - intros r s' [_ Hr] Hcl He. rewrite Hcl, He in Hr. apply Hr.
Defined.
