(* ===== verification/ExamplesServer.v ===== *)
(** * The commands of a server at concrete inputs

    An engine wired as the server does it, with the change agent as distributor
    and one search, and the theorems about the commands applied to it. *)

From S2P Require Import Prelude GoStrings World Shard Json Config Store Docjson Replication Concrete.
From S2P Require Import Engine EngineSpec Cache Search SearchSpec SearchStore ChangeAgent ChangeSpec.
From S2P Require Import ChangeQueue DistributorSpec Examples ExamplesSearch.

#[local] Existing Instances nat_float nat_float_laws text_json text_gojson text_json_laws text_gojson_laws silent.

(** ** The engine *)

(** Server [a], whose peer [b] answers, under a choice of failing calls. *)
Definition server_engine (E : Env) : Engine :=
  mkEngine demo_dir "a" search_cfg (Some (mkCoordinator "a" demo_dir (Some search_cfg) 500))
    (Some (distributorAdapter (H:=E) (H3:=peer true) search_agent (fun _ => false))) None.

Lemma search_agent_names : agent_names search_agent.
Proof.
  intros cfg c [= <-] Hc. split.
  - simpl. destruct (c =? "users"); by repeat constructor.
  - by repeat constructor.
Qed.

Lemma server_engine_wired E : server_wiring (E:=E) (PE:=peer true) (server_engine E) search_agent (fun _ => false).
Proof.
  split; [done|done| | |apply search_agent_names].
  - by intros co [= <-].
  - intros slot. unfold AssignmentForSlot, SlotAssignment.
    cbn [shard_entries ShardMap ECfg server_engine search_cfg demo_map assignment_in].
    destruct (ParseRange _) as [r|]; [destruct (range_contains r slot)|]; by repeat constructor.
Qed.

Lemma server_ok E : engine_ok (server_engine E).
Proof. by eapply (server_engine_ok (E:=E) (PE:=peer true)), server_engine_wired. Qed.

Lemma server_layout : engine_layout (server_engine calm).
Proof.
  eapply (server_engine_layout (NF:=calm_nofault) (PE:=peer true)), server_engine_wired.
Qed.

(** ** The three commands succeed, the change agent included *)

Definition replied (r : Envelope) : option json := env_field r "distributionComplete".

Definition ran_create : Envelope * st :=
  create (H:=calm) (server_engine calm) demo_create demo_detail (demo_st demo_fs1).

Definition ran_patch : Envelope * st :=
  patch (H:=calm) (server_engine calm) demo_patch demo_change (demo_st demo_fs1).

Definition ran_delete : Envelope * st :=
  delete_doc (H:=calm) (server_engine calm) demo_delete demo_change (demo_st demo_fs1).

Example server_create_ok : env_ok (fst ran_create) = true.
Proof. by_vm. Qed.

(** The new document is in the bucket of its name. *)
Example server_create_indexed : fst (bucket_ids "Bob" (snd ran_create)) = Ok ["u2"].
Proof. by_vm. Qed.

Example server_patch_ok : env_ok (fst ran_patch) = true.
Proof. by_vm. Qed.

Example server_delete_ok : env_ok (fst ran_delete) = true.
Proof. by_vm. Qed.

(** ** Witnesses *)

Lemma create_refines_witness :
  store_ok demo_dir (st_fs (snd ran_create)) /\
  exists src v version, read_text (text_of (JObj demo_detail)) = Ok src /\ carries src v /\
    meta_is v "u2" "users:1" version /\ env_field (fst ran_create) "#" = Some (JStr version) /\
    db_eq (abs demo_dir (st_fs (snd ran_create))) (db_set (abs demo_dir demo_fs1) "users" "u2" (Some v)).
Proof.
  pose proof (create_refines (NF:=calm_nofault) (server_engine calm) (server_ok calm) server_layout
                demo_create demo_detail (demo_st demo_fs1) eq_refl demo_fs1_ok) as Hw.
  pose proof server_create_ok as Hok. unfold wp in Hw. fold ran_create in Hw.
  destruct ran_create as [r s']. cbn [fst snd] in *. rewrite Hok in Hw.
  destruct Hw as (Hst & _ & src & v & version & Hsrc & Hcar & Hm & Hv & Hdb). split; [exact Hst|].
  exists src, v, version. split; [exact Hsrc|]. split; [exact Hcar|]. split; [exact Hm|]. split; [exact Hv|exact Hdb].
Defined.


Lemma delete_refines_witness :
  store_ok demo_dir (st_fs (snd ran_delete)) /\
  db_eq (abs demo_dir (st_fs (snd ran_delete))) (db_set (abs demo_dir demo_fs1) "users" "u1" None).
Proof.
  pose proof (delete_refines (NF:=calm_nofault) (server_engine calm) (server_ok calm) server_layout
                demo_delete demo_change (demo_st demo_fs1) eq_refl demo_fs1_ok) as Hw.
  pose proof server_delete_ok as Hok. unfold wp in Hw. fold ran_delete in Hw.
  destruct ran_delete as [r s']. cbn [fst snd] in *. rewrite Hok in Hw.
  destruct Hw as (Hst & doc & _ & _ & _ & Hdb). split; [exact Hst|exact Hdb].
Defined.

(** A write of the new document fails: the sixth system call of [create]. *)
Lemma create_all_or_nothing_witness :
  wp (create (H:=fails_at 5) (server_engine (fails_at 5)) demo_create demo_detail)
     (fun r s' => others_kept (server_engine (fails_at 5)) demo_create demo_fs1 (st_fs s')) (demo_st demo_fs1).
Proof.
  eapply wp_mono; [apply (create_all_or_nothing (E:=fails_at 5) (server_engine (fails_at 5))
                            (server_ok (fails_at 5)) demo_create demo_detail (demo_st demo_fs1) eq_refl)|].
  intros r s' [Ho _]. exact Ho.
Defined.

Lemma patch_loses_nothing_witness :
  wp (patch (H:=fails_at 5) (server_engine (fails_at 5)) demo_patch demo_change) (fun r s' =>
    content (st_fs s') (DocumentPath demo_dir "users" "u1") = Some (text_of demo_doc) \/
    content (st_fs s') (PreviousDocumentPath demo_dir "users" "u1") = Some (text_of demo_doc) \/
    exists ops v, requested_ops demo_patch ops /\
      content (st_fs s') (DocumentPath demo_dir "users" "u1") = Some (stored v))
    (demo_st demo_fs1).
Proof.
  eapply wp_mono; [apply (patch_loses_nothing (E:=fails_at 5) (server_engine (fails_at 5))
                            (server_ok (fails_at 5)) demo_patch demo_change (text_of demo_doc)
                            (demo_st demo_fs1) eq_refl eq_refl)|].
  intros r s' [_ [[H _]|[(_ & H & _)|(schemaRaw & doc & ops & patched & v & after & _ & Ha & _ & H & _)]]];
    [left; exact H|right; left; exact H|right; right].
  exists ops, v. split; [exact (pa_request _ _ _ _ _ _ _ Ha)|exact H].
Defined.

Lemma delete_keeps_copy_witness :
  wp (delete_doc (H:=fails_at 3) (server_engine (fails_at 3)) demo_delete demo_change) (fun r s' =>
    others_kept (server_engine (fails_at 3)) demo_delete demo_fs1 (st_fs s')) (demo_st demo_fs1).
Proof.
  eapply wp_mono; [apply (delete_keeps_copy (E:=fails_at 3) (server_engine (fails_at 3))
                            (server_ok (fails_at 3)) demo_delete demo_change (text_of demo_doc)
                            (demo_st demo_fs1) eq_refl eq_refl)|].
  - vm_compute. discriminate.
  - intros r s' [Ho _]. exact Ho.
Defined.

(** The ninth call of the agent fails. *)
Lemma distributor_keeps_documents_witness :
  wp (distributorAdapter (H:=fails_at 8) (H3:=peer true) search_agent (fun _ => false) "patch" "users" "u1")
     (fun _ s' => content (st_fs s') (DocumentPath demo_dir "users" "u1") = Some (text_of (JObj bob)))
     (demo_st claimed_fs).
Proof.
  eapply wp_mono; [apply (distributor_keeps_documents (E:=fails_at 8) (PE:=peer true) search_agent
    (fun _ => false) "patch" "users" "u1" (demo_st claimed_fs) search_agent_names)|].
  - split; [right; left|by split].
  - intros r s' Hs. etransitivity; [exact (Hs "users" "u1" eq_refl eq_refl)|]. vm_compute. reflexivity.
Defined.

(** ** A target that is not a collection *)

(** A copy of the document kept outside the data directory. *)
Definition backup_fs : fs :=
  <[["u1.json"; "backup"] := File (text_of demo_doc)]> (<[["backup"] := Directory]> demo_fs1).

(** [delete] takes its target for a collection without looking it up: with the
    target [../backup] it removes a file next to the data directory and replies
    success. *)
Theorem delete_target_escapes :
  let '(r, s') := delete_doc (H:=calm) (server_engine calm)
                    (mkRequest "delete" "../backup" "u1" (text_of (JObj demo_change))) demo_change
                    (demo_st backup_fs) in
  env_ok r = true /\ content backup_fs ["u1.json"; "backup"] = Some (text_of demo_doc) /\
  content (st_fs s') ["u1.json"; "backup"] = None /\
  content (st_fs s') (DocumentPath demo_dir "users" "u1") = Some (text_of demo_doc).
Proof. vm_compute. split_and!; reflexivity. Qed.
