(* ===== verification/ExamplesCache.v ===== *)
(** * Cached summaries at concrete inputs

    The theorems about cached summaries applied to a source and a read member,
    and two runs in which the code does not do what it should. *)

From S2P Require Import Prelude GoStrings World Shard Json Config Store Docjson Replication Concrete.
From S2P Require Import Cache CacheSpec.

#[local] Existing Instances text_json text_gojson.

Definition all_delivered : Link := fun _ => Delivered.

(** Server [b] caches documents of server [a]. *)
Definition demo_cacher : CacheAgent := mkCacheAgent "b" demo_dir (fun _ => demo_dir) (Some demo_cfg) 0.

Definition version_of (v : string) : fields := [("!", JStr "u1"); ("#", JStr v)].

Definition update_to (v : string) : WorkItem :=
  mkWorkItem "users" "u1" "" v "op" "patch" (Some (version_of v)).

Definition pending_path : path := PendingCacheUpdatePath demo_dir "users" "b" "u1".
Definition cache_path : path := CachePath demo_dir "users" "u1".

Definition update_text (v : string) : string := text_of (cache_item_json (update_to v)) +:+ newline.

(** The source with a pending update, and the read member with a cache file. *)
Definition source_fs : fs :=
  <[pending_path := File (update_text "v1")]>
  (<[PendingCacheUpdatesDir demo_dir "users" := Directory]> demo_fs).

Definition member_fs : fs :=
  <[cache_path := File (text_of (JObj (version_of "v0")))]>
  (<[CacheDir demo_dir "users" := Directory]> (<[".cache" :: demo_dir := Directory]> demo_fs)).

Definition demo_pull : pull_world := mkPull (demo_st member_fs) [("a", demo_st source_fs)] 0.

Definition pull_one : W (result unit) :=
  cacheApplyOne (H:=all_delivered) (fun _ => calm) calm demo_cacher "a" "b-u1".

Lemma pull_until_applied_witness :
  kept_or_applied demo_cacher "a" pending_path (update_text "v1") demo_pull (snd (pull_one demo_pull)) /\
  fst (pull_one demo_pull) = Ok tt.
Proof.
  split; [|vm_compute; reflexivity]. unfold pull_one.
  pose proof (pull_until_applied (H:=all_delivered) (fun _ => calm) calm demo_cacher "a" "b-u1" demo_pull
    (demo_st source_fs) pending_path (update_text "v1") eq_refl ltac:(vm_compute; reflexivity)) as Hp.
  destruct (cacheApplyOne _ _ _ _ _ _) as [r w']. exact Hp.
Defined.

(** The pending update of the source is replaced by a newer one. *)
Definition source_writes (v : string) (w : pull_world) : pull_world :=
  match aget (pw_sots w) "a" with
  | Some s => mkPull (pw_self w)
                (aset (pw_sots w) "a" (snd (WriteWorkItem (H:=calm) demo_dir "b" (update_to v) s)))
                (pw_exchanges w)
  | None => w
  end.

Definition source_pending (w : pull_world) : option string :=
  match aget (pw_sots w) "a" with Some s => content (st_fs s) pending_path | None => None end.

(** The read member fetches a pending update, the source replaces it by a
    newer one, and the read member applies what it fetched and reports it done.
    The report removes the newer update: it is gone from the source, and the
    cache file stays at the older version. *)
Theorem newer_update_lost :
  let '(r1, w1) := fetchWorkItem (H:=all_delivered) (fun _ => calm) demo_cacher "a" "b-u1" demo_pull in
  let w2 := source_writes "v2" w1 in
  let '(r3, w3) := on_self (ApplyCache (H:=calm) demo_dir (update_to "v1")) w2 in
  let '(r4, w4) := completeWorkItem (H:=all_delivered) (fun _ => calm) demo_cacher "a" "b-u1" w3 in
  r1 = Ok (update_to "v1") /\ source_pending w2 = Some (update_text "v2") /\
  r3 = Ok true /\ r4 = Ok tt /\ source_pending w4 = None /\
  content (st_fs (pw_self w4)) cache_path = Some (text_of (JObj (version_of "v1")) +:+ newline).
Proof. vm_compute. split_and!; reflexivity. Qed.

(** A reference to the collection [../users] is a reference the code accepts;
    the cache file of its document is the live file of a document of [users], and
    a read that asks for summaries creates it there: a document that nobody
    created. *)
Theorem reference_escapes_cache :
  let '(r, s') := EnsureStub (H:=calm) demo_dir "../users" "u9" (demo_st demo_fs) in
  ParseRef "@@__../users__u9" = Some ("../users", "u9") /\
  content demo_fs (DocumentPath demo_dir "users" "u9") = None /\
  is_ok r = true /\
  content (st_fs s') (DocumentPath demo_dir "users" "u9") =
    Some (text_of (JObj (stub "u9")) +:+ newline).
Proof. vm_compute. split_and!; reflexivity. Qed.
