(* ===== verification/ExamplesMigrate.v ===== *)
(** * Migrations at concrete inputs

    A collection one schema version ahead of its documents, and the theorems about
    migrations applied to it. *)

From S2P Require Import Prelude GoStrings World Shard Json Config Store Docjson Replication Concrete.
From S2P Require Import Engine EngineSpec Search SearchStore Migrate MigrateSpec.
From S2P Require Import EngineRead EngineReadSpec ExamplesSearch Scheduler.

#[local] Existing Instances nat_float text_json text_gojson text_json_laws text_gojson_laws silent.

(** Version 2 renames a field, drops one and gives a new one a value. *)
Definition to_version_2 : json :=
  JObj [("from", JNum "1"); ("to", JNum "2"); ("new_ver_id", JStr "01ARZ3NDEKTSV4RRFFQ69G5FAV");
        ("updates", JArr
           [JObj [("op", JStr "move"); ("from", JStr "/name"); ("path", JStr "/fullName")];
            JObj [("op", JStr "remove"); ("path", JStr "/age")];
            JObj [("op", JStr "replace"); ("path", JStr "/status"); ("value", JStr "active")]])].

Definition parsed_version_2 : UpdateSpec :=
  match ParseUpdateSpec (text_of to_version_2) with Ok s => s | Err _ => mkUpdateSpec 0 None "" [] end.

Lemma parsed : ParseUpdateSpec (text_of to_version_2) = Ok parsed_version_2.
Proof.
  assert (is_ok (ParseUpdateSpec (text_of to_version_2)) = true) as Hok by (vm_compute; reflexivity).
  unfold parsed_version_2. by destruct (ParseUpdateSpec _).
Qed.

Definition ahead_cfg : Config :=
  mkConfig (mkGeneralBody "demo" "a" 1 5 5 3 1000)
    [("a", mkServerEntry "http://a"); ("b", mkServerEntry "http://b")] demo_map
    (mkAuthBody "" "" 0 0 []) [("users", "{}")] [("users", 2%Z)] []
    [("users", [(2%Z, text_of to_version_2)])] [] [] [].

Definition behind : fields :=
  [("!", JStr "u1"); ("$", JStr "users:1"); ("#", JStr "v0"); ("name", JStr "Ann"); ("age", JNum "41");
   ("city", JStr "Rome")].

Lemma ahead_ready : updates_ready ahead_cfg "users" 1.
Proof.
  split; [|vm_compute; split; congruence]. intros v Hv.
  assert (v = 2%Z) as -> by (change (SchemaVersion (Some ahead_cfg) "users") with 2%Z in Hv; lia).
  exists (text_of to_version_2), parsed_version_2. split; [reflexivity|]. split; [exact parsed|].
  split; [exists (fun _ => true); vm_compute; reflexivity|].
  assert (forallb (fun op => negb (UoOp op =? "replace") || bool_decide (UoValue op <> None))
            (UsUpdates parsed_version_2) = true) as Hr by (vm_compute; reflexivity).
  rewrite forallb_forall in Hr. apply Forall_forall. intros op Hop%list_elem_of_In Hre.
  apply Hr in Hop. rewrite Hre in Hop. by apply bool_decide_eq_true in Hop.
Qed.

(** Field [city] is named by no operation of the list. *)
Lemma city_unnamed : field_unnamed ahead_cfg "users" 1 "city".
Proof.
  intros v op Hv Hop.
  assert (v = 2%Z) as -> by (change (SchemaVersion (Some ahead_cfg) "users") with 2%Z in Hv; lia).
  assert (listed_ops (default [] (aget (SchemaUpdateHistory ahead_cfg) "users")) 2 =
            UsUpdates parsed_version_2) as Hl.
  { transitivity (match ParseUpdateSpec (text_of to_version_2) with
                  | Ok spec => UsUpdates spec | Err _ => [] end); [reflexivity|by rewrite parsed]. }
  rewrite Hl in Hop.
  assert (forallb (fun op => negb (bool_decide (head (splitPath (UoPath op)) = Some "city")) &&
            negb (bool_decide (head (splitPath (UoFrom op)) = Some "city"))) (UsUpdates parsed_version_2) = true)
    as Hall by (vm_compute; reflexivity).
  rewrite forallb_forall in Hall. apply list_elem_of_In, Hall, andb_true_iff in Hop as [Hp Hf].
  apply negb_true_iff, bool_decide_eq_false in Hp. apply negb_true_iff, bool_decide_eq_false in Hf.
  intros [Hn|[_ Hn]]; [exact (Hp Hn)|exact (Hf Hn)].
Qed.


(** ** The stored document *)

Definition behind_fs : fs := <[DocumentPath demo_dir "users" "u1" := File (text_of (JObj behind))]> demo_fs.

Lemma behind_well_formed d' :
  MigrateDocument ahead_cfg "users" (as_doc behind) (SchemaVersion (Some ahead_cfg) "users") = Ok (Some d') ->
  well_formed (JObj (as_fields d')) = true.
Proof.
  assert (match MigrateDocument ahead_cfg "users" (as_doc behind) (SchemaVersion (Some ahead_cfg) "users") with
          | Ok (Some d) => well_formed (JObj (as_fields d)) | _ => true end = true) as Hw
    by (vm_compute; reflexivity).
  by intros Q; rewrite Q in Hw.
Qed.

Definition run_migration : M (result bool) := ApplyToStoredDocument (H:=calm) demo_dir ahead_cfg "users" "u1".

Lemma behind_migratable : migratable (E:=calm) ahead_cfg "users" behind 1.
Proof.
  split; [reflexivity|reflexivity|exact ahead_ready|exact behind_well_formed|exact calm_valid].
Qed.

Lemma stored_migration_witness :
  let s' := snd (run_migration (demo_st behind_fs)) in
  fst (run_migration (demo_st behind_fs)) = Ok true /\
  migrated_from demo_dir ahead_cfg "users" "u1" behind (st_fs s').
Proof.
  cbv zeta. split; [vm_compute; reflexivity|].
  pose proof (stored_migration (E:=calm) demo_dir ahead_cfg "users" "u1" (text_of (JObj behind)) behind 1
    (demo_st behind_fs) eq_refl eq_refl ltac:(vm_compute; reflexivity) ltac:(vm_compute; reflexivity)
    behind_migratable) as Hw.
  unfold wp in Hw. fold run_migration in Hw.
  assert (fst (run_migration (demo_st behind_fs)) = Ok true) as Hr by (vm_compute; reflexivity).
  destruct (run_migration (demo_st behind_fs)) as [r s']. simpl in Hr |- *.
  destruct Hw as [_ [[_ Hn]|[(_ & _ & Hn)|Hw]]]; [by subst r|by subst r|exact Hw].
Defined.

(** ** Reading and patching it *)

Definition ahead_engine (server : string) : Engine := mkEngine demo_dir server ahead_cfg None None None.

Definition run_read : M Envelope :=
  read (H:=calm) (ahead_engine "b") (mkRequest "read" "users" "u1" "{}") [("extraFields", JBool true)].

Lemma behind_servable req :
  ReqTarget req = "users" -> servable (E:=calm) (ahead_engine "b") req behind.
Proof.
  intros Hc. split; try rewrite Hc.
  - intros _. exists 1%Z. split; [reflexivity|exact ahead_ready].
  - exact behind_well_formed.
  - exact calm_valid.
Qed.


(** The client patches the document it last read at version 1, under the schema
    version the server demands. *)
Definition set_status : fields :=
  [("#", JStr "v0"); ("$", JStr "users:2");
   ("RFC6902", JArr [JObj [("op", JStr "add"); ("path", JStr "/status"); ("value", JStr "away")]])].

Definition run_set_status : M Envelope :=
  patch (H:=calm) (ahead_engine "a") (mkRequest "patch" "users" "u1" (text_of (JObj set_status))) set_status.

Definition live_document (s : st) : fields :=
  match content (st_fs s) (DocumentPath demo_dir "users" "u1") with
  | Some d => match ReadBytesNoSchema d with Ok (JObj m) => m | _ => [] end
  | None => []
  end.

(** A patch of a document that is behind its collection is accepted, does not
    migrate it and still writes the current schema marker: the document keeps its
    old fields, and neither a later read nor the upgrade agent will migrate it. *)
Theorem patch_skips_migration :
  let '(r, s) := run_set_status (demo_st behind_fs) in
  env_ok r = true /\
  aget (live_document s) "$" = Some (JStr "users:2") /\
  aget (live_document s) "name" = Some (JStr "Ann") /\ aget (live_document s) "fullName" = None /\
  NeedsMigration (Some ahead_cfg) "users" (Some (as_doc (live_document s))) = false /\
  fst (UpgradeRunOnce (H:=calm) demo_dir (Some ahead_cfg) (fun _ => false) s) = (false, None).
Proof. vm_compute. split_and!; reflexivity. Qed.

(** ** An update list that cannot be applied *)

Definition empty_replace : json :=
  JObj [("from", JNum "1"); ("to", JNum "2"); ("new_ver_id", JStr "01ARZ3NDEKTSV4RRFFQ69G5FAV");
        ("updates", JArr [JObj [("op", JStr "replace"); ("path", JStr "/status")]])].

Definition two_cfg : Config :=
  mkConfig (General ahead_cfg) (Servers ahead_cfg) demo_map (mkAuthBody "" "" 0 0 [])
    [("items", "{}"); ("users", "{}")] [("items", 2%Z); ("users", 2%Z)] []
    [("items", [(2%Z, text_of empty_replace)]); ("users", [(2%Z, text_of to_version_2)])] [] [] [].

Definition item_behind : fields := [("!", JStr "i1"); ("$", JStr "items:1"); ("#", JStr "v0")].

Definition two_fs : fs :=
  <[DocumentPath demo_dir "items" "i1" := File (text_of (JObj item_behind))]>
  (<["items" :: demo_dir := Directory]> behind_fs).

Definition bad_spec : UpdateSpec :=
  match ParseUpdateSpec (text_of empty_replace) with Ok s => s | Err _ => mkUpdateSpec 0 None "" [] end.

Definition upgrade_once : (bool * option error) * st :=
  UpgradeRunOnce (H:=calm) demo_dir (Some two_cfg) (fun _ => false) (demo_st two_fs).

(** An update list of one collection that passes validation and cannot be
    applied stops the migration of every collection behind it.  The upgrade agent
    reports that it did work and changes nothing, so its worker calls it again at
    once, without end, and a document of another collection that could be migrated
    stays behind. *)
Theorem bad_update_starves_agent :
  ParseUpdateSpec (text_of empty_replace) = Ok bad_spec /\ ValidateSpec (fun _ => true) bad_spec 1 = [] /\
  fst (fst upgrade_once) = true /\ snd (fst upgrade_once) <> None /\
  st_fs (snd upgrade_once) = two_fs /\
  after_run false (fst (fst upgrade_once)) = Draining /\
  fst (ApplyToStoredDocument (H:=calm) demo_dir two_cfg "users" "u1" (demo_st two_fs)) = Ok true.
Proof.
  split; [by_vm|]. split; [by_vm|]. split; [by_vm|]. split; [|split; [by_vm|split; by_vm]].
  assert (bool_decide (is_Some (snd (fst upgrade_once))) = true) as Hs by by_vm.
  apply bool_decide_eq_true in Hs as [e ->]. discriminate.
Qed.

(** ** The rest *)

Lemma accepted_replace_fails_witness :
  let spec := mkUpdateSpec 1 None "01ARZ3NDEKTSV4RRFFQ69G5FAV" [mkUpdateOp "replace" "/status" "" None None ANil] in
  ValidateSpec (fun _ => true) spec 1 = [] /\ is_ok (ApplyToDocument (as_doc behind) spec) = false.
Proof. apply accepted_replace_fails; [reflexivity|vm_compute; reflexivity|discriminate]. Defined.

Lemma conversion_drops_numbers_witness :
  convertKind (ANumber "41") "number" = AFloat float_zero /\
  convertKind (ANumber "41") "boolean" = ABool true /\
  schemaKindMatches (Some [("kind", JStr "number")]) (ANumber "41") = false.
Proof. apply conversion_drops_numbers. reflexivity. Defined.
