(* ===== verification/ExamplesAdmin.v ===== *)
(** * Configuration changes at concrete inputs

    A configuration directory with one collection, changes made to it, and what
    becomes of it when a system call fails in the middle of one; the document
    another server gets from it. *)

From S2P Require Import Prelude GoStrings World Shard Json Config Store ConfigLoad ConfigSpec Docjson Replication Concrete.
From S2P Require Import Engine EngineSpec Search SearchStore FileRepl Migrate MigrateSpec EngineRead SchemaPatch Admin AdminSpec Establish EstablishSpec.
From S2P Require Import ExamplesSearch.

(** ASCII letters, and every URL taken for an absolute one. *)
Definition ascii_tables : GoTables := {|
  IsLetter := fun r => ((65 <=? r) && (r <=? 90) || (97 <=? r) && (r <=? 122))%Z;
  url_Parse := fun raw => Some (true, "https", raw);
|}.

#[local] Existing Instances nat_float text_json text_gojson text_json_laws text_gojson_laws ascii_tables silent.

Definition any_ulid (s : string) : bool := true.

(** ** A configuration directory *)

Definition conf_dir : path := ["config"].

Definition conf_general : GeneralBody := mkGeneralBody "demo" "a" 1 5 5 3 1000.

Definition conf_auth : AuthBody :=
  mkAuthBody "issuer" "audience" 3600 3600 [mkAuthKey "k1" "EdDSA" "active" "AAAA"].

Definition name_schema : json :=
  JObj [("kind", JStr "object");
        ("children", JArr [JObj [("name", JStr "name"); ("kind", JStr "string")]])].

Definition conf_files : list (string * json) :=
  [("__general.json", general_json conf_general);
   ("__servers.json", JObj [("servers", servers_json [("a", mkServerEntry "http://a"); ("b", mkServerEntry "http://b")])]);
   ("__shard-map.json", JObj [("shardMap", shardmap_json demo_map)]);
   ("__auth.json", JObj [("auth", auth_json conf_auth)]);
   ("users.schema.json", name_schema);
   ("users.schema.0.json", name_schema)].

Definition conf_fs : fs :=
  foldl (fun f nv => <[fst nv :: conf_dir := File (text_of (snd nv))]> f)
    (<[conf_dir := Directory]> demo_fs) conf_files.

Definition conf_st : st := demo_st conf_fs.

Definition loads (s : st) : bool := is_ok (fst (Load (H:=calm) conf_dir s)).

Example conf_loads : loads conf_st = true.
Proof. vm_compute. reflexivity. Qed.

(** Version 1 gives every user a rating. *)
Definition add_rating : json :=
  JObj [("from", JNum "0"); ("new_ver_id", JStr "01ARZ3NDEKTSV4RRFFQ69G5FAV");
        ("updates", JArr [JObj [("op", JStr "add"); ("path", JStr "/rating"); ("value", JNum "0");
                                ("schema", JObj [("kind", JStr "number")])]])].

Definition upgrade (E : Env) (s : st) : EnsureCollectionResult * list EError * st :=
  EnsureCollection (H:=E) any_ulid quoted "42" conf_dir demo_dir "users" "" (text_of add_rating) s.

Example upgraded_loads :
  snd (fst (upgrade calm conf_st)) = [] /\ loads (snd (upgrade calm conf_st)) = true.
Proof. vm_compute. done. Qed.

Example upgraded_changed :
  (snd (fst (upgrade calm conf_st)), CrChanged (fst (fst (upgrade calm conf_st)))) = ([], true).
Proof. vm_compute. reflexivity. Qed.

Lemma EnsureCollection_general_last_witness :
  let '(res, errs, s') := upgrade calm conf_st in
  errs = [] /\ CrChanged res = true /\
  exists old text updates,
    (forall current, old = Some current -> content conf_fs (schemaPath conf_dir "users") = Some current) /\
    new_schema "" (text_of add_rating) old (CrSchemaVersion res) text updates /\
    schema_in_place conf_dir "users" (CrSchemaVersion res) text updates (st_fs s').
Proof.
  pose proof (EnsureCollection_general_last (E:=calm) any_ulid quoted "42" conf_dir demo_dir "users" ""
           (text_of add_rating) conf_st eq_refl) as Hw.
  pose proof upgraded_changed as Hc. unfold wp in Hw. unfold upgrade in *.
  destruct (EnsureCollection _ _ _ _ _ _ _ _ _) as [[res errs] s']. cbn [fst snd] in Hc.
  injection Hc as He Hch. split; [exact He|]. split; [exact Hch|]. apply Hw. right. split; [exact He|exact Hch].
Defined.

(** ** Failures in the middle of a change *)

(** The write of the versioned copy fails, after the current schema was replaced;
    and the write of the update list fails, after both schema files. *)
Definition half_upgraded : st := snd (upgrade (fails_at 21) conf_st).
Definition listless : st := snd (upgrade (fails_at 31) conf_st).

(** When the write of the versioned copy of a new schema fails, the request
    reports an error, and from then on, with no further failure, the configuration
    does not load, and repeating the request is refused, because the update is
    applied to the schema that already has it.  When the write of the update list
    fails the configuration loads with the new version, repeating the request is
    refused as out of date, and no document can be taken to that version. *)
Theorem interrupted_upgrade_stuck :
  map Code (snd (fst (upgrade (fails_at 21) conf_st))) = ["filesystemError"] /\
  loads half_upgraded = false /\
  map Code (snd (fst (upgrade calm half_upgraded))) = ["invalidSchemaUpgrade"] /\
  loads (snd (upgrade calm half_upgraded)) = false /\
  map Code (snd (fst (upgrade (fails_at 31) conf_st))) = ["filesystemError"] /\
  map Code (snd (fst (upgrade calm listless))) = ["staleSchemaVersion"] /\
  match fst (Load (H:=calm) conf_dir listless) with
  | Err _ => False
  | Ok cfg => SchemaVersion (Some cfg) "users" = 1%Z /\
      is_ok (MigrateDocument cfg "users" [("!", AStr "u1"); ("$", AStr "users:0"); ("#", AStr "v0")] 1) = false
  end.
Proof. vm_compute. repeat split. Qed.

(** A lock whose removal fails is held for good. *)
Example lock_left_behind :
  snd (fst (upgrade (fails_at 51) conf_st)) = [] /\
  map Code (snd (fst (upgrade calm (snd (upgrade (fails_at 51) conf_st))))) = ["configLockHeld"].
Proof. vm_compute. done. Qed.

(** A collection name may lead out of the configuration directory. *)
Theorem slash_collection_escapes :
  ValidCollectionName "a/../../x" = true /\
  schemaPath ["config"; "db"] "a/../../x" = ["x.schema.json"; "db"].
Proof. split; reflexivity. Qed.

(** ** The configuration of another server *)

Definition same_order : EstNet := {|
  est_reply := fun _ _ => Err (errorf "no route to host"); wall := fun _ => 0%Z;
  visit := fun A l => l; visit_perm := fun A l => Permutation_refl l |}.

#[local] Existing Instance same_order.

Definition loaded (s : st) : Config :=
  match fst (Load (H:=calm) conf_dir s) with Ok cfg => cfg | Err _ => demo_cfg end.

(** What a server has after it fetched the configuration of [cfg] into [s]. *)
Definition fetched (cfg : Config) (s : st) : result unit * st :=
  match result_bind (establish_body cfg) parseEstablishResponse with
  | Ok doc => writeConfig (H:=calm) conf_dir doc s
  | Err e => (Err e, s)
  end.

Definition upgraded_cfg : Config := loaded (snd (upgrade calm conf_st)).

Definition member_st : st := snd (fetched upgraded_cfg (demo_st (<[conf_dir := Directory]> demo_fs))).

Definition old_user : fields := [("!", JStr "u1"); ("$", JStr "users:0"); ("#", JStr "v0"); ("name", JStr "Ann")].

Definition member_engine : Engine := mkEngine demo_dir "b" (loaded member_st) None None None.

Definition member_data : st :=
  demo_st (<[DocumentPath demo_dir "users" "u1" := File (text_of (JObj old_user))]> demo_fs).

(** The document other servers get has the current schemas and not the update
    lists that led to them.  A server that fetched it loads it, knows that the
    collection is at version 1, and cannot serve a document that is still at
    version 0, while the configuration it was fetched from can migrate it. *)
Theorem member_cannot_migrate :
  loads member_st = true /\
  SchemaVersion (Some (loaded member_st)) "users" = 1%Z /\
  is_ok (MigrateDocument upgraded_cfg "users" (as_doc old_user) 1) = true /\
  env_codes (fst (read (H:=calm) member_engine (mkRequest "read" "users" "u1" "") [] member_data)) =
    ["schemaMigrationFailed"].
Proof. vm_compute. repeat split. Qed.

(** A search that is deleted after another server fetched it stays there. *)
Definition by_name : string :=
  text_of (JObj [("$", JStr "SearchDefinition:v1"); ("collection", JStr "users"); ("name", JStr "byName");
                 ("version", JNum "1")]).

Definition with_search_cfg : Config := with_search (loaded conf_st) "users" "byName" 1 by_name.
Definition had_search : st := snd (fetched with_search_cfg (demo_st (<[conf_dir := Directory]> demo_fs))).
Definition refreshed : st := snd (fetched (loaded conf_st) had_search).

Theorem deleted_search_lingers :
  Searches (loaded conf_st) = [] /\ fst (fetched (loaded conf_st) had_search) = Ok tt /\
  loads refreshed = true /\ Searches (loaded refreshed) = [("users", [("byName", by_name +:+ newline)])].
Proof. vm_compute. repeat split. Qed.

Definition conf_fields : fields :=
  match EstablishDocument with_search_cfg with Ok fs => fs | Err _ => [] end.

Lemma conf_publishable : publishable with_search_cfg conf_fields.
Proof.
  assert (forall z, ((0 <=? z) && (z <? 2 ^ 63))%Z = true -> int_ok z) as Hint by (intros z Hz; unfold int_ok; lia).
  split; [vm_compute; reflexivity|vm_compute; reflexivity| | | |].
  - split; apply Hint; vm_compute; reflexivity.
  - apply Hint; vm_compute; reflexivity.
  - apply Hint; vm_compute; reflexivity.
  - intros c Hc. assert (akeys (Schemas with_search_cfg) = ["users"]) as E by (vm_compute; reflexivity).
    rewrite E in Hc. apply list_elem_of_singleton in Hc as ->. apply Hint; vm_compute; reflexivity.
Qed.

Lemma establish_roundtrip_witness :
  exists body doc, establish_body with_search_cfg = Ok body /\ parseEstablishResponse body = Ok doc /\
    decodes "general" (ErGeneral doc) general_of_json (eq conf_general).
Proof.
  destruct (establish_roundtrip with_search_cfg conf_fields conf_publishable)
    as (body & doc & Hb & Hp & _ & Hg & _). exists body, doc. split; [exact Hb|]. split; [exact Hp|].
  assert (General with_search_cfg = conf_general) as E by (vm_compute; reflexivity). rewrite <-E. exact Hg.
Defined.

(** ** Schemas and documents *)

Definition rename_spec : UpdateSpec :=
  mkUpdateSpec 0 None "v" [mkUpdateOp "move" "/fullName" "/name" None None ANil;
                           mkUpdateOp "add" "/rating" "" (Some [("kind", JStr "number")]) (Some ANil) ANil].

Definition ann : list (string * any) := [("name", AStr "Ann"); ("note", AStr "extra")].

Lemma rename_in_step : Forall in_step (UsUpdates rename_spec).
Proof.
  apply Forall_cons. split; [|apply Forall_cons; split; [|apply Forall_nil; exact I]]; split.
  - by eexists _, _.
  - intros _. split; [by eexists _, _|]. vm_compute. set_solver.
  - done.
  - intros _. vm_compute. intros [k Hk]. discriminate Hk.
  - by eexists _, _.
  - by intros [?|?].
  - done.
  - done.
Qed.


(** Moving a field to a place below itself is accepted, takes the field out of the
    schema, and leaves it in the document as an object that nothing describes. *)
Definition move_below : UpdateSpec :=
  mkUpdateSpec 0 None "v" [mkUpdateOp "move" "/name/first" "/name" None None ANil].

Theorem move_below_itself :
  ValidateSpec any_ulid move_below 0 = [] /\
  exists root', ApplySchema (text_of name_schema) move_below = Ok (text_of root') /\ names root' = [] /\
  exists d', ApplyToDocument [("name", AStr "Ann")] move_below = Ok d' /\
    extra root' d' "name" /\ ~ extra name_schema [("name", AStr "Ann")] "name".
Proof.
  split; [vm_compute; reflexivity|].
  exists (match apply_ops name_schema (UsUpdates move_below) with Ok r => r | Err _ => JNull end).
  split; [vm_compute; reflexivity|]. split; [reflexivity|].
  eexists. split; [vm_compute; reflexivity|]. split; [split; [reflexivity|set_solver]|].
  intros [_ Hn]. apply Hn. vm_compute. set_solver.
Qed.
