(* ===== verification/ExamplesHttp.v ===== *)
(** * Tokens and requests at concrete inputs

    A token library over the text form of [Concrete] that satisfies the laws assumed
    of the real one, a server with a signing key, and requests to it. *)

From stdpp Require Import countable.
From S2P Require Import Prelude GoStrings Sha256 World Shard Json Config Store Attach AttachSpec ConfigLoad Docjson Replication Operation Concrete.
From S2P Require Import Engine EngineSpec Search SearchStore FileRepl EngineFiles HttpRange Migrate EngineRead SchemaPatch Admin Establish EstablishSpec.
From S2P Require Import Auth AuthSpec HttpServer HttpServerSpec Examples ExamplesFiles ExamplesSearch ExamplesAdmin.

(** ** A token library *)

(** A key is its public part and its identifier; a signature is the two in the text
    of the token. *)
Definition signed_form : Type :=
  option string * option (list string) * option string * option Z * option Z * gen_tree string * string * string.

Definition form_of (t : token) (k : string * string) : signed_form :=
  (TkIssuer t, TkAudience t, TkSubject t, TkIssuedAt t, TkExpiration t, tree_of (JObj (TkPrivate t)), fst k, snd k).

Definition token_of (f : signed_form) : token :=
  let '(iss, aud, sub, iat, exp, priv, _, _) := f in
  mkToken iss aud sub iat exp (match of_tree priv with JObj m => m | _ => [] end).

Definition jwt_text (t : token) (k : string * string) : string := String "{" (bits (encode (form_of t k))).

Definition jwt_form (raw : string) : option signed_form :=
  match raw with String _ s => of_bits s ≫= decode | "" => None end.

Lemma jwt_form_text t k : jwt_form (jwt_text t k) = Some (form_of t k).
Proof. unfold jwt_form, jwt_text. rewrite of_bits_bits. cbn. apply decode_encode. Qed.

Lemma token_of_form t k : token_of (form_of t k) = t.
Proof. unfold token_of, form_of. rewrite of_tree_of. by destruct t. Qed.

Definition jwt_check (raw : string) (set : list (string * string)) (iss aud : string) (now : Z) : ParseError + token :=
  match jwt_form raw with
  | None => inl (mkParseError false "not a token")
  | Some f =>
      let t := token_of f in
      let '(_, _, _, _, _, _, pub, kid) := f in
      if negb (bool_decide ((pub, kid) ∈ set)) then inl (mkParseError false "could not verify")
      else if negb (bool_decide (TkIssuer t = Some iss)) then inl (mkParseError false "iss not satisfied")
      else if negb (bool_decide (aud ∈ default [] (TkAudience t))) then inl (mkParseError false "aud not satisfied")
      else if negb (match TkIssuedAt t with Some iat => (whole iat <=? whole now)%Z | None => true end) then
        inl (mkParseError false "iat not satisfied")
      else if negb (match TkExpiration t with Some exp => (whole now <? whole exp)%Z | None => true end) then
        inl (mkParseError true "exp not satisfied")
      else inr (in_seconds t)
  end.

Definition text_jwx : JWX := {|
  jwk := string * string;
  jwk_set := list (string * string);
  NewSet := [];
  ImportPublic := fun pub => Ok (pub, "");
  ImportPrivate := fun priv => Ok (PublicOf priv, "");
  SetKeyID := fun k kid => Ok (fst k, kid);
  SetAlgorithm := fun k _ => Ok k;
  AddKey := fun set k => Ok (set ++ [k]);
  BuildToken := fun _ => Ok tt;
  SignToken := fun t k => Ok (jwt_text t k);
  ParseJWT := jwt_check;
|}.

Lemma bits_graphic p : str_all graphic (bits p) = true.
Proof. induction p as [p IH|p IH|]; cbn; rewrite ?IH; done. Qed.

Lemma built_list keys set : built (H:=text_jwx) keys set -> set = map (fun k => (snd k, fst k)) keys.
Proof.
  induction 1 as [|keys set kid pub k1 k2 k3 set' _ IH E1 E2 E3 E4]; [done|].
  cbn in E1, E2, E3, E4. injection E1 as <-. injection E2 as <-. injection E3 as <-. injection E4 as <-.
  by rewrite map_app, IH.
Qed.

Lemma text_jwx_laws : JWXLaws (H:=text_jwx).
Proof.
  split.
  - intros keys set kid pub _ _ _. by do 4 eexists.
  - intros tok key raw [= <-]. split; [done|]. unfold jwt_text. cbn [str_all]. by rewrite bits_graphic.
  - intros priv kid k1 k2 tok raw keys set iss aud auds iat exp now [= <-] [= <-] [= <-] Hb _ Hin Hi Ha Haud Ht He Hw.
    cbn. unfold jwt_check. rewrite jwt_form_text, token_of_form. cbn [form_of fst snd].
    rewrite Hi, Ha, Ht, He. cbn [default]. rewrite !bool_decide_eq_true_2; [cbn|done|done|].
    + by rewrite (proj2 (Z.leb_le _ _)), (proj2 (Z.ltb_lt _ _)) by lia.
    + rewrite (built_list _ _ Hb). apply list_elem_of_In, in_map_iff. exists (kid, PublicOf priv).
      split; [done|]. by apply list_elem_of_In.
  - intros tok key raw set iss aud now tok' [= <-]. cbn. unfold jwt_check. rewrite jwt_form_text, token_of_form.
    cbn [form_of]. repeat (destruct (negb _); [done|]). by intros [= <-].
Qed.

(** ** A server with a signing key *)

(** Media types without parameters, and no multipart bodies. *)
Definition plain_http : HttpLib := {|
  ParseMediaType := fun s => Ok (s, []); FormParts := fun _ _ => ([], None) |}.

#[local] Existing Instances calm nat_float text_json text_gojson text_json_laws text_gojson_laws ascii_tables silent deaf
  text_jwx text_jwx_laws plain_http.

Definition demo_public : string := "0123456789abcdef0123456789abcdef".
Definition demo_private : string := "AAAAAAAAAAAAAAAAAAAAAAAAAAAAAAAA" +:+ demo_public.

Definition key_auth : AuthBody :=
  mkAuthBody "issuer" "audience" 3600 3600 [mkAuthKey "k1" "EdDSA" "active" (EncodePublicKey demo_public)].

Definition hour : Z := (3600 * nanoseconds)%Z.

Definition demo_issuer : TokenIssuer := mkIssuer demo_private "k1" "issuer" "audience" hour hour.

Definition with_auth (c : Config) (a : AuthBody) : Config :=
  mkConfig (General c) (Servers c) (ShardMap c) a (Schemas c) (SchemaVersions c) (SchemaHistory c)
    (SchemaUpdateHistory c) (Searches c) (SearchVersions c) (SearchHistory c).

Definition key_engine : Engine := mkEngine demo_dir "a" (with_auth demo_cfg key_auth) None None None.

Definition demo_server : HTTPServer := mkServer key_engine true conf_dir (Some demo_issuer) "secret".

(** What the server signs for [b] at time 0. *)
Definition b_token : string :=
  jwt_text (issued_token demo_issuer 0 KindMachine "b" "b" hour) (demo_public, "k1").

Lemma b_issued : IssueMachineToken demo_issuer 0 "b" 0 = Ok (b_token, hour).
Proof. reflexivity. Qed.

Lemma key_auth_valid : validateAuth key_auth = [].
Proof. vm_compute. reflexivity. Qed.

Lemma key_auth_usable : Forall usable (Keys key_auth).
Proof. apply Forall_cons_2; [|apply Forall_nil_2]. by apply EncodePublicKey_usable. Qed.

Lemma key_auth_issuer : NewIssuer key_auth demo_private = Ok demo_issuer.
Proof. vm_compute. reflexivity. Qed.

Lemma issued_token_valid_witness :
  exists v claims, NewValidator key_auth = Ok v /\
    ParseBearer v (5 * nanoseconds) ("Bearer " +:+ b_token) = inr claims /\
    ClServerName claims = "b" /\ RequireMachine claims "c" <> None.
Proof.
  destruct (issued_token_valid key_auth demo_private demo_issuer 0 (5 * nanoseconds) "b" 0 b_token hour
              key_auth_valid key_auth_usable key_auth_issuer b_issued ltac:(by split; vm_compute))
    as (v & claims & Hv & Hp & _ & Hn & _ & Hm & _).
  exists v, claims. split; [exact Hv|]. split; [exact Hp|]. split; [exact Hn|].
  intros Hc. apply Hm in Hc. destruct Hc as [Hc|Hc]; discriminate Hc.
Defined.

(** ** A member asks for its token *)

Definition b_worker : Worker := mkWorker "b" "secret" conf_dir demo_dir 0 0 None.

Definition b_body : string := token_request_body "b" "secret".

Lemma b_allowed sst : token_allowed demo_server 0 "" "b" "secret" sst = ((None, demo_server), sst).
Proof. reflexivity. Qed.

Lemma b_granted sst :
  handleMachineToken demo_server 0 (token_http b_body "") sst =
    ((writeJSON (OK [("token", JStr b_token); ("expiresIn", JNum (Itoa (Z.quot hour nanoseconds)))]), demo_server), sst).
Proof.
  apply (token_granted demo_server 0 b_body "" "b" "secret" sst demo_issuer b_token hour).
  - reflexivity.
  - by vm_compute.
  - by apply token_request_read.
  - done.
  - apply b_allowed.
  - reflexivity.
  - exact b_issued.
Qed.

Lemma b_circulates : circulates [b_token] ["b"].
Proof.
  assert (bootstraps demo_server (token_http b_body "") = ["b"]) as Hb.
  { unfold bootstraps, token_http. cbn [HrBody HrAuthorization]. unfold readBodyLimited. rewrite body_text_one.
    rewrite (proj2 (Z.ltb_ge _ _)) by (by vm_compute). cbn [ending].
    unfold b_body. by rewrite token_request_read. }
  pose proof (circ_request [] [] demo_server 0 (token_http b_body "") (demo_st demo_fs) _ _ _ circ_start
                (b_granted _)) as Hc.
  rewrite Hb in Hc. cbn [reply_token] in Hc. apply Hc. intros v raw claims _ Hr. discriminate Hr.
Qed.

(** What the validator of the server makes of the tokens of its issuer. *)
Definition minted (kind subject serverName : string) : string :=
  jwt_text (issued_token demo_issuer 0 kind subject serverName hour) (demo_public, "k1").

Lemma minted_parsed v now kind subject serverName :
  NewValidator key_auth = Ok v -> (whole 0 <= whole now < whole (0 + hour))%Z ->
  kind ∈ [KindClient; KindMachine; KindAdmin] -> (kind = KindMachine <-> serverName <> "") ->
  ParseToken v now (minted kind subject serverName) =
    inr (mkClaims subject kind serverName "issuer" ["audience"] (whole 0) (whole (0 + hour))).
Proof.
  intros Hv Hnow Hk Hn. destruct (NewValidator_built key_auth key_auth_valid key_auth_usable) as (v' & Hv' & Vi & Va & Hb & _).
  rewrite Hv in Hv'. injection Hv' as <-.
  apply (issued_claims v demo_issuer 0 kind subject serverName hour); [|done|done].
  rewrite Vi, Va. eapply (parse_signed demo_private "k1"); try reflexivity; [exact Hb| | |left|exact Hnow].
  - apply NoDup_singleton.
  - unfold key_auth. cbn [Keys map]. unfold entry_of_key, key_bytes, EncodePublicKey. cbn [PublicKey Kid].
    rewrite decode64_encode64. left.
Qed.

Lemma minted_bearer kind subject serverName :
  bearer ("Bearer " +:+ minted kind subject serverName) = inr (minted kind subject serverName).
Proof. apply bearer_token; [done|]. unfold minted, jwt_text. cbn [str_all]. by rewrite bits_graphic. Qed.

Lemma client_unnamed : KindClient = KindMachine <-> "" <> "".
Proof. done. Qed.

Lemma machine_named : KindMachine = KindMachine <-> "b" <> "".
Proof. done. Qed.

Lemma machine_identity_granted_witness :
  circulates [b_token] ["b"] /\ exists v claims, NewValidator key_auth = Ok v /\
    ParseToken v (5 * nanoseconds) b_token = inr claims /\ ClServerName claims ∈ ["b"].
Proof.
  split; [exact b_circulates|].
  destruct (NewValidator_built key_auth key_auth_valid key_auth_usable) as (v & Hv & _).
  assert (KindMachine ∈ [KindClient; KindMachine; KindAdmin]) as Hk by (right; left).
  pose proof (minted_parsed v (5 * nanoseconds) KindMachine "b" "b" Hv ltac:(by split; vm_compute) Hk machine_named) as Hp.
  eexists v, _. split; [exact Hv|]. split; [exact Hp|].
  exact (machine_identity_granted [b_token] ["b"] b_token v (5 * nanoseconds) _ b_circulates ltac:(left) Hp eq_refl).
Defined.

(** The establishment server answers over a network without delay; its clock and
    the worker's agree. *)
Definition direct (now : Z) : EstNet := {|
  est_reply := fun _ r =>
    match r with
    | TokenRequest body authorization =>
        Ok (reply_text (fst (fst (handleMachineToken demo_server now (token_http body authorization) (demo_st demo_fs)))))
    | EstablishRequest _ => Err (errorf "no route to host")
    end;
  wall := fun _ => now; visit := fun A l => l; visit_perm := fun A l => Permutation_refl l |}.

(** A worker with the token of time 0, which expires in an hour. *)
Definition holding : estate := mkEstate (demo_st demo_fs) b_token hour 0 0.

(** What the server signs for [b] at [now]. *)
Definition token_at (now : Z) : string :=
  jwt_text (issued_token demo_issuer now KindMachine "b" "b" hour) (demo_public, "k1").

Lemma b_answered now : answers (H8:=direct now) demo_server now (demo_st demo_fs) b_worker 0 (token_at now) hour.
Proof.
  split.
  - reflexivity.
  - reflexivity.
  - done.
  - done.
  - by intros secret [->| ->]; vm_compute.
  - exists demo_issuer. split; reflexivity.
  - by split; vm_compute.
Qed.

(** Ten seconds before the expiry of its token, and two hours after it. *)
Definition soon : Z := (3590 * nanoseconds)%Z.
Definition later : Z := (3 * hour)%Z.


(** ** Downloads *)

Definition reader_engine : Engine := mkEngine demo_dir "b" demo_cfg None None None.

Definition read_notes : Request :=
  mkRequest "fileRead" "users" "u1" (text_of (JObj [("filename", JStr "notes.txt")])).

Definition middle : HttpRequest := mkHttp "" "application/json" "bytes=1-3" (mkSource [] true None).

Lemma download_exact_witness :
  exists reply entry data st1, fst (handleFileReadCommand reader_engine middle read_notes (demo_st filed_fs)) = reply /\
    RBody reply = FileBody 3 "ell" /\ RStatus reply = 206%Z /\
    OpenFileForDownload reader_engine "users" "u1" "notes.txt" (demo_st filed_fs) = (inr (entry, data), st1) /\
    exists pre post, data = pre +:+ "ell" +:+ post.
Proof.
  destruct (handleFileReadCommand reader_engine middle read_notes (demo_st filed_fs)) as [reply st'] eqn:E.
  assert (RBody reply = FileBody 3 "ell" /\ RStatus reply = 206%Z) as [Hb Hs].
  { change reply with (fst (reply, st')). rewrite <-E. vm_compute. split; reflexivity. }
  destruct (download_exact reader_engine middle read_notes (demo_st filed_fs) reply st' 3 "ell" E Hb)
    as (entry & data & st1 & Ho & Hd). clear E.
  assert (filename_of read_notes = "notes.txt") as En by (vm_compute; reflexivity). rewrite En in Ho.
  change (ReqTarget read_notes) with "users" in Ho. change (ReqParameter read_notes) with "u1" in Ho.
  assert (inr (entry, data) = fst (OpenFileForDownload reader_engine "users" "u1" "notes.txt" (demo_st filed_fs))) as Er
    by (rewrite Ho; reflexivity).
  assert (fst (OpenFileForDownload reader_engine "users" "u1" "notes.txt" (demo_st filed_fs)) = inr (hello_entry, "hello"))
    as Ev by (vm_compute; reflexivity).
  rewrite Ev in Er. injection Er as -> ->.
  exists reply, hello_entry, "hello", st1. split; [reflexivity|]. split; [exact Hb|]. split; [exact Hs|].
  split; [exact Ho|]. destruct Hd as [_ [[Hs' _]|(_ & _ & pre & post & Hd & _)]].
  - split; [discriminate|reflexivity].
  - reflexivity.
  - rewrite Hs in Hs'. discriminate Hs'.
  - exists pre, post. exact Hd.
Defined.

(** ** Configuration by command *)

(** A client that sends the command of an administrator. *)
Definition client_upgrade : HttpRequest :=
  mkHttp ("Bearer " +:+ minted KindClient "ann" "") "application/json" ""
    (mkSource [text_of (JObj [("command", JStr "collectionEnsure"); ("target", JStr "users");
                              ("detail", JObj [("upgrade", add_rating)])])] true None).

Lemma client_kind v claims :
  NewValidator key_auth = Ok v ->
  ParseBearer v (5 * nanoseconds) (HrAuthorization client_upgrade) = inr claims -> ClKind claims = KindClient.
Proof.
  intros Hn. assert (KindClient ∈ [KindClient; KindMachine; KindAdmin]) as Hin by left.
  pose proof (minted_parsed v (5 * nanoseconds) KindClient "ann" "" Hn ltac:(by split; vm_compute) Hin client_unnamed) as Hp. unfold ParseBearer.
  assert (bearer (HrAuthorization client_upgrade) = inr (minted KindClient "ann" "")) as -> by exact (minted_bearer _ _ _).
  rewrite Hp. intros [= <-]. reflexivity.
Qed.

(** The theorem leaves the server no choice but to stay as it is. *)
Lemma config_change_needs_admin_witness :
  exists reply st', withAuth (handleCommand any_ulid quoted "42") demo_server (5 * nanoseconds) client_upgrade conf_st =
    ((reply, demo_server), st').
Proof.
  destruct (withAuth (handleCommand any_ulid quoted "42") demo_server (5 * nanoseconds) client_upgrade conf_st)
    as [[reply s'] st'] eqn:E.
  destruct (config_change_needs_admin any_ulid quoted "42" demo_server (5 * nanoseconds) client_upgrade conf_st reply s' st'
              eq_refl E) as [Hs|[_ (v & claims & Hn & Hp & Hk)]].
  - exists reply, st'. rewrite Hs. reflexivity.
  - rewrite (client_kind v claims Hn Hp) in Hk. discriminate Hk.
Defined.

(** ** A key that cannot be used *)

(** Beside its active key, a retired key of another algorithm. *)
Definition locked_auth : AuthBody :=
  mkAuthBody "issuer" "audience" 3600 3600
    [mkAuthKey "k1" "EdDSA" "active" (EncodePublicKey demo_public); mkAuthKey "k0" "RS256" "retired" "AAAA"].

(** C40: The rules for __auth.json accept a key the validator cannot use, and one
    such key, though retired, closes the cluster: with these keys the configuration is
    valid, and every server answers every authenticated request of every user, the
    administrator's and the other servers' included, with configError. *)
Theorem retired_key_locks_out :
  validateAuth locked_auth = [] /\
  forall (L : JWX) next s now r w, HsLoaded s = true -> Auth (ECfg (HsEngine s)) = locked_auth ->
    exists msg, withAuth (H6:=L) next s now r w = ((refuse [] (mk_err "configError" msg), s), w).
Proof.
  split; [vm_compute; reflexivity|]. intros L next s now r w Hl Ha.
  apply (unusable_key_refuses next s now r w (mkAuthKey "k0" "RS256" "retired" "AAAA")); [done| |done].
  rewrite Ha. right. left.
Qed.
