(* ===== verification/ExamplesCtl.v ===== *)
(** * The administrator's tool at concrete command lines

    Runs of the tool on the configuration directory of [ExamplesAdmin]: changes that
    succeed, are refused or are only tried, and what happens when the lock is held. *)

From S2P Require Import Prelude GoStrings World Shard Json Config Store ConfigLoad ConfigSpec Docjson Replication Concrete.
From S2P Require Import Engine EngineSpec Search SearchStore FileRepl Migrate MigrateSpec EngineRead SchemaPatch Admin AdminSpec Establish EstablishSpec.
From S2P Require Import Auth Ctl CtlSpec ExamplesSearch ExamplesAdmin ExamplesHttp.

(** The establishment server answers every command with [reply]. *)
Definition desk (reply : string) : Operator := {|
  Getenv := fun _ => "";
  resolve := path_of_string;
  op_now := 0%Z;
  atoi_error := fun raw => "strconv.Atoi: parsing " +:+ quoted raw +:+ ": invalid syntax";
  GoQuote := quoted;
  PemDecode := fun _ => None;
  ParsePKCS8PrivateKey := fun _ => Err (errorf "asn1: syntax error");
  http_post := fun _ _ _ => Ok (200%Z, Ok reply);
|}.

#[local] Existing Instances nat_float text_json text_gojson ascii_tables text_jwx.

Definition ctl (E : Env) (reply : string) (words : list string) (s : st) : option Outcome * st :=
  ctl_Run (H:=E) (H4:=desk reply) any_ulid "42" ("--config-dir" :: "/config" :: words) None s.

Definition code_of (r : option Outcome * st) : Z := exit_code (fst r).
Definition errors_of (r : option Outcome * st) : list string :=
  match fst r with Some (mkOutcome (Some e) _ _) => env_codes e | _ => [] end.

(** ** Changes *)

Definition with_c : option Outcome * st := ctl calm "" ["server"; "set"; "c"; "--base-url"; "http://c"] conf_st.

Example server_added :
  code_of with_c = 0%Z /\
  match fst (Load (H:=calm) conf_dir (snd with_c)) with
  | Ok cfg => Version (General cfg) = 2%Z /\ akeys (Servers cfg) = ["a"; "b"; "c"]
  | Err _ => False
  end.
Proof. vm_compute. done. Qed.

(** The server is in use as a source of truth; a new one can be removed again, when
    the operator agrees. *)
Example removal_refused : errors_of (ctl calm "" ["server"; "remove"; "a"; "--yes"] conf_st) = ["serverStillReferenced"].
Proof. vm_compute. done. Qed.

Example removal_unconfirmed :
  errors_of (ctl calm "" ["server"; "remove"; "c"] (snd with_c)) = ["cancelled"] /\
  code_of (ctl calm "" ["server"; "remove"; "c"; "--yes"] (snd with_c)) = 0%Z.
Proof. vm_compute. done. Qed.

Example last_key_kept :
  errors_of (ctl calm "" ["auth"; "key"; "retire"; "k1"] conf_st) = ["noActiveSigningKey"].
Proof. vm_compute. done. Qed.

Example tried_only :
  code_of (ctl calm "" ["general"; "set"; "--name"; "other"; "--dry-run"] conf_st) = 3%Z.
Proof. vm_compute. done. Qed.

(** A change that changes nothing still moves the version. *)
Theorem idle_change_bumps :
  code_of (ctl calm "" ["general"; "set"; "--nmae"; "other"] conf_st) = 0%Z /\
  match fst (Load (H:=calm) conf_dir (snd (ctl calm "" ["general"; "set"; "--nmae"; "other"] conf_st))) with
  | Ok cfg => General cfg = with_version conf_general 2
  | Err _ => False
  end.
Proof. vm_compute. done. Qed.

(** ** The lock *)

Definition locked_st : st := demo_st (<[".datoriumctl.lock" :: conf_dir := File "41"]> conf_fs).

Definition lock_reply : string :=
  text_of (JObj [("ok", JBool false); ("command", JStr "searchDelete");
                 ("errors", JArr [JObj [("code", JStr "configLockHeld"); ("message", JStr "config lock already held")]])]).

Definition remote : list string := ["--establishment-url"; "http://a"; "--admin-token"; "t"].

(** A held lock is a runtime failure when the tool finds it and a refused input when
    the establishment server does. *)
Theorem held_lock_codes :
  errors_of (ctl calm "" ["server"; "set"; "c"; "--base-url"; "http://c"] locked_st) = ["configLockHeld"] /\
  code_of (ctl calm "" ["server"; "set"; "c"; "--base-url"; "http://c"] locked_st) = ExitRuntime /\
  errors_of (ctl calm lock_reply (["search"; "delete"; "users"; "byName"] ++ remote) conf_st) = ["configLockHeld"] /\
  code_of (ctl calm lock_reply (["search"; "delete"; "users"; "byName"] ++ remote) conf_st) = ExitValidation.
Proof. vm_compute. done. Qed.

(** ** Collections *)

Definition with_schema_file : st :=
  demo_st (<[["users.json"] := File (text_of name_schema)]> conf_fs).

(** The request the establishment server would take for done is not sent, and the
    refusal does not name its command. *)
Theorem repeated_create_refused :
  errors_of (ctl calm "" (["collection"; "create"; "users"; "/users.json"] ++ remote) with_schema_file) =
    ["collectionAlreadyExists"] /\
  (match fst (ctl calm "" (["collection"; "create"; "users"; "/users.json"] ++ remote) with_schema_file) with
   | Some (mkOutcome (Some e) _ _) => aget e "command"
   | _ => None
   end) = None /\
  CrChanged (fst (fst (EnsureCollection (H:=calm) any_ulid quoted "42" conf_dir demo_dir "users" (text_of name_schema) "" conf_st))) = false /\
  snd (fst (EnsureCollection (H:=calm) any_ulid quoted "42" conf_dir demo_dir "users" (text_of name_schema) "" conf_st)) = [].
Proof. vm_compute. done. Qed.
