(* ===== verification/ExamplesOps.v ===== *)
(** * Operations at concrete inputs *)

From S2P Require Import Prelude GoStrings World Shard Json Config Store Replication Concrete Examples.
From S2P Require Import Operation OperationSpec.

Definition fixed_clock : Clock := {|
  now := fun _ => "2026-01-01T00:00:00Z"; read_time := fun t => Some t |}.

#[local] Existing Instances text_json text_gojson fixed_clock.

(** Server b has answered an operation on u1, server c has not. *)
Definition half_done : Operation :=
  mkOperation "op1" (mkItem "users" "u1" "" "v0" "op1" "delete" [] "") StateReplicating
    (Some ["b"; "c"]) (Some ["b"]) None "2026-01-01T00:00:00Z" "2026-01-01T00:00:00Z".

Definition demo_coordinator : Coordinator := mkCoordinator "a" demo_dir (Some demo_cfg) 500.

Definition retried : (Operation * result (option json)) * st :=
  ReplicateOperation (H:=calm) (H2:=silent) demo_coordinator half_done (Some ["b"; "c"]) (demo_st demo_fs1).

Lemma ReplicateOperation_truthful_witness :
  is_ok (snd (fst retried)) = true /\
  attempt (H1:=silent) demo_coordinator half_done ["b"; "c"] demo_fs1 (fst (fst retried)) (snd (fst retried))
    (st_fs (snd retried)).
Proof.
  split; [vm_compute; reflexivity|].
  pose proof (ReplicateOperation_truthful (E:=calm) (H1:=silent) demo_coordinator half_done (Some ["b"; "c"])
    (demo_st demo_fs1) eq_refl eq_refl eq_refl ltac:(by repeat constructor)) as Hp.
  unfold wp in Hp. unfold retried. destruct (ReplicateOperation _ _ _ _) as [p s']. exact Hp.
Defined.
